(* ===== verification/_CoqProject ===== *)
-Q . S2P
Prelude.v
Machine.v
Bindings.v
Cert.v
AltDACommitment.v
RlpInstance.v
CommitmentTheory.v
Errors.v
EncodedPayload.v
EncodedPayloadTheory.v
PreimageSource.v
Oracle.v
Canoe.v
Witness.v
CanoeHost.v
Preloaded.v
Host.v
DataSource.v
DerivationTheory.v
Liveness.v
Replay.v
Client.v
Simulation.v
Srs.v
BuildTools.v
HostTheory.v
Kzg.v
Primality.v
FieldTheory.v
KzgTheory.v
KzgBatch.v
PolyRoots.v
KzgInstance.v
KzgProperties.v
HostWitnesses.v
HostLiveness.v
CanoeTheory.v
CanoeHostTheory.v
SteelHostTheory.v
SepoliaExample.v
CanoeWitnesses.v
CanoeHostWitnesses.v
WitnessTheory.v
PayloadBinding.v
ProverTheory.v
Recording.v
ZkvmTheory.v
Agreement.v
HostServer.v
HostServerTheory.v
ClientWitnesses.v
ProverWitnesses.v
UnitTests.v
UnitTestRuns.v
ParityTests.v
ParityRuns.v
