(* ===== verification/Prelude.v ===== *)
(** * Hokulea verification library

    Hokulea derives rollup payloads from EigenDA for an OP stack rollup.  L1 calldata
    may hold an "AltDA commitment", which carries an EigenDA certificate.  For each one
    the derivation asks a provider whether the certificate is valid, checks that it is
    recent, asks for the encoded payload (a sequence of field elements) and decodes it.
    The same derivation runs in three places: in a fault proof VM over a preimage oracle
    that a host fills from an EigenDA proxy; while a witness is recorded; and in a zkVM
    over that witness, whose validities are proved by a contract call ("canoe") and whose
    payloads are proved by KZG openings.  This library models these parts and proves that
    they do what they promise to each other.

    ** The files, in order

    - [Prelude]: [result] (Rust's [Result]), [outcome] (a value or a panic), the state
      monad [M], loops over them, the tactics [vm_decide] and the hint database [hok].
    - [Machine]: bytes, big- and little-endian integers, [wrapping_add], slices.
    - [Bindings] (canoe/bindings: Solidity structs, in Module [Sol]), [Cert]
      (crates/eigenda-cert: the three certificate versions, their conversion to Solidity
      and well-formedness, i.e. integers within their Rust widths), [AltDACommitment]
      (altda_commitment.rs: [try_from], [to_rlp_bytes], [to_digest], accessors; alloy's
      RLP and keccak256 are the class [Alloy] with [AlloyLaws]), [RlpInstance] (an RLP
      codec that satisfies these laws, used by witnesses), [CommitmentTheory].
    - [Errors], [EncodedPayload] (crates/eigenda: errors.rs, constant.rs,
      eigenda_data.rs; the decoder, and the encoder [encode_v0] as its specification),
      [EncodedPayloadTheory].
    - [PreimageSource] (traits.rs, eigenda_preimage.rs, test_utils.rs: the provider
      trait is the class [EigenDAPreimageProvider]; [FaithfulProvider] is what it
      promises about a [DAWorld], [AnswersAt] the part that [next] uses at one block; the
      recency check; [PreimageSource.next]),
      [DataSource] (eigenda.rs: [DataSource.next] and [clear] over kona's
      [EthereumDataSource]; [load] and [resolve] are the two halves of one round, and
      the specification of a whole call), [DerivationTheory], [Liveness] (the rounds of a
      call as a step relation, and the pipeline that calls [next] until a block ends).
    - [Oracle] (crates/proof: hint.rs, errors.rs, eigenda_provider.rs; Module
      [OracleProvider]), [Host] (bin/host: the proxy client with its cache, the status
      codes, the hint handler and the key-value store), [HostTheory], and [HostLiveness]
      (the derivation over the host).
    - [Canoe] (canoe/verifier, provider, verifier-address-fetcher and registry; Module
      [Sp1CC] for sp1-contract-call and Module [SteelCC] for steel, each with its guest
      program and its verifier), [CanoeTheory]; [CanoeHost] (the provers: sp1-cc/host and
      steel/apps, Modules [Sp1Host] and [SteelHost]), [CanoeHostTheory] and
      [SteelHostTheory]; [SepoliaExample] (example/canoe-on-sepolia).
    - [Witness] (eigenda_witness.rs and crates/witgen; Module [Recorder]), [Preloaded]
      (preloaded_eigenda_provider.rs: [from_witness], Module [Preloaded] and the [ark]
      backend), [Replay] (that a recorded run can be replayed), [Client] (crates/client,
      zkvm-verification and compute-proof), [Simulation] (providers that answer alike give
      the same run of the client), [Srs] (compute-proof's build.rs and the SRS that
      it embeds), [BuildTools] (canoe: the build script of the steel guest, Module
      [SteelBuild], and the tool that prints a verification key, Module [VkeyBin]),
      [WitnessTheory], [PayloadBinding] (an accepted payload is the one that was
      committed), [Recording] (recording changes nothing and keeps the record's shape),
      [ZkvmTheory] (a made witness in the zkVM) and [Agreement] (what the zkVM accepts is
      what a truthful provider gives).
    - [HostServer] (bin/host: cfg.rs and lib.rs, bin/client, example/preloader: the
      choice of the backend, the joined tasks and the exit codes), [HostServerTheory].
    - [Kzg] (crates/sp1-bn-verifier: helpers.rs, batch.rs and the roots of unity),
      [FieldTheory], [KzgTheory] and [KzgBatch] (evaluation and batching over the laws
      [FrLaws] and [CurveLaws]), [PolyRoots] (a polynomial with coefficients in a module
      over the field, the class [FrModule], has few roots; [interpolant]), [Primality]
      (Pocklington's criterion), [KzgInstance] (integers modulo the scalar order, which is
      proved prime, as a model of the laws, Module [Exponents]), [KzgProperties],
      [ProverTheory] (compute-proof against the verifier, over the laws [KzgProverLaws] of
      rust-kzg-bn254's prover).
    - [HostWitnesses], [CanoeWitnesses], [CanoeHostWitnesses], [ClientWitnesses],
      [ProverWitnesses]: concrete instances of the interfaces, and the properties applied
      to them.  The other witnesses stand at the end of the file of their property.
    - [UnitTests] (the crates' test modules as programs, a Module for each) and
      [UnitTestRuns] (their runs, and the law of the test encoder); [ParityTests]
      (sp1-bn-verifier/tests/parity.rs, and Module [CommitmentToAbi] for the example of
      eigenda-cert) and [ParityRuns] (runs over a reference that checks single openings).

    ** State and errors

    A Rust [Result] is a [result], and an [assert!], [expect], [unwrap] or index out of
    range that can occur is [Panic].  A method of [&mut self] is a function of type
    [M S A := S -> outcome (A * S)]; a struct that owns another lifts the inner method
    with [zoom].  An [async] method is the sequence of its calls.  Traits are classes,
    and what a client may rely on are further classes of laws.  Logging is left out.

    ** What the theorems show

    - Derivation: a call of [next] answers as the specification says, or passes on an
      error of the L1 source or a temporary one of the provider; two derivations over faithful providers agree; [next]
      terminates; validity and recency decide what is discarded (the window is exact).
      Over sources that fail finitely often, a block's pipeline delivers exactly the
      payloads that the specification has for the block.
    - Commitments and payloads: parsing and printing, the meaning of each error, digests
      bind; [decode] accepts exactly the encodings of version 0, is not malleable, and
      all chunks it accepts are canonical field elements.
    - Host and client: what the handler stores is what the client reads, over the class
      [OnlineHost] of kona's online host: a certificate's hint is remembered when it is
      written (cfg.rs makes only one hint proactive), the handler runs for the last hint
      when a key is read that is not stored, and again after every error (handler.rs), so
      a key that the handler does not store is never read; addresses of different
      preimages differ; the proxy is asked once; responses have one meaning.  Over a
      network, a store and a channel that fail finitely often ([HostEnvironment]), a block
      is derived completely.
    - Witness and zkVM: witnesses hold what they were made of, the preloaded provider
      replays a recorded run with the same result if no request failed, and [from_witness] lets through only
      validities that the contract gives and payloads that pass the KZG verifier: they
      have the field elements of the blob that the certificate commits to, except for a
      few unlucky challenges or a proof that solves the strong Diffie-Hellman problem.  So
      a claim that the zkVM accepts is accepted by the client over any truthful provider,
      with the same exceptions, a hash collision, and field elements that are not reduced
      and pass the verifier's check of their range.
      Recording a derivation does not change it, and keeps the record consistent.
    - Canoe: an accepted proof means that each claim agrees with a contract call at the
      claimed block; prover inputs and verifier claims give the same journals, exactly if
      the prover's fork at the L1 head is one that the verifier has or allows; what the
      provers hand to the guests is accepted by them, and what they return by the
      verifiers, on the chains that these support ([CanoeSteelVerifier] refuses the devnet,
      the sp1 verifier every chain without an rsp genesis, Holesky among them).
    - KZG: the root of unity domain; a blob has one interpolating polynomial, and the
      barycentric formula computes its value at every point; the exact meaning of
      [batch_verify]; batching is sound up to fewer challenges than there are blobs; what
      the challenge binds.  Honest proofs are accepted unless a point is at infinity, as it
      is for a blob of equal field elements, which therefore cannot be proved.
    - Client: [run_fp_client] accepts only agreed or derived output roots.
    - Binaries: which backend a host serves; a preloader that ends with exit code 0 has
      seen a run of the client that ends with exit code 0.
    - Tests: every unit test that needs no KZG prover holds of the model, and the tests
      that expect a panic of the preloaded provider get it from their set-up.

    ** Recursion and bounds

    [DataSource.next] calls itself after a certificate that it discards; the model has
    fuel, and [data_source_next_terminates] gives a bound (two more than the pending L1
    items) from which on the fuel changes nothing.  The expansion of the roots of unity
    is a loop of at most 2^28 steps, run by [iter_until], and shown to end at the order
    of the root.  [encode_with] and all other loops are structural.  Machine integers
    are [Z] with their wrap-around written out ([wrapping_add 64] in the recency check);
    a [usize] holds 64 bits.  The unit tests that call [next] run with fuel 8, which is
    more than their pending items need.

    ** Assumptions

    Alloy (RLP, keccak256), kona (oracle channel, pipeline errors, driver, boot info),
    reqwest, the key-value store, the proof systems sp1 and risc0, reth's chain
    specifications, substrate-bn, rust-kzg-bn254 and SHA-256 are parameters.  Their laws
    are documented behaviour: codecs round-trip, a verified proof comes from a run of
    the guest program, the field and the groups are what they are called, sp1-cc commits
    the fork that it has active, a block hash determines the timestamp of its header.  That
    kona's online host retries for ever, and fetches hints lazily, is taken from the
    comments of bin/host; that the proxy is no stricter about recency than the derivation
    is a hypothesis (the request names no inclusion block).  Hash functions
    are not assumed injective: theorems name the two inputs that would collide, and
    [collision_free] is about the finitely many addresses that a theorem considers.
    An [Arc]ed oracle is modelled as a copy of its state, which is the same as long as
    replies depend on the key only.  That the scalar field has inverses is a law; for the
    instance of the laws it is proved from the primality of the order.  The list of the
    trusted setup, where a theorem has one, holds the multiples of the generator by the
    powers of its secret.  Nothing is assumed of what [Fr::from_slice] does with values
    above the order.  kona's driver is a tree of calls on the data source: what it asks next
    may depend on the answers it got and on nothing else.

    ** Not modelled

    Command line parsing and logging; kona_host's servers, channels and files, which are
    interfaces ([KonaHost], [HostGlue]); the main function of the example on Sepolia, which
    does not compile; the devnet chain specification test, which only calls reth; the
    serialisation of witnesses by rkyv and serde. *)

From stdpp Require Export base tactics list numbers strings pretty gmap.
From Stdlib Require Export ZArith Lia.
From Stdlib Require Import Strings.Byte.

Create HintDb hok.
Declare Scope hok_scope.
Delimit Scope hok_scope with hok.
Open Scope hok_scope.

(** ** Results and panics

    [result E A] is Rust's [Result<A, E>].  [outcome A] is what a call leaves
    behind: a value, or a panic (an [assert!], an [expect] or an explicit
    [panic!], which abort the program in both the fault proof VM and the zkVM). *)

Inductive result (E A : Type) : Type :=
| Ok (a : A)
| Err (e : E).
Arguments Ok {E A} a.
Arguments Err {E A} e.

Inductive outcome (A : Type) : Type :=
| Done (a : A)
| Panic.
Arguments Done {A} a.
Arguments Panic {A}.

#[export] Instance result_eq_dec E A `{EqDecision E, EqDecision A} :
  EqDecision (result E A).
Proof. solve_decision. Defined.

#[export] Instance outcome_eq_dec A `{EqDecision A} : EqDecision (outcome A).
Proof. solve_decision. Defined.

#[export] Instance Ok_inj E A : Inj (=) (=) (@Ok E A).
Proof. by intros ?? [=]. Qed.
#[export] Instance Err_inj E A : Inj (=) (=) (@Err E A).
Proof. by intros ?? [=]. Qed.
#[export] Instance Done_inj A : Inj (=) (=) (@Done A).
Proof. by intros ?? [=]. Qed.

#[export] Instance result_ret E : MRet (result E) := λ A a, Ok a.
#[export] Instance result_bind E : MBind (result E) := λ A B f r,
  match r with Ok a => f a | Err e => Err e end.
#[export] Instance outcome_ret : MRet outcome := λ A a, Done a.
#[export] Instance outcome_bind : MBind outcome := λ A B f r,
  match r with Done a => f a | Panic => Panic end.

(** [Result::map_err], and [Result::expect]/[unwrap], which panics on [Err]. *)
Definition map_err {E E' A} (f : E → E') (r : result E A) : result E' A :=
  match r with Ok a => Ok a | Err e => Err (f e) end.
Definition expect {E A} (r : result E A) : outcome A :=
  match r with Ok a => Done a | Err _ => Panic end.
Definition is_ok {E A} (r : result E A) : bool :=
  match r with Ok _ => true | Err _ => false end.
(** [assert!(b)]. *)
(** [expect] and [unwrap] of an [Option] *)
Definition opt_expect {A} (o : option A) : outcome A :=
  match o with Some a => Done a | None => Panic end.
Definition assert (b : bool) : outcome unit := if b then Done tt else Panic.

(** ** State passing

    A method taking [&mut self] is a function from the state of [self] to an
    outcome that carries the new state. *)

Definition M (S A : Type) : Type := S → outcome (A * S).

#[export] Instance M_ret S : MRet (M S) := λ A a s, Done (a, s).
#[export] Instance M_bind S : MBind (M S) := λ A B f m s,
  match m s with Done (a, s') => f a s' | Panic => Panic end.

Definition get {S} : M S S := λ s, Done (s, s).
Definition put {S} (s : S) : M S unit := λ _, Done (tt, s).
Definition modify {S} (f : S → S) : M S unit := λ s, Done (tt, f s).
Definition panic {S A} : M S A := λ _, Panic.
Definition lift {S A} (o : outcome A) : M S A := λ s,
  match o with Done a => Done (a, s) | Panic => Panic end.
(** A call on a field of [self]. *)
Definition zoom {S T A} (proj : S → T) (upd : T → S → S) (m : M T A) : M S A := λ s,
  match m (proj s) with Done (a, t) => Done (a, upd t s) | Panic => Panic end.
(** [m?]: return early when [m] gives an error. *)
Definition try_bind {S E A B} (m : M S (result E A)) (f : A → M S (result E B)) :
    M S (result E B) := λ s,
  match m s with
  | Done (Ok a, s') => f a s'
  | Done (Err e, s') => Done (Err e, s')
  | Panic => Panic
  end.

Notation "x ←? m ; k" := (try_bind m (λ x, k))
  (at level 20, m at level 100, k at level 200, right associativity,
   format "x  ←?  m ;  '/' k") : hok_scope.

(** Evaluate a decidable closed proposition. *)
Ltac vm_decide := apply (bool_decide_unpack _); vm_compute; exact I.

Section monad_laws.
Context {S A B C : Type}.
Lemma M_bind_ret (a : A) (f : A → M S B) s : (mret a ≫= f) s = f a s.
Proof. reflexivity. Qed.
Lemma M_bind_assoc (m : M S A) (f : A → M S B) (g : B → M S C) s :
  ((m ≫= f) ≫= g) s = (m ≫= (λ a, f a ≫= g)) s.
Proof. unfold mbind, M_bind. by destruct (m s) as [[]|]. Qed.
Lemma M_bind_done (m : M S A) (f : A → M S B) s a s' :
  m s = Done (a, s') → (m ≫= f) s = f a s'.
Proof. unfold mbind, M_bind. by intros ->. Qed.
End monad_laws.

Lemma M_bind_Done_inv {S A B} (m : M S A) (f : A → M S B) s b s' :
  (m ≫= f) s = Done (b, s') →
  ∃ a s1, m s = Done (a, s1) ∧ f a s1 = Done (b, s').
Proof. unfold mbind, M_bind. destruct (m s) as [[a s1]|]; [eauto|done]. Qed.

Lemma try_bind_Done_inv {St X B C} (m : M St (result X B)) (f : B → M St (result X C)) st r st' :
  try_bind m f st = Done (r, st') →
  (∃ e, m st = Done (Err e, st') ∧ r = Err e) ∨
  ∃ b st1, m st = Done (Ok b, st1) ∧ f b st1 = Done (r, st').
Proof.
  unfold try_bind. destruct (m st) as [[[b|e] st1]|]; [|intros [= <- <-]|done]; [right|left]; eauto.
Qed.

Lemma try_bind_Ok_inv {St X B C} (m : M St (result X B)) (f : B → M St (result X C)) st c st' :
  try_bind m f st = Done (Ok c, st') → ∃ b st1, m st = Done (Ok b, st1) ∧ f b st1 = Done (Ok c, st').
Proof. by intros [(? & _ & [=])|?]%try_bind_Done_inv. Qed.

Lemma lift_bind_Done_inv {St A B} (o : outcome A) (f : A → M St B) st b st' :
  (lift o ≫= f) st = Done (b, st') → ∃ a, o = Done a ∧ f a st = Done (b, st').
Proof. unfold mbind, M_bind, lift. destruct o as [a|]; [|done]. by exists a. Qed.

Lemma outcome_bind_Done_inv {A B} (m : outcome A) (f : A → outcome B) b :
  m ≫= f = Done b → ∃ a, m = Done a ∧ f a = Done b.
Proof. destruct m; [eauto|done]. Qed.

Lemma bind_assert_Done {A} b (m : outcome A) a :
  (_ ← assert b; m) = Done a → b = true ∧ m = Done a.
Proof. by destruct b. Qed.

Lemma expect_Done {E A} (r : result E A) a : expect r = Done a → r = Ok a.
Proof. destruct r; [by intros [= ->]|done]. Qed.

Lemma opt_expect_Done {A} (o : option A) a : opt_expect o = Done a → o = Some a.
Proof. destruct o; [by intros [= ->]|done]. Qed.

Lemma result_bind_Ok_inv {E A B} (m : result E A) (f : A → result E B) b :
  m ≫= f = Ok b → ∃ a, m = Ok a ∧ f a = Ok b.
Proof. destruct m; [eauto|done]. Qed.

Lemma result_bind_Err_inv {E A B} (m : result E A) (f : A → result E B) e :
  m ≫= f = Err e → m = Err e ∨ ∃ a, m = Ok a ∧ f a = Err e.
Proof. destruct m as [a|e']; [by right; exists a|]. intros [= <-]. by left. Qed.

Lemma Ok_bind {E A B} (a : A) (f : A → result E B) : Ok a ≫= f = f a.
Proof. reflexivity. Qed.
Lemma Done_bind {A B} (a : A) (f : A → outcome B) : Done a ≫= f = f a.
Proof. reflexivity. Qed.

Lemma assert_Done b u : assert b = Done u ↔ b = true.
Proof. destruct b, u; simpl; split; done. Qed.

(** ** Loops over lists

    [for] loops with early exit are monadic folds or maps. *)

Fixpoint mapM_result {E A B} (f : A → result E B) (l : list A) : result E (list B) :=
  match l with
  | [] => Ok []
  | a :: l => b ← f a; bs ← mapM_result f l; Ok (b :: bs)
  end.

Fixpoint mapM_outcome {A B} (f : A → outcome B) (l : list A) : outcome (list B) :=
  match l with
  | [] => Done []
  | a :: l => b ← f a; bs ← mapM_outcome f l; Done (b :: bs)
  end.

Fixpoint forM_outcome {A} (f : A → outcome unit) (l : list A) : outcome unit :=
  match l with [] => Done tt | a :: l => _ ← f a; forM_outcome f l end.

Lemma mapM_result_Ok {E A B} (f : A → result E B) l k :
  mapM_result f l = Ok k ↔ Forall2 (λ a b, f a = Ok b) l k.
Proof.
  revert k; induction l as [|a l IH]; intros k; simpl.
  - split; [by intros [= <-]|by inversion 1].
  - split.
    + intros (b & ? & (bs & Hbs & [= <-])%result_bind_Ok_inv)%result_bind_Ok_inv.
      constructor; [done|by apply IH].
    + inversion 1 as [|???? Hb Hl]; subst. rewrite Hb; simpl.
      by apply IH in Hl as ->.
Qed.

Lemma Forall_or_all {A} (P : Prop) (Q : A → Prop) l : Forall (λ a, P ∨ Q a) l → P ∨ Forall Q l.
Proof. induction 1 as [|a l [|Ha] _ [|IH]]; eauto. Qed.

Lemma mapM_outcome_Done {A B} (f : A → outcome B) l k :
  mapM_outcome f l = Done k ↔ Forall2 (λ a b, f a = Done b) l k.
Proof.
  revert k; induction l as [|a l IH]; intros k; simpl.
  - split; [by intros [= <-]|by inversion 1].
  - split.
    + intros (b & ? & (bs & Hbs & [= <-])%outcome_bind_Done_inv)%outcome_bind_Done_inv.
      constructor; [done|by apply IH].
    + inversion 1 as [|???? Hb Hl]; subst. rewrite Hb; simpl.
      by apply IH in Hl as ->.
Qed.

Lemma forM_outcome_Done {A} (f : A → outcome unit) l u :
  forM_outcome f l = Done u ↔ Forall (λ a, f a = Done tt) l.
Proof.
  destruct u. induction l as [|a l IH]; simpl; [by split|].
  rewrite Forall_cons, <-IH. destruct (f a) as [[]|]; simpl; [tauto|].
  by split; [|intros []].
Qed.

Lemma Forall2_join {A B C} (P : A → C → Prop) (Q : B → C → Prop) l1 l2 k :
  Forall2 P l1 k → Forall2 Q l2 k → Forall2 (λ a b, ∃ c, P a c ∧ Q b c) l1 l2.
Proof.
  intros HP. revert l2. induction HP as [|a c l1 k Ha _ IH]; intros l2; inversion 1; subst;
    constructor; eauto.
Qed.

Lemma Forall2_iff {A B} (P Q : A → B → Prop) l k :
  (∀ a b, P a b ↔ Q a b) → Forall2 P l k ↔ Forall2 Q l k.
Proof. intros HPQ. split; intros HF; (eapply Forall2_impl; [exact HF|]); intros; by apply HPQ. Qed.

(** ** Results of calls that can also panic *)

(** [m?] where [m] can panic. *)
Definition or_bind {E A B} (m : outcome (result E A)) (f : A → outcome (result E B)) :
    outcome (result E B) :=
  match m with
  | Done (Ok a) => f a
  | Done (Err e) => Done (Err e)
  | Panic => Panic
  end.
Notation "x ←! m ; k" := (or_bind m (λ x, k))
  (at level 20, m at level 100, k at level 200, right associativity,
   format "x  ←!  m ;  '/' k") : hok_scope.

Fixpoint mapM_or {E A B} (f : A → outcome (result E B)) (l : list A) : outcome (result E (list B)) :=
  match l with
  | [] => Done (Ok [])
  | a :: l => b ←! f a; bs ←! mapM_or f l; Done (Ok (b :: bs))
  end.

Lemma or_bind_Ok_inv {E A B} (m : outcome (result E A)) (f : A → outcome (result E B)) b :
  or_bind m f = Done (Ok b) → ∃ a, m = Done (Ok a) ∧ f a = Done (Ok b).
Proof. destruct m as [[a|e]|]; simpl; [eauto|done|done]. Qed.

Lemma mapM_or_Ok {E A B} (f : A → outcome (result E B)) l k :
  mapM_or f l = Done (Ok k) ↔ Forall2 (λ a b, f a = Done (Ok b)) l k.
Proof.
  revert k; induction l as [|a l IH]; intros k; simpl.
  - split; [by intros [= <-]|by inversion 1].
  - split.
    + intros (b & ? & (bs & Hbs & [= <-])%or_bind_Ok_inv)%or_bind_Ok_inv.
      constructor; [done|by apply IH].
    + inversion 1 as [|???? Hb Hl]; subst. rewrite Hb; simpl. by apply IH in Hl as ->.
Qed.

(** ** Bounded iteration

    [iter_until p f a] runs [f] at most [p] times and stops at the first [inr];
    [p] is binary so that large bounds of [while] loops stay executable. *)

Fixpoint iter_until {A B} (p : positive) (f : A → A + B) (a : A) : A + B :=
  match p with
  | xH => f a
  | xO p => match iter_until p f a with inl a => iter_until p f a | inr b => inr b end
  | xI p =>
      match f a with
      | inl a => match iter_until p f a with inl a => iter_until p f a | inr b => inr b end
      | inr b => inr b
      end
  end.

Fixpoint iter_until_nat {A B} (n : nat) (f : A → A + B) (a : A) : A + B :=
  match n with
  | O => inl a
  | S n => match f a with inl a => iter_until_nat n f a | inr b => inr b end
  end.

Lemma iter_until_nat_add {A B} n m (f : A → A + B) a :
  iter_until_nat (n + m) f a =
  match iter_until_nat n f a with inl a => iter_until_nat m f a | inr b => inr b end.
Proof.
  revert a. induction n as [|n IH]; intros a; simpl; [done|]. destruct (f a); [apply IH|done].
Qed.

Lemma iter_until_nat_spec {A B} p (f : A → A + B) a :
  iter_until p f a = iter_until_nat (Pos.to_nat p) f a.
Proof.
  assert (Hdouble : ∀ p a, (∀ a, iter_until p f a = iter_until_nat (Pos.to_nat p) f a) →
    match iter_until p f a with inl a => iter_until p f a | inr b => inr b end =
    iter_until_nat (2 * Pos.to_nat p) f a).
  { intros p' a' IH. replace (2 * Pos.to_nat p')%nat with (Pos.to_nat p' + Pos.to_nat p')%nat by lia.
    rewrite iter_until_nat_add, IH. by destruct (iter_until_nat _ f a'). }
  revert a. induction p as [p IH|p IH|]; intros a; cbn [iter_until].
  - rewrite Pos2Nat.inj_xI. cbn [iter_until_nat]. destruct (f a); [by apply Hdouble|done].
  - rewrite Pos2Nat.inj_xO. by apply Hdouble.
  - simpl. by destruct (f a).
Qed.
