(* ===== verification/Machine.v ===== *)
(** * Machine integers, bytes and byte strings

    Rust's fixed-width unsigned integers are [Z] with a range test; [u8] is
    [Byte.byte].  The conversions ([as u8], [to_be_bytes], [from_be_bytes]) are
    written out, with their round trips. *)

From S2P Require Export Prelude.
From Stdlib Require Export Strings.Byte.

Open Scope Z_scope.

(** ** Ranges *)

Definition uint_ok (w z : Z) : bool := bool_decide (0 ≤ z) && bool_decide (z < 2 ^ w).
Definition u16_ok := uint_ok 16.
Definition u32_ok := uint_ok 32.
Definition u64_ok := uint_ok 64.
Definition u256_ok := uint_ok 256.

Lemma uint_ok_spec w z : uint_ok w z = true ↔ 0 ≤ z < 2 ^ w.
Proof. unfold uint_ok. rewrite andb_true_iff, !bool_decide_eq_true. lia. Qed.

Lemma uint_ok_weaken w w' z : 0 ≤ w ≤ w' → uint_ok w z = true → uint_ok w' z = true.
Proof.
  intros Hw. rewrite !uint_ok_spec. intros [? ?]. split; [done|].
  apply Z.lt_le_trans with (2 ^ w); [done|]. apply Z.pow_le_mono_r; lia.
Qed.

(** Unsigned addition: it wraps in a release build and panics in a build with
    overflow checks; both are given so that theorems can cover either. *)
Definition wrapping_add (w a b : Z) : Z := (a + b) mod 2 ^ w.
Definition checked_add (w a b : Z) : option Z :=
  if uint_ok w (a + b) then Some (a + b) else None.

Lemma wrapping_add_small w a b : 0 ≤ a + b < 2 ^ w → wrapping_add w a b = a + b.
Proof. intros. unfold wrapping_add. by rewrite Z.mod_small. Qed.

(** ** Bytes *)

#[export] Instance byte_eq_dec : EqDecision byte := Byte.byte_eq_dec.
#[export] Instance byte_countable : Countable byte.
Proof.
  refine (inj_countable Byte.to_N Byte.of_N _). apply Byte.of_to_N.
Defined.
#[export] Instance byte_inhabited : Inhabited byte := populate x00.

Definition u8_to_Z (b : byte) : Z := Z.of_N (Byte.to_N b).
(** [z as u8] *)
Definition Z_to_u8 (z : Z) : byte := default x00 (Byte.of_N (Z.to_N (Z.land z 255))).

Lemma land_255 z : Z.land z 255 = z mod 256.
Proof. exact (Z.land_ones z 8 ltac:(lia)). Qed.
Lemma shiftr_8 z : Z.shiftr z 8 = z / 256.
Proof. exact (Z.shiftr_div_pow2 z 8 ltac:(lia)). Qed.

Lemma u8_range b : 0 ≤ u8_to_Z b < 256.
Proof. unfold u8_to_Z. pose proof (Byte.to_N_bounded b). lia. Qed.

Lemma u8_to_Z_to_u8 b : Z_to_u8 (u8_to_Z b) = b.
Proof.
  unfold Z_to_u8. rewrite land_255, Z.mod_small by apply u8_range.
  unfold u8_to_Z. by rewrite N2Z.id, Byte.of_to_N.
Qed.

Lemma Z_to_u8_to_Z z : u8_to_Z (Z_to_u8 z) = z mod 256.
Proof.
  unfold Z_to_u8, u8_to_Z. rewrite land_255. pose proof (Z.mod_pos_bound z 256 ltac:(lia)).
  destruct (Byte.of_N _) as [b|] eqn:Hb; simpl.
  - apply Byte.to_of_N in Hb. rewrite Hb. lia.
  - apply Byte.of_N_None_iff in Hb. lia.
Qed.

#[export] Instance u8_to_Z_inj : Inj (=) (=) u8_to_Z.
Proof. intros a b H. by rewrite <-(u8_to_Z_to_u8 a), H, u8_to_Z_to_u8. Qed.

(** ** Big-endian byte strings *)

Fixpoint to_le_bytes (n : nat) (z : Z) : list byte :=
  match n with O => [] | S n => Z_to_u8 z :: to_le_bytes n (Z.shiftr z 8) end.
Definition to_be_bytes (n : nat) (z : Z) : list byte := rev (to_le_bytes n z).

Fixpoint from_le_bytes (bs : list byte) : Z :=
  match bs with [] => 0 | b :: bs => u8_to_Z b + 256 * from_le_bytes bs end.
Definition from_be_bytes (bs : list byte) : Z := from_le_bytes (rev bs).

Lemma length_to_le_bytes n z : length (to_le_bytes n z) = n.
Proof. revert z; induction n; intros; simpl; auto. Qed.

Lemma length_to_be_bytes n z : length (to_be_bytes n z) = n.
Proof. unfold to_be_bytes. by rewrite length_rev, length_to_le_bytes. Qed.

Lemma from_to_le_bytes n z : from_le_bytes (to_le_bytes n z) = z mod 256 ^ Z.of_nat n.
Proof.
  revert z; induction n as [|n IH]; intros z; simpl to_le_bytes; simpl from_le_bytes.
  - by rewrite Z.mod_1_r.
  - rewrite IH, shiftr_8, Z_to_u8_to_Z, Nat2Z.inj_succ, Z.pow_succ_r by lia.
    rewrite (Z.rem_mul_r z 256) by lia. lia.
Qed.

Lemma from_le_bytes_range bs : 0 ≤ from_le_bytes bs < 256 ^ Z.of_nat (length bs).
Proof.
  induction bs as [|b bs IH]; cbn [from_le_bytes length]; [lia|].
  rewrite Nat2Z.inj_succ, Z.pow_succ_r by lia. pose proof (u8_range b). lia.
Qed.

Lemma from_le_bytes_snoc_zero bs : from_le_bytes (bs ++ [x00]) = from_le_bytes bs.
Proof.
  induction bs as [|b bs IH]; [done|]. cbn [from_le_bytes app]. by rewrite IH.
Qed.

Lemma to_from_le_bytes bs : to_le_bytes (length bs) (from_le_bytes bs) = bs.
Proof.
  induction bs as [|b bs IH]; simpl; [done|]. pose proof (u8_range b).
  f_equal.
  - apply (inj u8_to_Z). rewrite Z_to_u8_to_Z.
    rewrite Z.mul_comm, Z.mod_add by lia. by apply Z.mod_small.
  - rewrite shiftr_8, Z.mul_comm, Z.div_add by lia. by rewrite Z.div_small.
Qed.

Lemma from_to_be_bytes n z : from_be_bytes (to_be_bytes n z) = z mod 256 ^ Z.of_nat n.
Proof. unfold from_be_bytes, to_be_bytes. by rewrite rev_involutive, from_to_le_bytes. Qed.

Lemma from_to_be_bytes_small n z :
  0 ≤ z < 256 ^ Z.of_nat n → from_be_bytes (to_be_bytes n z) = z.
Proof. intros. by rewrite from_to_be_bytes, Z.mod_small. Qed.

Lemma to_from_be_bytes bs : to_be_bytes (length bs) (from_be_bytes bs) = bs.
Proof.
  unfold from_be_bytes, to_be_bytes.
  by rewrite <-(length_rev bs), to_from_le_bytes, rev_involutive.
Qed.

Lemma from_be_bytes_range bs : 0 ≤ from_be_bytes bs < 256 ^ Z.of_nat (length bs).
Proof. unfold from_be_bytes. rewrite <-(length_rev bs). apply from_le_bytes_range. Qed.

Lemma to_be_bytes_inj n z z' :
  0 ≤ z < 256 ^ Z.of_nat n → 0 ≤ z' < 256 ^ Z.of_nat n →
  to_be_bytes n z = to_be_bytes n z' → z = z'.
Proof.
  intros Hz Hz' H. by rewrite <-(from_to_be_bytes_small n z), H, from_to_be_bytes_small.
Qed.

(** ** Zero bytes *)

Definition zeros (n : nat) : list byte := replicate n x00.

Definition is_zero_byte (b : byte) : bool := bool_decide (b = x00).

Lemma length_zeros n : length (zeros n) = n.
Proof. apply length_replicate. Qed.

Lemma zeros_app n m : zeros n ++ zeros m = zeros (n + m).
Proof. unfold zeros. by rewrite replicate_add. Qed.

Lemma Forall_zeros bs : Forall (λ b, b = x00) bs ↔ bs = zeros (length bs).
Proof.
  split.
  - induction 1 as [|b bs -> _ IH]; [done|]. simpl. unfold zeros in *. simpl. by f_equal.
  - intros ->. apply Forall_replicate. done.
Qed.

(** [&mut buf\[i..\]].copy_from_slice(src)] when the source fits. *)
Definition copy_at (i : nat) (src buf : list byte) : list byte :=
  take i buf ++ src ++ drop (i + length src) buf.

Lemma length_copy_at i src buf :
  (i + length src ≤ length buf)%nat → length (copy_at i src buf) = length buf.
Proof. intros. unfold copy_at. rewrite !length_app, length_take, length_drop. lia. Qed.

(** ** Display *)

(** [{}] on an unsigned integer. *)
Definition display_uint (z : Z) : string := pretty (Z.to_N z).

Definition hex_digit (z : Z) : Ascii.ascii :=
  if bool_decide (z < 10) then Ascii.ascii_of_N (48 + Z.to_N z)
  else Ascii.ascii_of_N (87 + Z.to_N z).
(** [{:#04x}] on a [u8]. *)
Definition display_hex_u8 (b : byte) : string :=
  "0x" +:+ String.String (hex_digit (u8_to_Z b / 16))
    (String.String (hex_digit (u8_to_Z b mod 16)) "").

Example display_hex_u8_10 : display_hex_u8 x0a = "0x0a"%string.
Proof. reflexivity. Qed.

(** Bytes written as lowercase hex digits. *)
Definition hex_nibble (c : Ascii.ascii) : Z :=
  let n := Z.of_N (Ascii.N_of_ascii c) in if bool_decide (n < 58) then n - 48 else n - 87.
Fixpoint hex_bytes (s : string) : list byte :=
  match s with
  | String.String a (String.String b s) =>
      Z_to_u8 (16 * hex_nibble a + hex_nibble b) :: hex_bytes s
  | _ => []
  end.

Create Rewrite HintDb hok_len.
#[export] Hint Rewrite length_to_be_bytes length_zeros @length_app @length_take
  @length_drop @length_replicate : hok_len.
