(* ===== verification/Bindings.v ===== *)
(** * Solidity types (canoe/bindings/src/lib.rs)

    The structs which the [sol!] macro declares: the certificate in its ABI
    form, the [Journal] a canoe guest commits and the verifier's status codes.
    Field names are prefixed by the struct's name; widths are tested by
    [Journal_wf] for the fields whose range a theorem uses. *)

From S2P Require Export Machine.

(** An address (20 bytes), a [B256] (32 bytes) and a byte string. *)
Abbreviation Address := (list byte) (only parsing).
Abbreviation B256 := (list byte) (only parsing).
Abbreviation Bytes := (list byte) (only parsing).

Module Sol.

Record BatchHeaderV2 := {
  BatchHeaderV2_batchRoot : B256;
  BatchHeaderV2_referenceBlockNumber : Z;
}.

Record G1Point := { G1Point_X : Z; G1Point_Y : Z }.

(** [uint256\[2\]] is a pair. *)
Record G2Point := { G2Point_X : Z * Z; G2Point_Y : Z * Z }.

Record BlobCommitment := {
  BlobCommitment_commitment : G1Point;
  BlobCommitment_lengthCommitment : G2Point;
  BlobCommitment_lengthProof : G2Point;
  BlobCommitment_length : Z;
}.

Record BlobHeaderV2 := {
  BlobHeaderV2_version : Z;
  BlobHeaderV2_quorumNumbers : Bytes;
  BlobHeaderV2_commitment : BlobCommitment;
  BlobHeaderV2_paymentHeaderHash : B256;
}.

Record BlobCertificate := {
  BlobCertificate_blobHeader : BlobHeaderV2;
  BlobCertificate_signature : Bytes;
  BlobCertificate_relayKeys : list Z;
}.

Record BlobInclusionInfo := {
  BlobInclusionInfo_blobCertificate : BlobCertificate;
  BlobInclusionInfo_blobIndex : Z;
  BlobInclusionInfo_inclusionProof : Bytes;
}.

Record NonSignerStakesAndSignature := {
  NonSigner_nonSignerQuorumBitmapIndices : list Z;
  NonSigner_nonSignerPubkeys : list G1Point;
  NonSigner_quorumApks : list G1Point;
  NonSigner_apkG2 : G2Point;
  NonSigner_sigma : G1Point;
  NonSigner_quorumApkIndices : list Z;
  NonSigner_totalStakeIndices : list Z;
  NonSigner_nonSignerStakeIndices : list (list Z);
}.

Record EigenDACertV3 := {
  EigenDACertV3_batchHeaderV2 : BatchHeaderV2;
  EigenDACertV3_blobInclusionInfo : BlobInclusionInfo;
  EigenDACertV3_nonSignerStakesAndSignature : NonSignerStakesAndSignature;
  EigenDACertV3_signedQuorumNumbers : Bytes;
}.

Record EigenDACertV4 := {
  EigenDACertV4_batchHeaderV2 : BatchHeaderV2;
  EigenDACertV4_blobInclusionInfo : BlobInclusionInfo;
  EigenDACertV4_nonSignerStakesAndSignature : NonSignerStakesAndSignature;
  EigenDACertV4_signedQuorumNumbers : Bytes;
  EigenDACertV4_offchainDerivationVersion : Z;
}.

(** What a canoe guest commits for one certificate. *)
Record Journal := {
  blockNumber : Z;
  blockhash : B256;
  certVerifierAddress : Address;
  input : Bytes;
  output : bool;
  l1ChainId : Z;
  chainConfigHash : B256;
  chainSpecHash : B256;
}.

Inductive StatusCode :=
| NULL_ERROR
| SUCCESS
| UNUSED_HISTORICAL_INVALID_INCLUSION_PROOF
| UNUSED_HISTORICAL_SECURITY_ASSUMPTIONS_NOT_MET
| UNUSED_HISTORICAL_BLOB_QUORUMS_NOT_SUBSET
| UNUSED_HISTORICAL_REQUIRED_QUORUMS_NOT_SUBSET
| INVALID_CERT
| INTERNAL_ERROR.

(** [status as u8]: the position of the variant. *)
Definition StatusCode_to_u8 (s : StatusCode) : Z :=
  match s with
  | NULL_ERROR => 0
  | SUCCESS => 1
  | UNUSED_HISTORICAL_INVALID_INCLUSION_PROOF => 2
  | UNUSED_HISTORICAL_SECURITY_ASSUMPTIONS_NOT_MET => 3
  | UNUSED_HISTORICAL_BLOB_QUORUMS_NOT_SUBSET => 4
  | UNUSED_HISTORICAL_REQUIRED_QUORUMS_NOT_SUBSET => 5
  | INVALID_CERT => 6
  | INTERNAL_ERROR => 7
  end.

#[global] Instance StatusCode_eq_dec : EqDecision StatusCode.
Proof. solve_decision. Defined.
#[global] Instance Journal_eq_dec : EqDecision Journal.
Proof. solve_decision. Defined.

#[global] Instance StatusCode_to_u8_inj : Inj (=) (=) StatusCode_to_u8.
Proof. by intros [] []. Qed.

End Sol.
