(* ===== verification/Cert.v ===== *)
(** * DA certificates (crates/eigenda-cert/src)

    The certificate structs of [lib.rs], [v2_cert.rs], [v3_cert.rs] and
    [v4_cert.rs], the ranges their fields have by type ([_wf]), and the
    [to_sol] conversions to the ABI structs of [Bindings]. *)

From S2P Require Export Bindings.

(** ** lib.rs *)

Record G1Point := { x : Z; y : Z }.
(** [Fp2(pub U256, pub U256)] *)
Record Fp2 := { fp2_0 : Z; fp2_1 : Z }.
Record G2Point := { g2_x : Fp2; g2_y : Fp2 }.

Record BlobCommitment := {
  commitment : G1Point;
  length_commitment : G2Point;
  length_proof : G2Point;
  bc_length : Z;
}.

Record BlobHeaderV2 := {
  version : Z;
  quorum_numbers : Bytes;
  bh_commitment : BlobCommitment;
  payment_header_hash : B256;
}.

Record BlobCertificate := {
  blob_header : BlobHeaderV2;
  signature : Bytes;
  relay_keys : list Z;
}.

Record BlobInclusionInfo := {
  blob_certificate : BlobCertificate;
  blob_index : Z;
  inclusion_proof : Bytes;
}.

Record BatchHeaderV2 := {
  batch_root : B256;
  reference_block_number : Z;
}.

Record NonSignerStakesAndSignature := {
  non_signer_quorum_bitmap_indices : list Z;
  non_signer_pubkeys : list G1Point;
  quorum_apks : list G1Point;
  apk_g2 : G2Point;
  sigma : G1Point;
  quorum_apk_indices : list Z;
  total_stake_indices : list Z;
  non_signer_stake_indices : list (list Z);
}.

(** ** v2_cert.rs, v3_cert.rs, v4_cert.rs *)

Record EigenDACertV2 := {
  v2_blob_inclusion_info : BlobInclusionInfo;
  v2_batch_header_v2 : BatchHeaderV2;
  v2_nonsigner_stake_and_signature : NonSignerStakesAndSignature;
  v2_signed_quorum_numbers : Bytes;
}.

Record EigenDACertV3 := {
  v3_batch_header_v2 : BatchHeaderV2;
  v3_blob_inclusion_info : BlobInclusionInfo;
  v3_nonsigner_stake_and_signature : NonSignerStakesAndSignature;
  v3_signed_quorum_numbers : Bytes;
}.

Record EigenDACertV4 := {
  v4_batch_header_v2 : BatchHeaderV2;
  v4_blob_inclusion_info : BlobInclusionInfo;
  v4_nonsigner_stake_and_signature : NonSignerStakesAndSignature;
  v4_signed_quorum_numbers : Bytes;
  v4_offchain_derivation_version : Z;
}.

#[export] Instance G1Point_eq_dec : EqDecision G1Point.
Proof. solve_decision. Defined.
#[export] Instance Fp2_eq_dec : EqDecision Fp2.
Proof. solve_decision. Defined.
#[export] Instance G2Point_eq_dec : EqDecision G2Point.
Proof. solve_decision. Defined.
#[export] Instance BlobCommitment_eq_dec : EqDecision BlobCommitment.
Proof. solve_decision. Defined.
#[export] Instance BlobHeaderV2_eq_dec : EqDecision BlobHeaderV2.
Proof. solve_decision. Defined.
#[export] Instance BlobCertificate_eq_dec : EqDecision BlobCertificate.
Proof. solve_decision. Defined.
#[export] Instance BlobInclusionInfo_eq_dec : EqDecision BlobInclusionInfo.
Proof. solve_decision. Defined.
#[export] Instance BatchHeaderV2_eq_dec : EqDecision BatchHeaderV2.
Proof. solve_decision. Defined.
#[export] Instance NonSigner_eq_dec : EqDecision NonSignerStakesAndSignature.
Proof. solve_decision. Defined.
#[export] Instance EigenDACertV2_eq_dec : EqDecision EigenDACertV2.
Proof. solve_decision. Defined.
#[export] Instance EigenDACertV3_eq_dec : EqDecision EigenDACertV3.
Proof. solve_decision. Defined.
#[export] Instance EigenDACertV4_eq_dec : EqDecision EigenDACertV4.
Proof. solve_decision. Defined.

(** ** Field ranges

    The values a Rust struct of these types can hold. *)

Definition b256_ok (b : B256) : bool := bool_decide (length b = 32%nat).

Definition G1Point_wf (p : G1Point) : bool := u256_ok (x p) && u256_ok (y p).
Definition Fp2_wf (p : Fp2) : bool := u256_ok (fp2_0 p) && u256_ok (fp2_1 p).
Definition G2Point_wf (p : G2Point) : bool := Fp2_wf (g2_x p) && Fp2_wf (g2_y p).
Definition BlobCommitment_wf (c : BlobCommitment) : bool :=
  G1Point_wf (commitment c) && G2Point_wf (length_commitment c) &&
  G2Point_wf (length_proof c) && u32_ok (bc_length c).
Definition BlobHeaderV2_wf (h : BlobHeaderV2) : bool :=
  u16_ok (version h) && BlobCommitment_wf (bh_commitment h) &&
  b256_ok (payment_header_hash h).
Definition BlobCertificate_wf (c : BlobCertificate) : bool :=
  BlobHeaderV2_wf (blob_header c) && forallb u32_ok (relay_keys c).
Definition BlobInclusionInfo_wf (i : BlobInclusionInfo) : bool :=
  BlobCertificate_wf (blob_certificate i) && u32_ok (blob_index i).
Definition BatchHeaderV2_wf (h : BatchHeaderV2) : bool :=
  b256_ok (batch_root h) && u32_ok (reference_block_number h).
Definition NonSigner_wf (n : NonSignerStakesAndSignature) : bool :=
  forallb u32_ok (non_signer_quorum_bitmap_indices n) &&
  forallb G1Point_wf (non_signer_pubkeys n) && forallb G1Point_wf (quorum_apks n) &&
  G2Point_wf (apk_g2 n) && G1Point_wf (sigma n) &&
  forallb u32_ok (quorum_apk_indices n) && forallb u32_ok (total_stake_indices n) &&
  forallb (forallb u32_ok) (non_signer_stake_indices n).
Definition EigenDACertV2_wf (c : EigenDACertV2) : bool :=
  BlobInclusionInfo_wf (v2_blob_inclusion_info c) &&
  BatchHeaderV2_wf (v2_batch_header_v2 c) &&
  NonSigner_wf (v2_nonsigner_stake_and_signature c).
Definition EigenDACertV3_wf (c : EigenDACertV3) : bool :=
  BatchHeaderV2_wf (v3_batch_header_v2 c) &&
  BlobInclusionInfo_wf (v3_blob_inclusion_info c) &&
  NonSigner_wf (v3_nonsigner_stake_and_signature c).
Definition EigenDACertV4_wf (c : EigenDACertV4) : bool :=
  BatchHeaderV2_wf (v4_batch_header_v2 c) &&
  BlobInclusionInfo_wf (v4_blob_inclusion_info c) &&
  NonSigner_wf (v4_nonsigner_stake_and_signature c) &&
  u16_ok (v4_offchain_derivation_version c).

(** ** [to_sol] *)

Definition G1Point_to_sol (p : G1Point) : Sol.G1Point :=
  {| Sol.G1Point_X := x p; Sol.G1Point_Y := y p |}.

Definition G2Point_to_sol (p : G2Point) : Sol.G2Point :=
  {| Sol.G2Point_X := (fp2_0 (g2_x p), fp2_1 (g2_x p));
     Sol.G2Point_Y := (fp2_0 (g2_y p), fp2_1 (g2_y p)) |}.

Definition BlobCommitment_to_sol (c : BlobCommitment) : Sol.BlobCommitment :=
  {| Sol.BlobCommitment_commitment := G1Point_to_sol (commitment c);
     Sol.BlobCommitment_lengthCommitment := G2Point_to_sol (length_commitment c);
     Sol.BlobCommitment_lengthProof := G2Point_to_sol (length_proof c);
     Sol.BlobCommitment_length := bc_length c |}.

Definition BlobHeaderV2_to_sol (h : BlobHeaderV2) : Sol.BlobHeaderV2 :=
  {| Sol.BlobHeaderV2_version := version h;
     Sol.BlobHeaderV2_quorumNumbers := quorum_numbers h;
     Sol.BlobHeaderV2_paymentHeaderHash := payment_header_hash h;
     Sol.BlobHeaderV2_commitment := BlobCommitment_to_sol (bh_commitment h) |}.

Definition BlobCertificate_to_sol (c : BlobCertificate) : Sol.BlobCertificate :=
  {| Sol.BlobCertificate_signature := signature c;
     Sol.BlobCertificate_relayKeys := relay_keys c;
     Sol.BlobCertificate_blobHeader := BlobHeaderV2_to_sol (blob_header c) |}.

Definition BatchHeaderV2_to_sol (h : BatchHeaderV2) : Sol.BatchHeaderV2 :=
  {| Sol.BatchHeaderV2_batchRoot := batch_root h;
     Sol.BatchHeaderV2_referenceBlockNumber := reference_block_number h |}.

Definition BlobInclusionInfo_to_sol (i : BlobInclusionInfo) : Sol.BlobInclusionInfo :=
  {| Sol.BlobInclusionInfo_blobIndex := blob_index i;
     Sol.BlobInclusionInfo_inclusionProof := inclusion_proof i;
     Sol.BlobInclusionInfo_blobCertificate := BlobCertificate_to_sol (blob_certificate i) |}.

Definition NonSigner_to_sol (n : NonSignerStakesAndSignature) :
    Sol.NonSignerStakesAndSignature :=
  {| Sol.NonSigner_nonSignerQuorumBitmapIndices := non_signer_quorum_bitmap_indices n;
     Sol.NonSigner_nonSignerPubkeys := map G1Point_to_sol (non_signer_pubkeys n);
     Sol.NonSigner_quorumApks :=
       map (λ e, {| Sol.G1Point_X := x e; Sol.G1Point_Y := y e |}) (quorum_apks n);
     Sol.NonSigner_apkG2 := G2Point_to_sol (apk_g2 n);
     Sol.NonSigner_sigma := G1Point_to_sol (sigma n);
     Sol.NonSigner_quorumApkIndices := quorum_apk_indices n;
     Sol.NonSigner_totalStakeIndices := total_stake_indices n;
     Sol.NonSigner_nonSignerStakeIndices := non_signer_stake_indices n |}.

Definition EigenDACertV3_to_sol (c : EigenDACertV3) : Sol.EigenDACertV3 :=
  {| Sol.EigenDACertV3_batchHeaderV2 := BatchHeaderV2_to_sol (v3_batch_header_v2 c);
     Sol.EigenDACertV3_blobInclusionInfo :=
       BlobInclusionInfo_to_sol (v3_blob_inclusion_info c);
     Sol.EigenDACertV3_nonSignerStakesAndSignature :=
       NonSigner_to_sol (v3_nonsigner_stake_and_signature c);
     Sol.EigenDACertV3_signedQuorumNumbers := v3_signed_quorum_numbers c |}.

Definition EigenDACertV4_to_sol (c : EigenDACertV4) : Sol.EigenDACertV4 :=
  {| Sol.EigenDACertV4_batchHeaderV2 := BatchHeaderV2_to_sol (v4_batch_header_v2 c);
     Sol.EigenDACertV4_blobInclusionInfo :=
       BlobInclusionInfo_to_sol (v4_blob_inclusion_info c);
     Sol.EigenDACertV4_nonSignerStakesAndSignature :=
       NonSigner_to_sol (v4_nonsigner_stake_and_signature c);
     Sol.EigenDACertV4_signedQuorumNumbers := v4_signed_quorum_numbers c;
     Sol.EigenDACertV4_offchainDerivationVersion := v4_offchain_derivation_version c |}.

(** ** The conversions lose nothing

    Each [to_sol] is injective, so the certificate a contract checks determines
    the certificate the derivation uses. *)

Ltac destruct_cert_records :=
  repeat match goal with
  | r : G1Point |- _ => destruct r
  | r : Fp2 |- _ => destruct r
  | r : G2Point |- _ => destruct r
  | r : BlobCommitment |- _ => destruct r
  | r : BlobHeaderV2 |- _ => destruct r
  | r : BlobCertificate |- _ => destruct r
  | r : BlobInclusionInfo |- _ => destruct r
  | r : BatchHeaderV2 |- _ => destruct r
  | r : NonSignerStakesAndSignature |- _ => destruct r
  | r : EigenDACertV3 |- _ => destruct r
  | r : EigenDACertV4 |- _ => destruct r
  end.

#[export] Instance G1Point_to_sol_inj : Inj (=) (=) G1Point_to_sol.
Proof. intros [] [] [=]; subst; done. Qed.

(** [quorum_apks] is converted by a closure of its own; it is the same function. *)
Lemma NonSigner_to_sol_apks :
  (λ e, {| Sol.G1Point_X := x e; Sol.G1Point_Y := y e |}) = G1Point_to_sol.
Proof. reflexivity. Qed.

Ltac to_sol_inj :=
  intros ???; destruct_cert_records; simpl in *; simplify_eq/=; 
  rewrite ?NonSigner_to_sol_apks in *;
  repeat match goal with
  | H : G1Point_to_sol <$> _ = G1Point_to_sol <$> _ |- _ => apply (inj (fmap G1Point_to_sol)) in H
  | H : map G1Point_to_sol _ = map G1Point_to_sol _ |- _ => apply (inj (fmap G1Point_to_sol)) in H
  end; by subst.

#[export] Instance BlobInclusionInfo_to_sol_inj : Inj (=) (=) BlobInclusionInfo_to_sol.
Proof. to_sol_inj. Qed.
#[export] Instance NonSigner_to_sol_inj : Inj (=) (=) NonSigner_to_sol.
Proof. to_sol_inj. Qed.
#[export] Instance EigenDACertV3_to_sol_inj : Inj (=) (=) EigenDACertV3_to_sol.
Proof. to_sol_inj. Qed.
#[export] Instance EigenDACertV4_to_sol_inj : Inj (=) (=) EigenDACertV4_to_sol.
Proof. to_sol_inj. Qed.
