(* ===== verification/AltDACommitment.v ===== *)
(** * AltDA commitments (crates/eigenda-cert/src/altda_commitment.rs)

    Parsing, serialisation and the accessors of a commitment.  The crates the
    file calls are interfaces: [Rlp] for alloy_rlp's derived [Encodable] and
    [Decodable], [Keccak] for [keccak256]; [AlloyLaws] states what the code
    relies on. *)

From S2P Require Export Cert.

(** ** Third-party crates *)

(** [alloy_rlp::Error] with its [Display]. *)
Class RlpError := {
  rlp_error : Type;
  rlp_error_eq_dec :: EqDecision rlp_error;
  rlp_error_display : rlp_error → string;
}.

(** [alloy_rlp::Encodable] and [Decodable].  [rlp_decode] reads one item from the
    front of the buffer and leaves the rest. *)
Class Rlp `{RlpError} (A : Type) := {
  rlp_encode : A → Bytes;
  rlp_decode : Bytes → result rlp_error A;
}.

(** A Rust allocation is shorter than [2 ^ 63] bytes. *)
Definition fits (bs : Bytes) : bool := bool_decide (Z.of_nat (length bs) < 2 ^ 63).

Class RlpLaws `{Rlp A} (wf : A → bool) := {
  rlp_decode_encode a rest : wf a = true → fits (rlp_encode a) = true →
    rlp_decode (rlp_encode a ++ rest) = Ok a;
  rlp_decode_wf bs a : rlp_decode bs = Ok a → wf a = true;
  rlp_encode_nonempty a : rlp_encode a ≠ [];
}.

(** [alloy_primitives::keccak256] *)
Class Keccak := {
  keccak256 : Bytes → B256;
  length_keccak256 bs : length (keccak256 bs) = 32%nat;
}.

Class Alloy := {
  alloy_rlp_error :: RlpError;
  alloy_rlp_v2 :: Rlp EigenDACertV2;
  alloy_rlp_v3 :: Rlp EigenDACertV3;
  alloy_rlp_v4 :: Rlp EigenDACertV4;
  alloy_keccak :: Keccak;
}.

Class AlloyLaws `{Alloy} := {
  alloy_v2_laws :: RlpLaws EigenDACertV2_wf;
  alloy_v3_laws :: RlpLaws EigenDACertV3_wf;
  alloy_v4_laws :: RlpLaws EigenDACertV4_wf;
}.

(** ** Data *)

Inductive EigenDAVersionedCert :=
| V2 (c : EigenDACertV2)
| V3 (c : EigenDACertV3)
| V4 (c : EigenDACertV4).

#[export] Instance EigenDAVersionedCert_eq_dec : EqDecision EigenDAVersionedCert.
Proof. solve_decision. Defined.

Record AltDACommitment := {
  commitment_type : byte;
  da_layer_byte : byte;
  versioned_cert : EigenDAVersionedCert;
}.

#[export] Instance AltDACommitment_eq_dec : EqDecision AltDACommitment.
Proof. solve_decision. Defined.

Definition EigenDAVersionedCert_wf (v : EigenDAVersionedCert) : bool :=
  match v with
  | V2 c => EigenDACertV2_wf c
  | V3 c => EigenDACertV3_wf c
  | V4 c => EigenDACertV4_wf c
  end.

(** The values of the type, and those a parse returns. *)
Definition AltDACommitment_wf (c : AltDACommitment) : bool :=
  EigenDAVersionedCert_wf (versioned_cert c).
Definition header_ok (c : AltDACommitment) : bool :=
  bool_decide (commitment_type c = x01) && bool_decide (da_layer_byte c = x00).

(** ** Accessors *)

Definition versioned_blob_inclusion_info (v : EigenDAVersionedCert) : BlobInclusionInfo :=
  match v with
  | V2 c => v2_blob_inclusion_info c
  | V3 c => v3_blob_inclusion_info c
  | V4 c => v4_blob_inclusion_info c
  end.

Definition get_num_field_element (c : AltDACommitment) : Z :=
  match versioned_cert c with
  | V2 c => bc_length (bh_commitment (blob_header (blob_certificate (v2_blob_inclusion_info c))))
  | V3 c => bc_length (bh_commitment (blob_header (blob_certificate (v3_blob_inclusion_info c))))
  | V4 c => bc_length (bh_commitment (blob_header (blob_certificate (v4_blob_inclusion_info c))))
  end.

Definition get_rbn (c : AltDACommitment) : Z :=
  match versioned_cert c with
  | V2 c => reference_block_number (v2_batch_header_v2 c)
  | V3 c => reference_block_number (v3_batch_header_v2 c)
  | V4 c => reference_block_number (v4_batch_header_v2 c)
  end.

Definition get_kzg_commitment (c : AltDACommitment) : G1Point :=
  match versioned_cert c with
  | V2 c =>
      let p := commitment (bh_commitment (blob_header (blob_certificate (v2_blob_inclusion_info c)))) in
      {| x := x p; y := y p |}
  | V3 c =>
      let p := commitment (bh_commitment (blob_header (blob_certificate (v3_blob_inclusion_info c)))) in
      {| x := x p; y := y p |}
  | V4 c =>
      let p := commitment (bh_commitment (blob_header (blob_certificate (v4_blob_inclusion_info c)))) in
      {| x := x p; y := y p |}
  end.

Definition cert_version_str (c : AltDACommitment) : string :=
  match versioned_cert c with V2 _ => "V2" | V3 _ => "V3" | V4 _ => "V4" end.

Lemma get_kzg_commitment_eq c :
  get_kzg_commitment c =
  commitment (bh_commitment (blob_header (blob_certificate
    (versioned_blob_inclusion_info (versioned_cert c))))).
Proof. unfold get_kzg_commitment. destruct (versioned_cert c); simpl; by destruct (commitment _). Qed.

Lemma AltDACommitment_wf_num c :
  AltDACommitment_wf c = true → 0 ≤ get_num_field_element c < 2 ^ 32.
Proof.
  unfold AltDACommitment_wf, get_num_field_element. rewrite <-uint_ok_spec.
  destruct (versioned_cert c); simpl;
    unfold EigenDACertV2_wf, EigenDACertV3_wf, EigenDACertV4_wf, BlobInclusionInfo_wf,
      BlobCertificate_wf, BlobHeaderV2_wf, BlobCommitment_wf;
    rewrite !andb_true_iff; tauto.
Qed.

Lemma AltDACommitment_wf_rbn c :
  AltDACommitment_wf c = true → 0 ≤ get_rbn c < 2 ^ 32.
Proof.
  unfold AltDACommitment_wf, get_rbn. rewrite <-uint_ok_spec.
  destruct (versioned_cert c); simpl;
    unfold EigenDACertV2_wf, EigenDACertV3_wf, EigenDACertV4_wf, BatchHeaderV2_wf;
    rewrite !andb_true_iff; tauto.
Qed.

(** ** Parsing and serialisation *)

Section codec.
Context `{!Alloy}.

Inductive AltDACommitmentParseError :=
| InsufficientData
| UnsupportedCommitmentType
| UnsupportedDaLayerType
| UnsupportedCertVersionType (v : byte)
| InvalidRlpCert (e : rlp_error).

#[export] Instance AltDACommitmentParseError_eq_dec : EqDecision AltDACommitmentParseError.
Proof. solve_decision. Defined.

Definition AltDACommitmentParseError_display (e : AltDACommitmentParseError) : string :=
  match e with
  | InsufficientData => "Insufficient altda commitment data"
  | UnsupportedCommitmentType => "Unsupported commitment type"
  | UnsupportedDaLayerType => "Unsupported da layer type"
  | UnsupportedCertVersionType v =>
      "Unsupported cert version type " +:+ display_uint (u8_to_Z v)
  | InvalidRlpCert e => "Unable to decode rlp cert: " +:+ rlp_error_display e
  end.

(** The [match value\[2\]] of [try_from]. *)
Definition decode_versioned_cert (ver : byte) (bs : Bytes) :
    result AltDACommitmentParseError EigenDAVersionedCert :=
  match ver with
  | x01 => c ← map_err InvalidRlpCert (rlp_decode bs); Ok (V2 c)
  | x02 => c ← map_err InvalidRlpCert (rlp_decode bs); Ok (V3 c)
  | x03 => c ← map_err InvalidRlpCert (rlp_decode bs); Ok (V4 c)
  | _ => Err (UnsupportedCertVersionType ver)
  end.

(** [impl TryFrom<&\[u8\]> for AltDACommitment].  The last case is unreachable:
    the slice has at least four bytes there. *)
Definition try_from (value : Bytes) : result AltDACommitmentParseError AltDACommitment :=
  if bool_decide (length value < 4)%nat then Err InsufficientData
  else match value with
  | ty :: layer :: ver :: rest =>
      if bool_decide (ty ≠ x01) then Err UnsupportedCommitmentType
      else if bool_decide (layer ≠ x00) then Err UnsupportedDaLayerType
      else
        cert ← decode_versioned_cert ver rest;
        Ok {| commitment_type := ty; da_layer_byte := layer; versioned_cert := cert |}
  | _ => Err InsufficientData
  end.

Definition version_byte (v : EigenDAVersionedCert) : byte :=
  match v with V2 _ => x01 | V3 _ => x02 | V4 _ => x03 end.
Definition encode_cert (v : EigenDAVersionedCert) : Bytes :=
  match v with V2 c => rlp_encode c | V3 c => rlp_encode c | V4 c => rlp_encode c end.

Definition to_rlp_bytes (c : AltDACommitment) : Bytes :=
  [commitment_type c; da_layer_byte c] ++ [version_byte (versioned_cert c)] ++
  encode_cert (versioned_cert c).

Definition to_digest (c : AltDACommitment) : B256 := keccak256 (to_rlp_bytes c).

(** [EigenDACertV2::to_digest] and its two copies. *)
Definition EigenDACertV2_to_digest (c : EigenDACertV2) : B256 := keccak256 (rlp_encode c).
Definition EigenDACertV3_to_digest (c : EigenDACertV3) : B256 := keccak256 (rlp_encode c).
Definition EigenDACertV4_to_digest (c : EigenDACertV4) : B256 := keccak256 (rlp_encode c).

(** [field_element_key\[..32\].copy_from_slice(digest)] in 80 zero bytes. *)
Definition digest_template (c : AltDACommitment) : Bytes :=
  copy_at 0 (to_digest c) (zeros 80).

Lemma length_to_digest c : length (to_digest c) = 32%nat.
Proof. apply length_keccak256. Qed.

Lemma digest_template_eq c : digest_template c = to_digest c ++ zeros 48.
Proof.
  unfold digest_template, copy_at. rewrite length_to_digest. simpl. f_equal.
Qed.

Lemma length_digest_template c : length (digest_template c) = 80%nat.
Proof. rewrite digest_template_eq, length_app, length_to_digest. reflexivity. Qed.
End codec.

(** ** Round trip and injectivity *)

Section roundtrip.
Context `{!Alloy, !AlloyLaws}.

Lemma fits_drop3 (b0 b1 b2 : byte) bs : fits (b0 :: b1 :: b2 :: bs) = true → fits bs = true.
Proof. unfold fits. rewrite !bool_decide_eq_true. simpl length. lia. Qed.

Lemma decode_encode_cert v rest :
  EigenDAVersionedCert_wf v = true → fits (encode_cert v) = true →
  decode_versioned_cert (version_byte v) (encode_cert v ++ rest) = Ok v.
Proof. destruct v; simpl; intros; by rewrite rlp_decode_encode. Qed.

Lemma encode_cert_nonempty v : encode_cert v ≠ [].
Proof. destruct v; apply rlp_encode_nonempty. Qed.

Lemma decode_versioned_cert_Ok ver bs v :
  decode_versioned_cert ver bs = Ok v →
  ver = version_byte v ∧ EigenDAVersionedCert_wf v = true.
Proof.
  destruct ver; simpl; try done;
    (destruct (rlp_decode bs) as [c|] eqn:Hd; simpl; [intros [= <-]|done]);
    (split; [done|]); simpl; by eapply rlp_decode_wf.
Qed.

Lemma encode_cert_inj v v' rest rest' :
  EigenDAVersionedCert_wf v = true → EigenDAVersionedCert_wf v' = true →
  fits (encode_cert v) = true → fits (encode_cert v') = true →
  version_byte v = version_byte v' →
  encode_cert v ++ rest = encode_cert v' ++ rest' → v = v'.
Proof.
  intros Hv Hv' Hf Hf' Hver Heq. apply (inj (@Ok AltDACommitmentParseError _)).
  by rewrite <-(decode_encode_cert v rest), Heq, Hver, decode_encode_cert.
Qed.

(** Serialised commitments are pairwise different. *)
Lemma to_rlp_bytes_inj c c' :
  AltDACommitment_wf c = true → AltDACommitment_wf c' = true →
  fits (to_rlp_bytes c) = true → fits (to_rlp_bytes c') = true →
  to_rlp_bytes c = to_rlp_bytes c' → c = c'.
Proof.
  destruct c as [t l v], c' as [t' l' v']. unfold AltDACommitment_wf, to_rlp_bytes; simpl.
  intros Hv Hv' Hf%fits_drop3 Hf'%fits_drop3 [= -> -> Hver Henc]. f_equal.
  apply (encode_cert_inj v v' [] []); rewrite ?app_nil_r; done.
Qed.

Lemma try_from_Ok_inv bs c :
  try_from bs = Ok c →
  ∃ rest, bs = [x01; x00; version_byte (versioned_cert c)] ++ rest ∧ rest ≠ [] ∧
    decode_versioned_cert (version_byte (versioned_cert c)) rest = Ok (versioned_cert c) ∧
    header_ok c = true ∧ AltDACommitment_wf c = true.
Proof.
  unfold try_from. case_bool_decide as Hlen; [done|].
  destruct bs as [|ty [|layer [|ver rest]]]; try done.
  case_bool_decide as Hty; [done|]. case_bool_decide as Hl; [done|].
  intros (v & Hv & [= <-])%result_bind_Ok_inv.
  subst ty layer.
  destruct (decode_versioned_cert_Ok _ _ _ Hv) as [-> Hwf].
  exists rest. split; [done|]. split; [by destruct rest; simpl in Hlen; [lia|]|].
  by split.
Qed.
End roundtrip.

#[export] Hint Resolve length_to_digest length_digest_template encode_cert_nonempty : hok.
