(* ===== verification/RlpInstance.v ===== *)
(** * A concrete RLP codec

    The RLP interface of [AltDACommitment] is a parameter of the model.  This
    file gives a concrete codec, Ethereum's RLP encoding of unsigned integers,
    byte strings, fixed arrays, vectors and structs, and proves that it satisfies
    [RlpLaws], so that theorems stated against the interface can be applied to
    concrete certificates (those of the repository's tests among them).  The
    decoder is more lenient than alloy_rlp's on non-canonical input. *)

From S2P Require Export AltDACommitment.

(** ** Formats *)

Record fmt (A : Type) := Fmt {
  enc : A → Bytes;
  dec : Bytes → option (A * Bytes);
  fwf : A → bool;
}.
Arguments Fmt {A}.
Arguments enc {A}.
Arguments dec {A}.
Arguments fwf {A}.

Record fmt_ok {A} (f : fmt A) : Prop := FmtOk {
  fmt_round a rest : fwf f a = true → fits (enc f a) = true →
    dec f (enc f a ++ rest) = Some (a, rest);
  fmt_wf bs a rest : dec f bs = Some (a, rest) → fwf f a = true;
}.

(** ** Items: a header and a payload *)

Fixpoint min_le (fuel : nat) (z : Z) : Bytes :=
  match fuel with
  | O => []
  | S fuel => if bool_decide (z = 0) then [] else Z_to_u8 z :: min_le fuel (Z.shiftr z 8)
  end.
(** The shortest big-endian form of an integer below [256 ^ 32]. *)
Definition min_be (z : Z) : Bytes := rev (min_le 32 z).

Definition header (offset len : Z) : Bytes :=
  if bool_decide (len ≤ 55) then [Z_to_u8 (offset + len)]
  else let lb := min_be len in Z_to_u8 (offset + 55 + Z.of_nat (length lb)) :: lb.

Definition enc_str (bs : Bytes) : Bytes :=
  match bs with
  | [b] => if bool_decide (u8_to_Z b < 128) then [b] else header 128 1 ++ bs
  | _ => header 128 (Z.of_nat (length bs)) ++ bs
  end.
Definition enc_list (payload : Bytes) : Bytes :=
  header 192 (Z.of_nat (length payload)) ++ payload.

Definition split_at (n : Z) (bs : Bytes) : option (Bytes * Bytes) :=
  if bool_decide (n ≤ Z.of_nat (length bs))
  then Some (take (Z.to_nat n) bs, drop (Z.to_nat n) bs) else None.

(** The payload behind a header whose first byte, less its offset, is [v]. *)
Definition dec_payload (v : Z) (t : Bytes) : option (Bytes * Bytes) :=
  if bool_decide (v ≤ 55) then split_at v t
  else '(lb, t) ← split_at (v - 55) t; split_at (from_be_bytes lb) t.

Definition dec_str (bs : Bytes) : option (Bytes * Bytes) :=
  match bs with
  | [] => None
  | b :: t =>
      let v := u8_to_Z b in
      if bool_decide (v < 128) then Some ([b], t)
      else if bool_decide (v < 192) then dec_payload (v - 128) t else None
  end.
Definition dec_list (bs : Bytes) : option (Bytes * Bytes) :=
  match bs with
  | [] => None
  | b :: t =>
      let v := u8_to_Z b in
      if bool_decide (v < 192) then None else dec_payload (v - 192) t
  end.

Lemma from_min_le n z :
  0 ≤ z < 256 ^ Z.of_nat n → from_le_bytes (min_le n z) = z.
Proof.
  revert z; induction n as [|n IH]; intros z Hz; simpl; [simpl in Hz; lia|].
  rewrite Nat2Z.inj_succ, Z.pow_succ_r in Hz by lia.
  case_bool_decide; simpl; [done|].
  rewrite Z_to_u8_to_Z, shiftr_8, IH.
  - pose proof (Z.div_mod z 256); lia.
  - split; [apply Z.div_pos; lia|apply Z.div_lt_upper_bound; lia].
Qed.

Lemma from_min_be z : 0 ≤ z < 2 ^ 256 → from_be_bytes (min_be z) = z.
Proof.
  intros Hz. unfold from_be_bytes, min_be. rewrite rev_involutive.
  apply from_min_le. change (256 ^ Z.of_nat 32) with (2 ^ 256). done.
Qed.

Lemma length_min_le n z k :
  0 ≤ z < 256 ^ Z.of_nat k → (length (min_le n z) ≤ k)%nat.
Proof.
  revert z k; induction n as [|n IH]; intros z k Hz; simpl; [lia|].
  case_bool_decide; simpl; [lia|].
  destruct k as [|k]; [simpl in Hz; lia|].
  rewrite Nat2Z.inj_succ, Z.pow_succ_r in Hz by lia.
  apply le_n_S, IH. rewrite shiftr_8. split; [apply Z.div_pos; lia|apply Z.div_lt_upper_bound; lia].
Qed.

Lemma length_min_le_pos n z : (0 < n)%nat → z ≠ 0 → (0 < length (min_le n z))%nat.
Proof. destruct n; simpl; [lia|]. intros. rewrite bool_decide_false by done. simpl. lia. Qed.

Lemma length_min_be z : 55 < z < 2 ^ 63 → 1 ≤ Z.of_nat (length (min_be z)) ≤ 8.
Proof.
  intros Hz. unfold min_be. rewrite length_rev.
  assert (length (min_le 32 z) ≤ 8)%nat.
  { apply length_min_le. change (256 ^ Z.of_nat 8) with (2 ^ 64). lia. }
  assert (0 < length (min_le 32 z))%nat; [|lia].
  apply length_min_le_pos; lia.
Qed.

Lemma split_at_app n bs rest :
  n = Z.of_nat (length bs) → split_at n (bs ++ rest) = Some (bs, rest).
Proof.
  intros ->. unfold split_at. rewrite length_app, bool_decide_true by lia.
  by rewrite Nat2Z.id, take_app_length, drop_app_length.
Qed.

(** The header of a payload shorter than [2 ^ 63] bytes is read back. *)
Lemma header_dec offset payload rest :
  (offset = 128 ∨ offset = 192) → Z.of_nat (length payload) < 2 ^ 63 →
  ∃ b t, header offset (Z.of_nat (length payload)) ++ payload ++ rest = b :: t ∧
    offset ≤ u8_to_Z b < offset + 64 ∧
    dec_payload (u8_to_Z b - offset) t = Some (payload, rest).
Proof.
  intros Hoff Hlen. unfold header. set (len := Z.of_nat (length payload)) in *.
  assert (0 ≤ len) by lia. case_bool_decide as Hs.
  - eexists _, _. split; [reflexivity|].
    rewrite Z_to_u8_to_Z, Z.mod_small by lia. split; [lia|].
    unfold dec_payload. rewrite bool_decide_true by lia. apply split_at_app. lia.
  - pose proof (length_min_be len ltac:(lia)) as Hlb.
    eexists _, _. split; [reflexivity|].
    rewrite Z_to_u8_to_Z, Z.mod_small by lia. split; [lia|].
    unfold dec_payload. rewrite bool_decide_false by lia.
    rewrite (split_at_app _ (min_be len)) by lia; simpl.
    rewrite from_min_be by lia. by apply split_at_app.
Qed.

Lemma dec_enc_list payload rest :
  Z.of_nat (length payload) < 2 ^ 63 →
  dec_list (enc_list payload ++ rest) = Some (payload, rest).
Proof.
  intros Hlen. unfold enc_list. rewrite <-app_assoc.
  destruct (header_dec 192 payload rest) as (b & t & -> & Hb & Hd); [auto|done|].
  unfold dec_list. by rewrite bool_decide_false by lia.
Qed.

Lemma dec_enc_str bs rest :
  Z.of_nat (length bs) < 2 ^ 63 → dec_str (enc_str bs ++ rest) = Some (bs, rest).
Proof.
  intros Hlen. assert (dec_str ((header 128 (Z.of_nat (length bs)) ++ bs) ++ rest) = Some (bs, rest)).
  { rewrite <-app_assoc.
    destruct (header_dec 128 bs rest) as (b & t & -> & Hb & Hd); [auto|done|].
    unfold dec_str. by rewrite bool_decide_false, bool_decide_true by lia. }
  unfold enc_str. destruct bs as [|b [|]]; try done.
  case_bool_decide; [|done]. simpl. by rewrite bool_decide_true.
Qed.

(** ** Format combinators *)

Lemma fits_app_l (a b : Bytes) : fits (a ++ b) = true → fits a = true.
Proof. unfold fits. rewrite !bool_decide_eq_true, length_app. lia. Qed.
Lemma fits_app_r (a b : Bytes) : fits (a ++ b) = true → fits b = true.
Proof. unfold fits. rewrite !bool_decide_eq_true, length_app. lia. Qed.
Lemma fits_len (a : Bytes) : fits a = true ↔ Z.of_nat (length a) < 2 ^ 63.
Proof. apply bool_decide_eq_true. Qed.

Definition guard_wf {A} (wf : A → bool) (a : A) (rest : Bytes) : option (A * Bytes) :=
  if wf a then Some (a, rest) else None.

Definition bytes_fmt : fmt Bytes := Fmt enc_str dec_str (λ _, true).
Definition fixed_fmt (n : nat) : fmt Bytes :=
  let wf bs := bool_decide (length bs = n) in
  Fmt enc_str (λ bs, '(a, rest) ← dec_str bs; guard_wf wf a rest) wf.
Definition uint_fmt (w : Z) : fmt Z :=
  Fmt (λ z, enc_str (min_be z))
      (λ bs, '(a, rest) ← dec_str bs; guard_wf (uint_ok w) (from_be_bytes a) rest)
      (uint_ok w).
(** Fields written one after the other. *)
Definition pair_fmt {A B} (f : fmt A) (g : fmt B) : fmt (A * B) :=
  Fmt (λ p, enc f p.1 ++ enc g p.2)
      (λ bs, '(a, bs) ← dec f bs; '(b, bs) ← dec g bs; Some ((a, b), bs))
      (λ p, fwf f p.1 && fwf g p.2).
(** A list item around its fields, which must fill it. *)
Definition list_fmt {A} (f : fmt A) : fmt A :=
  Fmt (λ a, enc_list (enc f a))
      (λ bs, '(payload, rest) ← dec_list bs; '(a, tl) ← dec f payload;
             match tl with [] => Some (a, rest) | _ => None end)
      (fwf f).
Definition iso_fmt {A B} (to : A → B) (back : B → A) (f : fmt A) : fmt B :=
  Fmt (λ b, enc f (back b)) (λ bs, '(a, rest) ← dec f bs; Some (to a, rest))
      (λ b, fwf f (back b)).

Fixpoint dec_items {A} (f : fmt A) (fuel : nat) (bs : Bytes) : option (list A * Bytes) :=
  match bs, fuel with
  | [], _ => Some ([], [])
  | _, O => None
  | _, S fuel => '(a, bs) ← dec f bs; '(l, bs) ← dec_items f fuel bs; Some (a :: l, bs)
  end.
Definition items_fmt {A} (f : fmt A) : fmt (list A) :=
  Fmt (λ l, concat (map (enc f) l)) (λ bs, dec_items f (length bs) bs) (forallb (fwf f)).
Definition vec_fmt {A} (f : fmt A) : fmt (list A) := list_fmt (items_fmt f).

Lemma bytes_fmt_ok : fmt_ok bytes_fmt.
Proof.
  split; simpl; [|done]. intros a rest _ Hf%fits_len. apply dec_enc_str.
  unfold enc_str in Hf. destruct a as [|? [|]]; rewrite ?length_app in Hf; simpl in *; lia.
Qed.

Lemma length_enc_str bs : fits (enc_str bs) = true → Z.of_nat (length bs) < 2 ^ 63.
Proof.
  intros Hf%fits_len. unfold enc_str in Hf.
  destruct bs as [|? [|]]; rewrite ?length_app in Hf; simpl in *; lia.
Qed.

Lemma guard_wf_Some {A} wf (a a' : A) rest rest' :
  guard_wf wf a rest = Some (a', rest') → a = a' ∧ rest = rest' ∧ wf a' = true.
Proof. unfold guard_wf. destruct (wf a) eqn:?; naive_solver. Qed.

Lemma fixed_fmt_ok n : fmt_ok (fixed_fmt n).
Proof.
  split; simpl.
  - intros a rest Hwf Hf. rewrite dec_enc_str by by apply length_enc_str.
    simpl. unfold guard_wf. by rewrite Hwf.
  - intros bs a rest. destruct (dec_str bs) as [[]|]; simpl; [|done].
    by intros (_ & _ & ?)%guard_wf_Some.
Qed.

Lemma uint_fmt_ok w : w ≤ 256 → fmt_ok (uint_fmt w).
Proof.
  intros Hw. split; simpl.
  - intros a rest Hwf Hf. rewrite dec_enc_str by by apply length_enc_str.
    simpl. rewrite from_min_be; [unfold guard_wf; by rewrite Hwf|].
    apply uint_ok_spec in Hwf. split; [lia|].
    apply Z.lt_le_trans with (2 ^ w); [lia|]. apply Z.pow_le_mono_r; lia.
  - intros bs a rest. destruct (dec_str bs) as [[]|]; simpl; [|done].
    by intros (_ & _ & ?)%guard_wf_Some.
Qed.

Lemma pair_fmt_ok {A B} (f : fmt A) (g : fmt B) :
  fmt_ok f → fmt_ok g → fmt_ok (pair_fmt f g).
Proof.
  intros Hf Hg. split; simpl.
  - intros [a b] rest [Ha Hb]%andb_true_iff Hfit; simpl in *. rewrite <-app_assoc.
    rewrite (fmt_round _ Hf) by eauto using fits_app_l; simpl.
    by rewrite (fmt_round _ Hg) by eauto using fits_app_r.
  - intros bs [a b] rest. destruct (dec f bs) as [[a1 bs1]|] eqn:H1; simpl; [|done].
    destruct (dec g bs1) as [[b1 bs2]|] eqn:H2; simpl; [|done]. intros [= <- <- <-].
    by rewrite (fmt_wf _ Hf _ _ _ H1), (fmt_wf _ Hg _ _ _ H2).
Qed.

Lemma list_fmt_ok {A} (f : fmt A) : fmt_ok f → fmt_ok (list_fmt f).
Proof.
  intros Hf. split; simpl.
  - intros a rest Ha Hfit.
    assert (fits (enc f a) = true) as Hfit' by (unfold enc_list in Hfit; eauto using fits_app_r).
    rewrite dec_enc_list by by apply fits_len. simpl.
    rewrite <-(app_nil_r (enc f a)). by rewrite (fmt_round _ Hf).
  - intros bs a rest. destruct (dec_list bs) as [[p r]|]; simpl; [|done].
    destruct (dec f p) as [[a1 [|]]|] eqn:H1; simpl; try done. intros [= <- <-].
    by apply (fmt_wf _ Hf _ _ _ H1).
Qed.

Lemma iso_fmt_ok {A B} (to : A → B) (back : B → A) (f : fmt A) :
  (∀ b, to (back b) = b) → (∀ a, back (to a) = a) → fmt_ok f → fmt_ok (iso_fmt to back f).
Proof.
  intros Hto Hof Hf. split; simpl.
  - intros b rest Hb Hfit. rewrite (fmt_round _ Hf) by done. simpl. by rewrite Hto.
  - intros bs b rest. destruct (dec f bs) as [[a r]|] eqn:H1; simpl; [|done].
    intros [= <- <-]. rewrite Hof. by apply (fmt_wf _ Hf _ _ _ H1).
Qed.

Lemma length_pos_S {A} (l : list A) : l ≠ [] → ∃ k, length l = S k.
Proof. destruct l; [done|]. simpl. eauto. Qed.

Lemma dec_items_S {A} (f : fmt A) fuel bs :
  bs ≠ [] →
  dec_items f (S fuel) bs =
  '(a, bs) ← dec f bs; '(l, bs) ← dec_items f fuel bs; Some (a :: l, bs).
Proof. by destruct bs. Qed.

Lemma items_fmt_ok {A} (f : fmt A) :
  (∀ a, enc f a ≠ []) → fmt_ok f →
  ∀ l, forallb (fwf f) l = true → fits (concat (map (enc f) l)) = true →
  dec (items_fmt f) (concat (map (enc f) l)) = Some (l, []).
Proof.
  intros Hne Hf l. simpl. generalize (le_n (length (concat (map (enc f) l)))).
  generalize (length (concat (map (enc f) l))) at 2 3 as fuel.
  induction l as [|a l IH]; intros fuel Hfuel; simpl in *.
  - by destruct fuel.
  - intros [Ha Hl]%andb_true_iff Hfit. pose proof (Hne a) as Hnea.
    rewrite length_app in Hfuel. destruct (length_pos_S _ Hnea) as [k Hk].
    destruct fuel as [|fuel]; [lia|].
    rewrite dec_items_S by (by destruct (enc f a)).
    rewrite (fmt_round _ Hf) by eauto using fits_app_l. simpl.
    rewrite IH by (eauto using fits_app_r || lia). done.
Qed.

Lemma dec_items_wf {A} (f : fmt A) fuel bs l rest :
  fmt_ok f → dec_items f fuel bs = Some (l, rest) → forallb (fwf f) l = true.
Proof.
  intros Hf. revert bs l; induction fuel as [|fuel IH]; intros bs l; simpl.
  - destruct bs; [|done]. by intros [= <- <-].
  - destruct bs as [|b bs]; [by intros [= <- <-]|].
    destruct (dec f (b :: bs)) as [[a bs1]|] eqn:H1; simpl; [|done].
    destruct (dec_items f fuel bs1) as [[l1 bs2]|] eqn:H2; simpl; [|done].
    intros [= <- <-]. simpl. by rewrite (fmt_wf _ Hf _ _ _ H1), (IH _ _ H2).
Qed.

Lemma vec_fmt_ok {A} (f : fmt A) : (∀ a, enc f a ≠ []) → fmt_ok f → fmt_ok (vec_fmt f).
Proof.
  intros Hne Hf. split; simpl.
  - intros l rest Hl Hfit.
    assert (fits (concat (map (enc f) l)) = true) as Hfit'
      by (unfold enc_list in Hfit; eauto using fits_app_r).
    rewrite dec_enc_list by by apply fits_len. simpl.
    pose proof (items_fmt_ok f Hne Hf l Hl Hfit') as Hi. simpl in Hi. by rewrite Hi.
  - intros bs l rest. destruct (dec_list bs) as [[p r]|]; simpl; [|done].
    destruct (dec_items f (length p) p) as [[l1 [|]]|] eqn:H1; simpl; try done.
    intros [= <- <-]. by eapply dec_items_wf.
Qed.

Lemma enc_str_nonempty bs : enc_str bs ≠ [].
Proof.
  unfold enc_str, header. destruct bs as [|? [|]]; repeat case_bool_decide; done.
Qed.
Lemma enc_list_nonempty bs : enc_list bs ≠ [].
Proof. unfold enc_list, header. by case_bool_decide. Qed.

(** ** The certificate structs, field by field in declaration order *)

Definition G1Point_fmt : fmt G1Point :=
  list_fmt (iso_fmt (λ '(a, b), {| x := a; y := b |}) (λ p, (x p, y p))
    (pair_fmt (uint_fmt 256) (uint_fmt 256))).
Definition Fp2_fmt : fmt Fp2 :=
  list_fmt (iso_fmt (λ '(a, b), {| fp2_0 := a; fp2_1 := b |}) (λ p, (fp2_0 p, fp2_1 p))
    (pair_fmt (uint_fmt 256) (uint_fmt 256))).
Definition G2Point_fmt : fmt G2Point :=
  list_fmt (iso_fmt (λ '(a, b), {| g2_x := a; g2_y := b |}) (λ p, (g2_x p, g2_y p))
    (pair_fmt Fp2_fmt Fp2_fmt)).
Definition BlobCommitment_fmt : fmt BlobCommitment :=
  list_fmt (iso_fmt
    (λ '(a, (b, (c, d))), {| commitment := a; length_commitment := b; length_proof := c; bc_length := d |})
    (λ r, (commitment r, (length_commitment r, (length_proof r, bc_length r))))
    (pair_fmt G1Point_fmt (pair_fmt G2Point_fmt (pair_fmt G2Point_fmt (uint_fmt 32))))).
Definition BlobHeaderV2_fmt : fmt BlobHeaderV2 :=
  list_fmt (iso_fmt
    (λ '(a, (b, (c, d))), {| version := a; quorum_numbers := b; bh_commitment := c; payment_header_hash := d |})
    (λ r, (version r, (quorum_numbers r, (bh_commitment r, payment_header_hash r))))
    (pair_fmt (uint_fmt 16) (pair_fmt bytes_fmt (pair_fmt BlobCommitment_fmt (fixed_fmt 32))))).
Definition BlobCertificate_fmt : fmt BlobCertificate :=
  list_fmt (iso_fmt
    (λ '(a, (b, c)), {| blob_header := a; signature := b; relay_keys := c |})
    (λ r, (blob_header r, (signature r, relay_keys r)))
    (pair_fmt BlobHeaderV2_fmt (pair_fmt bytes_fmt (vec_fmt (uint_fmt 32))))).
Definition BlobInclusionInfo_fmt : fmt BlobInclusionInfo :=
  list_fmt (iso_fmt
    (λ '(a, (b, c)), {| blob_certificate := a; blob_index := b; inclusion_proof := c |})
    (λ r, (blob_certificate r, (blob_index r, inclusion_proof r)))
    (pair_fmt BlobCertificate_fmt (pair_fmt (uint_fmt 32) bytes_fmt))).
Definition BatchHeaderV2_fmt : fmt BatchHeaderV2 :=
  list_fmt (iso_fmt
    (λ '(a, b), {| batch_root := a; reference_block_number := b |})
    (λ r, (batch_root r, reference_block_number r))
    (pair_fmt (fixed_fmt 32) (uint_fmt 32))).
Definition NonSigner_fmt : fmt NonSignerStakesAndSignature :=
  list_fmt (iso_fmt
    (λ '(a, (b, (c, (d, (e, (f, (g, h))))))),
       {| non_signer_quorum_bitmap_indices := a; non_signer_pubkeys := b; quorum_apks := c;
          apk_g2 := d; sigma := e; quorum_apk_indices := f; total_stake_indices := g;
          non_signer_stake_indices := h |})
    (λ r, (non_signer_quorum_bitmap_indices r, (non_signer_pubkeys r, (quorum_apks r,
       (apk_g2 r, (sigma r, (quorum_apk_indices r, (total_stake_indices r,
        non_signer_stake_indices r))))))))
    (pair_fmt (vec_fmt (uint_fmt 32)) (pair_fmt (vec_fmt G1Point_fmt)
     (pair_fmt (vec_fmt G1Point_fmt) (pair_fmt G2Point_fmt (pair_fmt G1Point_fmt
     (pair_fmt (vec_fmt (uint_fmt 32)) (pair_fmt (vec_fmt (uint_fmt 32))
      (vec_fmt (vec_fmt (uint_fmt 32))))))))))).
Definition EigenDACertV2_fmt : fmt EigenDACertV2 :=
  list_fmt (iso_fmt
    (λ '(a, (b, (c, d))), {| v2_blob_inclusion_info := a; v2_batch_header_v2 := b;
       v2_nonsigner_stake_and_signature := c; v2_signed_quorum_numbers := d |})
    (λ r, (v2_blob_inclusion_info r, (v2_batch_header_v2 r,
       (v2_nonsigner_stake_and_signature r, v2_signed_quorum_numbers r))))
    (pair_fmt BlobInclusionInfo_fmt (pair_fmt BatchHeaderV2_fmt
      (pair_fmt NonSigner_fmt bytes_fmt)))).
Definition EigenDACertV3_fmt : fmt EigenDACertV3 :=
  list_fmt (iso_fmt
    (λ '(a, (b, (c, d))), {| v3_batch_header_v2 := a; v3_blob_inclusion_info := b;
       v3_nonsigner_stake_and_signature := c; v3_signed_quorum_numbers := d |})
    (λ r, (v3_batch_header_v2 r, (v3_blob_inclusion_info r,
       (v3_nonsigner_stake_and_signature r, v3_signed_quorum_numbers r))))
    (pair_fmt BatchHeaderV2_fmt (pair_fmt BlobInclusionInfo_fmt
      (pair_fmt NonSigner_fmt bytes_fmt)))).
Definition EigenDACertV4_fmt : fmt EigenDACertV4 :=
  list_fmt (iso_fmt
    (λ '(a, (b, (c, (d, e)))), {| v4_batch_header_v2 := a; v4_blob_inclusion_info := b;
       v4_nonsigner_stake_and_signature := c; v4_signed_quorum_numbers := d;
       v4_offchain_derivation_version := e |})
    (λ r, (v4_batch_header_v2 r, (v4_blob_inclusion_info r,
       (v4_nonsigner_stake_and_signature r, (v4_signed_quorum_numbers r,
        v4_offchain_derivation_version r)))))
    (pair_fmt BatchHeaderV2_fmt (pair_fmt BlobInclusionInfo_fmt
      (pair_fmt NonSigner_fmt (pair_fmt bytes_fmt (uint_fmt 16)))))).

Ltac iso_tac := intros; repeat match goal with p : prod _ _ |- _ => destruct p end;
  destruct_cert_records; repeat match goal with
  | r : EigenDACertV2 |- _ => destruct r end; reflexivity.
Create HintDb fmt.
#[local] Hint Resolve bytes_fmt_ok fixed_fmt_ok pair_fmt_ok list_fmt_ok vec_fmt_ok : fmt.
#[local] Hint Extern 1 (fmt_ok (uint_fmt _)) => apply uint_fmt_ok; lia : fmt.
#[local] Hint Extern 1 (fmt_ok (iso_fmt _ _ _)) => apply iso_fmt_ok; [iso_tac|iso_tac|] : fmt.
#[local] Hint Extern 1 (enc _ _ ≠ []) => first [apply enc_str_nonempty|apply enc_list_nonempty] : fmt.

Lemma G1Point_fmt_ok : fmt_ok G1Point_fmt.
Proof. unfold G1Point_fmt. auto 10 with fmt. Qed.
Lemma G2Point_fmt_ok : fmt_ok G2Point_fmt.
Proof. unfold G2Point_fmt, Fp2_fmt. auto 20 with fmt. Qed.
#[local] Hint Resolve G1Point_fmt_ok G2Point_fmt_ok : fmt.
Lemma BlobInclusionInfo_fmt_ok : fmt_ok BlobInclusionInfo_fmt.
Proof.
  unfold BlobInclusionInfo_fmt, BlobCertificate_fmt, BlobHeaderV2_fmt, BlobCommitment_fmt.
  auto 40 with fmt.
Qed.
Lemma BatchHeaderV2_fmt_ok : fmt_ok BatchHeaderV2_fmt.
Proof. unfold BatchHeaderV2_fmt. auto 20 with fmt. Qed.
Lemma NonSigner_fmt_ok : fmt_ok NonSigner_fmt.
Proof. unfold NonSigner_fmt. auto 40 with fmt. Qed.
#[local] Hint Resolve BlobInclusionInfo_fmt_ok BatchHeaderV2_fmt_ok NonSigner_fmt_ok : fmt.
Lemma EigenDACertV2_fmt_ok : fmt_ok EigenDACertV2_fmt.
Proof. unfold EigenDACertV2_fmt. auto 20 with fmt. Qed.
Lemma EigenDACertV3_fmt_ok : fmt_ok EigenDACertV3_fmt.
Proof. unfold EigenDACertV3_fmt. auto 20 with fmt. Qed.
Lemma EigenDACertV4_fmt_ok : fmt_ok EigenDACertV4_fmt.
Proof. unfold EigenDACertV4_fmt. auto 20 with fmt. Qed.

(** ** The instances *)

Module Concrete.

Inductive concrete_rlp_error := InvalidInput.
#[export] Instance concrete_rlp_error_eq_dec : EqDecision concrete_rlp_error.
Proof. solve_decision. Defined.

#[export] Instance concrete_rlp_error_class : RlpError :=
  {| rlp_error := concrete_rlp_error; rlp_error_display := λ _, "invalid rlp" |}.

Definition fmt_rlp {A} (f : fmt A) : Rlp A :=
  {| rlp_encode := enc f;
     rlp_decode := λ bs, match dec f bs with Some (a, _) => Ok a | None => Err InvalidInput end |}.

Lemma fmt_rlp_laws {A} (f : fmt A) (wf : A → bool) :
  fmt_ok f → (∀ a, enc f a ≠ []) → (∀ a, fwf f a = wf a) → RlpLaws (H0 := fmt_rlp f) wf.
Proof.
  intros Hf Hne Hwf. split; simpl.
  - intros a rest Ha Hfit. rewrite <-Hwf in Ha. by rewrite (fmt_round _ Hf).
  - intros bs a. destruct (dec f bs) as [[a1 r]|] eqn:H1; [|done]. intros [= <-].
    rewrite <-Hwf. by apply (fmt_wf _ Hf _ _ _ H1).
  - done.
Qed.

(** A 32-byte digest that separates the inputs evaluated here; any function to
    32 bytes does. *)
Definition toy_hash (bs : Bytes) : B256 :=
  to_be_bytes 32 (fold_left (λ acc b,
    Z.land (acc * 0xc18e95 + u8_to_Z b + 1) (2 ^ 64 - 1)) bs 0).

#[export] Instance toy_keccak : Keccak :=
  {| keccak256 := toy_hash; length_keccak256 := λ bs, length_to_be_bytes 32 _ |}.

#[export] Instance concrete_alloy : Alloy :=
  {| alloy_rlp_error := concrete_rlp_error_class;
     alloy_rlp_v2 := fmt_rlp EigenDACertV2_fmt;
     alloy_rlp_v3 := fmt_rlp EigenDACertV3_fmt;
     alloy_rlp_v4 := fmt_rlp EigenDACertV4_fmt;
     alloy_keccak := toy_keccak |}.

Ltac fwf_tac :=
  cbn [fwf list_fmt iso_fmt pair_fmt vec_fmt items_fmt bytes_fmt fixed_fmt uint_fmt fst snd];
  rewrite ?andb_true_r, ?andb_true_l, ?andb_assoc; reflexivity.

Lemma BlobInclusionInfo_fwf a : fwf BlobInclusionInfo_fmt a = BlobInclusionInfo_wf a.
Proof.
  unfold BlobInclusionInfo_wf, BlobCertificate_wf, BlobHeaderV2_wf, BlobCommitment_wf,
    BlobInclusionInfo_fmt, BlobCertificate_fmt, BlobHeaderV2_fmt, BlobCommitment_fmt.
  fwf_tac.
Qed.
Lemma BatchHeaderV2_fwf a : fwf BatchHeaderV2_fmt a = BatchHeaderV2_wf a.
Proof. unfold BatchHeaderV2_fmt, BatchHeaderV2_wf. fwf_tac. Qed.
Lemma NonSigner_fwf a : fwf NonSigner_fmt a = NonSigner_wf a.
Proof. unfold NonSigner_fmt, NonSigner_wf. fwf_tac. Qed.

#[export] Instance concrete_alloy_laws : AlloyLaws.
Proof.
  split; apply fmt_rlp_laws;
    auto using EigenDACertV2_fmt_ok, EigenDACertV3_fmt_ok, EigenDACertV4_fmt_ok;
    try (intros; apply enc_list_nonempty); intros a;
    unfold EigenDACertV2_wf, EigenDACertV3_wf, EigenDACertV4_wf;
    rewrite <-BlobInclusionInfo_fwf, <-BatchHeaderV2_fwf, <-NonSigner_fwf;
    cbn [fwf EigenDACertV2_fmt EigenDACertV3_fmt EigenDACertV4_fmt list_fmt iso_fmt pair_fmt
         bytes_fmt uint_fmt fst snd]; rewrite ?andb_true_r, ?andb_true_l, ?andb_assoc; done.
Qed.

(** A small commitment with a V4 certificate.  Its KZG commitment is a point of the
    concrete curve library, and commits to the encoding of the payload "hi". *)
Definition sample_point : Z :=
  21486197758591783279582772906769162672839126277476991963582679352950837477429.
Definition sample_commitment (ver rbn : Z) : AltDACommitment :=
  let g1 := {| x := sample_point; y := sample_point |} in
  let g2 := {| g2_x := {| fp2_0 := 3; fp2_1 := 4 |}; g2_y := {| fp2_0 := 5; fp2_1 := 6 |} |} in
  {| commitment_type := x01; da_layer_byte := x00;
     versioned_cert := V4 {|
       v4_batch_header_v2 := {| batch_root := zeros 32; reference_block_number := rbn |};
       v4_blob_inclusion_info := {|
         blob_certificate := {|
           blob_header := {| version := 0; quorum_numbers := [x00; x01];
             bh_commitment := {| commitment := g1; length_commitment := g2; length_proof := g2;
               bc_length := 2 |};
             payment_header_hash := zeros 32 |};
           signature := []; relay_keys := [0] |};
         blob_index := 7; inclusion_proof := [] |};
       v4_nonsigner_stake_and_signature := {|
         non_signer_quorum_bitmap_indices := []; non_signer_pubkeys := []; quorum_apks := [];
         apk_g2 := g2; sigma := g1; quorum_apk_indices := []; total_stake_indices := [];
         non_signer_stake_indices := [] |};
       v4_signed_quorum_numbers := [x00; x01];
       v4_offchain_derivation_version := ver |} |}.

(** The tests' V2 and V3 certificates, as commitment bytes. *)
Definition test_v2_bytes : Bytes := hex_bytes
"010001f9035ef901cdf901c8f9018080820001f90158f842a013cb9a6e004f28a193672a95b2ee4a2addc14bfe705eb3c1695f34dccfdf4d7fa01de675df78f68e6f40643f148b7dcf7b30e7bbb5ec5ed66efcf82e02a148b45ef888f842a00ca1a4b18243aed65a6887cb3da7ab7a9b8138261ad5fa7a7ef61fcf45ad0f77a012969add06ec97e0b24ef9f69633114966952c02150f8bb28a55a5fac60c7644f842a00c137feb7cf2cf625b826eebd5a1ffd400446e03336c6ff07061b7a9adc32376a00cd9277cc3e8c2a6c896c4e7c045504d1cff34ec9e8a6648e8ef4f335ae5b943f887f842a02b977c12979aed6688323f70e2d5ca9e2640fe14bf0a5e26ddfac95134d9c09ea02c204a0405fb9c3cb890219c6fccff0a9a265415656c5896449884c6a64caedef841a00104c001661c0169aac0fb16db9f30b70f8e13da88c539904b61895d3494c7889fca145e3f25f772c7e951708a541d8d14bb923edea351eeb0bbc928ae5b798508a0676a73762570ea5c17427aed9db14a85b268fafc282cbbe0c3db9165487133c9b84118cf5bd976613bb6a63009b15613d137f2555d2418da654a11781ac2cf5bf2fb63d44a580d2f15628f4b1cdb9526e1f774360b8ef2e5e451f18a80411d06b42b01c1808080e5a05e27869d58bd1fe21f34d0e9120abe775896df7c0829cf4d870f576f188cbe30838a8d05f90162c0c0f888f842a02099209289cdb7e5087d0401996d2fd9b52ce5cae39c547a039f126371a7f9bca026139d9d30188c9d52468ce9dfb48c39d552243611d5b270f5497c2b8692c696f842a02b2dabbf32c0cb551d3ba9159ae5c985ebcd71d79b00fabd26a74d618065bfd6a01bef832bd3efaea9f61c0582fb123bb547546f0c5910a9dda96bcd0063d57a02f888f842a027b90b5da16ef02417ad5820223e680d2c2d19a3f1d30566cfbb7b9aa30abf6da022432d9b57d271b8dd84bfb4ccd9df36b84e422cb471b35d50d55ae83a03f16ef842a0018ed79d6c0707cc6f4ec81bcea6c4cc0096f0e3635961caf3271c3c9a36a9dfa0179360dc4646a7c49bf730e1789c00622facd7836faa3c747be0f2d824cb1412f841a02147a377c426a6b91bd27342dfe180882d130d9fbbdcb147477f025082135c189f468884960c4e83243b3aeb52ef2eb017fa81ec4b98f63bedc7c1dc27ec0bfec20705c20805c2c0c0820001".
Definition test_v3_bytes : Bytes := hex_bytes
"010002f9047ce5a04c617ac0dcf14f58a1d58e80c9902e2c199474989563dc59566d5bd5ad1b640a838deb8cf901cef901c9f9018180820001f90159f842a02f79ec81c41b992e9dec0c96fe5d970657bd5699560b1eaca902b6d8d95b69d9a014aee8fa5e2bd3a23ce376c537248acce7c29a74962218a4cc19c483d962dcf7f888f842a01c4c0eec183bf264a5b96b2ddc64e400a3f03752fb9d4296f3b4729e237ea40da01303695a7e9cba15f6ecb2e5da94826c94e557d94a491b61b42e2fb577bf5983f842a00c4bb24f65dd9d63401f8fb5aa680c36c3a18c06996511ce14544d77bc3659bba01a201aef9dceb92540f58243194aeae5c4b5953dddf17925c5a56bcb57ec19adf888f842a02a71a11141df9d0a5158602444003491763859afb77b1566a3eabafc162d4617a027bfbe487a7507ab70b6b42433850f8b7be21ab2c268f415cb68608506da9114f842a013002e07d4f2259193d9aa06a01866dc527221d65cc5c49c4c05cfc281d873c1a02d47dba83902698378718ab5c589eb9c7daa5f9641a5ce160f112bc65b40227308a0731bd6915a6ccea1380db7f0695ad67ee03bfbd59ac8c7976ee25f7ec9515037b8414cd74a3034296d0e2d63ce879dbe578e0715c29fd388c9babb38bd99ef45c64d548d60eec508758c6101b4b01ff2b65ff503fa485a8035a54edd1bc71d84430e00c1808080f9027fc401808080f9010ff842a01cd040b326ae7cd372763fafb595470d3613f6fb3d824582bf02edcb735ccb0fa017bbe7ebc3167abad8710ecd335b37a1b63d1f0119569bcf3f84d2125810a294f842a0297ac518058025f67f0c0cc4d735965f242540ddbf998491e5b66a5c9d56c712a00dc76d3bfe805d8ad41c96a5d3696ecd22c44049057fbb2b2f3e0c204f5dd745f8419f9a9a3504786f979f4011c180069d0127599773df85c02f550c8bcd4336d150a02bf5de7c6791a70185eb0eef04661bbf6f3596569843dbd9172eea27ad484249f842a020304749b8c2e65c4a82035cf1c559ea8b8d7ab9a94b6dc7d4b79299be445ae9a02b4d5e4ecb245d94af3d6c279c1a86fb452401355be715ac4887fcdcf7642ce4f888f842a02099209289cdb7e5087d0401996d2fd9b52ce5cae39c547a039f126371a7f9bca026139d9d30188c9d52468ce9dfb48c39d552243611d5b270f5497c2b8692c696f842a02b2dabbf32c0cb551d3ba9159ae5c985ebcd71d79b00fabd26a74d618065bfd6a01bef832bd3efaea9f61c0582fb123bb547546f0c5910a9dda96bcd0063d57a02f888f842a0171e10f7d012c823ceb26e40245a97375804a82ca8f92e0dd49fc5f76c3b093ea028946cc01b7092bb709a72c07184d84821125632337d4c8f9a063afcefdc57c0f842a00df37a0480625fa5ab86d78e4664d2bacfed6c4e7562956bfc95f2b9efd1977ca0121ae7669b68221699c6b4eb057acbf2e58d4fb4b4da7aa5e4deaaac513f6ce0f842a01abcc37d2cbe680d5d6d3ebeddc3f5b09f103e2fa3a20a887c573f2ac5ab6e36a01a23d0ac964f04643eb3206db5a81e678fc484f362d3c7442657735e678298c3c20705c20805c9c3018080c480808080820001".

End Concrete.
