(* ===== verification/CommitmentTheory.v ===== *)
(** * Theorems on AltDA commitments

    The wire format of altda_commitment.rs: parsing inverts serialisation, the
    error of a failed parse says what is wrong with the bytes, and the digest
    under which preimages are stored binds the commitment. *)

From S2P Require Import RlpInstance AltDACommitment.

Section claims.
Context `{!Alloy, !AlloyLaws}.

(** C28: parsing inverts serialisation for every well-formed commitment of
    type 1 and DA layer 0, whatever the version of its certificate; bytes
    behind the certificate are ignored. *)
Theorem parse_serialize c rest :
  AltDACommitment_wf c = true → header_ok c = true → fits (to_rlp_bytes c) = true →
  try_from (to_rlp_bytes c ++ rest) = Ok c.
Proof.
  destruct c as [ty layer v]. unfold AltDACommitment_wf, header_ok, to_rlp_bytes.
  cbn [commitment_type da_layer_byte versioned_cert].
  rewrite andb_true_iff, !bool_decide_eq_true. intros Hwf [-> ->] Hf%fits_drop3.
  cbn [app]. unfold try_from. pose proof (encode_cert_nonempty v) as Hne.
  rewrite bool_decide_false by
    (destruct (encode_cert v); [done|]; cbn [length app]; lia).
  rewrite !bool_decide_false by (intros []; done).
  by rewrite decode_encode_cert, Ok_bind.
Qed.

(** C36: the result of a parse describes its input: each error names the first
    check that fails, and an accepted input is the three header bytes followed
    by bytes that decode to the certificate, whose fields are in range. *)
Theorem try_from_describes bs :
  match try_from bs with
  | Err InsufficientData => (length bs < 4)%nat
  | Err UnsupportedCommitmentType =>
      ∃ ty rest, bs = ty :: rest ∧ (3 ≤ length rest)%nat ∧ ty ≠ x01
  | Err UnsupportedDaLayerType =>
      ∃ layer rest, bs = x01 :: layer :: rest ∧ (2 ≤ length rest)%nat ∧ layer ≠ x00
  | Err (UnsupportedCertVersionType v) =>
      ∃ rest, bs = x01 :: x00 :: v :: rest ∧ rest ≠ [] ∧ v ∉ [x01; x02; x03]
  | Err (InvalidRlpCert e) =>
      ∃ v rest, bs = x01 :: x00 :: v :: rest ∧ v ∈ [x01; x02; x03] ∧
        decode_versioned_cert v rest = Err (InvalidRlpCert e)
  | Ok c =>
      ∃ rest, bs = x01 :: x00 :: version_byte (versioned_cert c) :: rest ∧
        decode_versioned_cert (version_byte (versioned_cert c)) rest = Ok (versioned_cert c) ∧
        header_ok c = true ∧ AltDACommitment_wf c = true
  end.
Proof.
  destruct (try_from bs) as [c|e] eqn:Hp.
  { destruct (try_from_Ok_inv _ _ Hp) as (rest & -> & _ & Hd & Hh & Hw). by exists rest. }
  unfold try_from in Hp. case_bool_decide as Hlen; [by injection Hp as <-|].
  destruct bs as [|ty [|layer [|ver [|b rest]]]]; [cbn [length] in Hlen; lia..|].
  case_bool_decide as Hty.
  { injection Hp as <-. do 2 eexists. split_and!; [done|cbn [length]; lia|done]. }
  case_bool_decide as Hl.
  { injection Hp as <-. subst ty. do 2 eexists. split_and!; [done|cbn [length]; lia|done]. }
  subst ty layer. apply result_bind_Err_inv in Hp as [Hd|(? & _ & [=])].
  assert (Hcase : (∃ e', e = InvalidRlpCert e' ∧ ver ∈ [x01; x02; x03]) ∨
    (e = UnsupportedCertVersionType ver ∧ ver ∉ [x01; x02; x03])).
  { destruct ver; cbn in Hd;
      try (right; split; [by injection Hd as <-|vm_decide]);
      (destruct (rlp_decode _) in Hd; [done|]; injection Hd as <-; left;
       eexists; split; [done|]; vm_decide). }
  destruct Hcase as [(e' & -> & Hv)|[-> Hv]]; [by exists ver, (b :: rest)|].
  by exists (b :: rest).
Qed.

(** C37: the digest binds the commitment: two well-formed commitments with one
    digest are equal, or their serialisations are a collision of keccak256. *)
Theorem digest_binds c c' :
  AltDACommitment_wf c = true → AltDACommitment_wf c' = true →
  fits (to_rlp_bytes c) = true → fits (to_rlp_bytes c') = true →
  to_digest c = to_digest c' →
  c = c' ∨
  (to_rlp_bytes c ≠ to_rlp_bytes c' ∧
   keccak256 (to_rlp_bytes c) = keccak256 (to_rlp_bytes c')).
Proof.
  intros Hw Hw' Hf Hf' Hd.
  destruct (decide (to_rlp_bytes c = to_rlp_bytes c')) as [Heq|Hne]; [|right; split; [done|exact Hd]].
  left. by apply to_rlp_bytes_inj.
Qed.
End claims.

(** ** Witnesses *)

Import Concrete.

Lemma parse_serialize_witness :
  try_from (to_rlp_bytes (sample_commitment 0 9000) ++ [x2a]) = Ok (sample_commitment 0 9000).
Proof. apply parse_serialize; vm_decide. Defined.

Lemma try_from_describes_witness :
  ∃ rest, [x01; x00; x05; x2a] = x01 :: x00 :: x05 :: rest ∧ rest ≠ [] ∧ x05 ∉ [x01; x02; x03].
Proof. exact (try_from_describes (H := concrete_alloy) [x01; x00; x05; x2a]). Defined.

Lemma digest_binds_witness :
  let c := sample_commitment 0 9000 in
  c = c ∨ (to_rlp_bytes c ≠ to_rlp_bytes c ∧ to_digest c = to_digest c).
Proof. apply (digest_binds (H := concrete_alloy)); vm_decide. Defined.

(** The certificates of the tests: their reference block numbers and lengths. *)
Definition parsed {B} (f : AltDACommitment → B) (bs : Bytes) : option B :=
  match try_from bs with Ok c => Some (f c) | Err _ => None end.

Example test_v2_rbn : parsed get_rbn test_v2_bytes = Some 9080069.
Proof. vm_compute. reflexivity. Qed.
Example test_v3_rbn : parsed get_rbn test_v3_bytes = Some 9300876.
Proof. vm_compute. reflexivity. Qed.
Example test_v3_num : parsed get_num_field_element test_v3_bytes = Some 8.
Proof. vm_compute. reflexivity. Qed.
Example test_v3_reencoded : parsed to_rlp_bytes test_v3_bytes = Some test_v3_bytes.
Proof. vm_compute. reflexivity. Qed.
