(* ===== verification/Errors.v ===== *)
(** * Application errors (crates/eigenda/src/errors.rs)

    The error enums of the derivation, their [Display] texts and the
    conversions that decide whether an error discards a certificate, is retried,
    or is fatal.  Also the constants of constant.rs. *)

From S2P Require Export AltDACommitment.

(** ** constant.rs *)

Definition PAYLOAD_ENCODING_VERSION_0 : byte := x00.
Definition BYTES_PER_FIELD_ELEMENT : nat := 32.
Definition ENCODED_PAYLOAD_HEADER_LEN_BYTES : nat := 32.
Definition ALTDA_DERIVATION_VERSION : byte := x01.

(** ** errors.rs *)

Inductive HokuleaErrorKind :=
| Discard (s : string)
| Temporary (s : string)
| Critical (s : string).

#[export] Instance HokuleaErrorKind_eq_dec : EqDecision HokuleaErrorKind.
Proof. solve_decision. Defined.

Inductive EncodedPayloadDecodingError :=
| InvalidLengthEncodedPayload (n : Z)
| InvalidPowerOfTwoLength (n : Z)
| InvalidHeaderFirstByte (b : byte)
| PayloadTooShortForHeader (expected actual : Z)
| UnknownEncodingVersion (v : byte)
| DecodedPayloadBodyTooShort (actual claimed : Z)
| InvalidFirstByteFieldElementPadding (b : byte)
| InvalidEncodedPayloadBodyPadding (b : byte)
| InvalidEncodedPayloadHeaderPadding (b : byte).

#[export] Instance EncodedPayloadDecodingError_eq_dec :
  EqDecision EncodedPayloadDecodingError.
Proof. solve_decision. Defined.

Definition EncodedPayloadDecodingError_display (e : EncodedPayloadDecodingError) : string :=
  match e with
  | InvalidLengthEncodedPayload n =>
      "invalid number of bytes in the encoded payload " +:+ display_uint n +:+
      ", that is not multiple of bytes per field element"
  | InvalidPowerOfTwoLength n =>
      "encoded payload must be a power of 2 field elements (32 bytes chunks), but got " +:+
      display_uint n +:+ " field elements"
  | InvalidHeaderFirstByte b =>
      "encoded payload header first byte must be 0x00, but got " +:+ display_hex_u8 b
  | PayloadTooShortForHeader expected actual =>
      "encoded payload must be at least " +:+ display_uint expected +:+
      " bytes long to contain a header, but got " +:+ display_uint actual +:+ " bytes"
  | UnknownEncodingVersion v =>
      "unknown encoded payload header version: " +:+ display_uint (u8_to_Z v)
  | DecodedPayloadBodyTooShort actual claimed =>
      "length of unpadded data " +:+ display_uint actual +:+
      " is less than length claimed in encoded payload header " +:+ display_uint claimed
  | InvalidFirstByteFieldElementPadding b =>
      "non-zero byte encountered in the first byte of multiples of 32 bytes: " +:+
      display_uint (u8_to_Z b)
  | InvalidEncodedPayloadBodyPadding b =>
      "non-zero padding byte encountered in the encoded payload body: " +:+
      display_uint (u8_to_Z b)
  | InvalidEncodedPayloadHeaderPadding b =>
      "non-zero padding byte encountered in the encoded payload header: " +:+
      display_uint (u8_to_Z b)
  end.

Inductive HokuleaRecencyCheckError := NotRecentCert.
#[export] Instance HokuleaRecencyCheckError_eq_dec : EqDecision HokuleaRecencyCheckError.
Proof. solve_decision. Defined.
Definition HokuleaRecencyCheckError_display (e : HokuleaRecencyCheckError) : string :=
  match e with NotRecentCert => "da cert is not recent enough" end.

Inductive HokuleaPreimageError := InvalidCert.
#[export] Instance HokuleaPreimageError_eq_dec : EqDecision HokuleaPreimageError.
Proof. solve_decision. Defined.

(** [impl From<HokuleaPreimageError> for HokuleaErrorKind] *)
Definition HokuleaPreimageError_into (e : HokuleaPreimageError) : HokuleaErrorKind :=
  match e with
  | InvalidCert => Discard "da cert is invalid or inconsistent offchain code version"
  end.

Section stateless.
Context `{!Alloy}.

Inductive HokuleaStatelessError :=
| InsufficientLengthAltDACommimtment
| ParseError (e : AltDACommitmentParseError)
| DecodingError (e : EncodedPayloadDecodingError)
| RecencyCheckError (e : HokuleaRecencyCheckError)
| UnsupportedOffchainDerivationVersion (v : Z).

#[export] Instance HokuleaStatelessError_eq_dec : EqDecision HokuleaStatelessError.
Proof. solve_decision. Defined.

(** [impl From<HokuleaStatelessError> for HokuleaErrorKind] *)
Definition HokuleaStatelessError_into (e : HokuleaStatelessError) : HokuleaErrorKind :=
  match e with
  | InsufficientLengthAltDACommimtment => Discard "Insufficient EigenDA Cert Length"
  | ParseError e => Discard (AltDACommitmentParseError_display e)
  | DecodingError e => Discard (EncodedPayloadDecodingError_display e)
  | RecencyCheckError e => Discard (HokuleaRecencyCheckError_display e)
  | UnsupportedOffchainDerivationVersion e =>
      Critical ("cannot support offchain derivation version" +:+ display_uint e)
  end.
End stateless.
