(* ===== verification/EncodedPayload.v ===== *)
(** * Encoded payloads (crates/eigenda/src/eigenda_data.rs)

    The decoder of payload encoding version 0, and its specification: the
    encoder [encode_v0] that the comments of constant.rs describe.  [decode]
    accepts exactly the images of [encode_v0]. *)

From S2P Require Export Errors.

(** [for b in bs { if *b != 0 { return Err(f( *b)) } }] *)
Fixpoint all_zero_or {E} (f : byte → E) (bs : Bytes) : result E unit :=
  match bs with
  | [] => Ok tt
  | b :: bs => if bool_decide (b ≠ x00) then Err (f b) else all_zero_or f bs
  end.

Lemma all_zero_or_Ok {E} (f : byte → E) bs u :
  all_zero_or f bs = Ok u ↔ bs = zeros (length bs).
Proof.
  destruct u. induction bs as [|b bs IH]; [done|]. simpl.
  unfold zeros in *; simpl. case_bool_decide as Hb.
  - split; [done|]. intros [= ? _]. done.
  - subst b. rewrite IH. split; [by intros <-|by intros [=]].
Qed.

(** [bs.chunks_exact(n)]: the [len / n] chunks. *)
Fixpoint chunks (k n : nat) (bs : Bytes) : list Bytes :=
  match k with O => [] | S k => take n bs :: chunks k n (drop n bs) end.
Definition chunks_exact (n : nat) (bs : Bytes) : list Bytes :=
  chunks (length bs / n) n bs.

Record EncodedPayload := { encoded_payload : Bytes }.
#[export] Instance EncodedPayload_eq_dec : EqDecision EncodedPayload.
Proof. solve_decision. Defined.

Definition deserialize (bytes : Bytes) : EncodedPayload := {| encoded_payload := bytes |}.
Definition serialize (ep : EncodedPayload) : Bytes := encoded_payload ep.

Definition num_field_element (ep : EncodedPayload) : Z :=
  Z.of_nat (length (encoded_payload ep) / BYTES_PER_FIELD_ELEMENT).

(** [fn is_power_of_two(n: usize)] *)
Definition is_power_of_two (n : Z) : bool :=
  bool_decide (n ≠ 0) && bool_decide (Z.land n (n - 1) = 0).

Section decode.
Context `{!Alloy}.

Definition check_len_invariant (ep : EncodedPayload) : result HokuleaStatelessError unit :=
  let len := length (encoded_payload ep) in
  if bool_decide (len < ENCODED_PAYLOAD_HEADER_LEN_BYTES)%nat then
    Err (DecodingError (PayloadTooShortForHeader
      (Z.of_nat ENCODED_PAYLOAD_HEADER_LEN_BYTES) (Z.of_nat len)))
  else if negb (bool_decide (len mod BYTES_PER_FIELD_ELEMENT = 0)%nat) then
    Err (DecodingError (InvalidLengthEncodedPayload (Z.of_nat len)))
  else
    let num_field_elements := Z.of_nat (len / BYTES_PER_FIELD_ELEMENT) in
    if negb (is_power_of_two num_field_elements) then
      Err (DecodingError (InvalidPowerOfTwoLength num_field_elements))
    else Ok tt.

(** Indexing is in range behind the length test. *)
Definition decode_header (ep : EncodedPayload) : result HokuleaStatelessError Z :=
  let bs := encoded_payload ep in
  if bool_decide (length bs < ENCODED_PAYLOAD_HEADER_LEN_BYTES)%nat then
    Err (DecodingError (PayloadTooShortForHeader
      (Z.of_nat ENCODED_PAYLOAD_HEADER_LEN_BYTES) (Z.of_nat (length bs))))
  else if bool_decide (bs !!! 0%nat ≠ x00) then
    Err (DecodingError (InvalidHeaderFirstByte (bs !!! 0%nat)))
  else
    payload_length ←
      (if bool_decide (bs !!! 1%nat = PAYLOAD_ENCODING_VERSION_0) then
         Ok (from_be_bytes [bs !!! 2%nat; bs !!! 3%nat; bs !!! 4%nat; bs !!! 5%nat])
       else Err (DecodingError (UnknownEncodingVersion (bs !!! 1%nat))));
    _ ← all_zero_or (λ b, DecodingError (InvalidEncodedPayloadHeaderPadding b))
          (drop 6 (take ENCODED_PAYLOAD_HEADER_LEN_BYTES bs));
    Ok payload_length.

(** The loop over the chunks, with the body decoded so far. *)
Fixpoint remove_padding (cs : list Bytes) (decoded_body : Bytes) :
    result HokuleaStatelessError Bytes :=
  match cs with
  | [] => Ok decoded_body
  | chunk :: cs =>
      if bool_decide (chunk !!! 0%nat ≠ x00) then
        Err (DecodingError (InvalidFirstByteFieldElementPadding (chunk !!! 0%nat)))
      else remove_padding cs (decoded_body ++ drop 1 (take 32 chunk))
  end.

Definition check_and_remove_zero_padding_for_field_elements (encoded_body : Bytes) :
    result HokuleaStatelessError Bytes :=
  if negb (bool_decide (length encoded_body mod BYTES_PER_FIELD_ELEMENT = 0)%nat) then
    Err (DecodingError (InvalidLengthEncodedPayload (Z.of_nat (length encoded_body))))
  else remove_padding (chunks_exact BYTES_PER_FIELD_ELEMENT encoded_body) [].

(** [slice(32..)] panics on fewer than 32 bytes; [decode] has tested the length. *)
Definition decode_payload (ep : EncodedPayload) (payload_len : Z) :
    result HokuleaStatelessError Bytes :=
  let body := drop ENCODED_PAYLOAD_HEADER_LEN_BYTES (encoded_payload ep) in
  decoded_body ← check_and_remove_zero_padding_for_field_elements body;
  if bool_decide (Z.of_nat (length decoded_body) < payload_len) then
    Err (DecodingError (DecodedPayloadBodyTooShort
      (Z.of_nat (length decoded_body)) payload_len))
  else
    _ ← all_zero_or (λ b, DecodingError (InvalidEncodedPayloadBodyPadding b))
          (drop (Z.to_nat payload_len) decoded_body);
    Ok (take (Z.to_nat payload_len) decoded_body).

Definition decode (ep : EncodedPayload) : result HokuleaStatelessError Bytes :=
  _ ← check_len_invariant ep;
  payload_len_in_header ← decode_header ep;
  decode_payload ep payload_len_in_header.
End decode.

(** ** Specification: the encoder *)

(** [k] field elements of a zero byte and 31 bytes of data. *)
Fixpoint pad_chunks (k : nat) (data : Bytes) : Bytes :=
  match k with O => [] | S k => x00 :: take 31 data ++ pad_chunks k (drop 31 data) end.

Definition header_v0 (len : Z) : Bytes := [x00; PAYLOAD_ENCODING_VERSION_0] ++ to_be_bytes 4 len ++ zeros 26.

(** The payload [p] in an encoded payload of [k] field elements. *)
Definition encode_v0 (k : nat) (p : Bytes) : Bytes :=
  header_v0 (Z.of_nat (length p)) ++
  pad_chunks (k - 1) (p ++ zeros (31 * (k - 1) - length p)).

(** [k] is a power of two that leaves room for [p], whose length fits in a [u32]. *)
Definition room_for (k : nat) (p : Bytes) : Prop :=
  (∃ e : nat, k = 2 ^ e)%nat ∧ (length p ≤ 31 * (k - 1))%nat ∧ Z.of_nat (length p) < 2 ^ 32.

(** ** Lemmas *)

Lemma is_power_of_two_pow n :
  0 ≤ n → is_power_of_two n = true ↔ ∃ e : nat, n = 2 ^ Z.of_nat e.
Proof.
  intros Hn. unfold is_power_of_two. rewrite andb_true_iff, !bool_decide_eq_true. split.
  - intros [Hnz Hland]. exists (Z.to_nat (Z.log2 n)).
    pose proof (Z.log2_nonneg n). rewrite Z2Nat.id by done.
    destruct (Z.log2_spec n) as [Hlo Hhi]; [lia|].
    destruct (decide (n = 2 ^ Z.log2 n)) as [|Hne]; [done|exfalso].
    assert (Hlog : Z.log2 (n - 1) = Z.log2 n).
    { apply Z.log2_unique; [done|]. lia. }
    assert (Hbit : Z.testbit (Z.land n (n - 1)) (Z.log2 n) = true).
    { rewrite Z.land_spec, Z.bit_log2 by lia. rewrite <-Hlog. apply Z.bit_log2.
      pose proof (Z.pow_pos_nonneg 2 (Z.log2 n)). lia. }
    by rewrite Hland, Z.bits_0 in Hbit.
  - intros [e ->]. pose proof (Z.pow_pos_nonneg 2 (Z.of_nat e)). split; [lia|].
    rewrite Z.sub_1_r, <-Z.ones_equiv, Z.land_ones by lia.
    by apply Z.mod_same; lia.
Qed.

Lemma length_pad_chunks k data :
  length data = (31 * k)%nat → length (pad_chunks k data) = (32 * k)%nat.
Proof.
  revert data; induction k as [|k IH]; intros data Hd; [done|].
  cbn [pad_chunks length]. autorewrite with hok_len.
  rewrite IH by (rewrite length_drop; lia). lia.
Qed.

Lemma length_header_v0 n : length (header_v0 n) = 32%nat.
Proof. unfold header_v0. autorewrite with hok_len. done. Qed.

Lemma chunks_pad_chunks_cons k data :
  length data = (31 * S k)%nat →
  chunks (S k) 32 (pad_chunks (S k) data) =
    (x00 :: take 31 data) :: chunks k 32 (pad_chunks k (drop 31 data)).
Proof.
  intros Hd. cbn [chunks pad_chunks]. f_equal.
  - change (x00 :: take 31 data ++ ?l) with ((x00 :: take 31 data) ++ l).
    rewrite take_app_le, take_ge; simpl length; rewrite ?length_take; lia || done.
  - f_equal. change (x00 :: take 31 data ++ ?l) with ((x00 :: take 31 data) ++ l).
    rewrite drop_app_ge; simpl length; rewrite ?length_take; [|lia].
    by replace (32 - _)%nat with 0%nat by lia.
Qed.

Lemma room_for_pos k p : room_for k p → (1 ≤ k)%nat.
Proof. intros [[e ->] _]. apply Nat.pow_lower_bound. lia. Qed.

Lemma length_encode_v0 k p : room_for k p → length (encode_v0 k p) = (32 * k)%nat.
Proof.
  intros Hroom. pose proof (room_for_pos _ _ Hroom). destruct Hroom as (_ & Hle & _).
  unfold encode_v0. rewrite length_app, length_header_v0, length_pad_chunks; [lia|].
  autorewrite with hok_len. lia.
Qed.

Lemma take_encode_v0 k p : take 32 (encode_v0 k p) = header_v0 (Z.of_nat (length p)).
Proof.
  unfold encode_v0. rewrite take_app_le, take_ge; rewrite ?length_header_v0; done.
Qed.

Lemma drop_encode_v0 k p :
  drop 32 (encode_v0 k p) = pad_chunks (k - 1) (p ++ zeros (31 * (k - 1) - length p)).
Proof.
  unfold encode_v0. by rewrite drop_app_ge, length_header_v0, Nat.sub_diag, drop_0
    by (by rewrite length_header_v0).
Qed.

Section decode_lemmas.
Context `{!Alloy}.

(** The loop strips the padding of [k] chunks, and nothing else passes it. *)
Lemma remove_padding_Ok k bs acc r :
  length bs = (32 * k)%nat →
  remove_padding (chunks k 32 bs) acc = Ok r ↔
  ∃ data, length data = (31 * k)%nat ∧ bs = pad_chunks k data ∧ r = acc ++ data.
Proof.
  revert bs acc; induction k as [|k IH]; intros bs acc Hlen.
  - apply nil_length_inv in Hlen as ->. simpl. split.
    + intros [= <-]. exists []. by rewrite app_nil_r.
    + intros (data & Hd & _ & ->). apply nil_length_inv in Hd as ->. by rewrite app_nil_r.
  - destruct bs as [|b bs]; [simpl in Hlen; lia|]. split.
    + cbn [chunks remove_padding]. cbn [take].
      change ((b :: ?l) !!! 0%nat) with b. case_bool_decide as Hb; [done|].
      rewrite IH by (rewrite length_drop; lia).
      intros (data & Hd & Hbs & ->).
      subst b. exists (take 31 bs ++ data).
      cbn [length] in Hlen. cbn [drop] in Hbs.
      assert (Ht : length (take 31 bs) = 31%nat) by (rewrite length_take; lia).
      split; [autorewrite with hok_len in *; lia|]. split.
      * cbn [pad_chunks].
        rewrite take_app_le, (take_ge (take 31 bs)) by lia.
        rewrite drop_app_ge, Ht, Nat.sub_diag, drop_0, <-Hbs, take_drop by lia. done.
      * rewrite <-app_assoc. f_equal. f_equal. cbn [drop take].
        by rewrite take_take, drop_0.
    + intros (data & Hd & Hbs & ->). rewrite Hbs, chunks_pad_chunks_cons by done.
      cbn [remove_padding]. change ((x00 :: ?l) !!! 0%nat) with x00.
      rewrite bool_decide_false by (by intros []).
      apply IH.
      { rewrite length_pad_chunks; [done|]. rewrite length_drop. lia. }
      exists (drop 31 data). rewrite length_drop. split; [lia|]. split; [done|].
      rewrite <-app_assoc. f_equal. rewrite firstn_cons. cbn [drop].
      rewrite drop_0, take_take. by rewrite take_drop.
Qed.

Lemma check_len_invariant_Ok ep u :
  check_len_invariant ep = Ok u ↔
  ∃ e : nat, length (encoded_payload ep) = (32 * 2 ^ e)%nat.
Proof.
  destruct u. unfold check_len_invariant, BYTES_PER_FIELD_ELEMENT,
    ENCODED_PAYLOAD_HEADER_LEN_BYTES.
  set (n := length _). case_bool_decide as Hlen.
  { split; [done|]. intros [e He]. pose proof (Nat.pow_lower_bound 2 e). lia. }
  pose proof (Nat.div_mod_eq n 32) as Hdiv.
  pose proof (Nat.mod_upper_bound n 32 ltac:(done)) as Hm.
  generalize dependent (n / 32)%nat. generalize dependent (n mod 32)%nat. intros m Hm q Hdiv.
  case_bool_decide as Hmod; simpl.
  - destruct (is_power_of_two _) eqn:Hp; simpl.
    + apply is_power_of_two_pow in Hp as [e He]; [|lia]. split; [intros _|done].
      change 2 with (Z.of_nat 2) in He. rewrite <-Nat2Z.inj_pow in He.
      apply Nat2Z.inj in He. exists e. lia.
    + split; [done|]. intros [e He].
      enough (is_power_of_two (Z.of_nat q) = true) by congruence.
      apply is_power_of_two_pow; [lia|]. exists e.
      change 2 with (Z.of_nat 2). rewrite <-Nat2Z.inj_pow. f_equal. lia.
  - split; [done|]. intros [e He]. lia.
Qed.

Lemma decode_header_Ok ep n :
  (32 ≤ length (encoded_payload ep))%nat →
  decode_header ep = Ok n ↔
  0 ≤ n < 2 ^ 32 ∧ take 32 (encoded_payload ep) = header_v0 n.
Proof.
  destruct ep as [bs]. unfold decode_header, ENCODED_PAYLOAD_HEADER_LEN_BYTES; simpl encoded_payload.
  intros Hlen. rewrite bool_decide_false by lia.
  do 6 (destruct bs as [|? bs]; [simpl in Hlen; lia|]).
  cbv beta. change (drop 6 (take 32 (?a :: ?c :: ?d :: ?e :: ?f :: ?g :: ?l))) with (take 26 l).
  change (take 32 (?a :: ?c :: ?d :: ?e :: ?f :: ?g :: ?l))
    with (a :: c :: d :: e :: f :: g :: take 26 l).
  simpl lookup_total.
  set (word := [b1; b2; b3; b4]). simpl length in Hlen.
  assert (Hw : length (take 26 bs) = 26%nat) by (rewrite length_take; lia).
  pose proof (from_be_bytes_range word) as Hr. change (256 ^ Z.of_nat (length word)) with (2 ^ 32) in Hr.
  split.
  - case_bool_decide as H0; [done|]. subst b.
    case_bool_decide as H1; [|done]. subst b0.
    intros (m & [= <-] & ([] & Hz%all_zero_or_Ok & [= <-])%result_bind_Ok_inv)%result_bind_Ok_inv.
    split; [done|]. unfold header_v0. change 4%nat with (length word).
    rewrite to_from_be_bytes. rewrite Hw in Hz.
    exact (f_equal (λ l, [x00; PAYLOAD_ENCODING_VERSION_0] ++ word ++ l) Hz).
  - intros [Hn Heq]. unfold header_v0 in Heq.
    assert (Hlw : length (to_be_bytes 4 n) = 4%nat) by apply length_to_be_bytes.
    assert (Hsplit : [b; b0] = [x00; PAYLOAD_ENCODING_VERSION_0] ∧ word = to_be_bytes 4 n ∧
      take 26 bs = zeros 26).
    { change (b :: b0 :: b1 :: b2 :: b3 :: b4 :: ?l) with ([b; b0] ++ word ++ l) in Heq.
      apply app_inj_1 in Heq as [? Heq]; [|done].
      apply app_inj_1 in Heq as [? ?]; [done|]. by rewrite Hlw. }
    destruct Hsplit as ([= -> ->] & Hword & Hz).
    rewrite bool_decide_false by (by intros []).
    rewrite bool_decide_true by done. rewrite Ok_bind.
    assert (Ha : ∀ f : byte → HokuleaStatelessError, all_zero_or f (take 26 bs) = Ok ()).
    { intros f. apply all_zero_or_Ok. by rewrite Hw. }
    rewrite Ha, Ok_bind. f_equal. rewrite Hword. by apply from_to_be_bytes_small.
Qed.

Lemma decode_payload_Ok ep k n p :
  length (encoded_payload ep) = (32 * k)%nat → (1 ≤ k)%nat → 0 ≤ n →
  decode_payload ep n = Ok p ↔
  n = Z.of_nat (length p) ∧ (length p ≤ 31 * (k - 1))%nat ∧
  drop 32 (encoded_payload ep) = pad_chunks (k - 1) (p ++ zeros (31 * (k - 1) - length p)).
Proof.
  destruct ep as [bs]; simpl encoded_payload. intros Hlen Hk Hn.
  unfold decode_payload, check_and_remove_zero_padding_for_field_elements,
    BYTES_PER_FIELD_ELEMENT, ENCODED_PAYLOAD_HEADER_LEN_BYTES, chunks_exact; simpl encoded_payload.
  assert (Hb : length (drop 32 bs) = (32 * (k - 1))%nat) by (rewrite length_drop; lia).
  rewrite bool_decide_true by (by rewrite Hb, Nat.mul_comm, Nat.Div0.mod_mul).
  replace (length (drop 32 bs) / 32)%nat with (k - 1)%nat
    by (by rewrite Hb, Nat.mul_comm, Nat.div_mul).
  cbv beta iota delta [negb]. split.
  - intros (body & (data & Hd & Hbs & ->)%remove_padding_Ok & Hrest)%result_bind_Ok_inv; [|done].
    rewrite app_nil_l in Hrest. case_bool_decide as Hshort; [done|].
    apply result_bind_Ok_inv in Hrest as ([] & Hz%all_zero_or_Ok & [= <-]).
    rewrite length_drop in Hz. rewrite length_take.
    replace (Z.to_nat n `min` length data)%nat with (Z.to_nat n) by lia.
    split; [lia|]. split; [lia|]. rewrite Hbs. f_equal.
    rewrite <-(take_drop (Z.to_nat n) data) at 1. f_equal. rewrite Hz. f_equal. lia.
  - intros (-> & Hle & Hbs). set (data := p ++ _) in Hbs.
    assert (Hd : length data = (31 * (k - 1))%nat).
    { unfold data. autorewrite with hok_len. lia. }
    rewrite (proj2 (remove_padding_Ok _ _ [] data Hb)) by (by exists data).
    rewrite Ok_bind. rewrite bool_decide_false by lia.
    rewrite Nat2Z.id. unfold data. rewrite drop_app_length, take_app_length.
    rewrite (proj2 (all_zero_or_Ok _ _ ())); [done|]. by rewrite length_zeros.
Qed.

(** [decode] accepts the images of [encode_v0] and nothing else. *)
Lemma decode_Ok ep p :
  decode ep = Ok p ↔ ∃ k, room_for k p ∧ encoded_payload ep = encode_v0 k p.
Proof.
  unfold decode. split.
  - intros (u & [e He]%check_len_invariant_Ok & (n & Hh & Hp)%result_bind_Ok_inv)%result_bind_Ok_inv.
    assert (Hk : (1 ≤ 2 ^ e)%nat) by (apply Nat.pow_lower_bound; lia).
    apply decode_header_Ok in Hh as [Hn Hh]; [|lia].
    apply (decode_payload_Ok _ (2 ^ e)) in Hp as (-> & Hle & Hd); [|lia..].
    exists (2 ^ e)%nat. split; [split_and!; [by exists e|done|lia]|].
    unfold encode_v0. by rewrite <-Hh, <-Hd, take_drop.
  - intros (k & Hroom & Henc). pose proof (room_for_pos _ _ Hroom) as Hk.
    assert (Hlen : length (encoded_payload ep) = (32 * k)%nat).
    { by rewrite Henc, length_encode_v0. }
    destruct Hroom as ([e He] & Hle & Hlt).
    rewrite (proj2 (check_len_invariant_Ok ep ())) by (exists e; by rewrite Hlen, He).
    rewrite Ok_bind.
    rewrite (proj2 (decode_header_Ok ep (Z.of_nat (length p)) ltac:(lia)))
      by (split; [lia|by rewrite Henc, take_encode_v0]).
    rewrite Ok_bind.
    apply (decode_payload_Ok _ k); [done..|lia|]. split_and!; [done..|].
    by rewrite Henc, drop_encode_v0.
Qed.
End decode_lemmas.
