(* ===== verification/EncodedPayloadTheory.v ===== *)
(** * Theorems on encoded payloads

    What [decode] accepts, that an accepted encoding is unique for its length
    and consists of canonical field elements, and which error each rejected
    input gives. *)

From S2P Require Import RlpInstance EncodedPayload.

(** ** Which inputs fail, and how

    One rule per error that [decode] can return, in the order of the checks. *)

Definition header_reads (bs : Bytes) (n : Z) : Prop := take 32 bs = header_v0 n ∧ 0 ≤ n < 2 ^ 32.

Inductive decode_fails (bs : Bytes) : EncodedPayloadDecodingError → Prop :=
| fails_short :
    (length bs < 32)%nat →
    decode_fails bs (PayloadTooShortForHeader 32 (Z.of_nat (length bs)))
| fails_multiple :
    (32 ≤ length bs)%nat → (length bs mod 32 ≠ 0)%nat →
    decode_fails bs (InvalidLengthEncodedPayload (Z.of_nat (length bs)))
| fails_power_of_two q :
    length bs = (32 * q)%nat → (1 ≤ q)%nat → (¬ ∃ e, q = 2 ^ e)%nat →
    decode_fails bs (InvalidPowerOfTwoLength (Z.of_nat q))
| fails_first_byte e b rest :
    length bs = (32 * 2 ^ e)%nat → bs = b :: rest → b ≠ x00 →
    decode_fails bs (InvalidHeaderFirstByte b)
| fails_version e v rest :
    length bs = (32 * 2 ^ e)%nat → bs = x00 :: v :: rest → v ≠ PAYLOAD_ENCODING_VERSION_0 →
    decode_fails bs (UnknownEncodingVersion v)
| fails_header_padding e i b rest :
    length bs = (32 * 2 ^ e)%nat → take 2 bs = [x00; PAYLOAD_ENCODING_VERSION_0] →
    drop 6 bs = zeros i ++ b :: rest → (i < 26)%nat → b ≠ x00 →
    decode_fails bs (InvalidEncodedPayloadHeaderPadding b)
| fails_field_element e n i b rest :
    length bs = (32 * 2 ^ e)%nat → header_reads bs n →
    (1 ≤ i < 2 ^ e)%nat → drop (32 * i) bs = b :: rest → b ≠ x00 →
    (∀ j, (1 ≤ j < i)%nat → bs !! (32 * j)%nat = Some x00) →
    decode_fails bs (InvalidFirstByteFieldElementPadding b)
| fails_body_short e n data :
    length bs = (32 * 2 ^ e)%nat → header_reads bs n →
    drop 32 bs = pad_chunks (2 ^ e - 1) data → length data = (31 * (2 ^ e - 1))%nat →
    Z.of_nat (length data) < n →
    decode_fails bs (DecodedPayloadBodyTooShort (Z.of_nat (length data)) n)
| fails_body_padding e n i p b rest :
    length bs = (32 * 2 ^ e)%nat → header_reads bs n → n = Z.of_nat (length p) →
    drop 32 bs = pad_chunks (2 ^ e - 1) (p ++ zeros i ++ b :: rest) →
    b ≠ x00 →
    decode_fails bs (InvalidEncodedPayloadBodyPadding b).

Lemma all_zero_or_Err {E} (f : byte → E) bs err :
  all_zero_or f bs = Err err →
  ∃ i b rest, bs = zeros i ++ b :: rest ∧ b ≠ x00 ∧ err = f b.
Proof.
  induction bs as [|b bs IH]; [done|]. simpl. case_bool_decide as Hb.
  - intros [= <-]. by exists 0%nat, b, bs.
  - intros (i & b' & rest & -> & ? & ->)%IH. subst b. by exists (S i), b', rest.
Qed.

Section errors.
Context `{!Alloy}.

Lemma check_len_invariant_Err ep err :
  check_len_invariant ep = Err err →
  ∃ d, err = DecodingError d ∧ decode_fails (encoded_payload ep) d.
Proof.
  unfold check_len_invariant, BYTES_PER_FIELD_ELEMENT, ENCODED_PAYLOAD_HEADER_LEN_BYTES.
  set (n := length _). case_bool_decide as Hlen.
  { intros [= <-]. eexists; split; [done|]. by apply fails_short. }
  pose proof (Nat.div_mod_eq n 32) as Hdiv.
  case_bool_decide as Hmod.
  2: { intros [= <-]. eexists; split; [done|]. apply fails_multiple; [lia|done]. }
  rewrite Hmod in Hdiv. generalize dependent (n / 32)%nat. intros q Hdiv.
  cbv beta iota delta [negb].
  destruct (is_power_of_two _) eqn:Hp; [done|]. intros [= <-]. eexists; split; [done|].
  apply fails_power_of_two; [lia..|]. intros [e He].
  enough (is_power_of_two (Z.of_nat q) = true) by congruence.
  apply is_power_of_two_pow; [lia|]. exists e. by rewrite He, Nat2Z.inj_pow.
Qed.

Lemma decode_header_Err ep e err :
  length (encoded_payload ep) = (32 * 2 ^ e)%nat →
  decode_header ep = Err err →
  ∃ d, err = DecodingError d ∧ decode_fails (encoded_payload ep) d.
Proof.
  destruct ep as [bs]. unfold decode_header, ENCODED_PAYLOAD_HEADER_LEN_BYTES.
  cbn [encoded_payload]. intros Hlen.
  pose proof (Nat.pow_lower_bound 2 e ltac:(done)) as He.
  rewrite bool_decide_false by lia.
  destruct bs as [|b0 [|b1 bs]]; [cbn [length] in Hlen; lia..|].
  change ((b0 :: _) !!! 0%nat) with b0. change ((b0 :: b1 :: _) !!! 1%nat) with b1.
  case_bool_decide as H0.
  { intros [= <-]. eexists; split; [done|]. by eapply fails_first_byte. }
  subst b0. case_bool_decide as H1.
  2: { intros [= <-]. eexists; split; [done|]. by eapply fails_version. }
  subst b1. rewrite Ok_bind. intros [Hz|(? & _ & [=])]%result_bind_Err_inv.
  apply all_zero_or_Err in Hz as (i & b & rest & Hz & Hb & ->).
  eexists; split; [done|].
  rewrite skipn_firstn_comm in Hz.
  assert (Hi : (i < 26)%nat).
  { apply (f_equal length) in Hz. revert Hz. autorewrite with hok_len. cbn [length]. lia. }
  eapply (fails_header_padding _ e i b (rest ++ drop 32 (x00 :: PAYLOAD_ENCODING_VERSION_0 :: bs)));
    [done..| |done|done].
  rewrite app_comm_cons, app_assoc, <-Hz.
  rewrite <-(take_drop 26 (drop 6 _)) at 1. by rewrite drop_drop.
Qed.

Lemma remove_padding_Err k bs acc err :
  length bs = (32 * k)%nat →
  remove_padding (chunks k 32 bs) acc = Err err →
  ∃ i b rest, (i < k)%nat ∧ drop (32 * i) bs = b :: rest ∧ b ≠ x00 ∧
    (∀ j, (j < i)%nat → bs !! (32 * j)%nat = Some x00) ∧
    err = DecodingError (InvalidFirstByteFieldElementPadding b).
Proof.
  revert bs acc; induction k as [|k IH]; intros bs acc Hlen; [done|].
  destruct bs as [|b bs]; [cbn [length] in Hlen; lia|].
  cbn [chunks remove_padding take]. change ((b :: ?l) !!! 0%nat) with b.
  case_bool_decide as Hb.
  { intros [= <-]. exists 0%nat, b, bs. split_and!; [lia|done|done|lia|done]. }
  subst b. intros (i & b & rest & Hi & Hd & Hb & Hj & ->)%IH;
    [|rewrite length_drop; cbn [length] in *; lia].
  exists (S i), b, rest. split_and!; [lia| |done| |done].
  - rewrite <-Hd, drop_drop. f_equal. lia.
  - intros [|j] Hlt; [done|]. rewrite <-(Hj j) by lia.
    rewrite lookup_drop. f_equal. lia.
Qed.

Lemma decode_payload_Err ep e n err :
  length (encoded_payload ep) = (32 * 2 ^ e)%nat →
  header_reads (encoded_payload ep) n →
  decode_payload ep n = Err err →
  ∃ d, err = DecodingError d ∧ decode_fails (encoded_payload ep) d.
Proof.
  destruct ep as [bs]; cbn [encoded_payload]. intros Hlen Hread.
  pose proof (Nat.pow_lower_bound 2 e ltac:(done)) as He.
  unfold decode_payload, check_and_remove_zero_padding_for_field_elements,
    BYTES_PER_FIELD_ELEMENT, ENCODED_PAYLOAD_HEADER_LEN_BYTES, chunks_exact.
  cbn [encoded_payload].
  assert (Hb : length (drop 32 bs) = (32 * (2 ^ e - 1))%nat) by (rewrite length_drop; lia).
  rewrite bool_decide_true by (by rewrite Hb, Nat.mul_comm, Nat.Div0.mod_mul).
  replace (length (drop 32 bs) / 32)%nat with (2 ^ e - 1)%nat
    by (by rewrite Hb, Nat.mul_comm, Nat.div_mul).
  cbv beta iota delta [negb].
  intros [Hfe|(body & (data & Hd & Hbs & ->)%remove_padding_Ok & Hrest)]%result_bind_Err_inv;
    [| |done].
  - apply remove_padding_Err in Hfe as (i & b & rest & Hi & Hdr & Hnz & Hj & ->); [|done].
    eexists; split; [done|].
    eapply (fails_field_element _ e n (S i)); [done..|lia| |done|].
    + rewrite <-Hdr, drop_drop. f_equal. lia.
    + intros [|j] Hlt; [lia|]. rewrite <-(Hj j) by lia. rewrite lookup_drop. f_equal. lia.
  - rewrite app_nil_l in Hrest. case_bool_decide as Hshort.
    { injection Hrest as <-. eexists; split; [done|]. by eapply fails_body_short. }
    apply result_bind_Err_inv in Hrest as [Hz|(? & _ & [=])].
    apply all_zero_or_Err in Hz as (i & b & rest & Hz & Hnz & ->).
    eexists; split; [done|]. destruct Hread as [? Hn].
    eapply (fails_body_padding _ e n i (take (Z.to_nat n) data)); [done|done| | |done].
    + rewrite length_take. lia.
    + by rewrite Hbs, <-Hz, take_drop.
Qed.
End errors.

(** ** Field elements *)

Lemma chunks_pad_chunks_range k data :
  length data = (31 * k)%nat →
  Forall (λ c, length c = 32%nat ∧ 0 ≤ from_be_bytes c < 2 ^ 248)
    (chunks k 32 (pad_chunks k data)).
Proof.
  revert data; induction k as [|k IH]; intros data Hd; [constructor|].
  rewrite chunks_pad_chunks_cons by done.
  constructor; [|apply IH; rewrite length_drop; lia]. split.
  - cbn [length]. rewrite length_take. lia.
  - unfold from_be_bytes. cbn [rev]. 
    assert (Ht : length (take 31 data) = 31%nat) by (rewrite length_take; lia).
    pose proof (from_le_bytes_range (rev (take 31 data))) as Hr.
    rewrite length_rev, Ht in Hr. rewrite from_le_bytes_snoc_zero. exact Hr.
Qed.

Lemma header_v0_range n : 0 ≤ from_be_bytes (header_v0 n) < 2 ^ 248.
Proof.
  change (header_v0 n) with (x00 :: PAYLOAD_ENCODING_VERSION_0 :: to_be_bytes 4 n ++ zeros 26).
  set (l := PAYLOAD_ENCODING_VERSION_0 :: _).
  unfold from_be_bytes. cbn [rev]. rewrite from_le_bytes_snoc_zero.
  pose proof (from_le_bytes_range (rev l)) as Hr.
  by rewrite length_rev in Hr.
Qed.

(** ** The theorems *)

Section claims.
Context `{!Alloy}.

(** C12: [decode] accepts exactly the encodings of version 0: it returns [p] if
    and only if the bytes are the header with the length of [p] followed by
    [p], zero-padded to a power of two of field elements that each start with
    a zero byte. *)
Theorem decode_accepts_exactly_encodings ep p :
  decode ep = Ok p ↔ ∃ k, room_for k p ∧ serialize ep = encode_v0 k p.
Proof. apply decode_Ok. Qed.

(** two encoded payloads of the same length that decode to the same
    payload are equal: the encoding leaves no bit of freedom. *)
Theorem decode_not_malleable ep ep' p :
  decode ep = Ok p → decode ep' = Ok p →
  num_field_element ep = num_field_element ep' → ep = ep'.
Proof.
  intros (k & Hk & He)%decode_Ok (k' & Hk' & He')%decode_Ok.
  unfold num_field_element, BYTES_PER_FIELD_ELEMENT.
  rewrite He, He', !length_encode_v0, !(Nat.mul_comm 32), !Nat.div_mul by done.
  intros ->%Nat2Z.inj. destruct ep, ep'. by f_equal; simpl in *; congruence.
Qed.

(** The chunks of what [decode] accepts: the header, and 31 bytes behind a zero. *)
Lemma decode_chunks ep p :
  decode ep = Ok p →
  length (serialize ep) = (32 * (length (serialize ep) / 32))%nat ∧
  Forall (λ c, length c = 32%nat ∧ 0 ≤ from_be_bytes c < 2 ^ 248)
    (chunks_exact BYTES_PER_FIELD_ELEMENT (serialize ep)) ∧
  Z.of_nat (length p) ≤ 31 * (num_field_element ep - 1).
Proof.
  intros (k & Hk & He)%decode_Ok. pose proof (room_for_pos _ _ Hk) as Hpos.
  unfold serialize, chunks_exact, num_field_element, BYTES_PER_FIELD_ELEMENT.
  rewrite He, length_encode_v0, Nat.mul_comm, Nat.div_mul by done.
  destruct k as [|k]; [lia|]. destruct Hk as (_ & Hlen & _). split_and!; [lia| |lia].
  cbn [chunks]. rewrite take_encode_v0, drop_encode_v0. constructor.
  - split; [apply length_header_v0|apply header_v0_range].
  - replace (S k - 1)%nat with k by lia. apply chunks_pad_chunks_range.
    autorewrite with hok_len. lia.
Qed.

(** C38: every 32-byte chunk of an accepted encoded payload, read big-endian,
    is below 2^248, so it is a canonical scalar of the bn254 field, and the
    payload fits in 31 bytes per chunk after the header. *)
Theorem decode_field_elements ep p :
  decode ep = Ok p →
  Forall (λ c, length c = 32%nat ∧ 0 ≤ from_be_bytes c < 2 ^ 248)
    (chunks_exact BYTES_PER_FIELD_ELEMENT (serialize ep)) ∧
  Z.of_nat (length p) ≤ 31 * (num_field_element ep - 1).
Proof. by intros (_ & Hchunks & Hlen)%decode_chunks. Qed.

(** C39: a rejected encoded payload is rejected for the reason the error
    names: each error comes with the values and the position in the input
    that its rule of [decode_fails] describes, and no other error is
    returned. *)
Theorem decode_error_reasons ep err :
  decode ep = Err err →
  ∃ d, err = DecodingError d ∧ decode_fails (serialize ep) d.
Proof.
  unfold decode, serialize.
  intros [Herr|(u & [e He]%check_len_invariant_Ok & Herr)]%result_bind_Err_inv;
    [by apply check_len_invariant_Err|].
  pose proof (Nat.pow_lower_bound 2 e ltac:(done)) as Hp.
  apply result_bind_Err_inv in Herr as [Herr|(n & Hn & Herr)]; [by eapply decode_header_Err|].
  apply decode_header_Ok in Hn as [Hn Hh]; [|lia].
  by eapply (decode_payload_Err _ _ n).
Qed.
End claims.

(** ** Witnesses *)

Import Concrete.

Definition hello : Bytes := [x68; x65; x6c; x6c; x6f].
Definition hello_payload : EncodedPayload := {| encoded_payload := encode_v0 2 hello |}.

Lemma decode_hello : decode hello_payload = Ok hello.
Proof. vm_decide. Qed.

Lemma decode_not_malleable_witness : hello_payload = hello_payload.
Proof.
  apply (decode_not_malleable hello_payload hello_payload hello);
    [vm_decide..|reflexivity].
Defined.

Lemma decode_field_elements_witness :
  Z.of_nat (length hello) ≤ 31 * (num_field_element hello_payload - 1).
Proof. apply (decode_field_elements hello_payload hello). vm_decide. Defined.

Lemma decode_error_reasons_witness :
  ∃ d, DecodingError (InvalidPowerOfTwoLength 3) = DecodingError d ∧
    decode_fails (zeros 96) d.
Proof.
  apply (decode_error_reasons {| encoded_payload := zeros 96 |}). vm_decide.
Defined.
