(* ===== verification/PreimageSource.v ===== *)
(** * The preimage source (crates/eigenda/src/{traits,eigenda_preimage,test_utils}.rs)

    [EigenDAPreimageProvider] is the trait through which the derivation asks for
    the validity and the encoded payload of a certificate.  [PreimageSource.next]
    orders the two requests around the recency check.  [DAWorld] is what a
    provider promises to answer from; [next] is shown to compute its verdict. *)

From S2P Require Export EncodedPayload.

(** ** traits.rs *)

(** [type Error: Display + ToString + Into<HokuleaErrorKind>] *)
Class EigenDAPreimageProvider `{!Alloy} (A : Type) := {
  provider_error : Type;
  provider_error_into : provider_error → HokuleaErrorKind;
  provider_error_display : provider_error → string;
  get_validity : AltDACommitment → M A (result provider_error bool);
  get_encoded_payload : AltDACommitment → M A (result provider_error EncodedPayload);
}.

Definition RESERVED_EIGENDA_API_BYTE_INDEX : nat := 32.
Definition RESERVED_EIGENDA_API_BYTE_FOR_VALIDITY : byte := x01.

(** ** eigenda_preimage.rs *)

Section recency.
Context `{!Alloy}.

Definition get_recency_window (offchain_derivation_version : Z) :
    result HokuleaStatelessError Z :=
  match offchain_derivation_version with
  | 0 => Ok 14400
  | v => Err (UnsupportedOffchainDerivationVersion v)
  end.

(** [rbn + recency_window] is an addition of [u64]. *)
Definition recency_check (l1_inclusion_bn rbn recency_window : Z) :
    result HokuleaStatelessError unit :=
  if bool_decide (recency_window = 0) then Ok tt
  else if bool_decide (l1_inclusion_bn > wrapping_add 64 rbn recency_window) then
    Err (RecencyCheckError NotRecentCert)
  else Ok tt.

(** The [match] of [next] on the certificate's version. *)
Definition cert_recency_window (c : AltDACommitment) : result HokuleaStatelessError Z :=
  match versioned_cert c with
  | V2 _ => Ok 0
  | V3 _ => Ok 0
  | V4 cert => get_recency_window (v4_offchain_derivation_version cert)
  end.

(** [parse] reads nothing from the source.  The slice [data\[1..\]] is in range. *)
Definition parse (data : Bytes) : result HokuleaStatelessError AltDACommitment :=
  if bool_decide (length data ≤ 2)%nat then Err InsufficientLengthAltDACommimtment
  else match try_from (drop 1 data) with
  | Ok a => Ok a
  | Err e => Err (ParseError e)
  end.

Lemma parse_Ok data c :
  parse data = Ok c ↔ ∃ b rest, data = b :: rest ∧ try_from rest = Ok c.
Proof.
  unfold parse. case_bool_decide as Hlen.
  - split; [done|]. intros (b & rest & -> & Hp). unfold try_from in Hp.
    cbn [length] in Hlen. by rewrite bool_decide_true in Hp by lia.
  - destruct data as [|b rest]; [cbn [length] in Hlen; lia|]. cbn [drop].
    rewrite drop_0. split.
    + destruct (try_from rest) eqn:Hp; [intros [= ->]; eauto|done].
    + by intros (? & ? & [= <- <-] & ->).
Qed.
End recency.

Record EigenDAPreimageSource (A : Type) := { eigenda_fetcher : A }.
Arguments Build_EigenDAPreimageSource {A}.
Arguments eigenda_fetcher {A}.

#[export] Instance EigenDAPreimageSource_eq_dec A `{EqDecision A} :
  EqDecision (EigenDAPreimageSource A).
Proof. solve_decision. Defined.

Module PreimageSource.
Section next.
Context `{!Alloy, !EigenDAPreimageProvider A}.

Definition new (eigenda_fetcher : A) : EigenDAPreimageSource A :=
  {| eigenda_fetcher := eigenda_fetcher |}.

(** A call on the field [eigenda_fetcher]. *)
Definition fetcher {B} (m : M A B) : M (EigenDAPreimageSource A) B :=
  zoom eigenda_fetcher (λ f _, {| eigenda_fetcher := f |}) m.

Definition next (altda_commitment : AltDACommitment) (l1_inclusion_bn : Z) :
    M (EigenDAPreimageSource A) (result HokuleaErrorKind EncodedPayload) :=
  validity ← fetcher (get_validity altda_commitment);
  match validity with
  | Ok true =>
      _ ←? mret (map_err HokuleaStatelessError_into
             (recency_window ← cert_recency_window altda_commitment;
              recency_check l1_inclusion_bn (get_rbn altda_commitment) recency_window));
      encoded_payload ← fetcher (get_encoded_payload altda_commitment);
      mret (map_err provider_error_into encoded_payload)
  | Ok false => mret (Err (HokuleaPreimageError_into InvalidCert))
  | Err e => mret (Err (provider_error_into e))
  end.
End next.
End PreimageSource.

(** The recency check of [next] lets the certificate pass. *)
Definition passes_recency `{!Alloy} (bn : Z) (c : AltDACommitment) : Prop :=
  ∃ window, cert_recency_window c = Ok window ∧ recency_check bn (get_rbn c) window = Ok tt.

(** ** What a provider answers from *)

(** The DA network and the L1 contracts, as the derivation sees them. *)
Record DAWorld := {
  is_valid : AltDACommitment → bool;
  blob_of : AltDACommitment → EncodedPayload;
}.

(** The certificate is usable at block [bn]: [None] for a certificate whose
    derivation version is unknown. *)
Definition is_recent (c : AltDACommitment) (bn : Z) : option bool :=
  match versioned_cert c with
  | V2 _ | V3 _ => Some true
  | V4 cert =>
      if bool_decide (v4_offchain_derivation_version cert = 0) then
        Some (bool_decide (bn ≤ get_rbn c + 14400))
      else None
  end.

(** The outcome for a certificate that the specification asks for. *)
Inductive verdict := Payload (ep : EncodedPayload) | Rejected | Fatal (m : string).

Definition cert_verdict (w : DAWorld) (bn : Z) (c : AltDACommitment) : verdict :=
  if negb (is_valid w c) then Rejected
  else match is_recent c bn with
  | None => Fatal ("cannot support offchain derivation version" +:+
      match versioned_cert c with V4 v => display_uint (v4_offchain_derivation_version v)
      | _ => "" end)
  | Some false => Rejected
  | Some true => Payload (blob_of w c)
  end.

Definition is_temporary (k : HokuleaErrorKind) : Prop := ∃ m, k = Temporary m.
Definition is_discard (k : HokuleaErrorKind) : Prop := ∃ m, k = Discard m.

(** A provider in a state of [Inv], asked about a commitment of [D], answers as
    [w] does or fails temporarily. *)
Class FaithfulProvider `{!Alloy, !EigenDAPreimageProvider A} (w : DAWorld)
    (D : AltDACommitment → Prop) (Inv : A → Prop) := {
  get_validity_faithful a c : Inv a → D c →
    ∃ r a', get_validity c a = Done (r, a') ∧ Inv a' ∧
      (r = Ok (is_valid w c) ∨ ∃ e, r = Err e ∧ is_temporary (provider_error_into e));
  get_encoded_payload_faithful a c : Inv a → D c →
    is_valid w c = true →
    ∃ r a', get_encoded_payload c a = Done (r, a') ∧ Inv a' ∧
      (r = Ok (blob_of w c) ∨ ∃ e, r = Err e ∧ is_temporary (provider_error_into e));
}.

(** The same for the requests that [next] makes at the block [bn]: the payload is asked
    for after the validity, and only of a certificate that passes the recency check. *)
Class AnswersAt `{!Alloy, !EigenDAPreimageProvider A} (w : DAWorld)
    (D : AltDACommitment → Prop) (Inv : A → Prop) (bn : Z) := {
  validity_answer a c : Inv a → D c →
    ∃ r a', get_validity c a = Done (r, a') ∧ Inv a' ∧
      (r = Ok (is_valid w c) ∨ ∃ e, r = Err e ∧ is_temporary (provider_error_into e));
  payload_answer a c : Inv a → D c → is_valid w c = true → passes_recency bn c →
    ∃ r a', get_encoded_payload c a = Done (r, a') ∧ Inv a' ∧
      (r = Ok (blob_of w c) ∨ ∃ e, r = Err e ∧ is_temporary (provider_error_into e));
}.

#[export] Instance faithful_answers `{!Alloy, !EigenDAPreimageProvider A} w D (Inv : A → Prop) bn
  `{!FaithfulProvider w D Inv} : AnswersAt w D Inv bn.
Proof.
  split; [apply get_validity_faithful|].
  intros a c HI HD Hval _. by apply get_encoded_payload_faithful.
Qed.

(** A request about [c], made in the state [a], failed with the error [Temporary m] of the
    provider, in the state [a']. *)
Inductive request_failed `{!Alloy, !EigenDAPreimageProvider A} (c : AltDACommitment) (a : A)
    (m : string) (a' : A) : Prop :=
| validity_failed e :
    get_validity c a = Done (Err e, a') → provider_error_into e = Temporary m →
    request_failed c a m a'
| payload_failed a1 e :
    get_validity c a = Done (Ok true, a1) → get_encoded_payload c a1 = Done (Err e, a') →
    provider_error_into e = Temporary m → request_failed c a m a'.

(** The result of [PreimageSource.next] that matches a verdict. *)
Definition verdict_result (v : verdict) (r : result HokuleaErrorKind EncodedPayload) : Prop :=
  match v with
  | Payload ep => r = Ok ep
  | Rejected => ∃ k, r = Err k ∧ is_discard k
  | Fatal m => r = Err (Critical m)
  end.

Section next_lemmas.
Context `{!Alloy}.

Lemma recency_check_Ok bn rbn window :
  0 ≤ rbn < 2 ^ 63 → 0 ≤ window < 2 ^ 63 →
  recency_check bn rbn window =
  if bool_decide (window = 0 ∨ bn ≤ rbn + window) then Ok tt
  else Err (RecencyCheckError NotRecentCert).
Proof.
  intros Hr Hw. unfold recency_check. rewrite wrapping_add_small by lia.
  repeat case_bool_decide; try done; lia.
Qed.

(** The recency part of [next], against [is_recent]. *)
Lemma recency_is_recent c bn :
  AltDACommitment_wf c = true →
  (recency_window ← cert_recency_window c; recency_check bn (get_rbn c) recency_window) =
  match is_recent c bn, versioned_cert c with
  | Some true, _ => Ok tt
  | Some false, _ => Err (RecencyCheckError NotRecentCert)
  | None, V4 v => Err (UnsupportedOffchainDerivationVersion (v4_offchain_derivation_version v))
  | None, _ => Ok tt
  end.
Proof.
  intros Hrbn%AltDACommitment_wf_rbn. unfold cert_recency_window, is_recent.
  destruct (versioned_cert c) as [v|v|v]; [done..|].
  case_bool_decide as Hv.
  - rewrite Hv. cbn [get_recency_window]. rewrite Ok_bind, recency_check_Ok by lia.
    repeat case_bool_decide; try done; lia.
  - unfold get_recency_window. by destruct (v4_offchain_derivation_version v).
Qed.

Lemma is_recent_passes c bn :
  AltDACommitment_wf c = true → is_recent c bn = Some true → passes_recency bn c.
Proof.
  intros Hwf Hr. pose proof (recency_is_recent c bn Hwf) as Hrec. rewrite Hr in Hrec.
  destruct (cert_recency_window c) as [window|e] eqn:Hw; [|done]. by exists window.
Qed.

Context `{!EigenDAPreimageProvider A, !AnswersAt w D Inv bn}.

(** [next] computes the verdict, unless one of its requests fails temporarily. *)
Lemma next_verdict c s :
  Inv (eigenda_fetcher s) → D c → AltDACommitment_wf c = true →
  ∃ r s', PreimageSource.next c bn s = Done (r, s') ∧ Inv (eigenda_fetcher s') ∧
    (verdict_result (cert_verdict w bn c) r ∨
     ∃ m, r = Err (Temporary m) ∧ request_failed c (eigenda_fetcher s) m (eigenda_fetcher s')).
Proof.
  intros HI HD Hwf. destruct s as [a]. cbn [eigenda_fetcher] in HI.
  unfold PreimageSource.next, PreimageSource.fetcher, zoom, mbind, M_bind.
  cbn [eigenda_fetcher].
  destruct (validity_answer a c) as (r & a1 & Hv & HI1 & [->|(e & -> & m & He)]); [done..| |]; rewrite Hv.
  2: { do 2 eexists. split; [done|]. split; [done|]. right. exists m. cbn. rewrite He.
       split; [done|]. by eapply validity_failed. }
  unfold cert_verdict. destruct (is_valid w c) eqn:Hvalid; cbn [negb].
  2: { do 2 eexists. split; [done|]. cbn. unfold is_discard. eauto 10. }
  pose proof (recency_is_recent c bn Hwf) as Hrec.
  unfold mbind at 1 in Hrec. rewrite Hrec. unfold try_bind.
  assert (Hnone : is_recent c bn = None → ∃ v, versioned_cert c = V4 v).
  { unfold is_recent. destruct (versioned_cert c); eauto; done. }
  pose proof (is_recent_passes c bn Hwf) as Hpass.
  destruct (is_recent c bn) as [[]|]; cbn.
  - destruct (payload_answer a1 c) as (r & a2 & Hp & HI2 & [->|(e & -> & m & He)]);
      [done|done|done|by apply Hpass| |]; rewrite Hp; cbn; [by eauto 10|].
    do 2 eexists. split; [done|]. split; [done|]. right. exists m. rewrite He.
    split; [done|]. by eapply payload_failed.
  - do 2 eexists. split; [done|]. cbn. unfold is_discard. eauto 10.
  - destruct Hnone as [v ->]; [done|]. cbn. eauto 10.
Qed.
End next_lemmas.

(** ** test_utils.rs *)

Inductive TestHokuleaProviderError := TestPreimage | TestCritical.
#[export] Instance TestHokuleaProviderError_eq_dec : EqDecision TestHokuleaProviderError.
Proof. solve_decision. Defined.

Definition TestHokuleaProviderError_display (e : TestHokuleaProviderError) : string :=
  match e with TestPreimage => "Preimage oracle error" | TestCritical => "Critical error" end.
Definition TestHokuleaProviderError_into (e : TestHokuleaProviderError) : HokuleaErrorKind :=
  match e with
  | TestPreimage => Temporary "Preimage temporary error"
  | TestCritical => Critical "Critical error"
  end.

Record TestEigenDAPreimageProvider := {
  validities : gmap B256 (result TestHokuleaProviderError bool);
  encoded_payloads : gmap B256 (result TestHokuleaProviderError EncodedPayload);
  should_preimage_err : bool;
}.

#[export] Instance TestEigenDAPreimageProvider_eq_dec : EqDecision TestEigenDAPreimageProvider.
Proof. solve_decision. Defined.

Section test_provider.
Context `{!Alloy}.

Definition test_provider_default : TestEigenDAPreimageProvider :=
  {| validities := ∅; encoded_payloads := ∅; should_preimage_err := false |}.

Definition insert_validity (c : AltDACommitment) (validity : result TestHokuleaProviderError bool)
    (s : TestEigenDAPreimageProvider) : TestEigenDAPreimageProvider :=
  {| validities := <[to_digest c := validity]> (validities s);
     encoded_payloads := encoded_payloads s;
     should_preimage_err := should_preimage_err s |}.

Definition insert_encoded_payload (c : AltDACommitment)
    (encoded_payload : result TestHokuleaProviderError EncodedPayload)
    (s : TestEigenDAPreimageProvider) : TestEigenDAPreimageProvider :=
  {| validities := validities s;
     encoded_payloads := <[to_digest c := encoded_payload]> (encoded_payloads s);
     should_preimage_err := should_preimage_err s |}.

(** [map.get(k).unwrap().clone()] *)
Definition get_unwrap {B} (m : gmap B256 B) (k : B256) : outcome B :=
  match m !! k with Some b => Done b | None => Panic end.

#[export] Instance test_provider : EigenDAPreimageProvider TestEigenDAPreimageProvider := {|
  provider_error := TestHokuleaProviderError;
  provider_error_into := TestHokuleaProviderError_into;
  provider_error_display := TestHokuleaProviderError_display;
  get_validity c s :=
    if should_preimage_err s then Done (Err TestPreimage, s)
    else lift (get_unwrap (validities s) (to_digest c)) s;
  get_encoded_payload c s :=
    if should_preimage_err s then Done (Err TestPreimage, s)
    else lift (get_unwrap (encoded_payloads s) (to_digest c)) s;
|}.

(** The provider holds [w]'s answer for every commitment of [D]. *)
Definition holds_answers (w : DAWorld) (D : AltDACommitment → Prop)
    (s : TestEigenDAPreimageProvider) : Prop :=
  ∀ c, D c →
    validities s !! to_digest c = Some (Ok (is_valid w c)) ∧
    (is_valid w c = true → encoded_payloads s !! to_digest c = Some (Ok (blob_of w c))).

#[export] Instance test_provider_faithful w D :
  FaithfulProvider w D (λ s, should_preimage_err s = true ∨ holds_answers w D s).
Proof.
  split; intros s c HI Hc; cbn; destruct (should_preimage_err s) eqn:Herr.
  1,3: do 2 eexists; split; [done|]; split; [by left|right]; eexists; split; [done|]; by eexists.
  1,2: destruct HI as [|HI]; [congruence|]; destruct (HI c Hc) as [Hv Hp].
  - unfold get_unwrap. rewrite Hv. cbn. eauto 10.
  - intros Hval. unfold get_unwrap. rewrite Hp by done. cbn. eauto 10.
Qed.
End test_provider.
