(* ===== verification/Oracle.v ===== *)
(** * The oracle-backed provider (crates/proof/src/{hint,errors,eigenda_provider}.rs)

    The client program asks the host for preimages: it writes a hint with the
    certificate and reads keys derived from the certificate's digest.  The
    oracle's channel is an interface; [AnswersFrom] says that its replies to the
    certificate hinted last come from the preimages of a DA world, and the provider
    then reads the validity and the payload back. *)

From S2P Require Export PreimageSource.

(** ** kona_preimage and kona_proof *)

Class KonaPreimage := {
  (** [PreimageKey::new(_, PreimageKeyType::GlobalGeneric)] *)
  PreimageKey : Type;
  PreimageKey_eq_dec :: EqDecision PreimageKey;
  PreimageKey_countable :: Countable PreimageKey;
  PreimageKey_generic : B256 → PreimageKey;
  (** [PreimageKey::new_keccak256] *)
  PreimageKey_keccak256 : B256 → PreimageKey;
  (** [PreimageOracleError]: [io_error] gives the text of an [IOError]. *)
  PreimageOracleError : Type;
  PreimageOracleError_display : PreimageOracleError → string;
  io_error : PreimageOracleError → option string;
  (** [HintType] with [FromStr] and [Into<&str>]; [hex::encode] *)
  HintType : Type;
  HintParsingError : Type;
  HintType_from_str : string → result HintParsingError HintType;
  HintType_into : HintType → string;
  hex_encode : Bytes → string;
}.

(** [CommsClient]; [oracle_get_exact k n] fills a buffer of [n] bytes. *)
Class CommsClient `{!KonaPreimage} (T : Type) := {
  oracle_write : string → M T (result PreimageOracleError unit);
  oracle_get : PreimageKey → M T (result PreimageOracleError Bytes);
  oracle_get_exact : PreimageKey → nat → M T (result PreimageOracleError Bytes);
}.

(** ** hint.rs *)

Section hint.
Context `{!KonaPreimage}.

Inductive ExtendedHintType := Original (h : HintType) | EigenDACert.

Definition ExtendedHintType_from_str (value : string) : result HintParsingError ExtendedHintType :=
  if bool_decide (value = "eigenda-certificate"%string) then Ok EigenDACert
  else h ← HintType_from_str value; Ok (Original h).

Definition ExtendedHintType_into (h : ExtendedHintType) : string :=
  match h with
  | EigenDACert => "eigenda-certificate"
  | Original hint_type => HintType_into hint_type
  end.

Definition encode_with (h : ExtendedHintType) (data : list Bytes) : string :=
  ExtendedHintType_into h +:+ " " +:+ hex_encode (mjoin data).
End hint.

(** ** errors.rs *)

Section errors.
Context `{!KonaPreimage}.

Inductive HokuleaOracleProviderError := Preimage (e : PreimageOracleError).

Definition HokuleaOracleProviderError_display (e : HokuleaOracleProviderError) : string :=
  match e with Preimage e => "Preimage oracle error: " +:+ PreimageOracleError_display e end.

Definition HokuleaOracleProviderError_into (val : HokuleaOracleProviderError) : HokuleaErrorKind :=
  match val with
  | Preimage err =>
      match io_error err with
      | Some e => Critical ("HokuleaOracleProviderError::PreimageOracleError::IOError " +:+ e)
      | None => Temporary ("HokuleaOracleProviderError::Preimage: " +:+ PreimageOracleError_display err)
      end
  end.
End errors.

(** ** Addresses

    The 80 bytes whose hash keys a preimage: the digest, a reserved byte, zeros
    and the index of a field element. *)

Section addresses.
Context `{!Alloy}.

(** [address_template\[RESERVED_EIGENDA_API_BYTE_INDEX\] = ...] *)
Definition validity_address (c : AltDACommitment) : Bytes :=
  <[RESERVED_EIGENDA_API_BYTE_INDEX := RESERVED_EIGENDA_API_BYTE_FOR_VALIDITY]> (digest_template c).

(** [field_element_key\[72..\].copy_from_slice(&idx_fe.to_be_bytes())]; the
    template is overwritten in place, at the same bytes for each index. *)
Definition set_index (i : Z) (key : Bytes) : Bytes := copy_at 72 (to_be_bytes 8 i) key.
Definition field_element_address (c : AltDACommitment) (i : Z) : Bytes :=
  set_index i (digest_template c).

Lemma set_index_eq i key : length key = 80%nat → set_index i key = take 72 key ++ to_be_bytes 8 i.
Proof.
  intros Hk. unfold set_index, copy_at. rewrite length_to_be_bytes.
  by rewrite (drop_ge key), app_nil_r by lia.
Qed.

Lemma set_index_twice i j key :
  length key = 80%nat → set_index i (set_index j key) = set_index i key.
Proof.
  intros Hk. assert (Ht : length (take 72 key) = 72%nat) by (rewrite length_take; lia).
  rewrite (set_index_eq j), (set_index_eq i key), set_index_eq by
    (rewrite ?length_app, ?Ht, ?length_to_be_bytes; done).
  by rewrite take_app_le, take_ge by lia.
Qed.

Lemma validity_address_eq c : validity_address c = to_digest c ++ x01 :: zeros 47.
Proof.
  unfold validity_address. rewrite digest_template_eq.
  rewrite insert_app_r_alt by (rewrite length_to_digest; done).
  by rewrite length_to_digest.
Qed.

Lemma field_element_address_eq c i :
  field_element_address c i = to_digest c ++ zeros 40 ++ to_be_bytes 8 i.
Proof.
  unfold field_element_address. rewrite set_index_eq by apply length_digest_template.
  pose proof (length_to_digest c) as Hd. rewrite digest_template_eq.
  rewrite take_app_ge, Hd by (rewrite Hd; lia). by rewrite <-app_assoc.
Qed.

(** A template that was overwritten gives the same addresses. *)
Lemma set_index_same c i key :
  length key = 80%nat → set_index 0 key = set_index 0 (digest_template c) →
  set_index i key = field_element_address c i.
Proof.
  intros Hk Hset. unfold field_element_address.
  rewrite <-(set_index_twice _ 0 key), Hset, set_index_twice; [done|apply length_digest_template|done].
Qed.

Lemma address_digest_inj c c' l l' :
  to_digest c ++ l = to_digest c' ++ l' → to_digest c = to_digest c' ∧ l = l'.
Proof. intros Heq. by apply app_inj_1 in Heq; rewrite ?length_to_digest. Qed.

Lemma field_element_address_inj c c' i i' :
  0 ≤ i < 2 ^ 64 → 0 ≤ i' < 2 ^ 64 →
  field_element_address c i = field_element_address c' i' → to_digest c = to_digest c' ∧ i = i'.
Proof.
  intros Hi Hi'. rewrite !field_element_address_eq.
  intros [Hd Hl]%address_digest_inj. split; [done|].
  apply (inj (app (zeros 40))) in Hl. by apply (to_be_bytes_inj 8).
Qed.

Lemma validity_address_inj c c' :
  validity_address c = validity_address c' → to_digest c = to_digest c'.
Proof. rewrite !validity_address_eq. by intros [? _]%address_digest_inj. Qed.

Lemma validity_field_element_address c c' i : validity_address c ≠ field_element_address c' i.
Proof.
  rewrite validity_address_eq, field_element_address_eq.
  by intros [_ Heq]%address_digest_inj.
Qed.
End addresses.

(** ** eigenda_provider.rs *)

Record OracleEigenDAPreimageProvider (T : Type) := { oracle : T }.
Arguments Build_OracleEigenDAPreimageProvider {T}.
Arguments oracle {T}.

Module OracleProvider.
Section provider.
Context `{!Alloy, !KonaPreimage, !CommsClient T}.
Local Abbreviation S := (OracleEigenDAPreimageProvider T).

Definition new (oracle : T) : S := {| oracle := oracle |}.

(** A call on the field [oracle], with [.map_err(Preimage)]. *)
Definition call {B} (m : M T (result PreimageOracleError B)) :
    M S (result HokuleaOracleProviderError B) :=
  r ← zoom oracle (λ t _, {| oracle := t |}) m; mret (map_err Preimage r).

Definition key (address : Bytes) : PreimageKey := PreimageKey_generic (keccak256 address).

Definition get_validity (c : AltDACommitment) : M S (result HokuleaOracleProviderError bool) :=
  _ ←? call (oracle_write (encode_with EigenDACert [to_rlp_bytes c]));
  validity ←? call (oracle_get (key (validity_address c)));
  match validity with
  | [x00] => mret (Ok false)
  | [x01] => mret (Ok true)
  | _ => panic
  end.

(** The loop over [0..blob_length]; [n] indices are left, [idx_fe] is the next. *)
Fixpoint fetch_encoded_payload (n : nat) (idx_fe : nat) (field_element_key : Bytes)
    (encoded_payload : Bytes) : M S (result HokuleaOracleProviderError Bytes) :=
  match n with
  | O => mret (Ok encoded_payload)
  | Datatypes.S n =>
      let field_element_key := set_index (Z.of_nat idx_fe) field_element_key in
      field_element ←? call (oracle_get_exact (key field_element_key) 32);
      fetch_encoded_payload n (idx_fe + 1) field_element_key
        (copy_at (idx_fe * 32) field_element encoded_payload)
  end.

Definition get_encoded_payload (c : AltDACommitment) :
    M S (result HokuleaOracleProviderError EncodedPayload) :=
  _ ←? call (oracle_write (encode_with EigenDACert [to_rlp_bytes c]));
  let blob_length_fe := Z.to_nat (get_num_field_element c) in
  payload ←? fetch_encoded_payload blob_length_fe 0 (digest_template c)
    (zeros (blob_length_fe * BYTES_PER_FIELD_ELEMENT));
  mret (Ok {| encoded_payload := payload |}).

#[global] Instance oracle_provider : EigenDAPreimageProvider S := {|
  provider_error := HokuleaOracleProviderError;
  provider_error_into := HokuleaOracleProviderError_into;
  provider_error_display := HokuleaOracleProviderError_display;
  PreimageSource.get_validity := get_validity;
  PreimageSource.get_encoded_payload := get_encoded_payload;
|}.
End provider.
End OracleProvider.

(** ** The preimages of a DA world *)

Section preimages.
Context `{!Alloy, !KonaPreimage}.

Definition bool_byte (b : bool) : byte := if b then x01 else x00.

(** Field element [i] of an encoded payload. *)
Definition field_element (ep : EncodedPayload) (i : nat) : Bytes :=
  take 32 (drop (32 * i) (encoded_payload ep)).

(** [v] is the preimage which [w] has for [c] under the key [k]. *)
Inductive preimage_of (w : DAWorld) (c : AltDACommitment) : PreimageKey → Bytes → Prop :=
| preimage_validity :
    preimage_of w c (OracleProvider.key (validity_address c)) [bool_byte (is_valid w c)]
| preimage_field_element i :
    is_valid w c = true → Z.of_nat i < get_num_field_element c →
    preimage_of w c (OracleProvider.key (field_element_address c (Z.of_nat i)))
      (field_element (blob_of w c) i).

(** The blob has the length that the certificate states. *)
Definition blob_sized (w : DAWorld) (c : AltDACommitment) : Prop :=
  Z.of_nat (length (encoded_payload (blob_of w c))) = 32 * get_num_field_element c.
End preimages.

(** A reply that the derivation retries: an error that is not an [IOError]. *)
Definition retryable `{!KonaPreimage} {B} (r : result PreimageOracleError B) : Prop :=
  ∃ e, r = Err e ∧ io_error e = None.

(** [o] is the reply [v], and [J] holds then, or a retryable error that uses up one of
    the [retries] left; [Inv] holds in both cases. *)
Definition replied `{!KonaPreimage} {T B} (retries : T → nat) (Inv J : T → Prop) (v : B) (t : T)
    (o : outcome (result PreimageOracleError B * T)) : Prop :=
  ∃ r t', o = Done (r, t') ∧ Inv t' ∧
    ((r = Ok v ∧ J t' ∧ (retries t' ≤ retries t)%nat) ∨ (retryable r ∧ (retries t' < retries t)%nat)).

(** [v] is a preimage of [c] that a derivation at the block [bn] reads: field elements are
    read only if the certificate passes the recency check. *)
Definition read_at `{!Alloy, !KonaPreimage} (w : DAWorld) (bn : Z) (c : AltDACommitment)
    (k : PreimageKey) (v : Bytes) : Prop :=
  preimage_of w c k v ∧ (k = OracleProvider.key (validity_address c) ∨ passes_recency bn c).

(** In a state of [Inv] the oracle serves the certificate of [D] whose hint was the last
    one written ([asked]), with the preimages that [w] has for it. *)
Class AnswersFrom `{!Alloy, !KonaPreimage, !CommsClient T} (w : DAWorld)
    (D : AltDACommitment → Prop) (bn : Z) (Inv : T → Prop) (asked : AltDACommitment → T → Prop)
    (retries : T → nat) := {
  oracle_write_answers t c : Inv t → D c →
    replied retries Inv (asked c) tt t (oracle_write (encode_with EigenDACert [to_rlp_bytes c]) t);
  oracle_get_answers t c k v : Inv t → D c → asked c t → read_at w bn c k v →
    replied retries Inv (asked c) v t (oracle_get k t);
  oracle_get_exact_answers t c k v n : Inv t → D c → asked c t → read_at w bn c k v → length v = n →
    replied retries Inv (asked c) v t (oracle_get_exact k n t);
}.

(** ** What the provider reads back *)

Section served.
Context `{!Alloy, !KonaPreimage, !CommsClient T}.
Context (w : DAWorld) (D : AltDACommitment → Prop) (bn : Z) (Inv : T → Prop)
  (asked : AltDACommitment → T → Prop) (retries : T → nat).
Context `{!AnswersFrom w D bn Inv asked retries}.
Local Abbreviation S := (OracleEigenDAPreimageProvider T).
Implicit Types s : S.

(** An error that the derivation retries. *)
Definition temporary_error (e : HokuleaOracleProviderError) : Prop :=
  is_temporary (HokuleaOracleProviderError_into e).

(** A request of the provider gives [v], and [J] holds then, or a temporary error that
    uses up a retry. *)
Definition served {B} (J : T → Prop) (v : B) s
    (o : outcome (result HokuleaOracleProviderError B * S)) : Prop :=
  ∃ r s', o = Done (r, s') ∧ Inv (oracle s') ∧
    ((r = Ok v ∧ J (oracle s') ∧ (retries (oracle s') ≤ retries (oracle s))%nat) ∨
     ∃ e, r = Err e ∧ temporary_error e ∧ (retries (oracle s') < retries (oracle s))%nat).

Lemma call_served {B} (m : M T (result PreimageOracleError B)) J v s :
  replied retries Inv J v (oracle s) (m (oracle s)) → served J v s (OracleProvider.call m s).
Proof.
  intros (r & t' & Hm & HI & Hr). exists (map_err Preimage r), {| oracle := t' |}.
  split_and!; [|done|].
  { unfold OracleProvider.call, zoom, mbind, M_bind. by rewrite Hm. }
  destruct Hr as [(-> & ? & ?)|[(e & -> & He) ?]]; [by left|right].
  exists (Preimage e). split_and!; [done| |done]. unfold temporary_error. cbn. rewrite He. by eexists.
Qed.

(** Sequencing of requests. *)
Lemma try_bind_served {A B} (m : M S (result HokuleaOracleProviderError A))
    (f : A → M S (result HokuleaOracleProviderError B)) J K a b s :
  served J a s (m s) →
  (∀ s', J (oracle s') → Inv (oracle s') → served K b s' (f a s')) →
  served K b s (try_bind m f s).
Proof.
  intros (r & s1 & Hm & HI & Hr) Hf. unfold try_bind. rewrite Hm.
  destruct Hr as [(-> & HJ & Hle)|(e & -> & He & Hlt)].
  - destruct (Hf s1 HJ HI) as (r2 & s2 & -> & HI2 & Hr2). exists r2, s2. split_and!; [done..|].
    destruct Hr2 as [(-> & ? & ?)|(e & -> & ? & ?)]; [left|right; exists e]; split_and!; (done || lia).
  - exists (Err e), s1. split_and!; [done..|]. right. by exists e.
Qed.

Lemma mret_served {B} J (v : B) s : J (oracle s) → Inv (oracle s) → served J v s (mret (M := M S) (Ok v) s).
Proof. intros HJ HI. exists (Ok v), s. split_and!; [done..|]. by left. Qed.

Lemma length_field_element ep n i :
  length (encoded_payload ep) = (32 * n)%nat → (i < n)%nat → length (field_element ep i) = 32%nat.
Proof. intros Hl Hi. unfold field_element. rewrite length_take, length_drop. lia. Qed.

(** Writing element [i] extends the part of the blob that has been read. *)
Lemma copy_field_element ep n i :
  length (encoded_payload ep) = (32 * n)%nat → (i < n)%nat →
  copy_at (i * 32) (field_element ep i)
    (take (32 * i) (encoded_payload ep) ++ zeros (32 * (n - i))) =
  take (32 * (i + 1)) (encoded_payload ep) ++ zeros (32 * (n - (i + 1))).
Proof.
  intros Hl Hi. pose proof (length_field_element ep n i Hl Hi) as Hf. unfold copy_at.
  assert (Ht : length (take (32 * i) (encoded_payload ep)) = (i * 32)%nat)
    by (rewrite length_take; lia).
  rewrite Hf, take_app_le, take_ge, drop_app_ge, Ht by lia.
  unfold zeros. rewrite drop_replicate.
  rewrite (Nat.add_comm i 1), Nat.mul_add_distr_l, Nat.mul_1_r.
  rewrite (Nat.add_comm 32), <-take_take_drop, <-app_assoc. unfold field_element.
  do 3 f_equal. lia.
Qed.

Lemma fetch_encoded_payload_served c n i key s :
  D c → is_valid w c = true → passes_recency bn c →
  length (encoded_payload (blob_of w c)) = (32 * (i + n))%nat →
  get_num_field_element c = Z.of_nat (i + n) →
  length key = 80%nat → set_index 0 key = set_index 0 (digest_template c) →
  asked c (oracle s) → Inv (oracle s) →
  served (asked c) (encoded_payload (blob_of w c)) s
    (OracleProvider.fetch_encoded_payload n i key
      (take (32 * i) (encoded_payload (blob_of w c)) ++ zeros (32 * n)) s).
Proof.
  intros HD Hval Hpass. revert i key s. induction n as [|n IH]; intros i key s Hl Hnum Hk Hkey Ha HI;
    cbn [OracleProvider.fetch_encoded_payload].
  { rewrite app_nil_r, take_ge by lia. by apply mret_served. }
  rewrite (set_index_same c _ key Hk Hkey).
  eapply try_bind_served.
  { apply call_served. eapply oracle_get_exact_answers; [done..| |].
    - split; [apply preimage_field_element; [done|lia]|by right].
    - eapply (length_field_element _ (i + Datatypes.S n)); [done|lia]. }
  intros s' Ha' HI'.
  pose proof (copy_field_element (blob_of w c) (i + Datatypes.S n) i Hl ltac:(lia)) as Hcopy.
  replace (i + Datatypes.S n - i)%nat with (Datatypes.S n) in Hcopy by lia.
  replace (i + Datatypes.S n - (i + 1))%nat with n in Hcopy by lia.
  rewrite Hcopy. apply IH; [rewrite Hl; f_equal; lia|rewrite Hnum; f_equal; lia| | |done..].
  - rewrite field_element_address_eq. autorewrite with hok_len. rewrite length_to_digest. done.
  - unfold field_element_address. apply set_index_twice, length_digest_template.
Qed.

(** The validity is read back. *)
Lemma get_validity_served c s : D c → Inv (oracle s) →
  served (asked c) (is_valid w c) s (get_validity c s).
Proof.
  intros HD HI. cbn [get_validity OracleProvider.oracle_provider]. unfold OracleProvider.get_validity.
  eapply try_bind_served; [by apply call_served, oracle_write_answers|]. intros s1 Ha1 HI1.
  eapply try_bind_served.
  { apply call_served. eapply oracle_get_answers; [done..|]. split; [apply preimage_validity|by left]. }
  intros s2 Ha2 HI2. unfold bool_byte. by destruct (is_valid w c); apply mret_served.
Qed.

(** The whole encoded payload of a valid and recent certificate is read back. *)
Lemma get_encoded_payload_served c s :
  AltDACommitment_wf c = true → blob_sized w c →
  D c → Inv (oracle s) → is_valid w c = true → passes_recency bn c →
  served (asked c) (blob_of w c) s (get_encoded_payload c s).
Proof.
  intros Hwf Hsize HD HI Hval Hpass. unfold blob_sized in Hsize.
  pose proof (AltDACommitment_wf_num c Hwf) as Hnum.
  cbn [get_encoded_payload OracleProvider.oracle_provider].
  unfold OracleProvider.get_encoded_payload, BYTES_PER_FIELD_ELEMENT.
  eapply try_bind_served; [by apply call_served, oracle_write_answers|]. intros s1 Ha1 HI1.
  set (n := Z.to_nat (get_num_field_element c)).
  pose proof (fetch_encoded_payload_served c n 0 (digest_template c) s1 HD Hval Hpass) as Hr.
  rewrite Nat.mul_0_r, take_0, app_nil_l in Hr. rewrite (Nat.mul_comm n 32).
  eapply try_bind_served; [apply Hr; (done || lia || apply length_digest_template)|].
  intros s2 Ha2 HI2. destruct (blob_of w c). by apply mret_served.
Qed.

(** The provider answers as the DA world does. *)
Lemma served_answer {B} J (v : B) s o : served J v s o →
  ∃ r s', o = Done (r, s') ∧ Inv (oracle s') ∧ (r = Ok v ∨ ∃ e, r = Err e ∧ temporary_error e).
Proof.
  intros (r & s' & -> & HI & [(-> & _)|(e & -> & He & _)]); do 2 eexists; (split; [done|]);
    (split; [done|]); [by left|right]. by exists e.
Qed.

Lemma oracle_provider_answers :
  (∀ c, D c → AltDACommitment_wf c = true ∧ blob_sized w c) →
  AnswersAt w D (λ s : S, Inv (oracle s)) bn.
Proof.
  intros Hsane. split; intros s c HI HD.
  - by eapply served_answer, get_validity_served.
  - intros Hval Hpass. destruct (Hsane c HD). by eapply served_answer, get_encoded_payload_served.
Qed.

(** A request that fails uses up a retry. *)
Lemma served_retries {B} J (v : B) s o r s' : served J v s o → o = Done (r, s') →
  Inv (oracle s') ∧ (retries (oracle s') ≤ retries (oracle s))%nat ∧ (∀ b, r = Ok b → b = v) ∧
  ∀ e, r = Err e → (retries (oracle s') < retries (oracle s))%nat.
Proof.
  intros (r1 & s1 & -> & HI & [(-> & _ & ?)|(e & -> & _ & ?)]) [= <- <-];
    (split_and!; [done|lia| |]); [by intros ? [= <-]|done|done|by intros; lia].
Qed.
End served.
