(* ===== verification/Canoe.v ===== *)
(** * Canoe: proofs of certificate validity (canoe/, crates/registry)

    A canoe guest calls the certificate verifier contract in a zkVM and commits
    one [Journal] per certificate; a canoe verifier rebuilds the journals from
    the claims and checks the proof against them.  [sp1_guest_sound] and
    [steel_guest_sound] are the core of the argument: when the committed bytes
    are the rebuilt journals, every claim is what the contract returned. *)

From S2P Require Export AltDACommitment.

(** ** canoe/verifier-address-fetcher/src/lib.rs and crates/registry/src/lib.rs *)

Inductive CanoeVerifierAddressFetcherError :=
| UnknownL1ChainId (l1 : Z)
| MissingL2ChainId
| UnknownL2ChainId (l2 l1 : Z).

#[export] Instance CanoeVerifierAddressFetcherError_eq_dec :
  EqDecision CanoeVerifierAddressFetcherError.
Proof. solve_decision. Defined.

Definition CanoeVerifierAddressFetcherError_display (e : CanoeVerifierAddressFetcherError) : string :=
  match e with
  | UnknownL1ChainId l1 =>
      "Unknown L1 chain ID: " +:+ display_uint l1 +:+ ". This L1 chain is not supported."
  | MissingL2ChainId =>
      "L2 chain ID is required for this verifier address fetcher but was not provided"
  | UnknownL2ChainId l2 l1 =>
      "Unknown L2 chain ID: " +:+ display_uint l2 +:+ " for L1 chain ID: " +:+ display_uint l1 +:+
      ". This L2 is not registered. Rollup teams should submit a PR to add their router address."
  end.

Class CanoeVerifierAddressFetcher (F : Type) := {
  fetch_address : F → Z → EigenDAVersionedCert → result CanoeVerifierAddressFetcherError Address;
}.

Class L2SpecificCanoeVerifierAddressFetcher (F : Type) `{!CanoeVerifierAddressFetcher F} := {
  fetch_address_for_l2 : F → Z → EigenDAVersionedCert → Z →
    result CanoeVerifierAddressFetcherError Address;
}.

Definition address (s : string) : Address := hex_bytes s.

Definition cert_verifier_address_abi_encode_interface (chain_id : Z) :
    result CanoeVerifierAddressFetcherError Address :=
  match chain_id with
  | 1 => Ok (address "1be7258230250bc6a4548f8d59d576a87d216c12")
  | 11155111 => Ok (address "17ec4112c4bbd540e2c1fe0a49d264a280176f0d")
  | 17000 => Ok (address "dd735affe77a5ed5b21ed47219f95ed841f8ffbd")
  | 3151908 => Ok (address "b4b46bdaa835f8e4b4d8e208b6559cd267851051")
  | chain_id => Err (UnknownL1ChainId chain_id)
  end.

Definition cert_verifier_address (chain_id : Z) (versioned_cert : EigenDAVersionedCert) :
    result CanoeVerifierAddressFetcherError Address :=
  match versioned_cert with
  | V2 _ => cert_verifier_address_abi_encode_interface chain_id
  | V3 _ => cert_verifier_address_abi_encode_interface chain_id
  | V4 _ => cert_verifier_address_abi_encode_interface chain_id
  end.

Inductive CanoeVerifierAddressFetcherDeployedByEigenLabs := DeployedByEigenLabs.
#[export] Instance fetcher_eigenlabs :
    CanoeVerifierAddressFetcher CanoeVerifierAddressFetcherDeployedByEigenLabs := {|
  fetch_address _ chain_id versioned_cert := cert_verifier_address chain_id versioned_cert
|}.

(** [impl CanoeVerifierAddressFetcher for Address] *)
Record StaticAddress := { static_address : Address }.
#[export] Instance fetcher_static : CanoeVerifierAddressFetcher StaticAddress := {|
  fetch_address a _ _ := Ok (static_address a)
|}.

Inductive HokuleaRegistry := Registry.
#[export] Instance fetcher_registry : CanoeVerifierAddressFetcher HokuleaRegistry := {|
  fetch_address _ _ _ := Err MissingL2ChainId
|}.

Definition fetch_mainnet_address (versioned_cert : EigenDAVersionedCert) (l2_chain_id : Z) :
    result CanoeVerifierAddressFetcherError Address :=
  Err (UnknownL2ChainId l2_chain_id 1).
Definition fetch_sepolia_address (versioned_cert : EigenDAVersionedCert) (l2_chain_id : Z) :
    result CanoeVerifierAddressFetcherError Address :=
  Err (UnknownL2ChainId l2_chain_id 11155111).

#[export] Instance fetcher_registry_l2 : L2SpecificCanoeVerifierAddressFetcher HokuleaRegistry := {|
  fetch_address_for_l2 _ l1_chain_id versioned_cert l2_chain_id :=
    match l1_chain_id with
    | 1 => fetch_mainnet_address versioned_cert l2_chain_id
    | 11155111 => fetch_sepolia_address versioned_cert l2_chain_id
    | _ => Err (UnknownL1ChainId l1_chain_id)
    end
|}.

(** ** canoe/verifier/src/cert_validity.rs and canoe/provider/src/canoe_provider.rs *)

Record CertValidity := {
  claimed_validity : bool;
  l1_head_block_hash : B256;
  l1_head_block_number : Z;
  l1_head_block_timestamp : Z;
  l1_chain_id : Z;
  verifier_address : Address;
}.

#[export] Instance CertValidity_eq_dec : EqDecision CertValidity.
Proof. solve_decision. Defined.

Record CanoeInput := {
  ci_altda_commitment : AltDACommitment;
  ci_claimed_validity : bool;
  ci_l1_head_block_hash : B256;
  ci_l1_head_block_number : Z;
  ci_l1_chain_id : Z;
  ci_verifier_address : Address;
}.

(** [create_certs_validity_proof] returns [None] when there is nothing to prove. *)
Class CanoeProvider (P : Type) := {
  Receipt : Type;
  create_certs_validity_proof : list CanoeInput → M P (option (result string Receipt));
}.

Inductive CanoeNoOpProvider := NoOpProvider.
#[export] Instance canoe_noop_provider : CanoeProvider CanoeNoOpProvider := {|
  Receipt := unit;
  create_certs_validity_proof _ := mret (Some (Ok tt))
|}.

(** ** alloy_sol_types, bincode *)

Class SolEncoding := {
  abi_encode_v3 : Sol.EigenDACertV3 → Bytes;
  abi_encode_v4 : Sol.EigenDACertV4 → Bytes;
  (** [<StatusCode as SolType>::abi_decode] *)
  abi_decode_StatusCode : Bytes → option Sol.StatusCode;
  (** [bincode::serialize] on a vector of journals *)
  bincode_journals : list Sol.Journal → Bytes;
}.

Class SolEncodingLaws `{SolEncoding} := {
  bincode_journals_inj :: Inj (=) (=) bincode_journals;
}.

(** ** canoe/provider/src/verifier_caller.rs *)

Record checkDACertCall := { abiEncodedCert : Bytes }.
Inductive CertVerifierCall := ABIEncodeInterface (call : checkDACertCall).

Section call.
Context `{!SolEncoding}.

(** A V2 certificate is called as a V3 certificate with its fields. *)
Definition v2_to_v3 (v2_cert : EigenDACertV2) : EigenDACertV3 := {|
  v3_batch_header_v2 := v2_batch_header_v2 v2_cert;
  v3_blob_inclusion_info := v2_blob_inclusion_info v2_cert;
  v3_nonsigner_stake_and_signature := v2_nonsigner_stake_and_signature v2_cert;
  v3_signed_quorum_numbers := v2_signed_quorum_numbers v2_cert;
|}.

Definition CertVerifierCall_build (c : AltDACommitment) : CertVerifierCall :=
  match versioned_cert c with
  | V2 v2_cert =>
      ABIEncodeInterface {| abiEncodedCert := abi_encode_v3 (EigenDACertV3_to_sol (v2_to_v3 v2_cert)) |}
  | V3 cert => ABIEncodeInterface {| abiEncodedCert := abi_encode_v3 (EigenDACertV3_to_sol cert) |}
  | V4 cert => ABIEncodeInterface {| abiEncodedCert := abi_encode_v4 (EigenDACertV4_to_sol cert) |}
  end.
End call.

(** ** canoe/verifier/src/verifier.rs *)

Inductive HokuleaCanoeVerificationError :=
| InconsistentPublicJournal
| MissingProof
| InvalidProofAndJournal (s : string)
| UnableToDeserializeReceipt (s : string).

#[export] Instance HokuleaCanoeVerificationError_eq_dec : EqDecision HokuleaCanoeVerificationError.
Proof. solve_decision. Defined.

Definition HokuleaCanoeVerificationError_display (e : HokuleaCanoeVerificationError) : string :=
  match e with
  | InconsistentPublicJournal =>
      "Non zkvm environment: inconsistency between public journal proven by the zk proof and user supplied journal"
  | MissingProof => "Non zkvm environment: proof is missing"
  | InvalidProofAndJournal s =>
      "The verifier cannot verify the validity proof and the provided journal it can happen in both zk or non zkvm mode: " +:+ s
  | UnableToDeserializeReceipt s =>
      "Non zkvm environment: unable to deserialize receipt: " +:+ s
  end.

(** Both methods can panic. *)
Class CanoeVerifier (V : Type) := {
  validate_cert_receipt : V → list (AltDACommitment * CertValidity) → option Bytes →
    outcome (result HokuleaCanoeVerificationError unit);
  to_journals_bytes : V → list (AltDACommitment * CertValidity) → outcome Bytes;
}.

Inductive CanoeNoOpVerifier := NoOpVerifier.
#[export] Instance canoe_noop_verifier : CanoeVerifier CanoeNoOpVerifier := {|
  validate_cert_receipt _ _ _ := Done (Ok tt);
  to_journals_bytes _ _ := Done []
|}.

(** ** canoe/verifier/src/chain_spec.rs *)

(** reth's chain specifications. *)
Class Reth := {
  ChainSpec : Type;
  SpecId : Type;
  SpecId_to_string : SpecId → string;
  MAINNET : ChainSpec;
  SEPOLIA : ChainSpec;
  HOLESKY : ChainSpec;
  genesis_hash : ChainSpec → B256;
  (** [ChainSpecBuilder]: the chain id, the default genesis and the forks that are
      activated, in the order of the calls. *)
  ChainSpecBuilder_build : Z → list string → ChainSpec;
  (** [spec_by_timestamp_and_block_number(spec, timestamp, number)] *)
  spec_by_timestamp_and_block_number : ChainSpec → Z → Z → SpecId;
}.

Section chain_spec.
Context `{!Reth}.

Definition create_kurtosis_chain_spec : ChainSpec :=
  ChainSpecBuilder_build 3151908 ["homestead"; "byzantium"; "constantinople"; "petersburg";
    "istanbul"; "berlin"; "london"; "shanghai"; "cancun"; "prague"]%string.

Definition derive_chain_spec_id (l1_chain_id l1_head_block_timestamp l1_head_block_number : Z) :
    outcome SpecId :=
  match l1_chain_id with
  | 1 => Done (spec_by_timestamp_and_block_number MAINNET
      l1_head_block_timestamp l1_head_block_number)
  | 11155111 => Done (spec_by_timestamp_and_block_number SEPOLIA
      l1_head_block_timestamp l1_head_block_number)
  | 17000 => Done (spec_by_timestamp_and_block_number HOLESKY
      l1_head_block_timestamp l1_head_block_number)
  | 3151908 => Done (spec_by_timestamp_and_block_number create_kurtosis_chain_spec
      l1_head_block_timestamp l1_head_block_number)
  | _ => Panic
  end.

Definition derive_chain_spec_genesis_hash (l1_chain_id : Z) : outcome B256 :=
  match l1_chain_id with
  | 1 => Done (genesis_hash MAINNET)
  | 11155111 => Done (genesis_hash SEPOLIA)
  | 17000 => Done (genesis_hash HOLESKY)
  | 3151908 => Done (genesis_hash create_kurtosis_chain_spec)
  | _ => Panic
  end.
End chain_spec.

(** ** Checks the guests share *)

(** The loop that requires a common chain, block number and block hash. *)
Definition same_anchor (chain_id number : Z) (hash : B256) (i : CanoeInput) : outcome unit :=
  _ ← assert (bool_decide (ci_l1_chain_id i = chain_id));
  _ ← assert (bool_decide (ci_l1_head_block_number i = number));
  assert (bool_decide (ci_l1_head_block_hash i = hash)).

Lemma same_anchor_Done chain_id number hash i u :
  same_anchor chain_id number hash i = Done u →
  ci_l1_chain_id i = chain_id ∧ ci_l1_head_block_number i = number ∧
  ci_l1_head_block_hash i = hash.
Proof. unfold same_anchor. repeat case_bool_decide; try done. Qed.

(** ** canoe/sp1-cc *)

(** The libraries of sp1: the contract executor over a state sketch, the genesis
    type of rsp, SHA-256, the encoding of the chain config, and the verification
    of a proof, which panics when the proof is wrong. *)
Class Sp1 := {
  EvmSketchInput : Type;
  ClientExecutor : Type;
  ClientExecutor_eth : EvmSketchInput → result string ClientExecutor;
  executor_header_number : ClientExecutor → Z;
  executor_chain_id : ClientExecutor → Z;
  AnchorType : Type;
  anchor_is_block_hash : AnchorType → bool;
  (** [ContractPublicValues]: [contractOutput], [anchorHash], [anchorType], [chainConfigHash] *)
  execute : ClientExecutor → Address → Address → checkDACertCall →
    result string (Bytes * B256 * AnchorType * B256);
  RspGenesis : Type;
  sketch_genesis : EvmSketchInput → RspGenesis;
  RspGenesis_try_from : Z → result string RspGenesis;
  bincode_genesis : RspGenesis → Bytes;
  (** [ChainConfig { chainId, activeForkName }.abi_encode_packed()] *)
  abi_encode_packed_config : Z → string → Bytes;
  sha256 : Bytes → B256;
  verify_sp1_proof : list Z → B256 → outcome unit;
}.

Module Sp1CC.
Section sp1.
Context `{!Alloy, !SolEncoding, !Reth, !Sp1}.

(** canoe/sp1-cc/client/src/main.rs: one certificate of the guest's second loop. *)
Definition guest_journal (executor : ClientExecutor) (l1_chain_id l1_head_block_number : Z)
    (l1_head_block_hash rsp_genesis_hash : B256) (canoe_input : CanoeInput) : outcome Sol.Journal :=
  let '(ABIEncodeInterface call) := CertVerifierCall_build (ci_altda_commitment canoe_input) in
  public_vals ← expect (execute executor (ci_verifier_address canoe_input) (zeros 20) call);
  let '(contract_output, anchor_hash, anchor_type, chain_config_hash) := public_vals in
  let returns :=
    match abi_decode_StatusCode contract_output with
    | Some returns => bool_decide (returns = Sol.SUCCESS)
    | None => false
    end in
  _ ← assert (anchor_is_block_hash anchor_type);
  let rlp_bytes := to_rlp_bytes (ci_altda_commitment canoe_input) in
  _ ← assert (bool_decide (ci_claimed_validity canoe_input = returns));
  _ ← assert (bool_decide (anchor_hash = l1_head_block_hash));
  Done {|
    Sol.blockNumber := l1_head_block_number;
    Sol.certVerifierAddress := ci_verifier_address canoe_input;
    Sol.input := rlp_bytes;
    Sol.blockhash := anchor_hash;
    Sol.output := returns;
    Sol.l1ChainId := l1_chain_id;
    Sol.chainSpecHash := rsp_genesis_hash;
    Sol.chainConfigHash := chain_config_hash;
  |}.

(** [main]; the result is what it commits.  Indexing \[0\] is behind the test. *)
Definition guest_main (state_sketch : EvmSketchInput) (canoe_inputs : list CanoeInput) : outcome Bytes :=
  match canoe_inputs with
  | [] => Panic
  | first :: _ =>
      let l1_chain_id_from_canoe_input := ci_l1_chain_id first in
      let l1_head_block_number := ci_l1_head_block_number first in
      let l1_head_block_hash := ci_l1_head_block_hash first in
      _ ← forM_outcome (same_anchor l1_chain_id_from_canoe_input l1_head_block_number
            l1_head_block_hash) canoe_inputs;
      let rsp_genesis_hash := keccak256 (bincode_genesis (sketch_genesis state_sketch)) in
      executor ← expect (ClientExecutor_eth state_sketch);
      _ ← assert (bool_decide (l1_head_block_number = executor_header_number executor));
      let l1_chain_id := executor_chain_id executor in
      _ ← assert (bool_decide (l1_chain_id_from_canoe_input = l1_chain_id));
      journals ← mapM_outcome (guest_journal executor l1_chain_id l1_head_block_number
        l1_head_block_hash rsp_genesis_hash) canoe_inputs;
      Done (bincode_journals journals)
  end.

(** canoe/sp1-cc/verifier/src/lib.rs *)

Definition V_KEY : list Z :=
  [645065344; 790782758; 208923010; 697337507; 818842597; 1276513316; 2097862760; 1282309798].

Definition hash_chain_config (chain_id : Z) (active_fork_name : string) : B256 :=
  keccak256 (abi_encode_packed_config chain_id active_fork_name).

Definition derive_chain_config_hash (l1_chain_id l1_head_block_timestamp l1_head_block_number : Z) :
    outcome B256 :=
  spec_id ← derive_chain_spec_id l1_chain_id l1_head_block_timestamp l1_head_block_number;
  Done (hash_chain_config l1_chain_id (SpecId_to_string spec_id)).

Definition rsp_genesis_hash (chain_id : Z) : outcome B256 :=
  match RspGenesis_try_from chain_id with
  | Ok genesis => Done (keccak256 (bincode_genesis genesis))
  | Err e => Panic
  end.

Definition to_journal (pair : AltDACommitment * CertValidity) : outcome Sol.Journal :=
  let '(altda_commitment, cert_validity) := pair in
  let rlp_bytes := to_rlp_bytes altda_commitment in
  chain_config_hash_derive ← derive_chain_config_hash (l1_chain_id cert_validity)
    (l1_head_block_timestamp cert_validity) (l1_head_block_number cert_validity);
  rsp_genesis_hash ← rsp_genesis_hash (l1_chain_id cert_validity);
  Done {|
    Sol.blockNumber := l1_head_block_number cert_validity;
    Sol.certVerifierAddress := verifier_address cert_validity;
    Sol.input := rlp_bytes;
    Sol.blockhash := l1_head_block_hash cert_validity;
    Sol.output := claimed_validity cert_validity;
    Sol.l1ChainId := l1_chain_id cert_validity;
    Sol.chainSpecHash := rsp_genesis_hash;
    Sol.chainConfigHash := chain_config_hash_derive;
  |}.

Definition to_journals_bytes (pairs : list (AltDACommitment * CertValidity)) : outcome Bytes :=
  journals ← mapM_outcome to_journal pairs; Done (bincode_journals journals).

(** [zkvm] is [target_os = "zkvm"]. *)
Definition validate_cert_receipt (zkvm : bool) (pairs : list (AltDACommitment * CertValidity))
    (canoe_proof_bytes : option Bytes) : outcome (result HokuleaCanoeVerificationError unit) :=
  _ ← assert (negb (bool_decide (pairs = [])));
  if zkvm then
    journals_bytes ← to_journals_bytes pairs;
    _ ← verify_sp1_proof V_KEY (sha256 journals_bytes);
    Done (Ok tt)
  else Panic.
End sp1.
End Sp1CC.

(** [CanoeSp1CCVerifier]; [zkvm] tells the build target. *)
Record CanoeSp1CCVerifier := { sp1_zkvm : bool }.
#[export] Instance canoe_sp1_verifier `{!Alloy, !SolEncoding, !Reth, !Sp1} :
    CanoeVerifier CanoeSp1CCVerifier := {|
  validate_cert_receipt v := Sp1CC.validate_cert_receipt (sp1_zkvm v);
  to_journals_bytes _ := Sp1CC.to_journals_bytes
|}.

(** ** canoe/steel *)

(** The libraries of risc0: chain specifications with their active fork, the EVM
    environment of an input, calls of a contract, and receipts. *)
Class Steel := {
  SteelChainSpec : Type;
  ETH_MAINNET_CHAIN_SPEC : SteelChainSpec;
  ETH_SEPOLIA_CHAIN_SPEC : SteelChainSpec;
  ETH_HOLESKY_CHAIN_SPEC : SteelChainSpec;
  (** [EthChainSpec::new_single(id, Default::default())] *)
  EthChainSpec_new_single : Z → SteelChainSpec;
  SteelSpecId : Type;
  SteelSpecId_to_string : SteelSpecId → string;
  (** [active_fork(block_number, timestamp)] *)
  active_fork : SteelChainSpec → Z → Z → result string SteelSpecId;
  EthEvmInput : Type;
  EvmEnv : Type;
  into_env : EthEvmInput → SteelChainSpec → outcome EvmEnv;
  header_number : EvmEnv → Z;
  header_timestamp : EvmEnv → Z;
  header_seal : EvmEnv → B256;
  (** [Contract::new(address, env).call_builder(&call).call()] *)
  contract_call : EvmEnv → Address → checkDACertCall → outcome Z;
  PRAGUE : string;
  OSAKA : string;
  CERT_VERIFICATION_ID : list Z;
  (** [env::verify], in the zkVM *)
  env_verify : list Z → Bytes → result string unit;
  SteelReceipt : Type;
  receipt_from_slice : Bytes → result string SteelReceipt;
  receipt_verify : SteelReceipt → list Z → result string unit;
  receipt_journal_bytes : SteelReceipt → Bytes;
}.

Module SteelCC.
Section steel.
Context `{!Alloy, !SolEncoding, !Reth, !Steel}.

(** The chain specification that both sides choose by chain id. *)
Definition chain_spec_for (chain_id : Z) : outcome SteelChainSpec :=
  match chain_id with
  | 1 => Done ETH_MAINNET_CHAIN_SPEC
  | 11155111 => Done ETH_SEPOLIA_CHAIN_SPEC
  | 17000 => Done ETH_HOLESKY_CHAIN_SPEC
  | 3151908 => Done (EthChainSpec_new_single 3151908)
  | _ => Panic
  end.

(** canoe/steel/methods/guest/src/bin/cert_verification.rs: one certificate. *)
Definition guest_journal (env : EvmEnv) (l1_chain_id l1_head_block_number : Z)
    (l1_head_block_hash chain_config_hash : B256) (canoe_input : CanoeInput) : outcome Sol.Journal :=
  let '(ABIEncodeInterface call) := CertVerifierCall_build (ci_altda_commitment canoe_input) in
  status ← contract_call env (ci_verifier_address canoe_input) call;
  let is_valid := bool_decide (status = Sol.StatusCode_to_u8 Sol.SUCCESS) in
  let rlp_bytes := to_rlp_bytes (ci_altda_commitment canoe_input) in
  _ ← assert (bool_decide (header_seal env = l1_head_block_hash));
  _ ← assert (bool_decide (ci_claimed_validity canoe_input = is_valid));
  Done {|
    Sol.blockNumber := l1_head_block_number;
    Sol.certVerifierAddress := ci_verifier_address canoe_input;
    Sol.input := rlp_bytes;
    Sol.blockhash := l1_head_block_hash;
    Sol.output := is_valid;
    Sol.l1ChainId := l1_chain_id;
    Sol.chainConfigHash := chain_config_hash;
    Sol.chainSpecHash := zeros 32;
  |}.

(** The bytes of a Rust [String]. *)
Definition string_bytes (s : string) : Bytes := String.list_byte_of_string s.

Definition guest_main (input : EthEvmInput) (canoe_inputs : list CanoeInput) : outcome Bytes :=
  match canoe_inputs with
  | [] => Panic
  | first :: _ =>
      let l1_chain_id := ci_l1_chain_id first in
      let l1_head_block_number := ci_l1_head_block_number first in
      let l1_head_block_hash := ci_l1_head_block_hash first in
      _ ← forM_outcome (same_anchor l1_chain_id l1_head_block_number l1_head_block_hash) canoe_inputs;
      spec ← chain_spec_for l1_chain_id;
      env ← into_env input spec;
      fork ← expect (active_fork spec l1_head_block_number (header_timestamp env));
      let chain_config_hash := keccak256 (string_bytes (SteelSpecId_to_string fork)) in
      _ ← assert (bool_decide (l1_head_block_number = header_number env));
      journals ← mapM_outcome (guest_journal env l1_chain_id l1_head_block_number
        l1_head_block_hash chain_config_hash) canoe_inputs;
      Done (bincode_journals journals)
  end.

(** canoe/steel/verifier/src/lib.rs *)

Definition get_allowed_steel_spec_id (chain_id : Z) : outcome (list string) :=
  match chain_id with
  | 1 => Done [PRAGUE; OSAKA]
  | 11155111 => Done [PRAGUE; OSAKA]
  | 17000 => Done [PRAGUE; OSAKA]
  | 3151908 => Done [PRAGUE; OSAKA]
  | _ => Panic
  end.

Definition get_steel_active_fork (chain_id timestamp block_number : Z) : outcome string :=
  spec ← chain_spec_for chain_id;
  spec_id ← expect (active_fork spec block_number timestamp);
  Done (SteelSpecId_to_string spec_id).

Definition to_journal (pair : AltDACommitment * CertValidity) : outcome Sol.Journal :=
  let '(altda_commitment, cert_validity) := pair in
  let rlp_bytes := to_rlp_bytes altda_commitment in
  let chain_id := l1_chain_id cert_validity in
  let timestamp := l1_head_block_timestamp cert_validity in
  let block_number := l1_head_block_number cert_validity in
  steel_active_fork ← get_steel_active_fork chain_id timestamp block_number;
  spec_id ← derive_chain_spec_id chain_id timestamp block_number;
  let derived_active_fork := SpecId_to_string spec_id in
  _ ← (if bool_decide (steel_active_fork ≠ derived_active_fork) then
         allowed ← get_allowed_steel_spec_id chain_id;
         assert (bool_decide (steel_active_fork ∈ allowed))
       else Done tt);
  Done {|
    Sol.blockNumber := l1_head_block_number cert_validity;
    Sol.certVerifierAddress := verifier_address cert_validity;
    Sol.input := rlp_bytes;
    Sol.blockhash := l1_head_block_hash cert_validity;
    Sol.output := claimed_validity cert_validity;
    Sol.l1ChainId := l1_chain_id cert_validity;
    Sol.chainConfigHash := keccak256 (string_bytes steel_active_fork);
    Sol.chainSpecHash := zeros 32;
  |}.

Definition to_journals_bytes (pairs : list (AltDACommitment * CertValidity)) : outcome Bytes :=
  journals ← mapM_outcome to_journal pairs; Done (bincode_journals journals).

Definition validate_cert_receipt (zkvm : bool) (pairs : list (AltDACommitment * CertValidity))
    (canoe_proof_bytes : option Bytes) : outcome (result HokuleaCanoeVerificationError unit) :=
  journals_bytes ← to_journals_bytes pairs;
  if zkvm then
    Done (map_err InvalidProofAndJournal (env_verify CERT_VERIFICATION_ID journals_bytes))
  else
    match canoe_proof_bytes with
    | None => Done (Err MissingProof)
    | Some proof => Done (
        canoe_receipt ← map_err UnableToDeserializeReceipt (receipt_from_slice proof);
        _ ← map_err InvalidProofAndJournal (receipt_verify canoe_receipt CERT_VERIFICATION_ID);
        if bool_decide (receipt_journal_bytes canoe_receipt ≠ journals_bytes) then
          Err InconsistentPublicJournal
        else Ok tt)
    end.

(** [CanoeSteelVerifier] refuses the devnet. *)
Definition validate_cert_receipt_secure (zkvm : bool)
    (pairs : list (AltDACommitment * CertValidity)) (canoe_proof_bytes : option Bytes) :
    outcome (result HokuleaCanoeVerificationError unit) :=
  _ ← forM_outcome (λ pair, assert (negb (bool_decide (l1_chain_id pair.2 = 3151908)))) pairs;
  validate_cert_receipt zkvm pairs canoe_proof_bytes.
End steel.
End SteelCC.

Record CanoeSteelVerifier := { steel_zkvm : bool }.
#[export] Instance canoe_steel_verifier `{!Alloy, !SolEncoding, !Reth, !Steel} :
    CanoeVerifier CanoeSteelVerifier := {|
  validate_cert_receipt v := SteelCC.validate_cert_receipt_secure (steel_zkvm v);
  to_journals_bytes _ := SteelCC.to_journals_bytes
|}.

Record CanoeSteelVerifierForDevnetTesting := { steel_devnet_zkvm : bool }.
#[export] Instance canoe_steel_devnet_verifier `{!Alloy, !SolEncoding, !Reth, !Steel} :
    CanoeVerifier CanoeSteelVerifierForDevnetTesting := {|
  validate_cert_receipt v := SteelCC.validate_cert_receipt (steel_devnet_zkvm v);
  to_journals_bytes _ := SteelCC.to_journals_bytes
|}.

(** ** Soundness

    What a committed journal says, and that a claim whose rebuilt journal was
    committed is the contract's answer. *)

Definition journals_of {X} (f : X → outcome Sol.Journal) (l : list X) `{!SolEncoding} : outcome Bytes :=
  journals ← mapM_outcome f l; Done (bincode_journals journals).

(** Committed bytes that are the rebuilt bytes pair each claim with a journal. *)
Lemma journals_match `{!SolEncoding, !SolEncodingLaws} {X Y}
    (f : X → outcome Sol.Journal) (g : Y → outcome Sol.Journal) l k bytes :
  journals_of f l = Done bytes → journals_of g k = Done bytes →
  Forall2 (λ x y, ∃ j, f x = Done j ∧ g y = Done j) l k.
Proof.
  unfold journals_of.
  intros (js & Hjs & [= <-])%outcome_bind_Done_inv (js' & Hjs' & [= Heq])%outcome_bind_Done_inv.
  apply (inj bincode_journals) in Heq as ->.
  apply Forall2_join with js; by apply mapM_outcome_Done.
Qed.

Definition commitment_ok `{!Alloy} (c : AltDACommitment) : Prop :=
  AltDACommitment_wf c = true ∧ fits (to_rlp_bytes c) = true.

Section sp1_soundness.
Context `{!Alloy, !AlloyLaws, !SolEncoding, !SolEncodingLaws, !Reth, !Sp1}.

(** The verifier contract at [addr], called on [c] in the state of [hash],
    returns success exactly when [b]. *)
Definition sp1_contract_says (ex : ClientExecutor) (hash : B256) (addr : Address)
    (c : AltDACommitment) (b : bool) : Prop :=
  ∃ call out anchor_type config,
    CertVerifierCall_build c = ABIEncodeInterface call ∧
    execute ex addr (zeros 20) call = Ok (out, hash, anchor_type, config) ∧
    anchor_is_block_hash anchor_type = true ∧
    b = bool_decide (abi_decode_StatusCode out = Some Sol.SUCCESS).

Lemma sp1_guest_journal_Done ex chain number hash genesis i j :
  Sp1CC.guest_journal ex chain number hash genesis i = Done j →
  sp1_contract_says ex hash (ci_verifier_address i) (ci_altda_commitment i) (Sol.output j) ∧
  Sol.blockNumber j = number ∧ Sol.certVerifierAddress j = ci_verifier_address i ∧
  Sol.input j = to_rlp_bytes (ci_altda_commitment i) ∧ Sol.blockhash j = hash ∧
  Sol.l1ChainId j = chain ∧ Sol.chainSpecHash j = genesis.
Proof.
  unfold Sp1CC.guest_journal, sp1_contract_says.
  destruct (CertVerifierCall_build _) as [call].
  intros ([[[out anchor] ty] cfg] & Hex%expect_Done & Hj)%outcome_bind_Done_inv.
  apply bind_assert_Done in Hj as [Hty Hj]. apply bind_assert_Done in Hj as [Hcl Hj].
  apply bind_assert_Done in Hj as [Hanchor [= <-]].
  apply bool_decide_eq_true in Hanchor as ->. cbn. split_and!; [|done..].
  exists call, out, ty, cfg. split_and!; [done..|].
  destruct (abi_decode_StatusCode out) as [st|]; [|done].
  apply bool_decide_ext. naive_solver.
Qed.

Lemma sp1_to_journal_Done c v j :
  Sp1CC.to_journal (c, v) = Done j →
  Sol.output j = claimed_validity v ∧ Sol.blockNumber j = l1_head_block_number v ∧
  Sol.certVerifierAddress j = verifier_address v ∧ Sol.input j = to_rlp_bytes c ∧
  Sol.blockhash j = l1_head_block_hash v ∧ Sol.l1ChainId j = l1_chain_id v ∧
  Sp1CC.rsp_genesis_hash (l1_chain_id v) = Done (Sol.chainSpecHash j).
Proof.
  unfold Sp1CC.to_journal.
  intros (cfg & _ & (gen & Hgen & [= <-])%outcome_bind_Done_inv)%outcome_bind_Done_inv.
  cbn. by split_and!.
Qed.

(** What a guest run establishes about one claim. *)
Definition sp1_claim_holds (sketch : EvmSketchInput) (ex : ClientExecutor)
    (pair : AltDACommitment * CertValidity) : Prop :=
  let '(c, v) := pair in
  sp1_contract_says ex (l1_head_block_hash v) (verifier_address v) c (claimed_validity v) ∧
  executor_header_number ex = l1_head_block_number v ∧
  executor_chain_id ex = l1_chain_id v ∧
  Sp1CC.rsp_genesis_hash (l1_chain_id v) =
    Done (keccak256 (bincode_genesis (sketch_genesis sketch))).

Lemma sp1_guest_main_Done sketch inputs bytes :
  Sp1CC.guest_main sketch inputs = Done bytes →
  ∃ ex number hash,
    ClientExecutor_eth sketch = Ok ex ∧ executor_header_number ex = number ∧
    journals_of (Sp1CC.guest_journal ex (executor_chain_id ex) number hash
      (keccak256 (bincode_genesis (sketch_genesis sketch)))) inputs = Done bytes.
Proof.
  unfold Sp1CC.guest_main. destruct inputs as [|first rest]; [done|].
  set (inputs := first :: rest).
  intros (u & _ & Hg)%outcome_bind_Done_inv.
  apply outcome_bind_Done_inv in Hg as (ex & Hex%expect_Done & Hg).
  apply bind_assert_Done in Hg as [Hnum Hg]. apply bind_assert_Done in Hg as [_ Hg].
  apply bool_decide_eq_true in Hnum. by eauto 10.
Qed.

Lemma sp1_guest_claims sketch inputs pairs bytes :
  Sp1CC.guest_main sketch inputs = Done bytes →
  Sp1CC.to_journals_bytes pairs = Done bytes →
  Forall (λ i, commitment_ok (ci_altda_commitment i)) inputs →
  Forall (λ p, commitment_ok p.1) pairs →
  ∃ ex, ClientExecutor_eth sketch = Ok ex ∧ Forall (sp1_claim_holds sketch ex) pairs.
Proof.
  intros (ex & number & hash & Hex & Hnum & Hg)%sp1_guest_main_Done Hp Hok Hok'.
  exists ex. split; [done|].
  pose proof (journals_match _ _ _ _ _ Hg Hp) as Hall. clear Hg Hp.
  induction Hall as [|i [c v] inputs pairs (j & Hi & Hj) _ IH]; [constructor|].
  apply Forall_cons in Hok as [[Hwf Hfit] Hok]. apply Forall_cons in Hok' as [[Hwf' Hfit'] Hok'].
  constructor; [|by apply IH].
  apply sp1_guest_journal_Done in Hi as (Hsays & ? & ? & Hin & ? & ? & ?).
  apply sp1_to_journal_Done in Hj as (Hout & ? & ? & Hin' & ? & ? & ?).
  rewrite Hin in Hin'. apply to_rlp_bytes_inj in Hin'; [|done..].
  unfold sp1_claim_holds. cbn in Hwf', Hfit'. split_and!; [|congruence..].
  rewrite Hout, Hin' in Hsays. congruence.
Qed.
End sp1_soundness.

Section steel_soundness.
Context `{!Alloy, !AlloyLaws, !SolEncoding, !SolEncodingLaws, !Reth, !Steel}.

Definition steel_contract_says (env : EvmEnv) (addr : Address) (c : AltDACommitment) (b : bool) : Prop :=
  ∃ call status, CertVerifierCall_build c = ABIEncodeInterface call ∧
    contract_call env addr call = Done status ∧
    b = bool_decide (status = Sol.StatusCode_to_u8 Sol.SUCCESS).

Lemma steel_guest_journal_Done env chain number hash config i j :
  SteelCC.guest_journal env chain number hash config i = Done j →
  steel_contract_says env (ci_verifier_address i) (ci_altda_commitment i) (Sol.output j) ∧
  header_seal env = hash ∧ Sol.blockNumber j = number ∧
  Sol.certVerifierAddress j = ci_verifier_address i ∧
  Sol.input j = to_rlp_bytes (ci_altda_commitment i) ∧ Sol.blockhash j = hash ∧
  Sol.l1ChainId j = chain ∧ Sol.chainConfigHash j = config.
Proof.
  unfold SteelCC.guest_journal, steel_contract_says.
  destruct (CertVerifierCall_build _) as [call].
  intros (status & Hcall & Hj)%outcome_bind_Done_inv.
  apply bind_assert_Done in Hj as [Hseal Hj]. apply bind_assert_Done in Hj as [_ [= <-]].
  apply bool_decide_eq_true in Hseal. cbn. split_and!; [|done..]. by exists call, status.
Qed.

Lemma steel_to_journal_Done c v j :
  SteelCC.to_journal (c, v) = Done j →
  Sol.output j = claimed_validity v ∧ Sol.blockNumber j = l1_head_block_number v ∧
  Sol.certVerifierAddress j = verifier_address v ∧ Sol.input j = to_rlp_bytes c ∧
  Sol.blockhash j = l1_head_block_hash v ∧ Sol.l1ChainId j = l1_chain_id v.
Proof.
  unfold SteelCC.to_journal. intros (fork & _ & Hj)%outcome_bind_Done_inv.
  apply outcome_bind_Done_inv in Hj as (spec & _ & Hj).
  apply outcome_bind_Done_inv in Hj as (u & _ & [= <-]). cbn. by split_and!.
Qed.

Lemma steel_guest_main_Done input inputs bytes :
  SteelCC.guest_main input inputs = Done bytes →
  ∃ env chain hash config spec,
    SteelCC.chain_spec_for chain = Done spec ∧ into_env input spec = Done env ∧
    journals_of (SteelCC.guest_journal env chain (header_number env) hash config) inputs = Done bytes.
Proof.
  unfold SteelCC.guest_main. destruct inputs as [|first rest]; [done|].
  set (inputs := first :: rest).
  intros (u & _ & Hg)%outcome_bind_Done_inv.
  apply outcome_bind_Done_inv in Hg as (spec & Hspec & Hg).
  apply outcome_bind_Done_inv in Hg as (env & Henv & Hg).
  apply outcome_bind_Done_inv in Hg as (fork & _ & Hg).
  apply bind_assert_Done in Hg as [Hnum Hg]. apply bool_decide_eq_true in Hnum.
  rewrite Hnum in Hg. by eauto 10.
Qed.

(** What a guest run establishes about one claim. *)
Definition steel_claim_holds (input : EthEvmInput) (pair : AltDACommitment * CertValidity) : Prop :=
  let '(c, v) := pair in
  ∃ spec env, SteelCC.chain_spec_for (l1_chain_id v) = Done spec ∧ into_env input spec = Done env ∧
    header_seal env = l1_head_block_hash v ∧ header_number env = l1_head_block_number v ∧
    steel_contract_says env (verifier_address v) c (claimed_validity v).

Lemma steel_guest_claims input inputs pairs bytes :
  SteelCC.guest_main input inputs = Done bytes →
  SteelCC.to_journals_bytes pairs = Done bytes →
  Forall (λ i, commitment_ok (ci_altda_commitment i)) inputs →
  Forall (λ p, commitment_ok p.1) pairs →
  Forall (steel_claim_holds input) pairs.
Proof.
  intros (env & chain & hash & config & spec & Hspec & Henv & Hg)%steel_guest_main_Done Hp Hok Hok'.
  pose proof (journals_match _ _ _ _ _ Hg Hp) as Hall. clear Hg Hp.
  induction Hall as [|i [c v] inputs pairs (j & Hi & Hj) _ IH]; [constructor|].
  apply Forall_cons in Hok as [[Hwf Hfit] Hok]. apply Forall_cons in Hok' as [[Hwf' Hfit'] Hok'].
  constructor; [|by apply IH].
  apply steel_guest_journal_Done in Hi as (Hsays & ? & ? & ? & Hin & ? & ? & ?).
  apply steel_to_journal_Done in Hj as (Hout & ? & ? & Hin' & ? & ?).
  rewrite Hin in Hin'. apply to_rlp_bytes_inj in Hin'; [|done..].
  exists spec, env. split_and!; [congruence..|]. rewrite Hout, Hin' in Hsays. congruence.
Qed.
End steel_soundness.
