(* ===== verification/Witness.v ===== *)
(** * Witnesses (crates/proof/src/eigenda_witness.rs, crates/witgen)

    The preimages a derivation used, the witness with the proofs for them, the
    recorder that collects them while it forwards to another provider, and the
    inputs of a canoe proof. *)

From S2P Require Export PreimageSource Canoe.

(** ** eigenda_witness.rs *)

Inductive EigenDAWitnessError := MissingCanoeProof | MismatchKzgProof.
#[export] Instance EigenDAWitnessError_eq_dec : EqDecision EigenDAWitnessError.
Proof. solve_decision. Defined.

Definition EigenDAWitnessError_display (e : EigenDAWitnessError) : string :=
  match e with
  | MissingCanoeProof =>
      "Missing canoe proof given there is at least one cert requiring validity proof"
  | MismatchKzgProof =>
      "The number of kzg proofs is different from number of encoded payload to be proven"
  end.

Record EigenDAPreimage := {
  preimage_validities : list (AltDACommitment * bool);
  preimage_encoded_payloads : list (AltDACommitment * EncodedPayload);
}.

(** [FixedBytes<64>] is a byte string. *)
Record EigenDAWitness := {
  witness_validities : list (AltDACommitment * bool);
  witness_encoded_payloads : list (AltDACommitment * EncodedPayload * Bytes);
  canoe_proof_bytes : option Bytes;
}.

#[export] Instance EigenDAPreimage_eq_dec : EqDecision EigenDAPreimage.
Proof. solve_decision. Defined.
#[export] Instance EigenDAWitness_eq_dec : EqDecision EigenDAWitness.
Proof. solve_decision. Defined.

Definition EigenDAPreimage_default : EigenDAPreimage :=
  {| preimage_validities := []; preimage_encoded_payloads := [] |}.

Definition from_preimage_unchecked (preimage : EigenDAPreimage) (kzg_proofs : list Bytes)
    (canoe_proof_bytes : option Bytes) : EigenDAWitness := {|
  witness_validities := preimage_validities preimage;
  witness_encoded_payloads :=
    (λ '((commitment, payload), proof), (commitment, payload, proof)) <$>
      zip (preimage_encoded_payloads preimage) kzg_proofs;
  canoe_proof_bytes := canoe_proof_bytes;
|}.

Definition from_preimage (preimage : EigenDAPreimage) (kzg_proofs : list Bytes)
    (canoe_proof : option Bytes) : result EigenDAWitnessError EigenDAWitness :=
  if negb (bool_decide (preimage_validities preimage = [])) && bool_decide (canoe_proof = None)
  then Err MissingCanoeProof
  else if bool_decide (length kzg_proofs ≠ length (preimage_encoded_payloads preimage))
  then Err MismatchKzgProof
  else Ok (from_preimage_unchecked preimage kzg_proofs canoe_proof).

Definition into_preimage (w : EigenDAWitness) : EigenDAPreimage * list Bytes * option Bytes :=
  let pairs := (λ '((commitment, payload), kzg_proof), ((commitment, payload), kzg_proof)) <$>
    witness_encoded_payloads w in
  ({| preimage_validities := witness_validities w; preimage_encoded_payloads := fst <$> pairs |},
   snd <$> pairs, canoe_proof_bytes w).

Lemma into_from_preimage_unchecked preimage proofs canoe :
  length proofs = length (preimage_encoded_payloads preimage) →
  into_preimage (from_preimage_unchecked preimage proofs canoe) = (preimage, proofs, canoe).
Proof.
  intros Hlen. destruct preimage as [vs eps]. unfold into_preimage, from_preimage_unchecked.
  cbn in *. repeat f_equal.
  - revert proofs Hlen. induction eps as [|[c ep] eps IH]; intros [|p ps]; try done.
    intros [= Hl]. cbn. f_equal. by apply IH.
  - revert proofs Hlen. induction eps as [|[c ep] eps IH]; intros [|p ps]; try done.
    intros [= Hl]. cbn. f_equal. by apply IH.
Qed.

Lemma from_into_preimage w :
  let '(preimage, proofs, canoe) := into_preimage w in
  from_preimage_unchecked preimage proofs canoe = w ∧
  length proofs = length (preimage_encoded_payloads preimage).
Proof.
  destruct w as [vs eps canoe]. cbn. split; [|by rewrite !length_fmap].
  unfold from_preimage_unchecked. cbn. f_equal.
  induction eps as [|[[c ep] p] eps IH]; [done|]. cbn. by f_equal.
Qed.

(** ** crates/witgen/src/witness_provider.rs *)

(** [preimage] is shared through an [Arc<Mutex<_>>]; each call locks it once. *)
Record OracleEigenDAPreimageProviderWithPreimage (T : Type) := {
  provider : T;
  preimage : EigenDAPreimage;
}.
Arguments Build_OracleEigenDAPreimageProviderWithPreimage {T}.
Arguments provider {T}.
Arguments preimage {T}.

Module Recorder.
Section recorder.
Context `{!Alloy, !EigenDAPreimageProvider T}.
Local Abbreviation S := (OracleEigenDAPreimageProviderWithPreimage T).

Definition on_provider {B} (m : M T B) : M S B :=
  zoom provider (λ p s, {| provider := p; preimage := preimage s |}) m.

Definition push_validity (c : AltDACommitment) (validity : bool) (s : S) : S := {|
  provider := provider s;
  preimage := {|
    preimage_validities := preimage_validities (preimage s) ++ [(c, validity)];
    preimage_encoded_payloads := preimage_encoded_payloads (preimage s) |};
|}.

Definition push_encoded_payload (c : AltDACommitment) (ep : EncodedPayload) (s : S) : S := {|
  provider := provider s;
  preimage := {|
    preimage_validities := preimage_validities (preimage s);
    preimage_encoded_payloads := preimage_encoded_payloads (preimage s) ++ [(c, ep)] |};
|}.

Definition get_validity (c : AltDACommitment) : M S (result provider_error bool) :=
  r ← on_provider (PreimageSource.get_validity c);
  match r with
  | Ok validity => _ ← modify (push_validity c validity); mret (Ok validity)
  | Err e => mret (Err e)
  end.

Definition get_encoded_payload (c : AltDACommitment) : M S (result provider_error EncodedPayload) :=
  r ← on_provider (PreimageSource.get_encoded_payload c);
  match r with
  | Ok ep => _ ← modify (push_encoded_payload c ep); mret (Ok ep)
  | Err e => mret (Err e)
  end.

#[global] Instance recorder : EigenDAPreimageProvider S := {|
  provider_error := provider_error;
  provider_error_into := provider_error_into;
  provider_error_display := provider_error_display;
  PreimageSource.get_validity := get_validity;
  PreimageSource.get_encoded_payload := get_encoded_payload;
|}.

Lemma get_validity_eq c s :
  get_validity c s =
  match PreimageSource.get_validity c (provider s) with
  | Done (Ok v, p) => Done (Ok v, push_validity c v {| provider := p; preimage := preimage s |})
  | Done (Err e, p) => Done (Err e, {| provider := p; preimage := preimage s |})
  | Panic => Panic
  end.
Proof.
  unfold get_validity, on_provider, zoom, mbind, M_bind.
  by destruct (PreimageSource.get_validity _ _) as [[[]]|].
Qed.

Lemma get_encoded_payload_eq c s :
  get_encoded_payload c s =
  match PreimageSource.get_encoded_payload c (provider s) with
  | Done (Ok v, p) => Done (Ok v, push_encoded_payload c v {| provider := p; preimage := preimage s |})
  | Done (Err e, p) => Done (Err e, {| provider := p; preimage := preimage s |})
  | Panic => Panic
  end.
Proof.
  unfold get_encoded_payload, on_provider, zoom, mbind, M_bind.
  by destruct (PreimageSource.get_encoded_payload _ _) as [[[]]|].
Qed.

(** Recording does not change what a faithful provider answers. *)
#[global] Instance recorder_faithful w D (Inv : T → Prop) `{!FaithfulProvider w D Inv} :
  FaithfulProvider w D (λ s : S, Inv (provider s)).
Proof.
  split; intros s c HI HD.
  - change (PreimageSource.get_validity c s) with (get_validity c s). rewrite get_validity_eq.
    destruct (get_validity_faithful (provider s) c HI HD) as (r & p & -> & HI' & Hr).
    destruct Hr as [->|(e & -> & He)]; do 2 eexists; (split; [done|]); (split; [done|]); eauto.
  - intros Hv. change (PreimageSource.get_encoded_payload c s) with (get_encoded_payload c s).
    rewrite get_encoded_payload_eq.
    destruct (get_encoded_payload_faithful (provider s) c HI HD Hv) as (r & p & -> & HI' & Hr).
    destruct Hr as [->|(e & -> & He)]; do 2 eexists; (split; [done|]); (split; [done|]); eauto.
Qed.
End recorder.
End Recorder.

(** ** crates/witgen/src/canoe_witness_provider.rs *)

Section canoe_inputs.
Context `{!CanoeVerifierAddressFetcher F}.

Definition to_canoe_input (canoe_address_fetcher : F) (l1_chain_id : Z)
    (l1_head_block_hash : B256) (l1_head_block_number : Z)
    (v : AltDACommitment * bool) : result CanoeVerifierAddressFetcherError CanoeInput :=
  let '(altda_commitment, claimed_validity) := v in
  verifier_address ← fetch_address canoe_address_fetcher l1_chain_id (versioned_cert altda_commitment);
  Ok {|
    ci_altda_commitment := altda_commitment;
    ci_claimed_validity := claimed_validity;
    ci_l1_head_block_hash := l1_head_block_hash;
    ci_l1_head_block_number := l1_head_block_number;
    ci_l1_chain_id := l1_chain_id;
    ci_verifier_address := verifier_address;
  |}.

Definition from_eigenda_preimage_to_canoe_inputs (validities : list (AltDACommitment * bool))
    (canoe_address_fetcher : F) (l1_chain_id : Z) (l1_head_block_hash : B256)
    (l1_head_block_number : Z) : result CanoeVerifierAddressFetcherError (list CanoeInput) :=
  mapM_result (to_canoe_input canoe_address_fetcher l1_chain_id l1_head_block_hash
    l1_head_block_number) validities.

(** The inputs are the validities in order, all with the given L1 head. *)
Lemma canoe_inputs_Ok validities f chain hash number inputs :
  from_eigenda_preimage_to_canoe_inputs validities f chain hash number = Ok inputs ↔
  Forall2 (λ v i, ci_altda_commitment i = v.1 ∧ ci_claimed_validity i = v.2 ∧
    fetch_address f chain (versioned_cert v.1) = Ok (ci_verifier_address i) ∧
    ci_l1_chain_id i = chain ∧ ci_l1_head_block_hash i = hash ∧
    ci_l1_head_block_number i = number) validities inputs.
Proof.
  unfold from_eigenda_preimage_to_canoe_inputs. rewrite mapM_result_Ok.
  apply Forall2_iff. intros [c b] i. unfold to_canoe_input. cbn. split.
  - intros (a & Ha & [= <-])%result_bind_Ok_inv. cbn. by split_and!.
  - destruct i as [c' b' h n ch a]; cbn. intros (-> & -> & -> & -> & -> & ->). done.
Qed.
End canoe_inputs.
