(* ===== verification/CanoeHost.v ===== *)
(** * Canoe's provers (canoe/sp1-cc/host/src/lib.rs, canoe/steel/apps/src/apps.rs)

    The two providers of canoe proofs: they load the L1 state that the guest will need,
    make the same calls that the guest makes, refuse inputs that the guest would refuse,
    and start the prover.  The RPC node and the proving network are the state [W]. *)

From Stdlib Require Ascii.
From S2P Require Export Witness.

(** ** [u64::from_str]

    An optional plus sign and at least one digit; the first digit that takes the value out
    of range, or the first other character, decides the error. *)

Definition ascii_digit (c : Ascii.ascii) : option Z :=
  let d := Z.of_N (Ascii.N_of_ascii c) - 48 in
  if bool_decide (0 ≤ d) && bool_decide (d < 10) then Some d else None.

Fixpoint parse_u64_from (acc : Z) (s : list Ascii.ascii) : result string Z :=
  match s with
  | [] => Ok acc
  | c :: s =>
      match ascii_digit c with
      | None => Err "invalid digit found in string"%string
      | Some d =>
          if bool_decide (acc * 10 + d < 2 ^ 64) then parse_u64_from (acc * 10 + d) s
          else Err "number too large to fit in target type"%string
      end
  end.

Definition parse_u64 (s : string) : result string Z :=
  match String.list_ascii_of_string s with
  | [] => Err "cannot parse integer from empty string"%string
  | c :: digits =>
      if bool_decide (c = Ascii.ascii_of_N 43) && negb (bool_decide (digits = [])) then parse_u64_from 0 digits
      else parse_u64_from 0 (c :: digits)
  end.

(** ** The inputs of a proof *)

(** [SP1Stdin] with its two writes. *)
Record SP1Stdin := { stdin_sketch : Bytes; stdin_inputs : list CanoeInput }.

(** [FulfillmentStrategy] and [NetworkMode] of sp1_sdk. *)
Inductive FulfillmentStrategy := UnspecifiedFulfillmentStrategy | Hosted | Reserved | Auction.
Inductive NetworkMode := NetworkReserved | NetworkMainnet.

(** What [prove] is called with. *)
Record ProofRequest := {
  request_strategy : FulfillmentStrategy;
  request_timeout : Z;
  request_skip_simulation : bool;
  request_limits : option (Z * Z);
}.

(** sp1-cc-host-executor, alloy_genesis, the environment of the process, and sp1_sdk.
    [call_raw] fills the sketch with the state that the call reads. *)
Class Sp1Host `{!Sp1} (W : Type) := {
  Genesis_Custom_from_str : string → result string RspGenesis;
  HOLESKY_GENESIS : string;
  KURTOSIS_DEVNET_GENESIS : string;
  EvmSketch : Type;
  (** [builder().at_block().with_genesis().el_rpc_client().build()] *)
  EvmSketch_build : Z → RspGenesis → M W (result string EvmSketch);
  (** [anchor.header().hash_slow()] *)
  anchor_header_hash : EvmSketch → B256;
  call_raw : EvmSketch → Address → Address → checkDACertCall → M W (result string (Bytes * EvmSketch));
  finalize : EvmSketch → M W (result string EvmSketchInput);
  bincode_serialize_sketch : EvmSketchInput → result string Bytes;
  env_var : string → option string;
  to_uppercase : string → string;
  FulfillmentStrategy_from_str_name : string → option FulfillmentStrategy;
  NetworkProver : Type;
  network_prover : NetworkMode → string → M W NetworkProver;
  ProvingKey : Type;
  setup_ELF : NetworkProver → M W (result string ProvingKey);
  SP1ProofWithPublicValues : Type;
  execute_ELF : NetworkProver → SP1Stdin → M W (result string Bytes);
  create_mock_proof : ProvingKey → Bytes → SP1ProofWithPublicValues;
  prove_compressed : NetworkProver → ProvingKey → SP1Stdin → ProofRequest →
    M W (result string SP1ProofWithPublicValues);
  SP1RecursionProof : Type;
  (** [SP1Proof::Compressed(proof)] *)
  compressed_proof : SP1ProofWithPublicValues → option SP1RecursionProof;
}.

Module Sp1Host.
Section sp1_host.
Context `{!Alloy, !SolEncoding, !Sp1, !Sp1Host W}.

Definition DEFAULT_NETWORK_PRIVATE_KEY : string :=
  "0x0000000000000000000000000000000000000000000000000000000000000001".

(** The genesis of a chain; the last arm panics with the chain id. *)
Definition host_genesis (l1_chain_id : Z) : outcome RspGenesis :=
  match RspGenesis_try_from l1_chain_id with
  | Ok genesis => Done genesis
  | Err _ =>
      match l1_chain_id with
      | 17000 => expect (Genesis_Custom_from_str HOLESKY_GENESIS)
      | 3151908 => expect (Genesis_Custom_from_str KURTOSIS_DEVNET_GENESIS)
      | _ => Panic
      end
  end.

(** The loop over the inputs that pre-populates the state. *)
Fixpoint preflight (canoe_inputs : list CanoeInput) (sketch : EvmSketch) : M W (result string EvmSketch) :=
  match canoe_inputs with
  | [] => mret (Ok sketch)
  | canoe_input :: canoe_inputs =>
      let '(ABIEncodeInterface call) := CertVerifierCall_build (ci_altda_commitment canoe_input) in
      r ←? call_raw sketch (ci_verifier_address canoe_input) (zeros 20) call;
      let '(returns_bytes, sketch) := r in
      match abi_decode_StatusCode returns_bytes with
      | None => panic
      | Some returns =>
          let is_valid := bool_decide (returns = Sol.SUCCESS) in
          if bool_decide (is_valid ≠ ci_claimed_validity canoe_input) then panic
          else preflight canoe_inputs sketch
      end
  end.

Definition canoe_proof_stdin (canoe_inputs : list CanoeInput) : M W (result string SP1Stdin) :=
  match canoe_inputs with
  | [] => panic
  | first :: _ =>
      let l1_chain_id := ci_l1_chain_id first in
      let l1_head_block_number := ci_l1_head_block_number first in
      let l1_head_block_hash := ci_l1_head_block_hash first in
      _ ← lift (forM_outcome (same_anchor l1_chain_id l1_head_block_number l1_head_block_hash) canoe_inputs);
      genesis ← lift (host_genesis l1_chain_id);
      sketch ←? EvmSketch_build l1_head_block_number genesis;
      _ ← lift (assert (bool_decide (l1_head_block_hash = anchor_header_hash sketch)));
      sketch ←? preflight canoe_inputs sketch;
      evm_state_sketch ←? finalize sketch;
      input_bytes ← lift (expect (bincode_serialize_sketch evm_state_sketch));
      mret (Ok {| stdin_sketch := input_bytes; stdin_inputs := canoe_inputs |})
  end.

Definition sp1_cc_proof_strategy : result string FulfillmentStrategy :=
  match env_var "SP1_CC_PROOF_STRATEGY" with
  | Some EmptyString | None => Ok Reserved
  | Some raw =>
      match FulfillmentStrategy_from_str_name (to_uppercase raw) with
      | Some strategy => Ok strategy
      | None => Err ("Invalid FulfillmentStrategy: " +:+ raw)
      end
  end.

Definition network_mode (strategy : FulfillmentStrategy) : result string NetworkMode :=
  match strategy with
  | UnspecifiedFulfillmentStrategy =>
      Err "The sp1-cc proof fulfillment strategy must be specified"%string
  | Hosted | Reserved => Ok NetworkReserved
  | Auction => Ok NetworkMainnet
  end.

(** [match env::var(name) { Ok(raw) if !raw.is_empty() => raw.parse()?, _ => default }] *)
Definition env_limit (name : string) (default : Z) : result string Z :=
  match env_var name with
  | Some EmptyString | None => Ok default
  | Some raw => parse_u64 raw
  end.

(** The request, or [None] for the panic on exactly one limit of zero. *)
Definition proof_request (strategy : FulfillmentStrategy) (cycle_limit gas_limit timeout_seconds : Z) :
    outcome ProofRequest :=
  if bool_decide (cycle_limit > 0) && bool_decide (gas_limit > 0) then
    Done {| request_strategy := strategy; request_timeout := timeout_seconds;
            request_skip_simulation := true; request_limits := Some (cycle_limit, gas_limit) |}
  else
    _ ← assert (bool_decide (cycle_limit = 0) && bool_decide (gas_limit = 0));
    Done {| request_strategy := strategy; request_timeout := timeout_seconds;
            request_skip_simulation := false; request_limits := None |}.

Definition generate_canoe_proof (stdin : SP1Stdin) (mock_mode : bool) :
    M W (result string SP1ProofWithPublicValues) :=
  strategy ←? mret sp1_cc_proof_strategy;
  network_mode ←? mret (network_mode strategy);
  let network_private_key := default DEFAULT_NETWORK_PRIVATE_KEY (env_var "NETWORK_PRIVATE_KEY") in
  client ← network_prover network_mode network_private_key;
  pk ← setup_ELF client;
  pk ← lift (expect pk);
  if mock_mode then
    public_values ← execute_ELF client stdin;
    public_values ← lift (expect public_values);
    mret (Ok (create_mock_proof pk public_values))
  else
    cycle_limit ←? mret (env_limit "SP1_CC_CYCLE_LIMIT" 1000000000000);
    gas_limit ←? mret (env_limit "SP1_CC_GAS_LIMIT" 1000000000000);
    timeout_seconds ←? mret (env_limit "SP1_CC_TIMEOUT_SECONDS" (4 * 60 * 60));
    request ← lift (proof_request strategy cycle_limit gas_limit timeout_seconds);
    proof ← prove_compressed client pk stdin request;
    proof ← lift (expect proof);
    mret (Ok proof).

Definition get_sp1_cc_proof (canoe_inputs : list CanoeInput) (mock_mode : bool) :
    M W (result string SP1ProofWithPublicValues) :=
  stdin ←? canoe_proof_stdin canoe_inputs;
  generate_canoe_proof stdin mock_mode.
End sp1_host.
End Sp1Host.

(** The providers; [eth_rpc_client] stands for the world that it connects to. *)
Record CanoeSp1CCProvider (W : Type) := { sp1_eth_rpc_client : W; sp1_mock_mode : bool }.
Arguments sp1_eth_rpc_client {W}.
Arguments sp1_mock_mode {W}.
Record CanoeSp1CCReducedProofProvider (W : Type) :=
  { reduced_eth_rpc_client : W; reduced_mock_mode : bool }.
Arguments reduced_eth_rpc_client {W}.
Arguments reduced_mock_mode {W}.

Section sp1_providers.
Context `{!Alloy, !SolEncoding, !Sp1, !Sp1Host W}.

Definition sp1_create_proof (canoe_inputs : list CanoeInput) :
    M (CanoeSp1CCProvider W) (option (result string SP1ProofWithPublicValues)) :=
  if bool_decide (canoe_inputs = []) then mret None
  else
    s ← get;
    proof ← zoom sp1_eth_rpc_client (λ w s, {| sp1_eth_rpc_client := w; sp1_mock_mode := sp1_mock_mode s |})
      (Sp1Host.get_sp1_cc_proof canoe_inputs (sp1_mock_mode s));
    mret (Some proof).

#[export] Instance canoe_sp1_provider : CanoeProvider (CanoeSp1CCProvider W) := {|
  Receipt := SP1ProofWithPublicValues;
  create_certs_validity_proof := sp1_create_proof;
|}.

Definition sp1_create_reduced_proof (canoe_inputs : list CanoeInput) :
    M (CanoeSp1CCReducedProofProvider W) (option (result string SP1RecursionProof)) :=
  if bool_decide (canoe_inputs = []) then mret None
  else
    s ← get;
    proof ← zoom reduced_eth_rpc_client
      (λ w s, {| reduced_eth_rpc_client := w; reduced_mock_mode := reduced_mock_mode s |})
      (Sp1Host.get_sp1_cc_proof canoe_inputs (reduced_mock_mode s));
    match proof with
    | Ok proof =>
        match compressed_proof proof with
        | Some proof => mret (Some (Ok proof))
        | None => panic
        end
    | Err e => mret (Some (Err e))
    end.

#[export] Instance canoe_sp1_reduced_provider : CanoeProvider (CanoeSp1CCReducedProofProvider W) := {|
  Receipt := SP1RecursionProof;
  create_certs_validity_proof := sp1_create_reduced_proof;
|}.
End sp1_providers.

(** ** Steel *)

(** risc0_steel on the host and the prover of risc0_zkvm; the outer result of
    [steel_prove] is that of joining the task that is spawned for it. *)
Class SteelHost `{!Steel} (W : Type) := {
  Url_from_str : string → result string string;
  HostEvmEnv : Type;
  EthEvmEnv_build : string → SteelChainSpec → Z → M W (result string HostEvmEnv);
  host_header_seal : HostEvmEnv → B256;
  preflight_call : HostEvmEnv → Address → checkDACertCall → M W (result string (Z * HostEvmEnv));
  into_input : HostEvmEnv → M W (result string EthEvmInput);
  steel_prove : EthEvmInput → list CanoeInput → M W (result string (result string SteelReceipt));
}.

Record CanoeSteelProvider (W : Type) := { eth_rpc_url : string; steel_world : W }.
Arguments eth_rpc_url {W}.
Arguments steel_world {W}.

Module SteelHost.
Section steel_host.
Context `{!Alloy, !SolEncoding, !Steel, !SteelHost W}.

Definition host_chain_spec (l1_chain_id : Z) : SteelChainSpec :=
  match l1_chain_id with
  | 1 => ETH_MAINNET_CHAIN_SPEC
  | 11155111 => ETH_SEPOLIA_CHAIN_SPEC
  | 17000 => ETH_HOLESKY_CHAIN_SPEC
  | _ => EthChainSpec_new_single l1_chain_id
  end.

Fixpoint preflight (canoe_inputs : list CanoeInput) (env : HostEvmEnv) : M W (result string HostEvmEnv) :=
  match canoe_inputs with
  | [] => mret (Ok env)
  | canoe_input :: canoe_inputs =>
      let '(ABIEncodeInterface call) := CertVerifierCall_build (ci_altda_commitment canoe_input) in
      r ←? preflight_call env (ci_verifier_address canoe_input) call;
      let '(status, env) := r in
      let is_valid := bool_decide (status = Sol.StatusCode_to_u8 Sol.SUCCESS) in
      if bool_decide (ci_claimed_validity canoe_input ≠ is_valid) then panic
      else preflight canoe_inputs env
  end.

Definition get_steel_proof (canoe_inputs : list CanoeInput) (eth_rpc_url : string) :
    M W (result string SteelReceipt) :=
  match canoe_inputs with
  | [] => panic
  | first :: _ =>
      let l1_chain_id := ci_l1_chain_id first in
      let l1_head_block_number := ci_l1_head_block_number first in
      let l1_head_block_hash := ci_l1_head_block_hash first in
      _ ← lift (forM_outcome (same_anchor l1_chain_id l1_head_block_number l1_head_block_hash) canoe_inputs);
      eth_rpc_url ←? mret (Url_from_str eth_rpc_url);
      let chain_spec := host_chain_spec l1_chain_id in
      env ←? EthEvmEnv_build eth_rpc_url chain_spec l1_head_block_number;
      _ ← lift (assert (bool_decide (host_header_seal env = l1_head_block_hash)));
      env ←? preflight canoe_inputs env;
      evm_input ←? into_input env;
      receipt ←? steel_prove evm_input canoe_inputs;
      mret (map_err (λ _, "failed to create proof"%string) receipt)
  end.
End steel_host.
End SteelHost.

Section steel_provider.
Context `{!Alloy, !SolEncoding, !Steel, !SteelHost W}.

Definition steel_create_proof (canoe_inputs : list CanoeInput) :
    M (CanoeSteelProvider W) (option (result string SteelReceipt)) :=
  if bool_decide (canoe_inputs = []) then mret None
  else
    s ← get;
    proof ← zoom steel_world (λ w s, {| eth_rpc_url := eth_rpc_url s; steel_world := w |})
      (SteelHost.get_steel_proof canoe_inputs (eth_rpc_url s));
    mret (Some proof).

#[export] Instance canoe_steel_provider : CanoeProvider (CanoeSteelProvider W) := {|
  Receipt := SteelReceipt;
  create_certs_validity_proof := steel_create_proof;
|}.
End steel_provider.
