(* ===== verification/Preloaded.v ===== *)
(** * The preloaded provider (crates/proof/src/preloaded_eigenda_provider.rs)

    Inside the zkVM the preimages come from a witness that [from_witness] checks
    first; the provider then pops them in the order they were recorded. *)

From S2P Require Export Witness Oracle.

(** The KZG batch verifier chosen at compile time; it can panic. *)
Class KzgBackend := {
  batch_verify : list Bytes → list G1Point → list Bytes → outcome bool;
}.

(** ** The [ark] backend *)

(** rust-kzg-bn254 and arkworks: [Blob::new], reduction into the field, points
    ([G1Affine::new] panics off the curve) and the batch verification. *)
Class RustKzg := {
  Blob : Type;
  Blob_new : Bytes → result string Blob;
  ark_Fq : Type;
  ark_from_be_bytes_mod_order : Bytes → ark_Fq;
  G1Affine : Type;
  G1Affine_new : ark_Fq → ark_Fq → outcome G1Affine;
  verify_blob_kzg_proof_batch : list Blob → list G1Affine → list G1Affine → result string bool;
}.

Section ark.
Context `{!RustKzg}.

Definition ark_commitment (c : G1Point) : outcome G1Affine :=
  let a := to_be_bytes 32 (x c) in
  let b := to_be_bytes 32 (y c) in
  G1Affine_new (ark_from_be_bytes_mod_order a) (ark_from_be_bytes_mod_order b).

Definition ark_proof (p : Bytes) : outcome G1Affine :=
  G1Affine_new (ark_from_be_bytes_mod_order (take 32 p))
    (ark_from_be_bytes_mod_order (take 32 (drop 32 p))).

Definition ark_batch_verify (blobs : list Bytes) (commitments : list G1Point)
    (proofs : list Bytes) : outcome bool :=
  lib_blobs ← mapM_outcome (λ b, expect (Blob_new b)) blobs;
  lib_commitments ← mapM_outcome ark_commitment commitments;
  lib_proofs ← mapM_outcome ark_proof proofs;
  Done (match verify_blob_kzg_proof_batch lib_blobs lib_commitments lib_proofs with
        | Ok b => b
        | Err _ => false
        end).
End ark.

Definition ark_backend `{!RustKzg} : KzgBackend := {| batch_verify := ark_batch_verify |}.

(** ** The provider *)

Record PreloadedEigenDAPreimageProvider := {
  validity_entries : list (AltDACommitment * bool);
  encoded_payload_entries : list (AltDACommitment * EncodedPayload);
}.

#[export] Instance PreloadedEigenDAPreimageProvider_eq_dec :
  EqDecision PreloadedEigenDAPreimageProvider.
Proof. solve_decision. Defined.

Section from_witness.
Context `{!KzgBackend, !CanoeVerifier V, !CanoeVerifierAddressFetcher F}.

(** [cert_validities]: the claims with the address of their verifier. *)
Definition to_cert_validity (fetcher : F) (hash : B256) (number timestamp chain_id : Z)
    (v : AltDACommitment * bool) : outcome (AltDACommitment * CertValidity) :=
  let '(altda_commitment, claimed_validity) := v in
  verifier_address_fetched ← expect (fetch_address fetcher chain_id (versioned_cert altda_commitment));
  Done (altda_commitment, {|
    l1_head_block_hash := hash;
    l1_chain_id := chain_id;
    l1_head_block_number := number;
    l1_head_block_timestamp := timestamp;
    verifier_address := verifier_address_fetched;
    claimed_validity := claimed_validity;
  |}).

Definition from_witness (witness : EigenDAWitness) (l1_head_block_hash : B256)
    (l1_head_block_number l1_head_block_timestamp l1_chain_id : Z)
    (canoe_verifier : V) (canoe_verifier_address_fetcher : F) :
    outcome PreloadedEigenDAPreimageProvider :=
  let validities := witness_validities witness in
  let encoded_payloads := witness_encoded_payloads witness in
  _ ← assert (bool_decide (length encoded_payloads ≤ length validities)%nat);
  _ ← forM_outcome (λ '(altda_commitment, encoded_payload, _),
        assert (bool_decide (num_field_element encoded_payload =
          get_num_field_element altda_commitment))) encoded_payloads;
  _ ← (if bool_decide (validities = []) then Done tt
       else
         cert_validities ← mapM_outcome (to_cert_validity canoe_verifier_address_fetcher
           l1_head_block_hash l1_head_block_number l1_head_block_timestamp l1_chain_id) validities;
         receipt ← validate_cert_receipt canoe_verifier cert_validities (canoe_proof_bytes witness);
         expect receipt);
  verified ← batch_verify
    ((λ '(_, ep, _), serialize ep) <$> encoded_payloads)
    ((λ '(ac, _, _), get_kzg_commitment ac) <$> encoded_payloads)
    ((λ '(_, _, p), p) <$> encoded_payloads);
  _ ← assert verified;
  let encoded_payload_entries := (λ '(ac, ep, _), (ac, ep)) <$> encoded_payloads in
  _ ← assert (bool_decide (length encoded_payload_entries ≤ length validities)%nat);
  Done {|
    validity_entries := rev validities;
    encoded_payload_entries := rev encoded_payload_entries;
  |}.
End from_witness.

Module Preloaded.
Section provider.
Context `{!Alloy, !KonaPreimage}.
Local Abbreviation S := PreloadedEigenDAPreimageProvider.

(** [Vec::pop]: the last element and the rest. *)
Definition pop {A} (l : list A) : option (A * list A) :=
  match rev l with [] => None | a :: r => Some (a, rev r) end.

Definition get_validity (c : AltDACommitment) : M S (result HokuleaOracleProviderError bool) := λ s,
  match pop (validity_entries s) with
  | None => Panic
  | Some ((stored_altda_commitment, validity), rest) =>
      if bool_decide (stored_altda_commitment = c) then
        Done (Ok validity,
          {| validity_entries := rest; encoded_payload_entries := encoded_payload_entries s |})
      else Panic
  end.

Definition get_encoded_payload (c : AltDACommitment) :
    M S (result HokuleaOracleProviderError EncodedPayload) := λ s,
  match pop (encoded_payload_entries s) with
  | None => Panic
  | Some ((stored_altda_commitment, encoded_payload), rest) =>
      if bool_decide (stored_altda_commitment = c) then
        Done (Ok encoded_payload,
          {| validity_entries := validity_entries s; encoded_payload_entries := rest |})
      else Panic
  end.

#[global] Instance preloaded_provider : EigenDAPreimageProvider S := {|
  provider_error := HokuleaOracleProviderError;
  provider_error_into := HokuleaOracleProviderError_into;
  provider_error_display := HokuleaOracleProviderError_display;
  PreimageSource.get_validity := get_validity;
  PreimageSource.get_encoded_payload := get_encoded_payload;
|}.

Lemma pop_rev {A} (l : list A) :
  pop (rev l) = match l with [] => None | a :: l => Some (a, rev l) end.
Proof. unfold pop. rewrite rev_involutive. by destruct l. Qed.

(** The provider that still holds [vs] and [eps], in the order of use. *)
Definition holding (vs : list (AltDACommitment * bool))
    (eps : list (AltDACommitment * EncodedPayload)) : S :=
  {| validity_entries := rev vs; encoded_payload_entries := rev eps |}.

Lemma get_validity_holding c vs eps :
  get_validity c (holding vs eps) =
  match vs with
  | (c', v) :: vs => if bool_decide (c' = c) then Done (Ok v, holding vs eps) else Panic
  | [] => Panic
  end.
Proof. unfold get_validity, holding. cbn. rewrite pop_rev. by destruct vs as [|[]]. Qed.

Lemma get_encoded_payload_holding c vs eps :
  get_encoded_payload c (holding vs eps) =
  match eps with
  | (c', ep) :: eps => if bool_decide (c' = c) then Done (Ok ep, holding vs eps) else Panic
  | [] => Panic
  end.
Proof. unfold get_encoded_payload, holding. cbn. rewrite pop_rev. by destruct eps as [|[]]. Qed.
End provider.
End Preloaded.

(** ** What [from_witness] guarantees *)

Lemma fmap_eq {A B} (f g : A → B) (l : list A) : (∀ a, f a = g a) → f <$> l = g <$> l.
Proof. intros Hfg. by apply list_fmap_ext. Qed.

Section guarantees.
Context `{!KzgBackend, !CanoeVerifier V, !CanoeVerifierAddressFetcher F}.

Lemma from_witness_Done (w : EigenDAWitness) hash number timestamp chain (v : V) (f : F) p :
  from_witness w hash number timestamp chain v f = Done p →
  p = Preloaded.holding (witness_validities w) (fst <$> witness_encoded_payloads w) ∧
  (length (witness_encoded_payloads w) ≤ length (witness_validities w))%nat ∧
  Forall (λ e, num_field_element e.1.2 = get_num_field_element e.1.1) (witness_encoded_payloads w) ∧
  (witness_validities w ≠ [] → ∃ pairs,
    mapM_outcome (to_cert_validity f hash number timestamp chain) (witness_validities w) = Done pairs ∧
    validate_cert_receipt v pairs (canoe_proof_bytes w) = Done (Ok tt)) ∧
  batch_verify ((λ e, serialize e.1.2) <$> witness_encoded_payloads w)
    ((λ e, get_kzg_commitment e.1.1) <$> witness_encoded_payloads w)
    (snd <$> witness_encoded_payloads w) = Done true.
Proof.
  unfold from_witness. intros Hw. apply bind_assert_Done in Hw as [Hlen Hw].
  apply outcome_bind_Done_inv in Hw as (u & Hnum & Hw).
  apply outcome_bind_Done_inv in Hw as (u' & Hcanoe & Hw).
  apply outcome_bind_Done_inv in Hw as (verified & Hkzg & Hw).
  apply bind_assert_Done in Hw as [-> Hw]. apply bind_assert_Done in Hw as [_ [= <-]].
  apply bool_decide_eq_true in Hlen. rewrite forM_outcome_Done in Hnum.
  split_and!; [|done| | |].
  - unfold Preloaded.holding. f_equal. f_equal.
    apply fmap_eq. by intros [[]].
  - eapply Forall_impl; [exact Hnum|]. intros [[c ep] pr]. cbn. by intros Hn%assert_Done%bool_decide_eq_true.
  - intros Hne. rewrite bool_decide_false in Hcanoe by done.
    apply outcome_bind_Done_inv in Hcanoe as (pairs & Hpairs & Hcanoe).
    apply outcome_bind_Done_inv in Hcanoe as (receipt & Hr & Hok).
    apply expect_Done in Hok as ->. destruct u'. eauto.
  - rewrite <-Hkzg. f_equal; apply fmap_eq; by intros [[]].
Qed.

(** The claims handed to the canoe verifier are the witness's validities. *)
Lemma cert_validities_of (f : F) hash number timestamp chain vs pairs :
  mapM_outcome (to_cert_validity f hash number timestamp chain) vs = Done pairs →
  Forall2 (λ v p, p.1 = v.1 ∧ claimed_validity p.2 = v.2 ∧
    fetch_address f chain (versioned_cert v.1) = Ok (verifier_address p.2) ∧
    l1_chain_id p.2 = chain ∧ l1_head_block_hash p.2 = hash ∧
    l1_head_block_number p.2 = number) vs pairs.
Proof.
  rewrite mapM_outcome_Done. intros HF. eapply Forall2_impl; [exact HF|].
  intros [c b] p. unfold to_cert_validity.
  intros (a & Ha%expect_Done & [= <-])%outcome_bind_Done_inv. cbn. by split_and!.
Qed.
End guarantees.
