(* ===== verification/Host.v ===== *)
(** * The host (bin/host/src)

    The host fetches a certificate's data from the EigenDA proxy and stores the
    preimages that the client will ask for in a key-value store.
    [fetch_eigenda_hint_sound] relates what is stored to the preimages of a DA
    world ([Oracle.preimage_of]), the relation the client's provider reads. *)

From S2P Require Export Oracle.

(** ** status_code.rs *)

Definition HTTP_RESPONSE_STATUS_CODE_TEAPOT : Z := 418.
Definition STATUS_CODE_CERT_PARSE_ERROR : Z := 1.
Definition STATUS_CODE_RECENCY_ERROR : Z := 2.
Definition STATUS_CODE_INVALID_CERT : Z := 3.
Definition STATUS_CODE_BLOB_DECODING_ERROR : Z := 4.

Record DerivationError := { status_code : Z; msg : string }.

Inductive HostHandlerError :=
| HostHokuleaPreimageError (e : HokuleaPreimageError)
| HostHokuleaRecencyCheckError
| HokuleaEncodedPayloadDecodingError (n : Z)
| UndefinedStatusCodeError (n : Z)
| IllogicalStatusCodeError (n : Z).

#[export] Instance HostHandlerError_eq_dec : EqDecision HostHandlerError.
Proof. solve_decision. Defined.

(** [impl From<DerivationError> for HostHandlerError] *)
Definition HostHandlerError_from (status : DerivationError) : HostHandlerError :=
  if bool_decide (status_code status = STATUS_CODE_INVALID_CERT) then
    HostHokuleaPreimageError InvalidCert
  else if bool_decide (status_code status = STATUS_CODE_RECENCY_ERROR) then
    HostHokuleaRecencyCheckError
  else if bool_decide (status_code status = STATUS_CODE_CERT_PARSE_ERROR) then
    IllogicalStatusCodeError (status_code status)
  else if bool_decide (status_code status = STATUS_CODE_BLOB_DECODING_ERROR) then
    HokuleaEncodedPayloadDecodingError (status_code status)
  else UndefinedStatusCodeError (status_code status).

(** ** eigenda_preimage.rs *)

(** reqwest: URLs and responses.  [json] and [bytes] read the body;
    [error_for_status] is its debug text. *)
Record HttpResponse := {
  http_status : Z;
  http_error_for_status : string;
  http_json : result string DerivationError;
  http_bytes : result string Bytes;
}.

Class Reqwest (Net : Type) := {
  Url : Type;
  url_join : Url → string → result string Url;
  url_set_query : Url → string → Url;
  (** [client.get(url).send()]: the state is that of the network *)
  http_get : Url → M Net (result string HttpResponse);
}.

Definition is_success (r : HttpResponse) : bool :=
  bool_decide (200 ≤ http_status r < 300).

Record ProxyDerivationStage := {
  is_valid_cert : bool;
  pass_recency_check : bool;
  stage_encoded_payload : Bytes;
}.

Definition GET_QUERY_PARAMS_ENCODED_PAYLOAD : string :=
  "commitment_mode=optimism_generic&return_encoded_payload=true".

(** [inner], the HTTP client, is the network state. *)
Record OnlineEigenDAPreimageProvider (Net : Type) `{!Reqwest Net} := {
  base : Url;
  inner : Net;
  last_entry : option (AltDACommitment * ProxyDerivationStage);
}.
Arguments Build_OnlineEigenDAPreimageProvider {Net _}.
Arguments base {Net _}.
Arguments inner {Net _}.
Arguments last_entry {Net _}.

Section online.
Context `{!Alloy, !KonaPreimage, !Reqwest Net}.
Local Abbreviation S := (OnlineEigenDAPreimageProvider Net).

Definition new_http (base : Url) (inner : Net) : S :=
  {| base := base; inner := inner; last_entry := None |}.

(** The [if !response.status().is_success()] of [fetch_data_from_proxy].  Errors are
    the texts of [anyhow]. *)
Definition handle_response (response : HttpResponse) : result string ProxyDerivationStage :=
  if negb (is_success response) then
    if bool_decide (http_status response ≠ HTTP_RESPONSE_STATUS_CODE_TEAPOT) then
      Err ("failed to fetch eigenda encoded payload, status " +:+ http_error_for_status response)
    else
      status_code ← map_err (String.append "failed to deserialize 418 body: ") (http_json response);
      match HostHandlerError_from status_code with
      | HostHokuleaPreimageError InvalidCert =>
          Ok {| pass_recency_check := true; is_valid_cert := false; stage_encoded_payload := [] |}
      | HostHokuleaRecencyCheckError =>
          Ok {| pass_recency_check := false; is_valid_cert := true; stage_encoded_payload := [] |}
      | HokuleaEncodedPayloadDecodingError e | IllogicalStatusCodeError e
      | UndefinedStatusCodeError e =>
          Err ("failed to handle http response: " +:+ display_uint e)
      end
  else
    encoded_payload ← map_err (String.append "should be able to get encoded payload from http response ")
      (http_bytes response);
    Ok {| pass_recency_check := true; is_valid_cert := true; stage_encoded_payload := encoded_payload |}.

(** [fetch_data_from_proxy(&self, ...)]: only the network changes. *)
Definition fetch_data_from_proxy (altda_commitment_bytes : Bytes) :
    M S (result string ProxyDerivationStage) :=
  s ← get;
  let commitment_hex := hex_encode altda_commitment_bytes in
  url ←? mret (map_err (String.append "failed to construct URL: ")
    (url_join (base s) ("get/" +:+ commitment_hex)));
  let url := url_set_query url GET_QUERY_PARAMS_ENCODED_PAYLOAD in
  response ← zoom inner (λ n s, {| base := base s; inner := n; last_entry := last_entry s |})
    (http_get url);
  response ←? mret (map_err (String.append "failed to fetch eigenda encoded payload: ") response);
  mret (handle_response response).

Definition get_or_fetch_payload (c : AltDACommitment) :
    M S (result HokuleaErrorKind ProxyDerivationStage) :=
  s ← get;
  match last_entry s with
  | Some (cached_commitment, cached_stage) =>
      if bool_decide (cached_commitment = c) then mret (Ok cached_stage)
      else
        r ← fetch_data_from_proxy (to_rlp_bytes c);
        derivation_stage ←? mret (map_err (λ e, Temporary ("fetch failed: " +:+ e)) r);
        _ ← modify (λ s, {| base := base s; inner := inner s; last_entry := Some (c, derivation_stage) |});
        mret (Ok derivation_stage)
  | None =>
      r ← fetch_data_from_proxy (to_rlp_bytes c);
      derivation_stage ←? mret (map_err (λ e, Temporary ("fetch failed: " +:+ e)) r);
      _ ← modify (λ s, {| base := base s; inner := inner s; last_entry := Some (c, derivation_stage) |});
      mret (Ok derivation_stage)
  end.

Definition HokuleaErrorKind_display (e : HokuleaErrorKind) : string :=
  match e with
  | Discard e => "Discard " +:+ e
  | Temporary e => "Temporary " +:+ e
  | Critical e => "Critical " +:+ e
  end.

#[export] Instance online_provider : EigenDAPreimageProvider S := {|
  provider_error := HokuleaErrorKind;
  provider_error_into e := e;
  provider_error_display := HokuleaErrorKind_display;
  get_validity c :=
    derivation_stage ←? get_or_fetch_payload c;
    mret (Ok (is_valid_cert derivation_stage));
  get_encoded_payload c :=
    derivation_stage ←? get_or_fetch_payload c;
    mret (Ok {| encoded_payload := stage_encoded_payload derivation_stage |});
|}.
End online.

(** ** handler.rs *)

(** kona_host's key-value store behind its lock. *)
Class KeyValueStore `{!KonaPreimage} (K : Type) := {
  kv_lookup : K → PreimageKey → option Bytes;
  kv_set : PreimageKey → Bytes → M K (result string unit);
}.

(** [set] stores the value, or fails and stores nothing. *)
Class KeyValueStoreLaws `{KeyValueStore K} := {
  kv_set_lookup kv k v r kv' : kv_set k v kv = Done (r, kv') →
    (r = Ok tt ∧ ∀ k', kv_lookup kv' k' = if bool_decide (k' = k) then Some v else kv_lookup kv k') ∨
    ((∃ e, r = Err e) ∧ ∀ k', kv_lookup kv' k' = kv_lookup kv k');
}.

Section handler.
Context `{!Alloy, !KonaPreimage, !Reqwest Net, !KeyValueStore K}.

Definition store_cert_validity (c : AltDACommitment) (is_valid : bool) : M K (result string unit) :=
  kv_set (OracleProvider.key (validity_address c)) [bool_byte is_valid].

(** The range test of [store_encoded_payload] on the first byte of each chunk. *)
Fixpoint check_field_elements (chunks : list Bytes) : result string unit :=
  match chunks with
  | [] => Ok tt
  | chunk :: chunks =>
      if bool_decide (Z.land (u8_to_Z (chunk !!! 0%nat)) 0xe0 ≠ 0) then
        Err "invalid field element encoding"%string
      else check_field_elements chunks
  end.

(** The loop over [0..blob_length_fe]: [n] indices are left, [i] is the next. *)
Fixpoint store_field_elements (n i : nat) (field_element_key : Bytes) (encoded_payload : Bytes)
    (fetch_num_element : nat) : M K (result string unit) :=
  match n with
  | O => mret (Ok tt)
  | Datatypes.S n =>
      let field_element_key := set_index (Z.of_nat i) field_element_key in
      _ ←? (if bool_decide (i < fetch_num_element)%nat then
              kv_set (OracleProvider.key field_element_key)
                (take 32 (drop (i * 32) encoded_payload))
            else kv_set (OracleProvider.key field_element_key) (zeros 32));
      store_field_elements n (i + 1) field_element_key encoded_payload fetch_num_element
  end.

Definition store_encoded_payload (c : AltDACommitment) (encoded_payload : Bytes) :
    M K (result string unit) :=
  let blob_length_fe := Z.to_nat (get_num_field_element c) in
  _ ← lift (assert (bool_decide (length encoded_payload mod 32 = 0)%nat &&
    negb (bool_decide (encoded_payload = []))));
  _ ←? mret (check_field_elements (chunks_exact BYTES_PER_FIELD_ELEMENT encoded_payload));
  let fetch_num_element := (length encoded_payload / BYTES_PER_FIELD_ELEMENT)%nat in
  store_field_elements blob_length_fe 0 (digest_template c) encoded_payload fetch_num_element.

(** The provider and the store together, as [fetch_eigenda_hint] threads them. *)
Local Abbreviation HS := (OnlineEigenDAPreimageProvider Net * K)%type.
Definition on_online {B} (m : M (OnlineEigenDAPreimageProvider Net) B) : M HS B :=
  zoom fst (λ p s, (p, s.2)) m.
Definition on_kv {B} (m : M K B) : M HS B := zoom snd (λ k s, (s.1, k)) m.

Definition fetch_eigenda_hint (altda_commitment_bytes : Bytes) : M HS (result string unit) :=
  c ←? mret (map_err (λ e, "failed to parse AltDACommitment: " +:+
        AltDACommitmentParseError_display e) (try_from altda_commitment_bytes));
  derivation_stage ←? on_online (fetch_data_from_proxy altda_commitment_bytes);
  _ ←? on_kv (store_cert_validity c (is_valid_cert derivation_stage));
  if negb (is_valid_cert derivation_stage) then mret (Ok tt)
  else if negb (pass_recency_check derivation_stage) then mret (Ok tt)
  else
    _ ←? on_kv (store_encoded_payload c (stage_encoded_payload derivation_stage));
    mret (Ok tt).

(** [SingleChainHintHandler::fetch_hint] of kona_host handles the other hints. *)
Definition fetch_hint (kona_fetch_hint : HintType → Bytes → M HS (result string unit))
    (ty : ExtendedHintType) (data : Bytes) : M HS (result string unit) :=
  match ty with
  | EigenDACert => fetch_eigenda_hint data
  | Original ty => kona_fetch_hint ty data
  end.
End handler.

(** ** The store and the preimages of a DA world *)

(** The bytes of a blob of [n] field elements: the proxy's bytes, cut or padded
    with zeros. *)
Definition blob_bytes (n : nat) (p : Bytes) : Bytes := take (32 * n) (p ++ zeros (32 * n - length p)).

Lemma length_blob_bytes n p : length (blob_bytes n p) = (32 * n)%nat.
Proof. unfold blob_bytes. rewrite length_take, length_app, length_zeros. lia. Qed.

(** Element [i] of the blob is what [store_field_elements] stores for [i]. *)
Lemma blob_bytes_element n p q i :
  length p = (32 * q)%nat → (i < n)%nat →
  take 32 (drop (32 * i) (blob_bytes n p)) =
  if bool_decide (i < q)%nat then take 32 (drop (i * 32) p) else zeros 32.
Proof.
  intros Hq Hi. unfold blob_bytes. rewrite skipn_firstn_comm, take_take.
  replace (32 `min` (32 * n - 32 * i))%nat with 32%nat by lia.
  case_bool_decide as Hlt.
  - rewrite drop_app_le, take_app_le by (rewrite ?length_drop; lia).
    by rewrite (Nat.mul_comm 32 i).
  - rewrite drop_app_ge, Hq by lia. unfold zeros. rewrite drop_replicate, take_replicate.
    f_equal. lia.
Qed.

Section host_soundness.
Context `{!Alloy, !AlloyLaws, !KonaPreimage, !Reqwest Net, !KeyValueStore K, !KeyValueStoreLaws}.
Context (w : DAWorld) (D : AltDACommitment → Prop).

(** No two addresses of certificates of [D] share a key, nor two certificates a digest. *)
Definition addresses_of (c : AltDACommitment) (a : Bytes) : Prop :=
  a = validity_address c ∨ ∃ i, 0 ≤ i < get_num_field_element c ∧ a = field_element_address c i.
Definition collision_free : Prop :=
  (∀ c c' a a', D c → D c' → addresses_of c a → addresses_of c' a' →
    OracleProvider.key a = OracleProvider.key a' → a = a') ∧
  (∀ c c', D c → D c' → to_digest c = to_digest c' → c = c').

(** What is stored under a key of a certificate of [D] is its preimage. *)
Definition kv_agrees (kv : K) : Prop :=
  ∀ c k v v', D c → preimage_of w c k v → kv_lookup kv k = Some v' → v' = v.
Definition kv_has (c : AltDACommitment) (kv : K) : Prop :=
  ∀ k v, preimage_of w c k v → kv_lookup kv k = Some v.
(** [kv'] agrees and keeps the preimages of [kv]. *)
Definition extends (kv kv' : K) : Prop :=
  kv_agrees kv' ∧ ∀ c k v, D c → preimage_of w c k v → kv_lookup kv k = Some v → kv_lookup kv' k = Some v.

Lemma extends_refl kv : kv_agrees kv → extends kv kv.
Proof. by split. Qed.
Lemma extends_trans kv1 kv2 kv3 : extends kv1 kv2 → extends kv2 kv3 → extends kv1 kv3.
Proof. intros [_ H12] [? H23]. split; [done|]. eauto. Qed.

Lemma preimage_of_address c k v : AltDACommitment_wf c = true → preimage_of w c k v →
  ∃ a, addresses_of c a ∧ k = OracleProvider.key a.
Proof.
  intros Hwf [|i Hval Hi]; eexists; (split; [|done]); [by left|right].
  exists (Z.of_nat i). split; [lia|done].
Qed.

(** Preimages are functional when there are no collisions. *)
Lemma preimage_of_functional c c' k v v' :
  collision_free → D c → D c' → AltDACommitment_wf c = true → AltDACommitment_wf c' = true →
  preimage_of w c k v → preimage_of w c' k v' → v = v'.
Proof.
  intros [Hkey Hdig] HD HD' Hwf Hwf' Hv Hv'.
  pose proof (AltDACommitment_wf_num c Hwf) as Hn. pose proof (AltDACommitment_wf_num c' Hwf') as Hn'.
  assert (Haddr : ∀ a a', addresses_of c a → addresses_of c' a' →
    OracleProvider.key a = OracleProvider.key a' → a = a') by eauto.
  destruct Hv as [|i Hval Hi]; inversion Hv' as [Heq|i' Hval' Hi' Heq]; subst;
    apply symmetry in Heq.
  - apply Haddr in Heq; [|by left..]. apply validity_address_inj in Heq.
    by rewrite (Hdig c c' HD HD' Heq).
  - apply Haddr in Heq; [by apply validity_field_element_address in Heq|by left|].
    right. exists (Z.of_nat i'). split; [lia|done].
  - apply Haddr in Heq; [by apply symmetry, validity_field_element_address in Heq| |by left].
    right. exists (Z.of_nat i). split; [lia|done].
  - apply Haddr in Heq; [|right; exists (Z.of_nat i); split; [lia|done]
                        |right; exists (Z.of_nat i'); split; [lia|done]].
    apply field_element_address_inj in Heq as [Hd Hii]; [|lia..].
    apply Nat2Z.inj in Hii as ->. by rewrite (Hdig c c' HD HD' Hd).
Qed.

Context (Hfree : collision_free) (Hwf : ∀ c, D c → AltDACommitment_wf c = true).

Lemma kv_set_preimage c k v kv r kv' :
  D c → preimage_of w c k v → kv_agrees kv → kv_set k v kv = Done (r, kv') →
  extends kv kv' ∧ (r = Ok tt → kv_lookup kv' k = Some v).
Proof.
  intros HD Hv Hag Hset. destruct (kv_set_lookup _ _ _ _ _ Hset) as [[-> Hl]|[[e ->] Hl]].
  - split; [split|].
    + intros c' k' u u' HD' Hu Hu'. rewrite Hl in Hu'. case_bool_decide as Hk; [|by eapply Hag].
      subst k'. injection Hu' as <-.
      exact (preimage_of_functional c c' k v u Hfree HD HD' (Hwf c HD) (Hwf c' HD') Hv Hu).
    + intros c' k' u HD' Hu Hu'. rewrite Hl. case_bool_decide as Hk; [|done].
      subst k'. f_equal.
      exact (preimage_of_functional c c' k v u Hfree HD HD' (Hwf c HD) (Hwf c' HD') Hv Hu).
    + intros _. by rewrite Hl, bool_decide_true.
  - split; [split|done].
    + intros c' k' u u' HD' Hu. rewrite Hl. by apply (Hag c').
    + intros c' k' u HD' Hu. by rewrite Hl.
Qed.

Lemma store_field_elements_extends c n i key p q kv r kv' :
  D c → is_valid w c = true → length p = (32 * q)%nat →
  get_num_field_element c = Z.of_nat (i + n) →
  encoded_payload (blob_of w c) = blob_bytes (i + n) p →
  length key = 80%nat → set_index 0 key = set_index 0 (digest_template c) →
  kv_agrees kv → store_field_elements n i key p q kv = Done (r, kv') →
  extends kv kv' ∧ (r = Ok tt → ∀ j, (i ≤ j < i + n)%nat →
    kv_lookup kv' (OracleProvider.key (field_element_address c (Z.of_nat j))) =
      Some (field_element (blob_of w c) j)).
Proof.
  intros HD Hval Hq. revert i key kv. induction n as [|n IH];
    intros i key kv Hnum Hblob Hkey Hset Hag; cbn [store_field_elements].
  { intros [= <- <-]. split; [by apply extends_refl|]. lia. }
  rewrite (set_index_same c _ key Hkey Hset). set (k := OracleProvider.key _).
  assert (Hpre : preimage_of w c k (field_element (blob_of w c) i)).
  { apply preimage_field_element; [done|lia]. }
  pose proof (blob_bytes_element (i + Datatypes.S n) p q i Hq ltac:(lia)) as Hel.
  rewrite <-Hblob in Hel. fold (field_element (blob_of w c) i) in Hel.
  intros Hrun. assert (Hstep : try_bind (kv_set k (field_element (blob_of w c) i))
    (λ _, store_field_elements n (i + 1) (field_element_address c (Z.of_nat i)) p q) kv =
    Done (r, kv')).
  { rewrite Hel. rewrite <-Hrun. by case_bool_decide. }
  unfold try_bind in Hstep.
  destruct (kv_set _ _ kv) as [[r1 kv1]|] eqn:Hs; [|done].
  destruct (kv_set_preimage _ _ _ _ _ _ HD Hpre Hag Hs) as [Hext Hin].
  destruct r1 as [[]|e]; [|injection Hstep as <- <-; by split].
  apply IH in Hstep as [Hext2 Hall]; [|rewrite Hnum; f_equal; lia|rewrite Hblob; f_equal; lia
    | | |by apply Hext].
  - split; [by eapply extends_trans|]. intros Hr j Hj.
    destruct (decide (j = i)) as [->|Hne]; [|apply Hall; [done|lia]].
    eapply Hext2; [exact HD|exact Hpre|]. by apply Hin.
  - rewrite field_element_address_eq. autorewrite with hok_len. by rewrite length_to_digest.
  - unfold field_element_address. apply set_index_twice, length_digest_template.
Qed.

(** The proxy tells the truth about a certificate. *)
Definition stage_truthful (c : AltDACommitment) (stage : ProxyDerivationStage) : Prop :=
  is_valid_cert stage = is_valid w c ∧
  (is_valid w c = true → pass_recency_check stage = true →
    encoded_payload (blob_of w c) =
      blob_bytes (Z.to_nat (get_num_field_element c)) (stage_encoded_payload stage)).

Lemma store_encoded_payload_extends c stage kv r kv' :
  D c → is_valid w c = true → pass_recency_check stage = true → stage_truthful c stage →
  kv_agrees kv → store_encoded_payload c (stage_encoded_payload stage) kv = Done (r, kv') →
  extends kv kv' ∧ (r = Ok tt → ∀ j, Z.of_nat j < get_num_field_element c →
    kv_lookup kv' (OracleProvider.key (field_element_address c (Z.of_nat j))) =
      Some (field_element (blob_of w c) j)).
Proof.
  intros HD Hval Hrec [_ Hblob] Hag. specialize (Hblob Hval Hrec).
  set (p := stage_encoded_payload stage) in *.
  pose proof (AltDACommitment_wf_num c (Hwf c HD)) as Hnum.
  unfold store_encoded_payload, BYTES_PER_FIELD_ELEMENT, mbind, M_bind, lift, try_bind.
  set (q := (length p / 32)%nat).
  assert (Hdiv : length p = (32 * q + length p mod 32)%nat) by apply Nat.div_mod_eq.
  clearbody q. case_bool_decide as Hmod; [|done]. rewrite Hmod in Hdiv.
  destruct (bool_decide (p = [])); [done|]. unfold mret, M_ret. cbn.
  destruct (check_field_elements _) as [[]|e].
  - intros Hrun. apply (store_field_elements_extends c) in Hrun as [Hext Hall];
      [|done|done|lia|lia|done|apply length_digest_template|done|done].
    split; [done|]. intros Hr j Hj. apply Hall; [done|lia].
  - intros [= <- <-]. split; [by apply extends_refl|done].
Qed.

(** [fetch_eigenda_hint], for a proxy that tells the truth about [c]. *)
Lemma fetch_eigenda_hint_extends c p kv r p' kv' :
  D c → try_from (to_rlp_bytes c) = Ok c →
  (∀ r stage, fetch_data_from_proxy (to_rlp_bytes c) p = Done (Ok stage, r) → stage_truthful c stage) →
  kv_agrees kv →
  fetch_eigenda_hint (to_rlp_bytes c) (p, kv) = Done (r, (p', kv')) →
  extends kv kv' ∧
  (r = Ok tt → ∃ stage, fetch_data_from_proxy (to_rlp_bytes c) p = Done (Ok stage, p') ∧
    kv_lookup kv' (OracleProvider.key (validity_address c)) = Some [bool_byte (is_valid w c)] ∧
    (pass_recency_check stage = true → kv_has c kv')).
Proof.
  intros HD Hparse Htrue Hag.
  unfold fetch_eigenda_hint, on_online, on_kv, zoom, try_bind, mret, M_ret. rewrite Hparse.
  cbn [map_err fst snd].
  destruct (fetch_data_from_proxy _ p) as [[[stage|e] p1]|] eqn:Hf; [|intros [= <- <- <-]|done].
  2: { split; [by apply extends_refl|done]. }
  pose proof (Htrue _ _ eq_refl) as Hstage. pose proof Hstage as [Hv _]. rewrite Hv. cbn [fst snd].
  destruct (store_cert_validity c (is_valid w c) kv) as [[r1 kv1]|] eqn:Hs; [|done].
  destruct (kv_set_preimage _ _ _ _ _ _ HD (preimage_validity w c) Hag Hs) as [Hext Hin].
  destruct r1 as [[]|e]; [|intros [= <- <- <-]; by split].
  specialize (Hin eq_refl). destruct (is_valid w c) eqn:Hval; cbn [negb].
  2: { intros [= <- <- <-]. split; [done|]. intros _. exists stage. split_and!; [done..|].
       intros _ k v Hpre. destruct Hpre as [|i Hval']; [by rewrite Hval|congruence]. }
  destruct (pass_recency_check stage) eqn:Hrec; cbn [negb].
  2: { intros [= <- <- <-]. split; [done|]. intros _. exists stage. split_and!; [done..|congruence]. }
  cbn [fst snd].
  destruct (store_encoded_payload c (stage_encoded_payload stage) kv1) as [[r2 kv2]|] eqn:Hsp; [|done].
  apply store_encoded_payload_extends in Hsp as [Hext2 Hall]; [|done..|by apply Hext].
  assert (Hextt : extends kv kv2) by (by eapply extends_trans).
  assert (Hval2 : kv_lookup kv2 (OracleProvider.key (validity_address c)) = Some [bool_byte true]).
  { eapply Hext2; [exact HD| |exact Hin]. rewrite <-Hval. apply preimage_validity. }
  destruct r2 as [[]|e]; intros [= <- <- <-]; (split; [done|]); [|done].
  intros _. exists stage. split_and!; [done..|]. intros _ k v Hpre.
  destruct Hpre as [|i ? Hi]; [by rewrite Hval|by apply Hall].
Qed.
End host_soundness.
