(* ===== verification/DataSource.v ===== *)
(** * The data source (crates/eigenda/src/eigenda.rs)

    [EigenDADataSource] puts the preimage source behind kona's
    [EthereumDataSource].  [next] is recursive in the code: it calls itself when
    an item is discarded.  Here it takes fuel; [next_total] shows that one unit
    more than the number of pending L1 items is enough. *)

From S2P Require Export PreimageSource.

(** ** kona_derive and kona_protocol *)

(** The types of kona which the file names, and the constructors it uses. *)
Class Kona := {
  pipeline_error : Type;
  Eof : pipeline_error;
  NotEnoughData : pipeline_error;
  Provider : string → pipeline_error;
  pipeline_error_kind : Type;
  pipeline_error_kind_eq_dec :: EqDecision pipeline_error_kind;
  (** [PipelineErrorKind::Temporary], [PipelineError::temp] and [crit] *)
  PipelineTemporary : pipeline_error → pipeline_error_kind;
  temp : pipeline_error → pipeline_error_kind;
  crit : pipeline_error → pipeline_error_kind;
  BlockInfo : Type;
  block_number : BlockInfo → Z;
}.

Class KonaLaws `{Kona} := {
  temp_eq e : temp e = PipelineTemporary e;
  PipelineTemporary_inj :: Inj (=) (=) PipelineTemporary;
  crit_not_temp e e' : crit e ≠ PipelineTemporary e';
  Eof_not_enough : Eof ≠ NotEnoughData;
  Provider_not_Eof m : Provider m ≠ Eof;
}.

(** [EthereumDataSource<C, B>] as a [DataAvailabilityProvider]. *)
Class EthereumDataSource `{!Kona} (E : Type) := {
  eth_next : BlockInfo → Address → M E (result pipeline_error_kind Bytes);
  eth_clear : E → E;
}.

(** Within one block, the source hands out its items in order, then [Eof]; an
    error leaves the items alone. *)
Class EthereumQueue `{!Kona, !EthereumDataSource E} (b : BlockInfo) (a : Address)
    (pending : E → list Bytes) := {
  eth_next_queue e :
    ∃ r e', eth_next b a e = Done (r, e') ∧
      match r with
      | Ok d => pending e = d :: pending e'
      | Err k => pending e' = pending e ∧ (k = PipelineTemporary Eof → pending e = [])
      end;
}.

(** ** eigenda.rs *)

Record EigenDADataSource (E A : Type) := {
  ethereum_source : E;
  eigenda_source : EigenDAPreimageSource A;
  altda_commitment : option AltDACommitment;
}.
Arguments Build_EigenDADataSource {E A}.
Arguments ethereum_source {E A}.
Arguments eigenda_source {E A}.
Arguments altda_commitment {E A}.

#[export] Instance EigenDADataSource_eq_dec E A `{EqDecision E, EqDecision A} :
  EqDecision (EigenDADataSource E A).
Proof. solve_decision. Defined.

Module DataSource.
Section next.
Context `{!Alloy, !Kona, !EthereumDataSource E, !EigenDAPreimageProvider A}.
Local Abbreviation S := (EigenDADataSource E A).

Definition new (e : E) (p : EigenDAPreimageSource A) : S :=
  {| ethereum_source := e; eigenda_source := p; altda_commitment := None |}.

Definition set_commitment (c : option AltDACommitment) (s : S) : S :=
  {| ethereum_source := ethereum_source s; eigenda_source := eigenda_source s;
     altda_commitment := c |}.

Definition on_ethereum {B} (m : M E B) : M S B :=
  zoom ethereum_source (λ e s, {| ethereum_source := e; eigenda_source := eigenda_source s;
    altda_commitment := altda_commitment s |}) m.
Definition on_eigenda {B} (m : M (EigenDAPreimageSource A) B) : M S B :=
  zoom eigenda_source (λ p s, {| ethereum_source := ethereum_source s; eigenda_source := p;
    altda_commitment := altda_commitment s |}) m.

Definition clear (s : S) : S :=
  {| ethereum_source := eth_clear (ethereum_source s); eigenda_source := eigenda_source s;
     altda_commitment := None |}.

(** The block [if self.altda_commitment.is_none() {...}]: [Ok (Some d)] is the
    early return of [d]; [Ok None] goes on. *)
Definition load (b : BlockInfo) (addr : Address) : M S (result pipeline_error_kind (option Bytes)) :=
  s ← get;
  match altda_commitment s with
  | Some _ => mret (Ok None)
  | None =>
      r ← on_ethereum (eth_next b addr);
      match r with
      | Err e =>
          _ ← (if bool_decide (e = PipelineTemporary Eof) then modify clear else mret tt);
          mret (Err e)
      | Ok [] => mret (Err (PipelineTemporary NotEnoughData))
      | Ok (version :: rest) =>
          if bool_decide (version ≠ ALTDA_DERIVATION_VERSION) then
            mret (Ok (Some (version :: rest)))
          else match parse (version :: rest) with
          | Ok c => _ ← modify (set_commitment (Some c)); mret (Ok None)
          | Err _ => mret (Err (PipelineTemporary NotEnoughData))
          end
      end
  end.

(** The rest of [next]: [Ok (Some p)] returns [p], [Ok None] is the recursive call. *)
Definition resolve (b : BlockInfo) : M S (result pipeline_error_kind (option Bytes)) :=
  s ← get;
  match altda_commitment s with
  | None => panic
  | Some c =>
      r ← on_eigenda (PreimageSource.next c (block_number b));
      match r with
      | Err (Temporary e) => mret (Err (temp (Provider e)))
      | Err (Discard e) => _ ← modify (set_commitment None); mret (Ok None)
      | Err (Critical e) => mret (Err (crit (Provider e)))
      | Ok encoded_payload =>
          match decode encoded_payload with
          | Ok p => _ ← modify (set_commitment None); mret (Ok (Some p))
          | Err e => _ ← modify (set_commitment None); mret (Ok None)
          end
      end
  end.

(** [next]; [None] when the fuel runs out. *)
Fixpoint next (fuel : nat) (b : BlockInfo) (addr : Address) (s : S) :
    option (outcome (result pipeline_error_kind Bytes * S)) :=
  match fuel with
  | O => None
  | Datatypes.S fuel =>
      match load b addr s with
      | Panic => Some Panic
      | Done (Err e, s) => Some (Done (Err e, s))
      | Done (Ok (Some d), s) => Some (Done (Ok d, s))
      | Done (Ok None, s) =>
          match resolve b s with
          | Panic => Some Panic
          | Done (Err e, s) => Some (Done (Err e, s))
          | Done (Ok (Some p), s) => Some (Done (Ok p, s))
          | Done (Ok None, s) => next fuel b addr s
          end
      end
  end.
End next.
End DataSource.

(** ** Specification

    The items of a block that are still to be derived: the commitment being
    resolved, then the data of the L1 source. *)

Section spec.
Context `{!Alloy, !Kona}.

Local Abbreviation position := (option AltDACommitment * list Bytes)%type.

(** What becomes of a certificate: the payload, nothing, or a fatal error. *)
Inductive fate := Emit (p : Bytes) | Drop | Halt (m : string).

Definition cert_fate (w : DAWorld) (bn : Z) (c : AltDACommitment) : fate :=
  match cert_verdict w bn c with
  | Payload ep => match decode ep with Ok p => Emit p | Err _ => Drop end
  | Rejected => Drop
  | Fatal m => Halt m
  end.

(** What becomes of an item of the L1 source. *)
Inductive item := Plain (d : Bytes) | Cert (c : AltDACommitment) | Malformed.

#[export] Instance item_eq_dec : EqDecision item.
Proof. solve_decision. Defined.

Definition read_item (d : Bytes) : item :=
  match d with
  | [] => Malformed
  | version :: rest =>
      if bool_decide (version ≠ ALTDA_DERIVATION_VERSION) then Plain d
      else match try_from rest with Ok c => Cert c | Err _ => Malformed end
  end.

Fixpoint derive_items (w : DAWorld) (bn : Z) (q : list Bytes) :
    result pipeline_error_kind Bytes * position :=
  match q with
  | [] => (Err (PipelineTemporary Eof), (None, []))
  | d :: q =>
      match read_item d with
      | Plain d => (Ok d, (None, q))
      | Malformed => (Err (PipelineTemporary NotEnoughData), (None, q))
      | Cert c =>
          match cert_fate w bn c with
          | Emit p => (Ok p, (None, q))
          | Drop => derive_items w bn q
          | Halt m => (Err (crit (Provider m)), (Some c, q))
          end
      end
  end.

Definition derive (w : DAWorld) (bn : Z) (p : position) :
    result pipeline_error_kind Bytes * position :=
  match p with
  | (None, q) => derive_items w bn q
  | (Some c, q) =>
      match cert_fate w bn c with
      | Emit p => (Ok p, (None, q))
      | Drop => derive_items w bn q
      | Halt m => (Err (crit (Provider m)), (Some c, q))
      end
  end.
End spec.

Section refinement.
Context `{!Alloy, !AlloyLaws, !Kona, !KonaLaws, !EthereumDataSource E,
  !EigenDAPreimageProvider A}.
Context (b : BlockInfo) (addr : Address) (pending : E → list Bytes).
Context (w : DAWorld) (D : AltDACommitment → Prop) (Inv : A → Prop).
Context `{!EthereumQueue b addr pending, !AnswersAt w D Inv (block_number b)}.
Implicit Types s : EigenDADataSource E A.

Definition position_of s : option AltDACommitment * list Bytes :=
  (altda_commitment s, pending (ethereum_source s)).

(** The certificates still to be met are well formed and known to the provider. *)
Definition known (c : AltDACommitment) : Prop := D c ∧ AltDACommitment_wf c = true.
Definition covered (p : option AltDACommitment * list Bytes) : Prop :=
  (∀ c, p.1 = Some c → known c) ∧
  Forall (λ d, ∀ c, read_item d = Cert c → D c) p.2.

Definition provider_inv s : Prop := Inv (eigenda_fetcher (eigenda_source s)).

Definition fuel_for (p : option AltDACommitment * list Bytes) : nat :=
  length p.2 + match p.1 with Some _ => 2 | None => 1 end.

Lemma read_item_wf d c : read_item d = Cert c → AltDACommitment_wf c = true.
Proof.
  destruct d as [|v rest]; [done|]. cbn. case_bool_decide; [done|].
  destruct (try_from rest) as [c'|] eqn:Hp; [|done]. intros [= <-].
  by destruct (try_from_Ok_inv _ _ Hp) as (? & _ & _ & _ & _ & ?).
Qed.

Lemma covered_cons d q : covered (None, d :: q) →
  covered (None, q) ∧ ∀ c, read_item d = Cert c → covered (Some c, q).
Proof.
  intros [_ Hq]. apply Forall_cons in Hq as [Hd Hq]. split; [by split|].
  intros c Hc. split; [|done]. intros ? [= <-]. split; [by apply Hd|by eapply read_item_wf].
Qed.

Lemma parse_read_item v rest :
  v = ALTDA_DERIVATION_VERSION →
  match parse (v :: rest) with
  | Ok c => read_item (v :: rest) = Cert c
  | Err _ => read_item (v :: rest) = Malformed
  end.
Proof.
  intros ->. cbn. destruct (parse _) as [c|] eqn:Hp.
  - apply parse_Ok in Hp as (? & ? & [= <- <-] & ->). done.
  - destruct (try_from rest) as [c|] eqn:Ht; [|done].
    assert (Hc : parse (ALTDA_DERIVATION_VERSION :: rest) = Ok c).
    { apply parse_Ok. eauto. }
    congruence.
Qed.

(** The L1 source has reported [k]. *)
Definition source_failed (k : pipeline_error_kind) s : Prop :=
  altda_commitment s = None ∧ ∃ e, eth_next b addr e = Done (Err k, ethereum_source s).

(** The L1 source has reported the end of the data, and is cleared. *)
Definition source_ended s : Prop :=
  altda_commitment s = None ∧ ∃ e e', eth_next b addr e = Done (Err (PipelineTemporary Eof), e') ∧
    ethereum_source s = eth_clear e'.

(** What [load] does with each item. *)
Lemma load_item s :
  altda_commitment s = None →
  ∃ r s', DataSource.load b addr s = Done (r, s') ∧
    eigenda_source s' = eigenda_source s ∧
    ((∃ k, r = Err k ∧ k ≠ PipelineTemporary Eof ∧ source_failed k s' ∧
       position_of s' = position_of s) ∨
     (r = Err (PipelineTemporary Eof) ∧ pending (ethereum_source s) = [] ∧ source_ended s') ∨
     ∃ d q, pending (ethereum_source s) = d :: q ∧
       match read_item d with
       | Plain d => r = Ok (Some d) ∧ position_of s' = (None, q)
       | Cert c => r = Ok None ∧ position_of s' = (Some c, q)
       | Malformed => r = Err (PipelineTemporary NotEnoughData) ∧ position_of s' = (None, q)
       end).
Proof.
  destruct s as [e p c]. cbn. intros ->.
  unfold DataSource.load, DataSource.on_ethereum, zoom, mbind, M_bind, position_of. cbn.
  destruct (eth_next_queue e) as (r & e' & He & Hr). rewrite He. cbn.
  destruct r as [[|v rest]|k]; cbn.
  - do 2 eexists. split; [done|]. split; [done|]. right; right. by exists [], (pending e').
  - case_bool_decide as Hv.
    + do 2 eexists. split; [done|]. split; [done|]. right; right.
      exists (v :: rest), (pending e'). split; [done|]. cbn.
      by rewrite bool_decide_true.
    + pose proof (parse_read_item v rest Hv) as Hp.
      destruct (parse (v :: rest)) as [c|]; cbn.
      all: do 2 eexists; split; [done|]; split; [done|]; right; right;
        exists (v :: rest), (pending e'); split; [done|]; by rewrite Hp.
  - destruct Hr as [Hpend Heof]. case_bool_decide as Hk; cbn.
    + do 2 eexists. split; [done|]. split; [done|]. right; left. subst k.
      split_and!; [done|by apply Heof|]. split; [done|]. by exists e, e'.
    + do 2 eexists. split; [done|]. split; [done|]. left. exists k.
      cbn. rewrite Hpend. split_and!; [done|done| |done]. split; [done|]. by exists e.
Qed.

(** What [resolve] does with each certificate. *)
Lemma resolve_cert s c :
  altda_commitment s = Some c → provider_inv s → known c →
  ∃ r s', DataSource.resolve b s = Done (r, s') ∧ provider_inv s' ∧
    ethereum_source s' = ethereum_source s ∧
    ((∃ m, r = Err (temp (Provider m)) ∧ altda_commitment s' = Some c ∧
       request_failed c (eigenda_fetcher (eigenda_source s)) m (eigenda_fetcher (eigenda_source s'))) ∨
     match cert_fate w (block_number b) c with
     | Emit p => r = Ok (Some p) ∧ altda_commitment s' = None
     | Drop => r = Ok None ∧ altda_commitment s' = None
     | Halt m => r = Err (crit (Provider m)) ∧ altda_commitment s' = Some c
     end).
Proof.
  destruct s as [e p oc]. unfold provider_inv. cbn. intros -> HI [HD Hwf].
  unfold DataSource.resolve, DataSource.on_eigenda, zoom, mbind, M_bind. cbn.
  destruct (next_verdict c p HI HD Hwf) as (r & p' & -> & HI' & Hr).
  cbn. unfold cert_fate. destruct Hr as [Hr|(m & -> & Hfail)]; cbn; [|by eauto 10].
  destruct (cert_verdict _ _ _) as [ep| |m]; cbn in Hr.
  - subst r. destruct (decode ep); cbn; eauto 10.
  - destruct Hr as (k & -> & m & ->). cbn. eauto 10.
  - subst r. cbn. eauto 10.
Qed.

(** One call of [next] gives the specification's answer and moves to the
    specification's position; or it reports the error of the L1 source, or a temporary error
    of the provider's (as a temporary error), that leaves the answer to come unchanged. *)
Definition provider_failed (k : pipeline_error_kind) s : Prop :=
  ∃ c a m, k = temp (Provider m) ∧ altda_commitment s = Some c ∧ Inv a ∧
    request_failed c a m (eigenda_fetcher (eigenda_source s)).

Definition simulates (s : EigenDADataSource E A)
    (r : result pipeline_error_kind Bytes) (s' : EigenDADataSource E A) : Prop :=
  provider_inv s' ∧
  ((r = Err (PipelineTemporary Eof) ∧ source_ended s' ∧
     (derive w (block_number b) (position_of s)).1 = r) ∨
   (derive w (block_number b) (position_of s) = (r, position_of s') ∧
     covered (position_of s')) ∨
   (∃ k, r = Err k ∧ k ≠ PipelineTemporary Eof ∧ (source_failed k s' ∨ provider_failed k s') ∧
     derive w (block_number b) (position_of s') =
       derive w (block_number b) (position_of s) ∧ covered (position_of s'))).

Lemma simulates_derive s1 s r s' :
  derive w (block_number b) (position_of s1) = derive w (block_number b) (position_of s) →
  simulates s1 r s' → simulates s r s'.
Proof. unfold simulates. by intros ->. Qed.

Lemma simulates_resolved s c fuel :
  altda_commitment s = Some c → provider_inv s → covered (position_of s) →
  (∀ s1, altda_commitment s1 = None → provider_inv s1 →
    ethereum_source s1 = ethereum_source s → covered (position_of s1) →
    ∃ r s', DataSource.next fuel b addr s1 = Some (Done (r, s')) ∧ simulates s1 r s') →
  ∃ r s',
    match DataSource.resolve b s with
    | Panic => Some Panic
    | Done (Err e, s) => Some (Done (Err e, s))
    | Done (Ok (Some p), s) => Some (Done (Ok p, s))
    | Done (Ok None, s) => DataSource.next fuel b addr s
    end = Some (Done (r, s')) ∧ simulates s r s'.
Proof.
  intros Hc HI [Hk Hq] IH.
  destruct (resolve_cert s c Hc HI) as (r & s1 & -> & HI1 & He & Hr); [by apply Hk|].
  assert (Hnone : altda_commitment s1 = None →
    position_of s1 = (None, pending (ethereum_source s)) ∧ covered (position_of s1)).
  { intros Hn. unfold position_of. rewrite He, Hn. split; [done|]. by split. }
  assert (Hsome : altda_commitment s1 = Some c → position_of s1 = position_of s).
  { intros Hn. unfold position_of. by rewrite He, Hn, Hc. }
  assert (Hpos : position_of s = (Some c, pending (ethereum_source s))).
  { unfold position_of. by rewrite Hc. }
  destruct Hr as [(m & -> & Hs1 & Hfail)|Hr].
  { do 2 eexists. split; [done|]. split; [done|]. right; right. eexists. split; [done|].
    rewrite Hsome by done. split_and!; [|by right; exists c, (eigenda_fetcher (eigenda_source s)), m|done|by split].
    rewrite temp_eq. intros Heq%(inj _). by apply Provider_not_Eof in Heq. }
  destruct (cert_fate _ _ _) as [p| |m] eqn:Hf; destruct Hr as [-> Hs1].
  - destruct (Hnone Hs1) as [Hp1 Hcov]. do 2 eexists. split; [done|]. split; [done|].
    right; left. split; [|done]. rewrite Hpos, Hp1. cbn. by rewrite Hf.
  - destruct (Hnone Hs1) as [Hp1 Hcov]. destruct (IH s1) as (r & s' & Hn & Hsim); [done..|].
    exists r, s'. split; [done|]. apply (simulates_derive s1); [|done].
    rewrite Hpos, Hp1. cbn. by rewrite Hf.
  - do 2 eexists. split; [done|]. split; [done|]. right; left.
    rewrite Hsome by done. split; [|by split]. rewrite Hpos. cbn. by rewrite Hf.
Qed.

Lemma next_simulates_None fuel s :
  altda_commitment s = None → provider_inv s → covered (position_of s) →
  (length (pending (ethereum_source s)) < fuel)%nat →
  ∃ r s', DataSource.next fuel b addr s = Some (Done (r, s')) ∧ simulates s r s'.
Proof.
  revert s. induction fuel as [|fuel IH]; [lia|]. intros s Hc HI Hcov Hfuel. cbn.
  assert (Hpos : position_of s = (None, pending (ethereum_source s))).
  { unfold position_of. by rewrite Hc. }
  destruct (load_item s Hc) as (r & s1 & -> & He & Hr).
  assert (HI1 : provider_inv s1) by (unfold provider_inv; by rewrite He).
  destruct Hr as [(k & -> & Hk & Hsrc & Hp)|[(-> & Hnil & Hend)|(d & q & Hq & Hr)]].
  { do 2 eexists. split; [done|]. split; [done|]. right; right. exists k.
    rewrite Hp. split_and!; [done|done|by left|done..]. }
  { do 2 eexists. split; [done|]. split; [done|]. left. split_and!; [done..|].
    rewrite Hpos, Hnil. done. }
  rewrite Hpos, Hq in Hcov. destruct (covered_cons _ _ Hcov) as [Hcq Hcc].
  destruct (read_item d) as [d'|c|] eqn:Hd; destruct Hr as [-> Hp1].
  - do 2 eexists. split; [done|]. split; [done|]. right; left. rewrite Hp1.
    split; [|done]. rewrite Hpos, Hq. cbn. by rewrite Hd.
  - injection Hp1 as Hs1 Hq1.
    destruct (simulates_resolved s1 c fuel) as (r & s' & -> & Hsim); [done..| | |].
    + unfold position_of. rewrite Hs1, Hq1. by apply Hcc.
    + intros s2 Hs2 HI2 He2 Hcov2. apply IH; [done..|]. rewrite He2, Hq1.
      rewrite Hq in Hfuel. cbn in Hfuel. lia.
    + do 2 eexists. split; [done|]. apply (simulates_derive s1); [|done].
      unfold position_of. rewrite Hs1, Hq1, Hc, Hq. cbn. by rewrite Hd.
  - do 2 eexists. split; [done|]. split; [done|]. right; left. rewrite Hp1.
    split; [|done]. rewrite Hpos, Hq. cbn. by rewrite Hd.
Qed.

Lemma next_simulates fuel s :
  provider_inv s → covered (position_of s) → (fuel_for (position_of s) ≤ fuel)%nat →
  ∃ r s', DataSource.next fuel b addr s = Some (Done (r, s')) ∧ simulates s r s'.
Proof.
  intros HI Hcov Hfuel. unfold fuel_for in Hfuel. cbn in Hfuel.
  destruct (altda_commitment s) as [c|] eqn:Hc; [|apply next_simulates_None; [done..|lia]].
  destruct fuel as [|fuel]; [lia|]. cbn.
  assert (Hload : DataSource.load b addr s = Done (Ok None, s)).
  { unfold DataSource.load, mbind, M_bind. cbn. by rewrite Hc. }
  rewrite Hload. apply (simulates_resolved s c); [done..|].
  intros s1 Hs1 HI1 He Hcov1. apply next_simulates_None; [done..|]. rewrite He. lia.
Qed.
End refinement.

(** ** Termination

    These need nothing of the preimage provider. *)

Section termination.
Context `{!Alloy, !Kona, !EthereumDataSource E, !EigenDAPreimageProvider A}.
Context (b : BlockInfo) (addr : Address) (pending : E → list Bytes).
Context `{!EthereumQueue b addr pending}.
Implicit Types s : EigenDADataSource E A.

(** A [load] that goes on either had its commitment or took an item. *)
Lemma load_decreases s s' :
  DataSource.load b addr s = Done (Ok None, s') →
  altda_commitment s = None →
  (length (pending (ethereum_source s')) < length (pending (ethereum_source s)))%nat.
Proof.
  destruct s as [e p c]. cbn. intros Hl ->.
  unfold DataSource.load, DataSource.on_ethereum, zoom, mbind, M_bind in Hl. cbn in Hl.
  destruct (eth_next_queue e) as (r & e' & He & Hr). rewrite He in Hl. cbn in Hl.
  destruct r as [[|v rest]|k]; cbn in Hl; [done| |].
  - case_bool_decide; [done|]. destruct (parse _); [|done].
    injection Hl as <-. cbn. rewrite Hr. cbn. lia.
  - by case_bool_decide.
Qed.

Lemma load_keeps s r s' c :
  DataSource.load b addr s = Done (r, s') → altda_commitment s = Some c → s' = s.
Proof. unfold DataSource.load, mbind, M_bind. cbn. intros Hl Hc. rewrite Hc in Hl. by injection Hl. Qed.

Lemma resolve_clears s s' :
  DataSource.resolve b s = Done (Ok None, s') →
  altda_commitment s' = None ∧ ethereum_source s' = ethereum_source s.
Proof.
  destruct s as [e p [c|]]; [|done].
  unfold DataSource.resolve, DataSource.on_eigenda, zoom, mbind, M_bind. cbn.
  destruct (PreimageSource.next _ _ _) as [[[ep|[]] p']|]; cbn; try done.
  - destruct (decode ep); cbn; [done|]. by intros [= <-].
  - by intros [= <-].
Qed.

Lemma next_terminates_None fuel s :
  altda_commitment s = None → (length (pending (ethereum_source s)) < fuel)%nat →
  DataSource.next fuel b addr s ≠ None.
Proof.
  revert s. induction fuel as [|fuel IH]; [lia|]. intros s Hc Hfuel. cbn.
  destruct (DataSource.load b addr s) as [[[[d|]|e] s1]|] eqn:Hl; try done.
  pose proof (load_decreases _ _ Hl Hc).
  destruct (DataSource.resolve b s1) as [[[[d|]|e] s2]|] eqn:Hr; try done.
  destruct (resolve_clears _ _ Hr) as [Hs2 He]. apply IH; [done|]. rewrite He. lia.
Qed.

Lemma next_terminates fuel s :
  (length (pending (ethereum_source s)) + 2 ≤ fuel)%nat →
  DataSource.next fuel b addr s ≠ None.
Proof.
  intros Hfuel. destruct (altda_commitment s) as [c|] eqn:Hc;
    [|apply next_terminates_None; [done|lia]].
  destruct fuel as [|fuel]; [lia|]. cbn.
  destruct (DataSource.load b addr s) as [[[[d|]|e] s1]|] eqn:Hl; try done.
  pose proof (load_keeps _ _ _ _ Hl Hc) as ->.
  destruct (DataSource.resolve b s) as [[[[d|]|e] s2]|] eqn:Hr; try done.
  destruct (resolve_clears _ _ Hr) as [Hs2 He].
  apply next_terminates_None; [done|]. rewrite He. lia.
Qed.
End termination.

(** More fuel does not change the answer. *)
Lemma next_fuel_mono `{!Alloy, !Kona, !EthereumDataSource E, !EigenDAPreimageProvider A}
    b addr (s : EigenDADataSource E A) n m o :
  DataSource.next n b addr s = Some o → (n ≤ m)%nat → DataSource.next m b addr s = Some o.
Proof.
  revert s m. induction n as [|n IH]; intros s m Hn Hm; [done|].
  destruct m as [|m]; [lia|]. revert Hn. cbn.
  destruct (DataSource.load b addr s) as [[[[d|]|e] s1]|]; try done.
  destruct (DataSource.resolve b s1) as [[[[d|]|e] s2]|]; try done.
  intros Hn. apply IH; [done|lia].
Qed.
