(* ===== verification/DerivationTheory.v ===== *)
(** * Theorems on the derivation

    Parsing of batcher data, the preimage source and the data source: what one
    call of [next] returns, that it terminates, and that two derivations over
    the same L1 data agree whichever provider serves them. *)

From S2P Require Import RlpInstance DataSource.

Section claims.
Context `{!Alloy, !AlloyLaws}.

(** C40: the recency check accepts a certificate of derivation version 0 at L1
    block [bn] exactly when [bn] is at most 14400 blocks after its reference
    block; the [u64] addition in the check does not wrap.  Certificates of
    versions V2 and V3 are never stale. *)
Theorem recency_window_exact c bn :
  AltDACommitment_wf c = true →
  (recency_window ← cert_recency_window c; recency_check bn (get_rbn c) recency_window) = Ok tt
  ↔ match versioned_cert c with
    | V2 _ | V3 _ => True
    | V4 v => v4_offchain_derivation_version v = 0 ∧ bn ≤ get_rbn c + 14400
    end.
Proof.
  intros Hwf. rewrite recency_is_recent by done. unfold is_recent.
  destruct (versioned_cert c) as [v|v|v]; [done..|].
  repeat case_bool_decide; split; try done; by intros [].
Qed.

(** C27: the preimage source computes the verdict of the DA world: for a
    provider that answers truthfully or fails temporarily, [next] returns the
    encoded payload of a valid and recent certificate, discards an invalid or
    stale one, and reports an unknown derivation version as critical; the only
    other outcome is the temporary error that a request about the certificate
    returned, and the provider stays truthful. *)
Theorem preimage_source_next_verdict `{!EigenDAPreimageProvider A, !FaithfulProvider w D Inv}
    c bn (s : EigenDAPreimageSource A) :
  Inv (eigenda_fetcher s) → D c → AltDACommitment_wf c = true →
  ∃ r s', PreimageSource.next c bn s = Done (r, s') ∧ Inv (eigenda_fetcher s') ∧
    (verdict_result (cert_verdict w bn c) r ∨
     ∃ m, r = Err (Temporary m) ∧ request_failed c (eigenda_fetcher s) m (eigenda_fetcher s')).
Proof. apply next_verdict. Qed.

Context `{!Kona, !EthereumDataSource E, !EigenDAPreimageProvider A}.

(** C26: [next] returns: on a source with [n] pending items, [n + 2] rounds of
    its recursion are enough whatever the preimage provider answers, and any
    larger fuel gives the same outcome. *)
Theorem data_source_next_terminates b addr pending `{!EthereumQueue b addr pending} :
  ∀ s : EigenDADataSource E A, ∃ o, ∀ fuel,
    (length (pending (ethereum_source s)) + 2 ≤ fuel)%nat →
    DataSource.next fuel b addr s = Some o.
Proof.
  intros s.
  destruct (DataSource.next (length (pending (ethereum_source s)) + 2) b addr s) as [o|] eqn:Hn.
  - exists o. intros fuel Hf. by eapply next_fuel_mono.
  - by apply (next_terminates b addr pending) in Hn.
Qed.

Context `{!KonaLaws}.

(** C1: [next] refines the derivation of the specification: it returns the
    first payload that the pending commitment and the pending L1 items give,
    skipping every certificate that is invalid, stale or undecodable, and
    leaves the state at the position behind it; or it passes on the error that
    the L1 source returned, or reports as temporary (never as critical) a
    temporary error that the provider returned for the commitment it keeps, and
    then the answer of the specification from the new state is the same as from
    the old one, so a retry loses nothing and repeats nothing.  At the end of
    the data the L1 source is cleared. *)
Theorem data_source_next_refines b addr pending w D Inv fuel (s : EigenDADataSource E A)
    `{!EthereumQueue b addr pending, !FaithfulProvider w D Inv} :
  provider_inv Inv s → covered D (position_of pending s) →
  (fuel_for (position_of pending s) ≤ fuel)%nat →
  ∃ r s', DataSource.next fuel b addr s = Some (Done (r, s')) ∧
    simulates b addr pending w D Inv s r s'.
Proof. exact (next_simulates b addr pending w D Inv fuel s). Qed.
End claims.

Section agreement.
Context `{!Alloy, !AlloyLaws, !Kona, !KonaLaws, !EthereumDataSource E}.
Context `{PA : !EigenDAPreimageProvider A, PB : !EigenDAPreimageProvider B}.

(** C22: derivations agree: two data sources at the same position, over
    different truthful providers of the same DA world (a node's and a
    prover's, say), return the same payload whenever both return one. *)
Theorem derivations_agree b addr pending w DA DB IA IB fuel
    (s1 : EigenDADataSource E A) (s2 : EigenDADataSource E B) p1 p2 s1' s2'
    `{!EthereumQueue b addr pending,
      FA : !FaithfulProvider (A := A) w DA IA, FB : !FaithfulProvider (A := B) w DB IB} :
  position_of pending s1 = position_of pending s2 →
  provider_inv IA s1 → provider_inv IB s2 →
  covered DA (position_of pending s1) → covered DB (position_of pending s2) →
  (fuel_for (position_of pending s1) ≤ fuel)%nat →
  DataSource.next fuel b addr s1 = Some (Done (Ok p1, s1')) →
  DataSource.next fuel b addr s2 = Some (Done (Ok p2, s2')) →
  p1 = p2 ∧ position_of pending s1' = position_of pending s2'.
Proof.
  intros Hpos Hi1 Hi2 Hc1 Hc2 Hf Hn1 Hn2. pose proof Hf as Hf2. rewrite Hpos in Hf2.
  destruct (next_simulates b addr pending w DA IA fuel s1 Hi1 Hc1 Hf) as (r1 & t1 & E1 & _ & S1).
  destruct (next_simulates b addr pending w DB IB fuel s2 Hi2 Hc2 Hf2) as (r2 & t2 & E2 & _ & S2).
  rewrite Hn1 in E1. injection E1 as <- <-. rewrite Hn2 in E2. injection E2 as <- <-.
  destruct S1 as [(? & _)|[[S1 _]|(? & ? & _)]]; [done| |done].
  destruct S2 as [(? & _)|[[S2 _]|(? & ? & _)]]; [done| |done].
  rewrite Hpos, S2 in S1. apply pair_eq in S1 as [[= ->] ->]. done.
Qed.
End agreement.

(** ** Witnesses

    A source that is a list of items, the provider of the tests, and one
    certificate of each kind. *)

Import Concrete.

Inductive list_pipeline_error := LEof | LNotEnoughData | LProvider (m : string).
#[export] Instance list_pipeline_error_eq_dec : EqDecision list_pipeline_error.
Proof. solve_decision. Defined.

#[export] Instance list_kona : Kona := {|
  Eof := LEof; NotEnoughData := LNotEnoughData; Provider := LProvider;
  pipeline_error_kind := bool * list_pipeline_error;
  PipelineTemporary := pair true; temp := pair true; crit := pair false;
  BlockInfo := Z; block_number := id
|}.

#[export] Instance list_kona_laws : KonaLaws.
Proof. split; try done. by intros ?? [=]. Qed.

#[export] Instance list_source : EthereumDataSource (list Bytes) := {|
  eth_next b a q := match q with
    | [] => Done (Err (PipelineTemporary Eof), [])
    | d :: q => Done (Ok d, q) end;
  eth_clear q := [];
|}.

#[export] Instance list_queue b a : EthereumQueue b a id.
Proof. split. intros [|d q]; do 2 eexists; (split; [done|]); by cbn. Qed.

Definition good_cert : AltDACommitment := sample_commitment 0 9000.
Definition stale_cert : AltDACommitment := sample_commitment 0 100.
Definition sample_world : DAWorld :=
  {| is_valid := λ _, true; blob_of := λ _, {| encoded_payload := encode_v0 2 [x68; x69] |} |}.
Definition sample_domain (c : AltDACommitment) : Prop := c = good_cert ∨ c = stale_cert.
Definition sample_provider : TestEigenDAPreimageProvider :=
  insert_encoded_payload good_cert (Ok (blob_of sample_world good_cert))
  (insert_encoded_payload stale_cert (Ok (blob_of sample_world stale_cert))
  (insert_validity good_cert (Ok true) (insert_validity stale_cert (Ok true)
    test_provider_default))).
Definition sample_inv : TestEigenDAPreimageProvider → Prop :=
  λ s, should_preimage_err s = true ∨ holds_answers sample_world sample_domain s.
Definition sample_block : BlockInfo := 20000.
Definition sample_items : list Bytes :=
  [x01 :: to_rlp_bytes stale_cert; x01 :: to_rlp_bytes good_cert; [x00; x2a]].
Definition sample_source : EigenDADataSource (list Bytes) TestEigenDAPreimageProvider :=
  DataSource.new sample_items (PreimageSource.new sample_provider).

(** The stale certificate is skipped, the good one gives its payload. *)
Example sample_next :
  option_map (λ o, match o with Done (r, s) => Some (r, ethereum_source s) | Panic => None end)
    (DataSource.next 5 sample_block [] sample_source) = Some (Some (Ok [x68; x69], [[x00; x2a]])).
Proof. vm_decide. Qed.

Lemma sample_inv_holds : sample_inv sample_provider.
Proof. right. intros c [->| ->]; split; intros; vm_decide. Qed.

Lemma sample_covered : covered sample_domain (position_of id sample_source).
Proof.
  split; [done|]. cbn [snd position_of].
  change (Forall (λ d, ∀ c, read_item d = Cert c → sample_domain c)
    [x01 :: to_rlp_bytes stale_cert; x01 :: to_rlp_bytes good_cert; [x00; x2a]]).
  rewrite !Forall_cons. split_and!; [| | |by apply Forall_nil]; intros c Hc.
  - right. assert (Hs : read_item (x01 :: to_rlp_bytes stale_cert) = Cert stale_cert) by vm_decide.
    rewrite Hs in Hc. by injection Hc.
  - left. assert (Hs : read_item (x01 :: to_rlp_bytes good_cert) = Cert good_cert) by vm_decide.
    rewrite Hs in Hc. by injection Hc.
  - assert (Hs : read_item [x00; x2a] = Plain [x00; x2a]) by vm_decide. by rewrite Hs in Hc.
Qed.

Lemma recency_window_exact_witness :
  match versioned_cert stale_cert with
  | V2 _ | V3 _ => True
  | V4 v => v4_offchain_derivation_version v = 0 ∧ 14500 ≤ get_rbn stale_cert + 14400
  end.
Proof.
  apply (recency_window_exact stale_cert 14500); vm_decide.
Defined.

Lemma preimage_source_next_verdict_witness :
  ∃ r s', PreimageSource.next good_cert 20000 (PreimageSource.new sample_provider) = Done (r, s') ∧
    sample_inv (eigenda_fetcher s') ∧
    (verdict_result (cert_verdict sample_world 20000 good_cert) r ∨
     ∃ m, r = Err (Temporary m) ∧ request_failed good_cert sample_provider m (eigenda_fetcher s')).
Proof.
  apply (preimage_source_next_verdict (D := sample_domain)).
  - exact sample_inv_holds.
  - by left.
  - vm_decide.
Defined.

Lemma data_source_next_terminates_witness :
  ∃ o, ∀ fuel, (5 ≤ fuel)%nat → DataSource.next fuel sample_block [] sample_source = Some o.
Proof. exact (data_source_next_terminates sample_block [] id sample_source). Defined.

Lemma data_source_next_refines_witness :
  ∃ r s', DataSource.next 4 sample_block [] sample_source = Some (Done (r, s')) ∧
    simulates sample_block [] id sample_world sample_domain sample_inv sample_source r s'.
Proof.
  apply (data_source_next_refines sample_block [] id sample_world sample_domain sample_inv 4
    sample_source).
  - exact sample_inv_holds.
  - exact sample_covered.
  - cbn. lia.
Defined.

Definition sample_source' : EigenDADataSource (list Bytes) TestEigenDAPreimageProvider :=
  DataSource.new [[x00; x2a]] (PreimageSource.new sample_provider).

Lemma derivations_agree_witness :
  [x68; x69] = [x68; x69] ∧ position_of id sample_source' = position_of id sample_source'.
Proof.
  apply (derivations_agree sample_block [] id sample_world sample_domain sample_domain
    sample_inv sample_inv 4 sample_source sample_source [x68; x69] [x68; x69]
    sample_source' sample_source').
  - reflexivity.
  - exact sample_inv_holds.
  - exact sample_inv_holds.
  - exact sample_covered.
  - exact sample_covered.
  - cbn. lia.
  - vm_decide.
  - vm_decide.
Defined.
