(* ===== verification/Liveness.v ===== *)
(** * A block is derived completely

    The rounds of one call of [next] as a step relation, and the pipeline that calls
    [next] until the block's data end: over a provider and an L1 source that fail finitely
    often it delivers exactly the payloads that the specification has for the block. *)

From S2P Require Import RlpInstance.
From S2P Require Export DataSource.

(** ** Rounds *)

Section rounds.
Context `{!Alloy, !Kona, !EthereumDataSource E, !EigenDAPreimageProvider A}.
Context (b : BlockInfo) (addr : Address).
Local Abbreviation S := (EigenDADataSource E A).

(** Rounds that drop a certificate. *)
Inductive Rounds : S → S → Prop :=
| Rounds_refl s : Rounds s s
| Rounds_drop s s1 s2 s3 :
    DataSource.load b addr s = Done (Ok None, s1) →
    DataSource.resolve b s1 = Done (Ok None, s2) → Rounds s2 s3 → Rounds s s3.

(** The last round of a call. *)
Inductive LastRound : S → result pipeline_error_kind Bytes → S → Prop :=
| Last_load_Err s k s' : DataSource.load b addr s = Done (Err k, s') → LastRound s (Err k) s'
| Last_load_Ok s d s' : DataSource.load b addr s = Done (Ok (Some d), s') → LastRound s (Ok d) s'
| Last_resolve_Err s s1 k s' : DataSource.load b addr s = Done (Ok None, s1) →
    DataSource.resolve b s1 = Done (Err k, s') → LastRound s (Err k) s'
| Last_resolve_Ok s s1 p s' : DataSource.load b addr s = Done (Ok None, s1) →
    DataSource.resolve b s1 = Done (Ok (Some p), s') → LastRound s (Ok p) s'.

Lemma next_rounds fuel s r s' :
  DataSource.next fuel b addr s = Some (Done (r, s')) →
  ∃ s1, Rounds s s1 ∧ LastRound s1 r s'.
Proof.
  revert s. induction fuel as [|fuel IH]; intros s; [done|]. cbn.
  destruct (DataSource.load b addr s) as [[[[d|]|k] s1]|] eqn:Hl; try done.
  - intros [= <- <-]. exists s. split; [constructor|by constructor].
  - destruct (DataSource.resolve b s1) as [[[[p|]|k] s2]|] eqn:Hr; try done.
    + intros [= <- <-]. exists s. split; [constructor|by eapply Last_resolve_Ok].
    + intros (s3 & ? & ?)%IH. exists s3. split; [by eapply Rounds_drop|done].
    + intros [= <- <-]. exists s. split; [constructor|by eapply Last_resolve_Err].
  - intros [= <- <-]. exists s. split; [constructor|by constructor].
Qed.
End rounds.

(** ** Finitely many failures *)

(** [retries] bounds how often a provider in a state of [Inv] may still fail, on the requests
    that a derivation at the block [bn] makes about certificates of [D]: a payload is asked
    for after the validity, of a recent certificate. *)
Class FailsFinitely `{!Alloy} (A : Type) `{!EigenDAPreimageProvider A} (D : AltDACommitment → Prop)
    (Inv : A → Prop) (bn : Z) (retries : A → nat) := {
  get_validity_retries c a r a' : D c → Inv a → get_validity c a = Done (r, a') →
    Inv a' ∧ (retries a' ≤ retries a)%nat ∧ ∀ e, r = Err e → (retries a' < retries a)%nat;
  get_encoded_payload_retries c a0 a r a' : D c → Inv a0 → passes_recency bn c →
    get_validity c a0 = Done (Ok true, a) → get_encoded_payload c a = Done (r, a') →
    Inv a' ∧ (retries a' ≤ retries a)%nat ∧ ∀ e, r = Err e → (retries a' < retries a)%nat;
}.

(** The same for the L1 source, where the end of the data is no failure. *)
Class EthFailsFinitely `{!Kona} (E : Type) `{!EthereumDataSource E} (b : BlockInfo) (addr : Address)
    (eth_retries : E → nat) := {
  eth_next_retries e r e' : eth_next b addr e = Done (r, e') →
    (eth_retries e' ≤ eth_retries e)%nat ∧
    ∀ k, r = Err k → k ≠ PipelineTemporary Eof → (eth_retries e' < eth_retries e)%nat;
}.

(** ** Specification: the payloads of a block *)

Section payloads.
Context `{!Alloy, !Kona}.
Local Abbreviation position := (option AltDACommitment * list Bytes)%type.
Context (w : DAWorld) (bn : Z).

Definition cert_payload (c : AltDACommitment) : option Bytes :=
  match cert_fate w bn c with Emit p => Some p | _ => None end.
Definition item_payload (d : Bytes) : option Bytes :=
  match read_item d with Plain d => Some d | Cert c => cert_payload c | Malformed => None end.

(** The payloads of a block from a position on, in order. *)
Definition block_payloads (p : position) : list Bytes :=
  option_list (p.1 ≫= cert_payload) ++ omap item_payload p.2.

(** No certificate of the block has an unknown derivation version. *)
Definition never_halts (p : position) : Prop :=
  (∀ c m, p.1 = Some c → cert_fate w bn c ≠ Halt m) ∧
  Forall (λ d, ∀ c m, read_item d = Cert c → cert_fate w bn c ≠ Halt m) p.2.

(** Items that are left, the certificate under way included. *)
Definition remaining (p : position) : nat := length p.2 + length (option_list p.1).

(** What an answer of the specification says about the payloads. *)
Definition answer_advances (p : position) (r : result pipeline_error_kind Bytes) (p' : position) : Prop :=
  never_halts p' ∧
  ((∃ d, r = Ok d ∧ block_payloads p = d :: block_payloads p' ∧ (remaining p' < remaining p)%nat) ∨
   (r = Err (PipelineTemporary Eof) ∧ block_payloads p = []) ∨
   (r = Err (PipelineTemporary NotEnoughData) ∧ block_payloads p = block_payloads p' ∧
     (remaining p' < remaining p)%nat)).

Lemma answer_advances_drop p p1 r p' :
  block_payloads p = block_payloads p1 → (remaining p1 ≤ remaining p)%nat →
  answer_advances p1 r p' → answer_advances p r p'.
Proof.
  intros Hp Hle [Hh Hr]. split; [done|]. rewrite Hp.
  destruct Hr as [(d & ? & ? & ?)|[?|(? & ? & ?)]]; [left|by right; left|right; right].
  - exists d. split_and!; [done..|lia].
  - split_and!; [done..|lia].
Qed.

Lemma derive_items_advances q r p' :
  never_halts (None, q) → derive_items w bn q = (r, p') → answer_advances (None, q) r p'.
Proof.
  induction q as [|d q IH]; intros [_ Hh]; cbn [derive_items].
  { intros [= <- <-]. split; [by split|]. right; left. by split. }
  apply Forall_cons in Hh as [Hd Hq].
  assert (Hstep : block_payloads (None, d :: q) =
    option_list (item_payload d) ++ block_payloads (None, q)).
  { unfold block_payloads. cbn. by destruct (item_payload d). }
  assert (Hnext : never_halts (None, q)) by (by split).
  unfold item_payload in Hstep. destruct (read_item d) as [d'|c|] eqn:Hr.
  - intros [= <- <-]. split; [done|]. left. exists d'. split_and!; [done..|]. unfold remaining. cbn. lia.
  - unfold cert_payload in Hstep. destruct (cert_fate w bn c) as [p| |m] eqn:Hf.
    + intros [= <- <-]. split; [done|]. left. exists p. split_and!; [done..|]. unfold remaining. cbn. lia.
    + intros Hi. apply (answer_advances_drop _ (None, q)); [done|unfold remaining; cbn; lia|].
      by apply IH.
    + by destruct (Hd c m eq_refl).
  - intros [= <- <-]. split; [done|]. right; right. split_and!; [done..|]. unfold remaining. cbn. lia.
Qed.

Lemma derive_advances p r p' :
  never_halts p → derive w bn p = (r, p') → answer_advances p r p'.
Proof.
  destruct p as [[c|] q]; [|by apply derive_items_advances]. intros [Hc Hq]. cbn [derive fst snd] in *.
  assert (Hnext : never_halts (None, q)) by (by split).
  assert (Hstep : block_payloads (Some c, q) = option_list (cert_payload c) ++ block_payloads (None, q)).
  { done. }
  unfold cert_payload in Hstep. destruct (cert_fate w bn c) as [p| |m] eqn:Hf.
  - intros [= <- <-]. split; [done|]. left. exists p. split_and!; [done..|]. unfold remaining. cbn. lia.
  - intros Hi. apply (answer_advances_drop _ (None, q)); [done|unfold remaining; cbn; lia|].
    by apply derive_items_advances.
  - by destruct (Hc c m eq_refl).
Qed.
End payloads.

(** Every certificate of a position satisfies [P]. *)
Definition all_certs `{!Alloy} (P : AltDACommitment → Prop) (p : option AltDACommitment * list Bytes) : Prop :=
  (∀ c, p.1 = Some c → P c) ∧ Forall (λ d, ∀ c, read_item d = Cert c → P c) p.2.

(** Every certificate of a position has a known derivation version. *)
Definition version_known `{!Alloy} (c : AltDACommitment) : Prop := ∃ window, cert_recency_window c = Ok window.
Definition versions_known `{!Alloy} : option AltDACommitment * list Bytes → Prop := all_certs version_known.

(** ** What a call uses up *)

Section progress.
Context `{!Alloy, !Kona, !EthereumDataSource E, !EigenDAPreimageProvider A}.
Context (b : BlockInfo) (addr : Address) (pending : E → list Bytes).
Context (eth_retries : E → nat) (retries : A → nat) (D : AltDACommitment → Prop)
  (Inv : A → Prop).
Context `{!EthereumQueue b addr pending, !EthFailsFinitely E b addr eth_retries,
  !FailsFinitely A D Inv (block_number b) retries}.
Implicit Types s : EigenDADataSource E A.

(** The derivation version is known, and the provider fails finitely on the certificate. *)
Definition ready (c : AltDACommitment) : Prop := version_known c ∧ D c.

Definition failures_left s : nat :=
  eth_retries (ethereum_source s) + retries (eigenda_fetcher (eigenda_source s)).
Local Abbreviation pos := (position_of pending).
Definition work_left s : nat := remaining (pos s) + failures_left s.

Definition fit s : Prop := all_certs ready (pos s) ∧ provider_inv Inv s.

(** [s'] has no more to do than [s]. *)
Definition no_worse s s' : Prop :=
  (remaining (pos s') ≤ remaining (pos s))%nat ∧ (work_left s' ≤ work_left s)%nat ∧
  (fit s → fit s').

Lemma no_worse_refl s : no_worse s s.
Proof. by split_and!. Qed.
Lemma no_worse_trans s1 s2 s3 : no_worse s1 s2 → no_worse s2 s3 → no_worse s1 s3.
Proof. intros (? & ? & ?) (? & ? & ?). split_and!; [lia|lia|auto]. Qed.

(** The preimage source fails only if its provider does, for a known version. *)
Lemma source_next_retries c q r q' :
  D c → Inv (eigenda_fetcher q) → PreimageSource.next c (block_number b) q = Done (r, q') →
  Inv (eigenda_fetcher q') ∧
  (retries (eigenda_fetcher q') ≤ retries (eigenda_fetcher q))%nat ∧
  (version_known c → (∃ m, r = Err (Temporary m) ∨ r = Err (Critical m)) →
    (retries (eigenda_fetcher q') < retries (eigenda_fetcher q))%nat).
Proof.
  intros HD HI. destruct q as [a]. unfold PreimageSource.next, PreimageSource.fetcher, zoom, mbind, M_bind.
  cbn [eigenda_fetcher].
  destruct (get_validity c a) as [[v a1]|] eqn:Hv; [|done].
  destruct (get_validity_retries c a v a1 HD HI Hv) as (HI1 & Hle & Hlt).
  destruct v as [[]|e].
  - unfold try_bind, mret, M_ret. destruct (cert_recency_window c) as [window|e] eqn:Hwin; cbn.
    + destruct (recency_check _ _ window) as [[]|e] eqn:Hrec; cbn.
      * destruct (get_encoded_payload c a1) as [[ep a2]|] eqn:Hp; [|done].
        assert (Hpass : passes_recency (block_number b) c) by (by exists window).
        destruct (get_encoded_payload_retries c a a1 ep a2 HD HI Hpass Hv Hp) as (HI2 & Hle2 & Hlt2).
        intros [= <- <-]. cbn. split_and!; [done|lia|]. destruct ep as [ep|e]; cbn;
          [by intros _ (m & [[=]|[=]])|specialize (Hlt2 e eq_refl); intros; lia].
      * unfold recency_check in Hrec. repeat case_bool_decide; try done. injection Hrec as <-.
        intros [= <- <-]. cbn. split_and!; [done|lia|]. by intros _ (m & [[=]|[=]]).
    + intros [= <- <-]. cbn. split_and!; [done|lia|]. intros [? ?]. congruence.
  - intros [= <- <-]. cbn. split_and!; [done|lia|]. by intros _ (m & [[=]|[=]]).
  - intros [= <- <-]. cbn. specialize (Hlt e eq_refl). split_and!; [done|lia|]. intros; lia.
Qed.

Definition strictly_better s s' : Prop := no_worse s s' ∧ (work_left s' < work_left s)%nat.

Lemma load_work s r s' :
  DataSource.load b addr s = Done (r, s') → r ≠ Err (PipelineTemporary Eof) →
  no_worse s s' ∧ (r ≠ Ok None → (work_left s' < work_left s)%nat).
Proof.
  destruct s as [e q [c|]].
  { intros [= <- <-] _. split; [apply no_worse_refl|done]. }
  unfold DataSource.load, DataSource.on_ethereum, zoom, mbind, M_bind.
  cbn [get altda_commitment ethereum_source eigenda_source].
  destruct (eth_next_queue e) as (r1 & e1 & He & Hr1).
  destruct (eth_next_retries e r1 e1 He) as [Hle Hlt]. rewrite He.
  unfold no_worse, strictly_better, work_left, failures_left, fit, all_certs, provider_inv, remaining, position_of.
  destruct r1 as [[|v rest]|k]; cbn.
  - intros [= <- <-] _. cbn. rewrite Hr1. cbn. split_and!; [lia|lia| |lia].
    intros [[_ Hq%Forall_cons] HI]. split; [split; [done|apply Hq]|done].
  - rewrite Hr1. case_bool_decide as Hv; cbn.
    + intros [= <- <-] _. cbn. split_and!; [lia|lia| |lia].
      intros [[_ Hq%Forall_cons] HI]. split; [split; [done|apply Hq]|done].
    + pose proof (parse_read_item v rest Hv) as Hp.
      destruct (parse (v :: rest)) as [c|e']; cbn; intros [= <- <-] _; cbn.
      * split_and!; [lia|lia| |done]. intros [[_ Hq%Forall_cons] HI]. destruct Hq as [Hc Hq].
        split; [|done]. split; [|done]. intros ? [= <-]. by apply Hc.
      * split_and!; [lia|lia| |lia]. intros [[_ Hq%Forall_cons] HI]. split; [split; [done|apply Hq]|done].
  - destruct Hr1 as [Hp _]. case_bool_decide as Hk; cbn; intros [= <- <-] Hne; cbn.
    { by subst k. }
    rewrite Hp. specialize (Hlt k eq_refl Hk). split_and!; [lia|lia|done|lia].
Qed.

Lemma resolve_work s r s' :
  DataSource.resolve b s = Done (r, s') → fit s →
  no_worse s s' ∧ (r ≠ Ok None → (work_left s' < work_left s)%nat).
Proof.
  destruct s as [e q [c|]]; [|done].
  unfold DataSource.resolve, DataSource.on_eigenda, zoom, mbind, M_bind.
  cbn [get altda_commitment ethereum_source eigenda_source].
  destruct (PreimageSource.next c (block_number b) q) as [[r1 q1]|] eqn:Hn; [|done].
  unfold no_worse, strictly_better, work_left, failures_left, fit, all_certs, provider_inv, remaining, position_of.
  cbn [fst snd ethereum_source altda_commitment eigenda_source].
  intros Hr [[Hc Hq] HI]. destruct (Hc c eq_refl) as [Hversion HD].
  destruct (source_next_retries _ _ _ _ HD HI Hn) as (HI1 & Hle & Hlt). specialize (Hlt Hversion).
  assert (Hnone : (∀ c' : AltDACommitment, None = Some c' → ready c') ∧
    Forall (λ d, ∀ c', read_item d = Cert c' → ready c') (pending e)) by done.
  destruct r1 as [ep|[m|m|m]]; cbn in Hr.
  - destruct (decode ep); injection Hr as <- <-; cbn; split_and!; (done || lia).
  - injection Hr as <- <-. cbn. split_and!; (done || lia).
  - injection Hr as <- <-. cbn. specialize (Hlt (ex_intro _ m (or_introl eq_refl))).
    split_and!; (done || lia).
  - injection Hr as <- <-. cbn. specialize (Hlt (ex_intro _ m (or_intror eq_refl))).
    split_and!; (done || lia).
Qed.

Lemma rounds_work s s' : Rounds b addr s s' → fit s → no_worse s s'.
Proof.
  induction 1 as [s|s s1 s2 s3 Hl Hr _ IH]; intros Hv; [apply no_worse_refl|].
  destruct (load_work _ _ _ Hl) as [Hw1 _]; [done|].
  destruct (resolve_work _ _ _ Hr) as [Hw2 _]; [by apply Hw1|].
  eapply no_worse_trans; [exact Hw1|]. eapply no_worse_trans; [exact Hw2|].
  by apply IH, Hw2, Hw1.
Qed.

(** A call that does not report the end of the data uses something up. *)
Lemma next_work fuel s r s' :
  DataSource.next fuel b addr s = Some (Done (r, s')) → fit s →
  r ≠ Err (PipelineTemporary Eof) → strictly_better s s'.
Proof.
  intros (s1 & Hrounds & Hlast)%next_rounds Hv Hne.
  pose proof (rounds_work _ _ Hrounds Hv) as Hnw.
  enough (Hlast' : strictly_better s1 s').
  { destruct Hlast' as [Hnw' Hlt]. split; [by eapply no_worse_trans|].
    destruct Hnw as (_ & ? & _). lia. }
  assert (Hv1 : fit s1) by (by apply Hnw).
  inversion Hlast as [? ? ? Hl|? ? ? Hl|? s2 ? ? Hl Hr|? s2 ? ? Hl Hr]; subst.
  1, 2: destruct (load_work _ _ _ Hl) as [? Hlt]; [congruence|]; split; [done|by apply Hlt].
  all: destruct (load_work _ _ _ Hl) as [Hnw1 _]; [done|];
    destruct (resolve_work _ _ _ Hr) as [Hnw2 Hlt]; [by apply Hnw1|];
    (split; [by eapply no_worse_trans|]);
    destruct Hnw1 as (_ & ? & _); enough (work_left s' < work_left s2)%nat by lia; by apply Hlt.
Qed.
End progress.

(** ** The pipeline of a block *)

Section drain.
Context `{!Alloy, !Kona, !EthereumDataSource E, !EigenDAPreimageProvider A}.
Context (b : BlockInfo) (addr : Address).

(** Call [next] until the end of the block's data, at most [calls] times, and collect
    the payloads; every other error is retried. *)
Fixpoint drain (calls fuel : nat) (s : EigenDADataSource E A) :
    option (list Bytes * EigenDADataSource E A) :=
  match calls with
  | O => None
  | Datatypes.S calls =>
      match DataSource.next fuel b addr s with
      | Some (Done (Ok p, s)) =>
          '(ps, s) ← drain calls fuel s; Some (p :: ps, s)
      | Some (Done (Err k, s)) =>
          if bool_decide (k = PipelineTemporary Eof) then Some ([], s) else drain calls fuel s
      | _ => None
      end
  end.
End drain.

Lemma version_known_fate `{!Alloy} w bn c m : version_known c → cert_fate w bn c ≠ Halt m.
Proof.
  intros [window Hw]. unfold cert_fate, cert_verdict.
  destruct (negb _); [done|].
  assert (Hr : is_recent c bn ≠ None).
  { unfold is_recent, cert_recency_window, get_recency_window in *.
    destruct (versioned_cert c) as [v|v|v]; [done..|]. case_bool_decide; [done|].
    by destruct (v4_offchain_derivation_version v). }
  destruct (is_recent c bn) as [[]|]; [|done..]. by destruct (decode _).
Qed.

Lemma versions_never_halt `{!Alloy} w bn p : versions_known p → never_halts w bn p.
Proof.
  intros [Hc Hq]. split.
  - intros c m Hp. by apply version_known_fate, Hc.
  - eapply Forall_impl; [exact Hq|]. intros d Hd c m Hi. by apply version_known_fate, Hd.
Qed.

(** Positions with the same answer have the same payloads. *)
Lemma same_answer_payloads `{!Alloy, !Kona, !KonaLaws} w bn p p' :
  never_halts w bn p → never_halts w bn p' → derive w bn p = derive w bn p' →
  block_payloads w bn p = block_payloads w bn p'.
Proof.
  intros Hh Hh' Heq. destruct (derive w bn p') as [r p0] eqn:Hp'.
  destruct (derive_advances _ _ _ _ _ Hh Heq) as [_ Ha].
  destruct (derive_advances _ _ _ _ _ Hh' Hp') as [_ Ha'].
  destruct Ha as [(d & -> & -> & _)|[[-> ->]|(-> & -> & _)]],
    Ha' as [(d' & Hr & -> & _)|[[Hr ->]|(Hr & -> & _)]]; try done.
  - congruence.
  - injection Hr as Hr%(inj _). by apply Eof_not_enough in Hr.
  - injection Hr as Hr%(inj _). by apply symmetry, Eof_not_enough in Hr.
Qed.

Section live.
Context `{!Alloy, !AlloyLaws, !Kona, !KonaLaws, !EthereumDataSource E, !EigenDAPreimageProvider A}.
Context (b : BlockInfo) (addr : Address) (pending : E → list Bytes).
Context (w : DAWorld) (D : AltDACommitment → Prop) (Inv : A → Prop).
Context (eth_retries : E → nat) (retries : A → nat).
Context `{!EthereumQueue b addr pending, !AnswersAt w D Inv (block_number b),
  !EthFailsFinitely E b addr eth_retries, !FailsFinitely A D Inv (block_number b) retries}.
Implicit Types s : EigenDADataSource E A.
Local Abbreviation pos := (position_of pending).
Local Abbreviation payloads s := (block_payloads w (block_number b) (pos s)).

Lemma covered_fit s :
  provider_inv Inv s → covered D (pos s) → versions_known (pos s) → fit pending D Inv s.
Proof.
  intros HI [Hc Hq] [Hcv Hqv]. split; [split|done].
  - intros c Hp. destruct (Hc c Hp) as [HD _]. split; [by apply Hcv|done].
  - revert Hq Hqv. rewrite !Forall_forall. intros Hq Hqv d Hd c Hi.
    split; [by eapply Hqv|by eapply Hq].
Qed.
Lemma fit_versions s : fit pending D Inv s → versions_known (pos s).
Proof.
  intros [[Hc Hq] _]. split; [intros c Hp; by apply Hc|].
  eapply Forall_impl; [exact Hq|]. intros d Hd c Hi. by apply Hd.
Qed.

Lemma next_payloads fuel s :
  provider_inv Inv s → covered D (pos s) → versions_known (pos s) → (remaining (pos s) < fuel)%nat →
  ∃ r s', DataSource.next fuel b addr s = Some (Done (r, s')) ∧
    match r with
    | Ok p => payloads s = p :: payloads s'
    | Err k => if bool_decide (k = PipelineTemporary Eof) then payloads s = []
        else payloads s = payloads s'
    end ∧
    (r ≠ Err (PipelineTemporary Eof) → provider_inv Inv s' ∧ covered D (pos s') ∧
      strictly_better pending eth_retries retries D Inv s s').
Proof.
  intros HI Hcov Hv Hfuel.
  destruct (next_simulates b addr pending w D Inv fuel s HI Hcov) as (r & s' & Hn & HI' & Hsim).
  { unfold fuel_for, remaining, position_of in *. destruct (altda_commitment s); cbn in *; lia. }
  exists r, s'. split; [done|].
  pose proof (versions_never_halt w (block_number b) _ Hv) as Hh.
  pose proof (next_work b addr pending eth_retries retries D Inv _ _ _ _ Hn (covered_fit _ HI Hcov Hv)) as Hwork.
  destruct Hsim as [(-> & _ & Hd)|[[Hd Hcov']|(k & -> & Hk & _ & Hd & Hcov')]].
  - rewrite bool_decide_true by done. split; [|done].
    destruct (derive _ _ _) as [r0 p0] eqn:Hder. cbn in Hd. subst r0.
    destruct (derive_advances _ _ _ _ _ Hh Hder) as [_ [(? & ? & _)|[[_ ?]|(Hr & _)]]]; [done..|].
    injection Hr as Hr%(inj _). by apply Eof_not_enough in Hr.
  - split; [|by eauto].
    destruct (derive_advances _ _ _ _ _ Hh Hd) as [_ [(? & -> & ? & _)|[[-> ?]|(-> & ? & _)]]].
    + done.
    + by rewrite bool_decide_true.
    + rewrite bool_decide_false; [done|]. intros Heq%(inj _). by apply symmetry, Eof_not_enough in Heq.
  - rewrite bool_decide_false by done. split; [|by eauto].
    assert (Hne : Err k ≠ Err (A := Bytes) (PipelineTemporary Eof)) by congruence.
    destruct (Hwork Hne) as [(_ & _ & Hv') _].
    by apply same_answer_payloads; [|apply versions_never_halt, fit_versions, Hv', covered_fit|].
Qed.

Lemma drain_payloads calls fuel s :
  provider_inv Inv s → covered D (pos s) → versions_known (pos s) → (remaining (pos s) < fuel)%nat →
  (work_left pending eth_retries retries s < calls)%nat →
  ∃ s', drain b addr calls fuel s = Some (payloads s, s').
Proof.
  revert s. induction calls as [|calls IH]; intros s HI Hcov Hv Hfuel Hcalls; [lia|].
  destruct (next_payloads fuel s HI Hcov Hv Hfuel) as (r & s1 & Hn & Hp & Hnext).
  cbn [drain]. rewrite Hn. destruct r as [p|k].
  - destruct Hnext as (HI1 & Hcov1 & (Hrem & _ & Hv1) & Hlt); [done|].
    destruct (IH s1) as [s' Hd]; [done|done|by apply fit_versions, Hv1, covered_fit|lia|lia|].
    exists s'. by rewrite Hd, Hp.
  - case_bool_decide as Hk.
    + exists s1. by rewrite Hp.
    + destruct Hnext as (HI1 & Hcov1 & (Hrem & _ & Hv1) & Hlt); [congruence|].
      destruct (IH s1) as [s' Hd]; [done|done|by apply fit_versions, Hv1, covered_fit|lia|lia|].
      exists s'. by rewrite Hd, Hp.
Qed.
End live.

Section claims.
Context `{!Alloy, !AlloyLaws, !Kona, !KonaLaws, !EthereumDataSource E, !EigenDAPreimageProvider A}.

(** C6: A block is derived completely: over a faithful provider and an L1 source that fail
    finitely often, and a block without unknown derivation versions, the pipeline that
    calls next and retries after every error but the end of the data comes to an end
    within one call per pending item and failure and one more, and has then delivered
    exactly the payloads of the block, in order. *)
Theorem block_fully_derived (b : BlockInfo) (addr : Address) (pending : E → list Bytes) (w : DAWorld)
    (D : AltDACommitment → Prop) (Inv : A → Prop) (eth_retries : E → nat) (retries : A → nat)
    `{!EthereumQueue b addr pending, !FaithfulProvider w D Inv,
      !EthFailsFinitely E b addr eth_retries, !FailsFinitely A D Inv (block_number b) retries}
    (calls fuel : nat) (s : EigenDADataSource E A)
    (HI : provider_inv Inv s) (Hcov : covered D (position_of pending s))
    (Hversions : versions_known (position_of pending s))
    (Hfuel : (remaining (position_of pending s) < fuel)%nat)
    (Hcalls : (remaining (position_of pending s) + failures_left eth_retries retries s < calls)%nat) :
  ∃ s', drain b addr calls fuel s =
    Some (block_payloads w (block_number b) (position_of pending s), s').
Proof.
  exact (drain_payloads b addr pending w D Inv eth_retries retries calls fuel s HI Hcov Hversions
    Hfuel Hcalls).
Qed.
End claims.

(** ** Witness

    A provider that fails a number of times before each of its answers begins. *)

From S2P Require Import DerivationTheory.
Import Concrete.

Record TiredProvider := { failures : nat }.
Definition tired_fails {B} (v : B) : M TiredProvider (result HokuleaErrorKind B) := λ s,
  match failures s with
  | O => Done (Ok v, s)
  | Datatypes.S n => Done (Err (Temporary "not yet"), {| failures := n |})
  end.
#[export] Instance tired_provider : EigenDAPreimageProvider TiredProvider := {|
  provider_error := HokuleaErrorKind;
  provider_error_into := id;
  provider_error_display _ := "not yet"%string;
  PreimageSource.get_validity c := tired_fails (is_valid sample_world c);
  PreimageSource.get_encoded_payload c := tired_fails (blob_of sample_world c);
|}.

Lemma tired_cases {B} (v : B) s :
  (tired_fails v s = Done (Ok v, s)) ∨
  ∃ m s', tired_fails v s = Done (Err (Temporary m), s') ∧ (failures s' < failures s)%nat.
Proof.
  unfold tired_fails. destruct s as [[|n]]; [by left|right]. do 2 eexists. split; [done|]. cbn. lia.
Qed.

#[export] Instance tired_faithful : FaithfulProvider sample_world (λ _, True) (λ _ : TiredProvider, True).
Proof.
  split.
  - intros s c _ _. change (get_validity c s) with (tired_fails (is_valid sample_world c) s).
    destruct (tired_cases (is_valid sample_world c) s) as [->|(m & s' & -> & _)];
      do 2 eexists; (split; [reflexivity|]); (split; [done|]); [by left|right].
    eexists. split; [done|]. by eexists.
  - intros s c _ _ _. change (get_encoded_payload c s) with (tired_fails (blob_of sample_world c) s).
    destruct (tired_cases (blob_of sample_world c) s) as [->|(m & s' & -> & _)];
      do 2 eexists; (split; [reflexivity|]); (split; [done|]); [by left|right].
    eexists. split; [done|]. by eexists.
Qed.

Lemma tired_retries {B} (v : B) s r s' : tired_fails v s = Done (r, s') →
  (failures s' ≤ failures s)%nat ∧ ∀ e, r = Err e → (failures s' < failures s)%nat.
Proof.
  destruct (tired_cases v s) as [->|(m & s1 & -> & Hlt)]; intros Heq; injection Heq as <- <-.
  - split; [lia|done].
  - split; intros; lia.
Qed.

#[export] Instance tired_finitely D bn : FailsFinitely TiredProvider D (λ _, True) bn failures.
Proof.
  split; [intros c a r a' _ _|intros c a0 a r a' _ _ _ _];
    intros Hg; (split; [done|]); revert Hg; apply tired_retries.
Qed.

#[export] Instance list_finitely b a : EthFailsFinitely (list Bytes) b a (λ _, O).
Proof.
  split. intros [|d q] r e' Heq; injection Heq as <- <-; (split; [done|]); [|done].
  intros k [= <-] Hk. by destruct Hk.
Qed.

Definition tired_items : list Bytes := [[]; x01 :: to_rlp_bytes stale_cert; x01 :: to_rlp_bytes good_cert; [x00; x2a]].
Definition tired_source : EigenDADataSource (list Bytes) TiredProvider :=
  DataSource.new tired_items (PreimageSource.new {| failures := 3 |}).

Example tired_payloads : block_payloads sample_world 20000 (None, tired_items) = [[x68; x69]; [x00; x2a]].
Proof. vm_decide. Qed.

Lemma tired_versions : versions_known (position_of id tired_source).
Proof.
  split; [done|]. change (Forall (λ d, ∀ c, read_item d = Cert c → version_known c) tired_items).
  assert (Hstale : read_item (x01 :: to_rlp_bytes stale_cert) = Cert stale_cert) by vm_decide.
  assert (Hgood : read_item (x01 :: to_rlp_bytes good_cert) = Cert good_cert) by vm_decide.
  assert (Hplain : read_item [x00; x2a] = Plain [x00; x2a]) by vm_decide.
  unfold tired_items. rewrite !Forall_cons. split_and!; [done| | | |by apply Forall_nil]; intros c Hc.
  - rewrite Hstale in Hc. injection Hc as <-. by exists 14400.
  - rewrite Hgood in Hc. injection Hc as <-. by exists 14400.
  - by rewrite Hplain in Hc.
Qed.

Lemma block_fully_derived_witness :
  ∃ s', drain sample_block [] 8 5 tired_source = Some ([[x68; x69]; [x00; x2a]], s').
Proof.
  rewrite <-tired_payloads.
  apply (block_fully_derived sample_block [] id sample_world (λ _, True) (λ _, True)
    (λ _, O) failures 8 5 tired_source).
  - exact I.
  - split; [done|]. apply Forall_true. done.
  - exact tired_versions.
  - cbn. lia.
  - cbn. lia.
Defined.
