(* ===== verification/Replay.v ===== *)
(** * Recording and replaying a derivation

    A run of the data source over the recorder of witgen, and the same run over
    the preloaded provider that holds what was recorded.  [Run] is the step
    relation of the pipeline that drives a data source. *)

From S2P Require Export DataSource Preloaded.

(** ** The driver *)

(** The pipeline calls [next] for a block, with enough fuel for it to return, and
    [clear] when it resets a stage. *)
Inductive Run `{!Alloy, !Kona, !EthereumDataSource E, !EigenDAPreimageProvider A} :
    EigenDADataSource E A → list (result pipeline_error_kind Bytes) → EigenDADataSource E A → Prop :=
| Run_done s : Run s [] s
| Run_next s fuel b addr r s1 rs s2 :
    DataSource.next fuel b addr s = Some (Done (r, s1)) → Run s1 rs s2 → Run s (r :: rs) s2
| Run_clear s rs s2 : Run (DataSource.clear s) rs s2 → Run s rs s2.

(** A provider that answers every request it returns from. *)
Class NeverFails `{!Alloy} (T : Type) `{!EigenDAPreimageProvider T} := {
  get_validity_never_fails c t r t' : get_validity c t = Done (r, t') → ∃ v, r = Ok v;
  get_encoded_payload_never_fails c t r t' :
    get_encoded_payload c t = Done (r, t') → ∃ ep, r = Ok ep;
}.

Section replay.
Context `{!Alloy, !KonaPreimage, !Kona, !EthereumDataSource E}.
Context `{!EigenDAPreimageProvider T, !NeverFails T}.
Local Abbreviation R := (OracleEigenDAPreimageProviderWithPreimage T).
Local Abbreviation P := PreloadedEigenDAPreimageProvider.
Local Abbreviation validities := (list (AltDACommitment * bool)).
Local Abbreviation payloads := (list (AltDACommitment * EncodedPayload)).

(** [s'] recorded [dv] and [de] on top of [s]. *)
Definition recorded (s s' : R) (dv : validities) (de : payloads) : Prop :=
  preimage s' = {|
    preimage_validities := preimage_validities (preimage s) ++ dv;
    preimage_encoded_payloads := preimage_encoded_payloads (preimage s) ++ de |}.

Lemma recorded_refl s s' : preimage s' = preimage s → recorded s s' [] [].
Proof. unfold recorded. rewrite !app_nil_r. intros ->. by destruct (preimage s). Qed.

Lemma recorded_trans s1 s2 s3 dv de dv' de' :
  recorded s1 s2 dv de → recorded s2 s3 dv' de' → recorded s1 s3 (dv ++ dv') (de ++ de').
Proof. unfold recorded. intros H12 ->. rewrite H12. cbn. by rewrite <-!app_assoc. Qed.

(** [m'] replays [m]: it gives the same result from what [m] recorded. *)
Definition replays {S B S'} (rec : S → R) (m : M S B) (m' : M S' B)
    (with_preloaded : S → P → S') : Prop :=
  ∀ s b s', m s = Done (b, s') → ∃ dv de, recorded (rec s) (rec s') dv de ∧
    ∀ vs eps, m' (with_preloaded s (Preloaded.holding (dv ++ vs) (de ++ eps))) =
      Done (b, with_preloaded s' (Preloaded.holding vs eps)).

(** ** The provider and the preimage source *)

Lemma replay_validity c s r s' :
  Recorder.get_validity c s = Done (r, s') →
  ∃ v, r = Ok v ∧ recorded s s' [(c, v)] [].
Proof.
  rewrite Recorder.get_validity_eq.
  destruct (get_validity c (provider s)) as [[r1 p]|] eqn:Hp; [|done].
  destruct (get_validity_never_fails _ _ _ _ Hp) as [v ->]. intros [= <- <-].
  exists v. split; [done|]. unfold recorded. cbn. by rewrite app_nil_r.
Qed.

Lemma replay_encoded_payload c s r s' :
  Recorder.get_encoded_payload c s = Done (r, s') →
  ∃ ep, r = Ok ep ∧ recorded s s' [] [(c, ep)].
Proof.
  rewrite Recorder.get_encoded_payload_eq.
  destruct (get_encoded_payload c (provider s)) as [[r1 p]|] eqn:Hp; [|done].
  destruct (get_encoded_payload_never_fails _ _ _ _ Hp) as [v ->]. intros [= <- <-].
  exists v. split; [done|]. unfold recorded. cbn. by rewrite app_nil_r.
Qed.

(** One call of [PreimageSource.next]. *)
Lemma replay_source_next c bn :
  replays (eigenda_fetcher (A := R)) (PreimageSource.next c bn) (PreimageSource.next c bn)
    (λ _ p, PreimageSource.new p).
Proof.
  intros [s] r [s'] Hn. cbn [eigenda_fetcher]. revert Hn.
  unfold PreimageSource.next, PreimageSource.fetcher, zoom, mbind, M_bind, PreimageSource.new. cbn.
  destruct (Recorder.get_validity c s) as [[r1 s1]|] eqn:Hv; [|done].
  destruct (replay_validity _ _ _ _ Hv) as (v & -> & Hrec). destruct v; cbn.
  2: { intros [= <- <-]. exists [(c, false)], []. split; [done|]. intros vs eps. cbn.
       rewrite Preloaded.get_validity_holding, bool_decide_true by done. done. }
  unfold try_bind, mret, M_ret. cbn.
  destruct (map_err _ _) as [[]|k] eqn:Hrecency; cbn.
  2: { intros [= <- <-]. exists [(c, true)], []. split; [done|]. intros vs eps. cbn.
       rewrite Preloaded.get_validity_holding, bool_decide_true by done. done. }
  destruct (Recorder.get_encoded_payload c s1) as [[r2 s2]|] eqn:He; [|done].
  destruct (replay_encoded_payload _ _ _ _ He) as (ep & -> & Hrec2). cbn.
  intros [= <- <-]. exists [(c, true)], [(c, ep)].
  split; [exact (recorded_trans _ _ _ _ _ _ _ Hrec Hrec2)|]. intros vs eps. cbn.
  rewrite Preloaded.get_validity_holding, bool_decide_true by done. cbn.
  rewrite Preloaded.get_encoded_payload_holding, bool_decide_true by done. done.
Qed.

(** ** The data source *)

Local Abbreviation SR := (EigenDADataSource E R).
Local Abbreviation SP := (EigenDADataSource E P).

Definition recorder_of (s : SR) : R := eigenda_fetcher (eigenda_source s).
Definition with_preloaded (s : SR) (p : P) : SP := {|
  ethereum_source := ethereum_source s;
  eigenda_source := PreimageSource.new p;
  altda_commitment := altda_commitment s;
|}.

Lemma replay_load b addr :
  replays recorder_of (DataSource.load b addr) (DataSource.load b addr) with_preloaded.
Proof.
  intros [e q c] r s'. unfold DataSource.load, DataSource.on_ethereum, zoom, mbind, M_bind. cbn.
  destruct c as [c|]; cbn.
  { intros [= <- <-]. exists [], []. split; [by apply recorded_refl|]. done. }
  destruct (eth_next b addr e) as [[[[|ver rest]|k] e']|]; cbn; [| | |done].
  - intros [= <- <-]. exists [], []. split; [by apply recorded_refl|done].
  - case_bool_decide; cbn.
    + intros [= <- <-]. exists [], []. split; [by apply recorded_refl|done].
    + destruct (parse _); cbn; intros [= <- <-]; exists [], [];
        (split; [by apply recorded_refl|done]).
  - case_bool_decide; cbn; intros [= <- <-]; exists [], [];
      (split; [by apply recorded_refl|done]).
Qed.

Lemma replay_resolve b :
  replays recorder_of (DataSource.resolve b) (DataSource.resolve b) with_preloaded.
Proof.
  intros [e q [c|]] r s'; [|done].
  unfold DataSource.resolve, DataSource.on_eigenda, zoom, mbind, M_bind. cbn.
  destruct (PreimageSource.next c (block_number b) q) as [[r1 q1]|] eqn:Hn; [|done].
  destruct (replay_source_next _ _ _ _ _ Hn) as (dv & de & Hrec & Hrep). cbn.
  unfold with_preloaded. intros Hs'. exists dv, de. split.
  - unfold recorder_of. cbn.
    enough (eigenda_source s' = q1) as -> by exact Hrec.
    destruct r1 as [ep|[]]; cbn in Hs'; [destruct (decode ep)| | |]; by injection Hs' as <- <-.
  - intros vs eps. cbn. rewrite Hrep.
    destruct r1 as [ep|[]]; cbn in *; [destruct (decode ep)| | |]; by injection Hs' as <- <-.
Qed.

Lemma replay_next fuel b addr s r s' :
  DataSource.next fuel b addr s = Some (Done (r, s')) →
  ∃ dv de, recorded (recorder_of s) (recorder_of s') dv de ∧
    ∀ vs eps, DataSource.next fuel b addr (with_preloaded s (Preloaded.holding (dv ++ vs) (de ++ eps))) =
      Some (Done (r, with_preloaded s' (Preloaded.holding vs eps))).
Proof.
  revert s. induction fuel as [|fuel IH]; intros s; [done|]. cbn.
  destruct (DataSource.load b addr s) as [[r1 s1]|] eqn:Hl; [|by intros [=]].
  destruct (replay_load _ _ _ _ _ Hl) as (dv & de & Hrec & Hrep).
  destruct r1 as [[d|]|k].
  1,3: intros [= <- <-]; exists dv, de; split; [done|]; intros vs eps; by rewrite Hrep.
  destruct (DataSource.resolve b s1) as [[r2 s2]|] eqn:Hr; [|by intros [=]].
  destruct (replay_resolve _ _ _ _ Hr) as (dv2 & de2 & Hrec2 & Hrep2).
  pose proof (recorded_trans _ _ _ _ _ _ _ Hrec Hrec2) as Hrec12.
  destruct r2 as [[d|]|k].
  1,3: intros [= <- <-]; exists (dv ++ dv2), (de ++ de2); split; [done|]; intros vs eps;
    rewrite <-!app_assoc, Hrep; by rewrite Hrep2.
  intros (dv3 & de3 & Hrec3 & Hrep3)%IH.
  exists ((dv ++ dv2) ++ dv3), ((de ++ de2) ++ de3).
  split; [by eapply recorded_trans|]. intros vs eps.
  rewrite <-!app_assoc, Hrep, Hrep2. apply Hrep3.
Qed.

Lemma replay_clear s p : DataSource.clear (with_preloaded s p) = with_preloaded (DataSource.clear s) p.
Proof. done. Qed.

(** A whole run. *)
Lemma replay_run s rs s' :
  Run s rs s' →
  ∃ dv de, recorded (recorder_of s) (recorder_of s') dv de ∧
    ∀ vs eps, Run (with_preloaded s (Preloaded.holding (dv ++ vs) (de ++ eps))) rs
      (with_preloaded s' (Preloaded.holding vs eps)).
Proof.
  induction 1 as [s|s fuel b addr r s1 rs s2 Hn _ (dv & de & Hrec & Hrep)
                 |s rs s2 _ (dv & de & Hrec & Hrep)].
  - exists [], []. split; [by apply recorded_refl|]. intros. apply Run_done.
  - destruct (replay_next _ _ _ _ _ _ Hn) as (dv1 & de1 & Hrec1 & Hrep1).
    exists (dv1 ++ dv), (de1 ++ de). split; [by eapply recorded_trans|].
    intros vs eps. eapply Run_next; [rewrite <-!app_assoc; apply Hrep1|apply Hrep].
  - exists dv, de. split; [done|]. intros vs eps. apply Run_clear. rewrite replay_clear. apply Hrep.
Qed.
End replay.
