(* ===== verification/Client.v ===== *)
(** * The client programs (crates/client, crates/zkvm-verification,
    crates/compute-proof, example/preloader)

    The fault proof client around the derivation, the preparation of a witness
    and the zkVM run that uses it.  kona's driver is a tree of calls on the data
    source: what it asks next depends only on the answers it got. *)

From S2P Require Export Replay.

(** ** kona_client, kona_driver, kona_proof *)

(** The driver's use of the data source. *)
Inductive Driver `{!Kona} (R : Type) :=
| Return (r : R)
| CallNext (b : BlockInfo) (addr : Address) (k : result pipeline_error_kind Bytes → Driver R)
| CallClear (k : Driver R).
Arguments Return {_ R} r.
Arguments CallNext {_ R} b addr k.
Arguments CallClear {_ R} k.

(** What the client takes from kona.  [Ora] is the state of the oracle, [E] the L1
    data source; [BootInfo] gives the fields which the client reads. *)
Class KonaClient `{!Kona} (Ora E : Type) := {
  FaultProofProgramError : Type;
  InvalidClaim : B256 → B256 → FaultProofProgramError;
  BootInfo : Type;
  boot_l1_head : BootInfo → B256;
  boot_l1_chain_id : BootInfo → Z;
  agreed_l2_output_root : BootInfo → B256;
  claimed_l2_output_root : BootInfo → B256;
  claimed_l2_block_number : BootInfo → Z;
  BootInfo_load : M Ora (result FaultProofProgramError BootInfo);
  fetch_safe_head_hash : B256 → M Ora (result FaultProofProgramError B256);
  (** the number of the safe head, by [OracleL2ChainProvider::header_by_hash] *)
  l2_header_number : BootInfo → B256 → M Ora (result FaultProofProgramError Z);
  Cursor : Type;
  new_oracle_pipeline_cursor : BootInfo → Z → M Ora (result FaultProofProgramError Cursor);
  (** [EthereumDataSource::new_from_parts] *)
  eth_new_from_parts : BootInfo → Ora → E;
  (** [OraclePipeline::new], then [Driver::advance_to_target]: the safe head's
      number and the output root *)
  pipeline_new : BootInfo → Cursor → M Ora (result FaultProofProgramError unit);
  advance_to_target : BootInfo → Cursor → Z → Driver (result FaultProofProgramError (Z * B256));
  (** number and timestamp of an L1 header, by [OracleL1ChainProvider::header_by_hash] *)
  l1_header_by_hash : B256 → M Ora (result string (Z * Z));
}.

Section run_driver.
Context `{!Alloy, !Kona, !EthereumDataSource E, !EigenDAPreimageProvider A}.

(** Run a driver with [fuel] for each call of [next]; [None] when one runs out. *)
Fixpoint run_driver {R} (fuel : nat) (d : Driver R) (s : EigenDADataSource E A) :
    option (outcome (R * EigenDADataSource E A)) :=
  match d with
  | Return r => Some (Done (r, s))
  | CallNext b addr k =>
      match DataSource.next fuel b addr s with
      | None => None
      | Some Panic => Some Panic
      | Some (Done (r, s')) => run_driver fuel (k r) s'
      end
  | CallClear k => run_driver fuel k (DataSource.clear s)
  end.
End run_driver.

(** ** crates/client/src/fp_client.rs *)

Section fp_client.
Context `{!Alloy, !Kona, !EthereumDataSource E, !KonaClient Ora E}.

(** What the prologue decides: nothing left to do, or derive from a cursor. *)
Inductive prologue_result := Agreed | Derive (boot : BootInfo) (cursor : Cursor).

Definition prologue : M Ora (result FaultProofProgramError prologue_result) :=
  boot ←? BootInfo_load;
  safe_head_hash ←? fetch_safe_head_hash (agreed_l2_output_root boot);
  safe_head_number ←? l2_header_number boot safe_head_hash;
  if bool_decide (claimed_l2_block_number boot < safe_head_number) then
    mret (Err (InvalidClaim (agreed_l2_output_root boot) (claimed_l2_output_root boot)))
  else if bool_decide (agreed_l2_output_root boot = claimed_l2_output_root boot) then
    mret (Ok Agreed)
  else
    cursor ←? new_oracle_pipeline_cursor boot safe_head_number;
    _ ←? pipeline_new boot cursor;
    mret (Ok (Derive boot cursor)).

Definition epilogue (boot : BootInfo) (r : result FaultProofProgramError (Z * B256)) :
    result FaultProofProgramError unit :=
  head ← r;
  let '(_, output_root) := head in
  if bool_decide (output_root ≠ claimed_l2_output_root boot) then
    Err (InvalidClaim output_root (claimed_l2_output_root boot))
  else Ok tt.

(** [run_fp_client]; the state of the data source is returned with the result,
    since the recorder's contents are read from it afterwards. *)
Definition run_fp_client `{!EigenDAPreimageProvider A} (fuel : nat) (eigenda : A) (o : Ora) :
    option (outcome (result FaultProofProgramError unit * A * Ora)) :=
  match prologue o with
  | Panic => Some Panic
  | Done (Err e, o) => Some (Done (Err e, eigenda, o))
  | Done (Ok Agreed, o) => Some (Done (Ok tt, eigenda, o))
  | Done (Ok (Derive boot cursor), o) =>
      let dap := DataSource.new (eth_new_from_parts boot o) (PreimageSource.new eigenda) in
      match run_driver fuel (advance_to_target boot cursor (claimed_l2_block_number boot)) dap with
      | None => None
      | Some Panic => Some Panic
      | Some (Done (r, s)) =>
          Some (Done (epilogue boot r, eigenda_fetcher (eigenda_source s), o))
      end
  end.
End fp_client.

(** ** crates/zkvm-verification/src/lib.rs *)

Section zkvm_verification.
Context `{!Kona, !KonaClient Ora E, !KzgBackend, !CanoeVerifier V, !CanoeVerifierAddressFetcher F}.

(** The L1 context comes from the boot info and the header of [l1_head]. *)
Definition eigenda_witness_to_preloaded_provider (boot_info : BootInfo) (canoe_verifier : V)
    (canoe_address_fetcher : F) (witness : EigenDAWitness) :
    M Ora PreloadedEigenDAPreimageProvider :=
  let l1_head := boot_l1_head boot_info in
  r ← l1_header_by_hash l1_head;
  header ← lift (expect r);
  let '(number, timestamp) := header in
  lift (from_witness witness l1_head number timestamp (boot_l1_chain_id boot_info)
    canoe_verifier canoe_address_fetcher).
End zkvm_verification.

(** ** crates/compute-proof/src *)

(** rust-kzg-bn254-prover and num-bigint: the prover's state with its roots of unity,
    blobs, polynomials in evaluation form, commitments and proofs with the coordinates
    of a point, and the SRS that the crate loads once. *)
Class KzgProver := {
  KzgError : Type;
  KZG : Type;
  KZG_new : KZG;
  calculate_and_store_roots_of_unity : Z → KZG → result KzgError KZG;
  ProverBlob : Type;
  ProverBlob_new : Bytes → result KzgError ProverBlob;
  ProverPolynomial : Type;
  to_polynomial_eval_form : ProverBlob → result KzgError ProverPolynomial;
  SRS : Type;
  G1_SRS : SRS;
  ProverG1 : Type;
  commit_eval_form : KZG → ProverPolynomial → SRS → result KzgError ProverG1;
  compute_blob_proof : KZG → ProverBlob → ProverG1 → SRS → result KzgError ProverG1;
  proof_x : ProverG1 → Z;
  proof_y : ProverG1 → Z;
}.

Section compute_proof.
Context `{!KzgProver}.

(** [BigUint::to_bytes_be]: no leading zeros, and one zero byte for zero. *)
Fixpoint be_bytes_from (fuel : nat) (z : Z) (acc : Bytes) : Bytes :=
  match fuel with
  | O => acc
  | Datatypes.S fuel => if bool_decide (z < 256) then Z_to_u8 z :: acc
      else be_bytes_from fuel (z / 256) (Z_to_u8 z :: acc)
  end.
Definition to_bytes_be (z : Z) : Bytes := be_bytes_from (Z.to_nat (Z.log2 z) / 8 + 1) z [].

(** [32 - be_bytes.len()] underflows, and panics, for more than 32 bytes. *)
Definition convert_biguint_to_be_32_bytes (biguint : Z) : outcome Bytes :=
  let be_bytes := to_bytes_be biguint in
  if bool_decide (32 < length be_bytes)%nat then Panic
  else Done (zeros (32 - length be_bytes) ++ be_bytes).

Definition compute_kzg_proof_with_srs (encoded_payload : Bytes) (srs : SRS) :
    outcome (result KzgError Bytes) :=
  kzg ← expect (calculate_and_store_roots_of_unity (Z.of_nat (length encoded_payload)) KZG_new);
  blob ← expect (ProverBlob_new encoded_payload);
  input_poly ←! Done (to_polynomial_eval_form blob);
  commitment ←! Done (commit_eval_form kzg input_poly srs);
  proof ←! Done (compute_blob_proof kzg blob commitment srs);
  proof_x_bytes ← convert_biguint_to_be_32_bytes (proof_x proof);
  proof_y_bytes ← convert_biguint_to_be_32_bytes (proof_y proof);
  Done (Ok (proof_x_bytes ++ proof_y_bytes)).

Definition compute_kzg_proof (encoded_payload : Bytes) : outcome (result KzgError Bytes) :=
  compute_kzg_proof_with_srs encoded_payload G1_SRS.

(** [FixedBytes::from_slice] panics unless it gets 64 bytes. *)
Definition create_kzg_proofs_for_eigenda_preimage (preimage : EigenDAPreimage) : outcome (list Bytes) :=
  mapM_outcome (λ '(_, encoded_payload),
    proof ← compute_kzg_proof (serialize encoded_payload);
    kzg_proof ← expect proof;
    _ ← assert (bool_decide (length kzg_proof = 64%nat));
    Done kzg_proof) (preimage_encoded_payloads preimage).
End compute_proof.

(** ** crates/witgen: the canoe proof of a preimage *)

(** [alloy_consensus::Header::decode] (the block number), and the encodings that
    the program wraps errors and receipts in. *)
Class HostGlue `{!Kona, !KonaClient Ora E, !KonaPreimage} := {
  Header_decode_number : Bytes → option Z;
  FaultProofProgramError_display : FaultProofProgramError → string;
}.

Section witgen.
Context `{!Alloy, !Kona, !EthereumDataSource E, !KonaClient Ora E, !KonaPreimage, !CommsClient Ora,
  !HostGlue (Ora := Ora) (E := E), !CanoeVerifierAddressFetcher F, !CanoeProvider P}.

(** [P::Receipt] as the JSON bytes of the preloader; [expect] on its failure. *)
Context (serde_json_to_vec : Receipt → outcome Bytes).

(** [from_boot_info_to_canoe_proof]: errors are the texts of [anyhow]. *)
Definition from_boot_info_to_canoe_proof (boot_info : BootInfo) (eigenda_preimage : EigenDAPreimage)
    (canoe_address_fetcher : F) : M (Ora * P) (result string (option Receipt)) :=
  header_rlp ← zoom fst (λ o s, (o, s.2)) (oracle_get (PreimageKey_keccak256 (boot_l1_head boot_info)));
  header_rlp ←? mret (map_err PreimageOracleError_display header_rlp);
  match Header_decode_number header_rlp with
  | None => mret (Err "cannot rlp decode header in canoe proof generation"%string)
  | Some number =>
      canoe_inputs ←? mret (map_err CanoeVerifierAddressFetcherError_display
        (from_eigenda_preimage_to_canoe_inputs (preimage_validities eigenda_preimage)
           canoe_address_fetcher (boot_l1_chain_id boot_info) (boot_l1_head boot_info) number));
      proof ← zoom snd (λ p s, (s.1, p)) (create_certs_validity_proof canoe_inputs);
      mret (match proof with
            | Some (Ok proof) => Ok (Some proof)
            | Some (Err e) => Err e
            | None => Ok None
            end)
  end.

(** ** example/preloader/src/main.rs

    The oracle is shared by [Arc]; each holder here has its own copy of its
    state, which is the same when replies depend on the key only. *)

Definition run_preimage_client (fuel : nat) (o : Ora) :
    option (outcome (result FaultProofProgramError EigenDAPreimage * Ora)) :=
  let eigenda_preimage_provider :=
    {| provider := OracleProvider.new o; preimage := EigenDAPreimage_default |} in
  match run_fp_client fuel eigenda_preimage_provider o with
  | None => None
  | Some Panic => Some Panic
  | Some (Done (Err e, _, o)) => Some (Done (Err e, o))
  | Some (Done (Ok tt, recorder, o)) => Some (Done (Ok (preimage recorder), o))
  end.

Context `{!KzgProver}.

(** What [prepare_witness] does after the derivation. *)
Definition witness_of_preimage (canoe_address_fetcher : F) (eigenda_preimage : EigenDAPreimage) :
    M (Ora * P) (result string EigenDAWitness) :=
  boot_info ← zoom fst (λ o s, (o, s.2)) BootInfo_load;
  boot_info ←? mret (map_err FaultProofProgramError_display boot_info);
  kzg_proofs ← lift (create_kzg_proofs_for_eigenda_preimage eigenda_preimage);
  optional_canoe_proof ←? from_boot_info_to_canoe_proof boot_info eigenda_preimage
    canoe_address_fetcher;
  canoe_proof_bytes_option ← lift (match optional_canoe_proof with
    | None => Done None
    | Some proof => bytes ← serde_json_to_vec proof; Done (Some bytes)
    end);
  mret (map_err EigenDAWitnessError_display
    (from_preimage eigenda_preimage kzg_proofs canoe_proof_bytes_option)).

Definition prepare_witness (fuel : nat) (canoe_address_fetcher : F) (s : Ora * P) :
    option (outcome (result string EigenDAWitness * (Ora * P))) :=
  match run_preimage_client fuel s.1 with
  | None => None
  | Some Panic => Some Panic
  | Some (Done (Err e, o)) => Some (Done (Err (FaultProofProgramError_display e), (o, s.2)))
  | Some (Done (Ok eigenda_preimage, o)) =>
      Some (witness_of_preimage canoe_address_fetcher eigenda_preimage (o, s.2))
  end.

Context `{!KzgBackend, !CanoeVerifier V}.

Definition run_within_zkvm_assume_oracle_verified (fuel : nat) (canoe_verifier : V)
    (canoe_address_fetcher : F) (witness : EigenDAWitness) (o : Ora) :
    option (outcome (result string unit)) :=
  match BootInfo_load o with
  | Panic => Some Panic
  | Done (Err e, _) => Some (Done (Err (FaultProofProgramError_display e)))
  | Done (Ok boot_info, o) =>
      match eigenda_witness_to_preloaded_provider boot_info canoe_verifier canoe_address_fetcher
        witness o with
      | Panic => Some Panic
      | Done (preloaded_preimage_provider, o) =>
          match run_fp_client fuel preloaded_preimage_provider o with
          | None => None
          | Some Panic => Some Panic
          | Some (Done (r, _, _)) => Some (Done (map_err FaultProofProgramError_display r))
          end
      end
  end.
End witgen.

(** ** The replay of a client run *)

Section client_replay.
Context `{!Alloy, !KonaPreimage, !Kona, !EthereumDataSource E, !KonaClient Ora E}.
Context `{!EigenDAPreimageProvider T, !NeverFails T}.
Local Abbreviation R := (OracleEigenDAPreimageProviderWithPreimage T).

Lemma replay_driver {B} fuel (d : Driver B) (s : EigenDADataSource E R) r s' :
  run_driver fuel d s = Some (Done (r, s')) →
  ∃ dv de, recorded (recorder_of s) (recorder_of s') dv de ∧
    ∀ vs eps, run_driver fuel d (with_preloaded s (Preloaded.holding (dv ++ vs) (de ++ eps))) =
      Some (Done (r, with_preloaded s' (Preloaded.holding vs eps))).
Proof.
  revert s. induction d as [r'|b addr k IH|d IH]; intros s; cbn [run_driver].
  - intros [= -> ->]. exists [], []. split; [by apply recorded_refl|done].
  - destruct (DataSource.next fuel b addr s) as [[[r1 s1]|]|] eqn:Hn; [|done..].
    destruct (replay_next _ _ _ _ _ _ Hn) as (dv & de & Hrec & Hrep).
    intros (dv2 & de2 & Hrec2 & Hrep2)%IH. exists (dv ++ dv2), (de ++ de2).
    split; [by eapply recorded_trans|]. intros vs eps.
    rewrite <-!app_assoc, Hrep. apply Hrep2.
  - intros (dv & de & Hrec & Hrep)%IH. exists dv, de. split; [done|]. intros vs eps.
    rewrite replay_clear. apply Hrep.
Qed.

(** The client over the preloaded provider gives the recorded run's result. *)
Lemma replay_client fuel (t : T) o r rec' o' :
  run_fp_client fuel {| provider := t; preimage := EigenDAPreimage_default |} o =
    Some (Done (r, rec', o')) →
  run_fp_client fuel (Preloaded.holding (preimage_validities (preimage rec'))
    (preimage_encoded_payloads (preimage rec'))) o =
    Some (Done (r, Preloaded.holding [] [], o')).
Proof.
  unfold run_fp_client. destruct (prologue o) as [[[[|boot cursor]|e] o1]|]; [| | |done].
  1,3: by intros [= <- <- <-].
  set (dap := DataSource.new _ (PreimageSource.new {| provider := t; preimage := _ |})).
  destruct (run_driver fuel _ dap) as [[[r1 s1]|]|] eqn:Hd; [|done..].
  intros [= <- <- <-]. destruct (replay_driver _ _ _ _ _ Hd) as (dv & de & Hrec & Hrep).
  unfold recorded in Hrec. cbn in Hrec.
  change (eigenda_fetcher (eigenda_source s1)) with (recorder_of s1). rewrite Hrec. cbn.
  specialize (Hrep [] []). rewrite !app_nil_r in Hrep. unfold with_preloaded in Hrep at 1.
  cbn in Hrep. unfold DataSource.new. by rewrite Hrep.
Qed.
End client_replay.
