(* ===== verification/Simulation.v ===== *)
(** * Simulation of providers

    Two providers in related states that answer alike give the same derivation, from a
    single request to the whole client.  A relation may be one-sided: with [lax], the
    left provider may panic where the right one answers. *)

From S2P Require Export Client.

(** ** Providers that answer alike *)

Section alike.
Context (lax : Prop) {SA SB : Type} (Sim : SA → SB → Prop).

(** The same outcome up to [R] on the values and [Sim] on the states. *)
Definition outcomes_alike {X Y} (R : X → Y → Prop) (oa : outcome (X * SA)) (ob : outcome (Y * SB)) : Prop :=
  match oa, ob with
  | Done (x, a), Done (y, b) => R x y ∧ Sim a b
  | Panic, Panic => True
  | Panic, Done _ => lax
  | Done _, Panic => False
  end.

(** The same for a run with fuel; one that panics need not have a counterpart that ends. *)
Definition runs_alike {X} (ra : option (outcome (X * SA))) (rb : option (outcome (X * SB))) : Prop :=
  match ra, rb with
  | Some oa, Some ob => outcomes_alike eq oa ob
  | None, None => True
  | Some Panic, None => lax
  | _, _ => False
  end.

Lemma panic_alike {X Y} (R : X → Y → Prop) ob : lax → outcomes_alike R Panic ob.
Proof. by destruct ob as [[]|]. Qed.

Lemma panicked_alike {X} (rb : option (outcome (X * SB))) : lax → runs_alike (Some Panic) rb.
Proof. by destruct rb as [[[]|]|]. Qed.

Lemma outcomes_alike_bind {X Y X' Y'} (R : X → Y → Prop) (R' : X' → Y' → Prop)
    (m : M SA X) (f : X → M SA X') (n : M SB Y) (g : Y → M SB Y') a b :
  outcomes_alike R (m a) (n b) →
  (∀ x y a' b', m a = Done (x, a') → n b = Done (y, b') → R x y → Sim a' b' →
    outcomes_alike R' (f x a') (g y b')) →
  outcomes_alike R' ((m ≫= f) a) ((n ≫= g) b).
Proof.
  unfold mbind, M_bind. intros Hmn Hfg.
  destruct (m a) as [[x a']|], (n b) as [[y b']|]; try done.
  - destruct Hmn as [HR Hs]. by apply Hfg.
  - by apply panic_alike.
Qed.
End alike.

(** Answers are compared after their conversion to the errors of the derivation; a payload
    is only asked for after the certificate has been found valid. *)
Class ProviderSimulation `{!Alloy} {A B : Type} `{!EigenDAPreimageProvider A, !EigenDAPreimageProvider B}
    (lax : Prop) (Sim : A → B → Prop) := {
  validity_alike c a b : Sim a b → outcomes_alike lax Sim
    (λ ra rb, map_err provider_error_into ra = map_err provider_error_into rb)
    (get_validity c a) (get_validity c b);
  payload_alike c a b a' b' : Sim a b → get_validity c a = Done (Ok true, a') →
    get_validity c b = Done (Ok true, b') → Sim a' b' → outcomes_alike lax Sim
    (λ ra rb, map_err provider_error_into ra = map_err provider_error_into rb)
    (get_encoded_payload c a') (get_encoded_payload c b');
}.

Section simulation.
Context `{!Alloy, !Kona, !EthereumDataSource E}.
Context `{PA : !EigenDAPreimageProvider A, PB : !EigenDAPreimageProvider B}.
Context (lax : Prop) (Sim : A → B → Prop) `{!ProviderSimulation lax Sim}.

Definition sources_alike (q : EigenDAPreimageSource A) (q' : EigenDAPreimageSource B) : Prop :=
  Sim (eigenda_fetcher q) (eigenda_fetcher q').

Lemma fetcher_alike {X Y} (R : X → Y → Prop) (m : M A X) (n : M B Y) q q' :
  outcomes_alike lax Sim R (m (eigenda_fetcher q)) (n (eigenda_fetcher q')) →
  outcomes_alike lax sources_alike R (PreimageSource.fetcher m q) (PreimageSource.fetcher n q').
Proof.
  unfold PreimageSource.fetcher, zoom.
  by destruct (m _) as [[x a]|], (n _) as [[y b]|].
Qed.

Lemma fetcher_Done {T X} (m : M T X) q x q' :
  PreimageSource.fetcher m q = Done (x, q') → m (eigenda_fetcher q) = Done (x, eigenda_fetcher q').
Proof. unfold PreimageSource.fetcher, zoom. destruct (m _) as [[y t]|]; [|done]. by intros [= <- <-]. Qed.

Lemma source_next_alike c bn q q' :
  sources_alike q q' →
  outcomes_alike lax sources_alike eq (PreimageSource.next c bn q) (PreimageSource.next c bn q').
Proof.
  intros Hq. unfold PreimageSource.next. eapply outcomes_alike_bind.
  { eapply fetcher_alike, validity_alike, Hq. }
  cbn beta. intros [[]|e] [[]|e'] q1 q1' Hm%fetcher_Done Hn%fetcher_Done Hr Hq1; cbn in Hr; try congruence.
  - unfold try_bind, mret, M_ret. destruct (map_err _ _) as [u|k]; [|by split].
    eapply outcomes_alike_bind; [eapply fetcher_alike, payload_alike; [exact Hq|done..]|].
    cbn beta. intros rep rep' q2 q2' _ _ Hrep Hq2. by split.
  - by split.
  - injection Hr as Hr. split; [congruence|done].
Qed.

(** Data sources in the same state but for their providers. *)
Definition data_alike (s : EigenDADataSource E A) (s' : EigenDADataSource E B) : Prop :=
  ethereum_source s = ethereum_source s' ∧ altda_commitment s = altda_commitment s' ∧
  sources_alike (eigenda_source s) (eigenda_source s').

Lemma load_alike b addr s s' :
  data_alike s s' →
  outcomes_alike lax data_alike eq (DataSource.load b addr s) (DataSource.load b addr s').
Proof.
  destruct s as [e q oc], s' as [e' q' oc']. intros (He & Hc & Hq).
  cbn in He, Hc, Hq. subst e' oc'.
  unfold DataSource.load, DataSource.on_ethereum, zoom, mbind, M_bind. cbn.
  destruct oc as [c|]; [by split|]. cbn.
  destruct (eth_next b addr e) as [[[[|v rest]|k] e1]|]; cbn; [by split| | |done].
  - case_bool_decide; [by split|]. destruct (parse _); by split.
  - case_bool_decide; by split.
Qed.

Lemma resolve_alike b s s' :
  data_alike s s' →
  outcomes_alike lax data_alike eq (DataSource.resolve b s) (DataSource.resolve b s').
Proof.
  destruct s as [e q oc], s' as [e' q' oc']. intros (He & Hc & Hq).
  cbn in He, Hc, Hq. subst e' oc'.
  unfold DataSource.resolve, DataSource.on_eigenda, zoom, mbind, M_bind. cbn.
  destruct oc as [c|]; [|done]. cbn.
  pose proof (source_next_alike c (block_number b) q q' Hq) as Hn.
  destruct (PreimageSource.next c (block_number b) q) as [[r q1]|],
    (PreimageSource.next c (block_number b) q') as [[r' q1']|]; try done; [|by apply panic_alike].
  destruct Hn as [-> Hq1]. cbn. destruct r' as [ep|[]]; cbn; [destruct (decode ep)| | |]; by split.
Qed.

Lemma next_alike fuel b addr s s' :
  data_alike s s' →
  runs_alike lax data_alike (DataSource.next fuel b addr s) (DataSource.next fuel b addr s').
Proof.
  revert s s'. induction fuel as [|fuel IH]; intros s s' Hs; [done|]. cbn [DataSource.next].
  pose proof (load_alike b addr s s' Hs) as Hl.
  destruct (DataSource.load b addr s) as [[r s1]|], (DataSource.load b addr s') as [[r' s1']|];
    try done; [|by apply panicked_alike].
  destruct Hl as [-> Hs1]. destruct r' as [[d|]|k]; [by split| |by split].
  pose proof (resolve_alike b s1 s1' Hs1) as Hr.
  destruct (DataSource.resolve b s1) as [[r s2]|], (DataSource.resolve b s1') as [[r' s2']|];
    try done; [|by apply panicked_alike].
  destruct Hr as [-> Hs2]. destruct r' as [[d|]|k]; [by split|by apply IH|by split].
Qed.

Lemma driver_alike {R} fuel (d : Driver R) s s' :
  data_alike s s' → runs_alike lax data_alike (run_driver fuel d s) (run_driver fuel d s').
Proof.
  revert s s'. induction d as [r|b addr k IH|d IH]; intros s s' Hs; cbn [run_driver].
  - by split.
  - pose proof (next_alike fuel b addr s s' Hs) as Hn.
    destruct (DataSource.next fuel b addr s) as [[[r s1]|]|],
      (DataSource.next fuel b addr s') as [[[r' s1']|]|]; try done; try by apply panicked_alike.
    destruct Hn as [-> Hs1]. by apply IH.
  - apply IH. destruct Hs as (He & _ & Hq). split_and!; [|done|done].
    unfold DataSource.clear. cbn. by rewrite He.
Qed.

Lemma client_alike `{!KonaClient Ora E} fuel a b (o : Ora) :
  Sim a b →
  match run_fp_client fuel a o, run_fp_client fuel b o with
  | Some (Done (r, a', o1)), Some (Done (r', b', o2)) => r = r' ∧ o1 = o2 ∧ Sim a' b'
  | Some Panic, Some Panic | None, None => True
  | Some Panic, _ => lax
  | _, _ => False
  end.
Proof.
  intros Hs. unfold run_fp_client.
  destruct (prologue o) as [[[[|boot cursor]|e] o1]|]; [done| |done|done].
  pose proof (driver_alike fuel (advance_to_target boot cursor (claimed_l2_block_number boot))
    (DataSource.new (eth_new_from_parts boot o1) (PreimageSource.new a))
    (DataSource.new (eth_new_from_parts boot o1) (PreimageSource.new b))
    (conj eq_refl (conj eq_refl Hs))) as Hd.
  destruct (run_driver fuel _ _) as [[[r s]|]|], (run_driver fuel _ _) as [[[r' s']|]|]; try done.
  destruct Hd as [-> (_ & _ & Hq)]. by split_and!.
Qed.
End simulation.
