(* ===== verification/Srs.v ===== *)
(** * The points of the trusted setup (crates/compute-proof: build.rs, lib.rs)

    The build script reads the points of the setup, and writes them and a file with their
    number; the program embeds both files and reads the points back.  What comes back is
    the prover's [G1_SRS], whose inside the other files do not look at. *)

From S2P Require Export Bindings.

(** A path is the list of its components; the environment maps names to values. *)
Abbreviation Path := (list string).
Definition parent (p : Path) : option Path := match rev p with [] => None | _ :: dir => Some (rev dir) end.
Definition join (p : Path) (sub : Path) : Path := p ++ sub.

(** [SRS::new] of rust-kzg-bn254's prover reads a file of points; arkworks writes and reads
    vectors of points. *)
Class ArkSrs := {
  SrsPoint : Type;
  SRS_new : Path → Z → Z → result string (list SrsPoint);
  serialize_uncompressed : list SrsPoint → result string Bytes;
  deserialize_uncompressed : Bytes → result string (list SrsPoint);
}.

(** A vector that was written is read back. *)
Class ArkSrsLaws `{ArkSrs} := {
  ark_round_trip ps bs : serialize_uncompressed ps = Ok bs → deserialize_uncompressed bs = Ok ps;
}.

(** ** build.rs *)

Module Build.
Definition POINTS_TO_LOAD : Z := 16 * 1024 * 1024 / 32.
Definition SRS_ORDER : Z := 268435456.

Section build.
Context `{!ArkSrs}.

(** [generate_constants!] *)
Definition generate_constants (points byte_size : Z) : string :=
  "// Auto-generated constants - DO NOT EDIT

/// Number of G1 points to load from the SRS data.
/// This represents the maximum degree of polynomials that can be committed.
pub const POINTS_TO_LOAD: usize = " +:+ display_uint points +:+ ";

/// Total byte size of the embedded SRS point data.
/// This is calculated as POINTS_TO_LOAD * `size_of::<G1Affine>`().
pub const BYTE_SIZE: usize = " +:+ display_uint byte_size +:+ ";
".

(** The files that are written, or a panic; [env] is [env::var], with paths as values. *)
Definition main (env : string → option Path) (fs_write : Path → Bytes → result string unit) :
    outcome (list (Path * Bytes)) :=
  dir ← opt_expect (env "CARGO_MANIFEST_DIR"%string);
  dir ← opt_expect (parent dir);
  workspace_root ← opt_expect (parent dir);
  let path := join workspace_root ["resources"; "g1.point"]%string in
  srs ← expect (SRS_new path SRS_ORDER POINTS_TO_LOAD);
  _ ← assert (bool_decide (Z.of_nat (length srs) = POINTS_TO_LOAD));
  out_path ← opt_expect (env "OUT_DIR"%string);
  g1_bytes ← expect (serialize_uncompressed srs);
  let g1_path := join out_path ["srs_points.bin"%string] in
  _ ← expect (fs_write g1_path g1_bytes);
  let byte_size := Z.of_nat (length g1_bytes) in
  let constants_content := String.list_byte_of_string (generate_constants POINTS_TO_LOAD byte_size) in
  let constants_path := join out_path ["constants.rs"%string] in
  _ ← expect (fs_write constants_path constants_content);
  Done [(g1_path, g1_bytes); (constants_path, constants_content)].
End build.
End Build.

(** ** lib.rs *)

Record LoadedSrs `{!ArkSrs} := { g1 : list SrsPoint; order : Z }.

(** [G1_SRS], from the embedded bytes and the embedded [POINTS_TO_LOAD]; [order] is cast
    to 32 bits. *)
Definition load_G1_SRS `{!ArkSrs} (SRS_BYTES : Bytes) (POINTS_TO_LOAD : Z) : outcome LoadedSrs :=
  g1_points ← expect (deserialize_uncompressed SRS_BYTES);
  _ ← assert (bool_decide (Z.of_nat (length g1_points) = POINTS_TO_LOAD));
  Done {| g1 := g1_points; order := (POINTS_TO_LOAD * 32) mod 2 ^ 32 |}.

(** ** What the build writes is what the program loads *)

Section embedded.
Context `{!ArkSrs, !ArkSrsLaws}.

Lemma parent_Some p dir : parent p = Some dir → ∃ name, p = dir ++ [name].
Proof.
  unfold parent. destruct (rev p) as [|name rest] eqn:Hp; [done|]. intros [= <-]. exists name.
  by rewrite <-(rev_involutive p), Hp.
Qed.

(** The points in [srs_points.bin] are those of [resources/g1.point] in the directory two
    above the crate's, in their number the loader has no objection to them, and the order
    that it states is not cut off by the cast. *)
Theorem built_srs_loads env fs_write files :
  Build.main env fs_write = Done files →
  ∃ workspace dir crate out bs constants points,
    env "CARGO_MANIFEST_DIR"%string = Some (workspace ++ [dir; crate]) ∧
    env "OUT_DIR"%string = Some out ∧
    files = [(out ++ ["srs_points.bin"%string], bs); (out ++ ["constants.rs"%string], constants)] ∧
    SRS_new (workspace ++ ["resources"; "g1.point"]%string) Build.SRS_ORDER Build.POINTS_TO_LOAD = Ok points ∧
    load_G1_SRS bs Build.POINTS_TO_LOAD = Done {| g1 := points; order := Build.POINTS_TO_LOAD * 32 |}.
Proof.
  unfold Build.main, join. intros (crate_dir & Hdir%opt_expect_Done & H1)%outcome_bind_Done_inv.
  apply outcome_bind_Done_inv in H1 as (crates_dir & Hcrates%opt_expect_Done%parent_Some & H1).
  destruct Hcrates as [crate ->].
  apply outcome_bind_Done_inv in H1 as (workspace & Hws%opt_expect_Done%parent_Some & H1).
  destruct Hws as [dir ->].
  apply outcome_bind_Done_inv in H1 as (points & Hpoints%expect_Done & H1).
  apply bind_assert_Done in H1 as [Hlen%bool_decide_eq_true H1].
  apply outcome_bind_Done_inv in H1 as (out & Hout%opt_expect_Done & H1).
  apply outcome_bind_Done_inv in H1 as (bs & Hbs%expect_Done & H1).
  apply outcome_bind_Done_inv in H1 as ([] & _ & H1).
  apply outcome_bind_Done_inv in H1 as ([] & _ & H1).
  eexists workspace, dir, crate, out, bs, _, points. split_and!.
  - by rewrite Hdir, <-app_assoc.
  - done.
  - by injection H1 as <-.
  - done.
  - unfold load_G1_SRS. rewrite (ark_round_trip _ _ Hbs). cbn [expect]. rewrite Done_bind.
    by rewrite bool_decide_true.
Qed.
End embedded.

(** ** A run

    Points without content, in a file that says how many there are. *)

Module SrsExample.
#[export] Instance bare_points : ArkSrs := {|
  SrsPoint := unit;
  SRS_new _ _ n := Ok (replicate (Z.to_nat n) tt);
  serialize_uncompressed ps := if bool_decide (Z.of_nat (length ps) < 2 ^ 32) then
    Ok (to_be_bytes 4 (Z.of_nat (length ps))) else Err "too many points"%string;
  deserialize_uncompressed bs := Ok (replicate (Z.to_nat (from_be_bytes bs)) tt);
|}.

Lemma unit_list (ps : list unit) : replicate (length ps) tt = ps.
Proof. induction ps as [|[] ps IH]; [done|]. cbn. by rewrite IH. Qed.

#[export] Instance bare_points_laws : ArkSrsLaws.
Proof.
  split. intros ps bs. cbn [serialize_uncompressed deserialize_uncompressed bare_points].
  case_bool_decide as Hl; [|done]. intros [= <-].
  rewrite from_to_be_bytes_small by lia. by rewrite Nat2Z.id, unit_list.
Qed.

Definition build_env (name : string) : option Path :=
  if bool_decide (name = "OUT_DIR"%string) then Some ["target"; "out"]%string
  else Some ["hokulea"; "crates"; "compute-proof"]%string.

Lemma build_writes : ∃ files, Build.main build_env (λ _ _, Ok tt) = Done files ∧
  fst <$> files = [["target"; "out"; "srs_points.bin"]; ["target"; "out"; "constants.rs"]]%string.
Proof.
  unfold Build.main. cbn [SRS_new serialize_uncompressed bare_points].
  assert (Hl : Z.of_nat (length (replicate (Z.to_nat Build.POINTS_TO_LOAD) tt)) = Build.POINTS_TO_LOAD)
    by (rewrite length_replicate, Z2Nat.id by done; done).
  change (opt_expect (build_env "CARGO_MANIFEST_DIR")) with (Done (["hokulea"; "crates"; "compute-proof"]%string : Path)).
  rewrite Done_bind. cbn [parent rev app opt_expect expect]. rewrite !Done_bind.
  cbn [parent rev app opt_expect expect]. rewrite !Done_bind.
  rewrite Hl, !bool_decide_true by done. cbn [assert expect]. rewrite !Done_bind.
  eexists. split; [reflexivity|]. reflexivity.
Qed.
End SrsExample.
