(* ===== verification/BuildTools.v ===== *)
(** * The build tools around the canoe guests (canoe/steel/methods/build.rs,
      canoe/sp1-cc/vkey-bin/src/main.rs)

    The build script of the steel guest prepares the environment in which risc0 builds it;
    the other program prints the verification key of an sp1 guest.  The environment of the
    process is a map, whose values need not be Unicode. *)

From S2P Require Export Bindings.

Definition str (s : string) : Bytes := String.list_byte_of_string s.

(** ** Standard library: UTF-8, the environment and paths *)

Definition in_range (lo hi : Z) (b : byte) : bool := (lo <=? u8_to_Z b) && (u8_to_Z b <=? hi).
Definition continuation : byte → bool := in_range 0x80 0xBF.

(** [str::from_utf8(bs).is_ok()]: no overlong form, no surrogate, nothing above 0x10FFFF. *)
Fixpoint is_unicode (bs : Bytes) : bool :=
  match bs with
  | [] => true
  | b :: r =>
      if u8_to_Z b <? 0x80 then is_unicode r
      else match r with
      | [] => false
      | c1 :: r1 =>
          if in_range 0xC2 0xDF b then continuation c1 && is_unicode r1
          else match r1 with
          | [] => false
          | c2 :: r2 =>
              if in_range 0xE0 0xEF b then
                in_range (if u8_to_Z b =? 0xE0 then 0xA0 else 0x80) (if u8_to_Z b =? 0xED then 0x9F else 0xBF) c1 &&
                continuation c2 && is_unicode r2
              else match r2 with
              | [] => false
              | c3 :: r3 =>
                  in_range 0xF0 0xF4 b &&
                  in_range (if u8_to_Z b =? 0xF0 then 0x90 else 0x80) (if u8_to_Z b =? 0xF4 then 0x8F else 0xBF) c1 &&
                  continuation c2 && continuation c3 && is_unicode r3
              end
          end
      end
  end.

(** The environment of the process. *)
Abbreviation Environment := (gmap string Bytes).
Inductive VarError := NotPresent | NotUnicode (s : Bytes).

(** [env::var_os] is the lookup. *)
Definition env_var (env : Environment) (name : string) : result VarError Bytes :=
  match env !! name with
  | None => Err NotPresent
  | Some v => if is_unicode v then Ok v else Err (NotUnicode v)
  end.

Definition slash : byte := x2f.

(** [PathBuf::push] on Unix, with paths as bytes. *)
Definition path_join (base path : Bytes) : Bytes :=
  if bool_decide (head path = Some slash) then path
  else match last base with
  | Some c => if bool_decide (c = slash) then base ++ path else base ++ [slash] ++ path
  | None => path
  end.

(** ** The steel guest *)

(** [risc0_build] and [risc0_build_ethereum]: builders of options, the build itself, which
    runs in a process that inherits the environment, and the files for Solidity; [W] is
    what the build changes and reads outside the process. *)
Class Risc0Build (W : Type) := {
  path_exists : Bytes → M W bool;
  DockerOptionsBuilder : Type;
  DockerOptionsBuilder_default : DockerOptionsBuilder;
  docker_container_tag : string → DockerOptionsBuilder → DockerOptionsBuilder;
  root_dir : Bytes → DockerOptionsBuilder → DockerOptionsBuilder;
  DockerOptions : Type;
  docker_options_build : DockerOptionsBuilder → result string DockerOptions;
  GuestOptionsBuilder : Type;
  GuestOptionsBuilder_default : GuestOptionsBuilder;
  use_docker : DockerOptions → GuestOptionsBuilder → GuestOptionsBuilder;
  GuestOptions : Type;
  guest_options_build : GuestOptionsBuilder → result string GuestOptions;
  GuestListEntry : Type;
  embed_methods_with_options : Environment → gmap string GuestOptions → M W (list GuestListEntry);
  SolidityOptions : Type;
  SolidityOptions_default : SolidityOptions;
  with_image_id_sol_path : string → SolidityOptions → SolidityOptions;
  with_elf_sol_path : string → SolidityOptions → SolidityOptions;
  generate_solidity_files : list GuestListEntry → SolidityOptions → M W (result string unit);
}.

(** The state of the script: the environment, what it has printed, and the outside. *)
Record BuildProcess (W : Type) := { environment : Environment; printed : list string; outside : W }.
Arguments environment {W} _. Arguments printed {W} _. Arguments outside {W} _.

Module SteelBuild.
Definition SOLIDITY_IMAGE_ID_PATH : string := "./contracts/ImageID.sol".
Definition SOLIDITY_ELF_PATH : string := "./contracts/Elf.sol".
Definition AR : string := "AR_riscv32im_risc0_zkvm_elf".

Section build.
Context `{!Risc0Build W}.

Definition println (line : string) : M (BuildProcess W) unit :=
  modify (λ s, {| environment := environment s; printed := printed s ++ [line]; outside := outside s |}).
Definition set_var (name : string) (v : Bytes) : M (BuildProcess W) unit :=
  modify (λ s, {| environment := <[name := v]> (environment s); printed := printed s; outside := outside s |}).
Definition externally {A} (m : M W A) : M (BuildProcess W) A :=
  zoom outside (λ w s, {| environment := environment s; printed := printed s; outside := w |}) m.

(** The archiver of risc0's toolchain, if none is set and it is there. *)
Definition choose_archiver : M (BuildProcess W) unit :=
  s ← get;
  match environment s !! AR with
  | Some _ => mret tt
  | None =>
      match env_var (environment s) "HOME" with
      | Err _ => mret tt
      | Ok home =>
          let risc0_ar := path_join home (str ".risc0/cpp/bin/riscv32-unknown-elf-ar") in
          found ← externally (path_exists risc0_ar);
          if (found : bool) then set_var AR risc0_ar else mret tt
      end
  end.

Definition guest_builder (env : Environment) (manifest_dir : Bytes) : outcome GuestOptionsBuilder :=
  if is_ok (env_var env "RISC0_USE_DOCKER") then
    docker_options ← expect (docker_options_build
      (root_dir (path_join manifest_dir (str "../../.."))
        (docker_container_tag "r0.1.88.0" DockerOptionsBuilder_default)));
    Done (use_docker docker_options GuestOptionsBuilder_default)
  else Done GuestOptionsBuilder_default.

Definition solidity_opts : SolidityOptions :=
  with_elf_sol_path SOLIDITY_ELF_PATH (with_image_id_sol_path SOLIDITY_IMAGE_ID_PATH SolidityOptions_default).

Definition main : M (BuildProcess W) unit :=
  _ ← println "cargo:rerun-if-env-changed=RISC0_USE_DOCKER";
  _ ← println "cargo:rerun-if-changed=build.rs";
  _ ← choose_archiver;
  s ← get;
  manifest_dir ← lift (opt_expect (environment s !! "CARGO_MANIFEST_DIR"%string));
  builder ← lift (guest_builder (environment s) manifest_dir);
  guest_options ← lift (expect (guest_options_build builder));
  guests ← externally (embed_methods_with_options (environment s)
    {[ "cert-verification-guests"%string := guest_options ]});
  written ← externally (generate_solidity_files guests solidity_opts);
  lift (expect written).
End build.
End SteelBuild.

(** ** The verification key *)

(** [sp1_sdk]'s prover, made from the environment, and the printing of a hash. *)
Class Sp1Keys := {
  Sp1ProvingKey : Type;
  setup_elf : Bytes → result string Sp1ProvingKey;
  hash_bytes : Sp1ProvingKey → B256;
  hash_u32 : Sp1ProvingKey → list Z;
  B256_display : B256 → string;
}.

(** [{:?}] of an array of integers *)
Fixpoint debug_entries (l : list Z) : string :=
  match l with
  | [] => ""
  | [n] => display_uint n
  | n :: l => display_uint n +:+ ", " +:+ debug_entries l
  end.
Definition debug_array (l : list Z) : string := "[" +:+ debug_entries l +:+ "]".

Module VkeyBin.
Record Cli := { elf : Bytes; hex : bool }.

(** The line that is printed. *)
Definition main `{!Sp1Keys} (fs_read : Bytes → result string Bytes) (cli : Cli) : outcome string :=
  canoe_client_elf ← expect (fs_read (elf cli));
  pk ← expect (setup_elf canoe_client_elf);
  if hex cli then Done (B256_display (hash_bytes pk))
  else Done ("canoe sp1cc v_key " +:+ debug_array (hash_u32 pk)).
End VkeyBin.

(** ** What the script does *)

Section theory.
Context `{!Risc0Build W}.
Implicit Types s : BuildProcess W.

Definition toolchain_ar (home : Bytes) : Bytes := path_join home (str ".risc0/cpp/bin/riscv32-unknown-elf-ar").

Lemma externally_Done_inv {A} (m : M W A) s a s' :
  SteelBuild.externally m s = Done (a, s') →
  m (outside s) = Done (a, outside s') ∧ environment s' = environment s ∧ printed s' = printed s.
Proof. unfold SteelBuild.externally, zoom. destruct (m (outside s)) as [[x w]|]; [|done]. by intros [= <- <-]. Qed.

(** The archiver of the environment stays; without one it becomes the toolchain's, if that
    exists in the home directory. *)
Lemma choose_archiver_Done s u s' :
  SteelBuild.choose_archiver s = Done (u, s') →
  printed s' = printed s ∧
  (environment s' = environment s ∨
   environment s !! SteelBuild.AR = None ∧ ∃ home w, env_var (environment s) "HOME" = Ok home ∧
     path_exists (toolchain_ar home) (outside s) = Done (true, w) ∧
     environment s' = <[SteelBuild.AR := toolchain_ar home]> (environment s)).
Proof.
  unfold SteelBuild.choose_archiver. intros (s0 & s1 & [= <- <-] & Hr)%M_bind_Done_inv.
  destruct (environment s !! SteelBuild.AR) as [v|] eqn:Har; [injection Hr as _ <-; auto|].
  destruct (env_var (environment s) "HOME") as [home|e] eqn:Hhome; [|injection Hr as _ <-; auto].
  apply M_bind_Done_inv in Hr as (found & s1 & (Hex & He & Hp)%externally_Done_inv & Hr).
  destruct found; injection Hr as _ <-; [|auto]. cbn. rewrite He, Hp. split; [done|].
  right. split; [done|]. by exists home, (outside s1).
Qed.

(** A finished build has built the guest in the environment that the script leaves, in
    docker exactly if RISC0_USE_DOCKER is set to Unicode, and has written its files. *)
Theorem steel_build_done s u s' :
  SteelBuild.main s = Done (u, s') →
  (environment s' = environment s ∨
   environment s !! SteelBuild.AR = None ∧ ∃ home, env_var (environment s) "HOME" = Ok home ∧
     environment s' = <[SteelBuild.AR := toolchain_ar home]> (environment s)) ∧
  printed s' = printed s ++ ["cargo:rerun-if-env-changed=RISC0_USE_DOCKER"; "cargo:rerun-if-changed=build.rs"] ∧
  ∃ dir builder opts guests w1 w2, environment s !! "CARGO_MANIFEST_DIR"%string = Some dir ∧
    SteelBuild.guest_builder (environment s) dir = Done builder ∧ guest_options_build builder = Ok opts ∧
    embed_methods_with_options (environment s') {[ "cert-verification-guests"%string := opts ]} w1 =
      Done (guests, w2) ∧
    generate_solidity_files guests SteelBuild.solidity_opts w2 = Done (Ok tt, outside s').
Proof.
  unfold SteelBuild.main. intros (u1 & s1 & [= <- <-] & Hr)%M_bind_Done_inv.
  apply M_bind_Done_inv in Hr as (u2 & s2 & [= <- <-] & Hr).
  apply M_bind_Done_inv in Hr as (u3 & s3 & [Hprint Henv]%choose_archiver_Done & Hr).
  apply M_bind_Done_inv in Hr as (s4 & s5 & [= <- <-] & Hr).
  apply lift_bind_Done_inv in Hr as (dir & Hdir%opt_expect_Done & Hr).
  apply lift_bind_Done_inv in Hr as (builder & Hbuilder & Hr).
  apply lift_bind_Done_inv in Hr as (opts & Hopts%expect_Done & Hr).
  apply M_bind_Done_inv in Hr as (guests & s4 & (Hembed & He4 & Hp4)%externally_Done_inv & Hr).
  apply M_bind_Done_inv in Hr as (written & s5 & (Hfiles & He5 & Hp5)%externally_Done_inv & Hr).
  unfold lift in Hr. destruct (expect written) as [v|] eqn:Hw; [|done].
  apply expect_Done in Hw. injection Hr as _ <-. cbn [environment printed outside] in *.
  assert (Hlookup : ∀ name, name ≠ SteelBuild.AR → environment s3 !! name = environment s !! name).
  { intros name Hname. destruct Henv as [->|(_ & home & w & _ & _ & ->)]; [done|by apply lookup_insert_ne]. }
  rewrite He5, He4, Hp5, Hp4, Hprint. split_and!.
  - destruct Henv as [?|(? & home & w & ? & _ & ?)]; [by left|right; eauto].
  - by rewrite <-app_assoc.
  - exists dir, builder, opts, guests, (outside s3), (outside s4). rewrite Hlookup in Hdir by done.
    unfold SteelBuild.guest_builder, env_var in Hbuilder |- *. rewrite Hlookup in Hbuilder by done.
    destruct v. subst written. by split_and!.
Qed.
End theory.

(** ** Examples *)

Module BuildExample.
#[export] Instance bare_build : Risc0Build unit := {|
  path_exists p := mret (bool_decide (p = str "/home/x/.risc0/cpp/bin/riscv32-unknown-elf-ar"));
  DockerOptionsBuilder := unit; DockerOptionsBuilder_default := tt;
  docker_container_tag _ b := b; root_dir _ b := b;
  DockerOptions := unit; docker_options_build := Ok;
  GuestOptionsBuilder := bool; GuestOptionsBuilder_default := false; use_docker _ _ := true;
  GuestOptions := bool; guest_options_build := Ok;
  GuestListEntry := unit; embed_methods_with_options _ _ := mret [tt];
  SolidityOptions := unit; SolidityOptions_default := tt;
  with_image_id_sol_path _ o := o; with_elf_sol_path _ o := o;
  generate_solidity_files _ _ := mret (Ok tt);
|}.

Definition process (env : Environment) : BuildProcess unit :=
  {| environment := env; printed := []; outside := tt |}.
Definition directories : Environment :=
  {[ "CARGO_MANIFEST_DIR"%string := str "/src/canoe/steel/methods"; "HOME"%string := str "/home/x" ]}.
Definition archiver_after (env : Environment) : option (option Bytes) :=
  match SteelBuild.main (process env) with
  | Done (_, s) => Some (environment s !! SteelBuild.AR)
  | Panic => None
  end.

Lemma archiver_found :
  archiver_after directories = Some (Some (str "/home/x/.risc0/cpp/bin/riscv32-unknown-elf-ar")) ∧
  archiver_after (<[SteelBuild.AR := str "ar"]> directories) = Some (Some (str "ar")) ∧
  archiver_after (<["HOME"%string := str "/root"]> directories) = Some None ∧
  archiver_after (delete "CARGO_MANIFEST_DIR"%string directories) = None.
Proof. vm_decide. Qed.

(** A two-byte character, an overlong slash, a surrogate, and the last code point. *)
Lemma unicode_forms :
  is_unicode <$> [[xc3; xa9]; [xc0; xaf]; [xed; xa0; x80]; [xf4; x8f; xbf; xbf]; [xf4; x90; x80; x80]; [xe2; x82]] =
  [true; false; false; true; false; false].
Proof. vm_decide. Qed.

Lemma debug_array_form : debug_array [1; 20; 300] = "[1, 20, 300]"%string.
Proof. vm_decide. Qed.
End BuildExample.
