(* ===== verification/HostTheory.v ===== *)
(** * The host and the client together

    The client's oracle is kona's online host (bin/host/src/cfg.rs, handler.rs): it
    remembers the hint written last, fetches it when a key is read that is not stored, and
    does so again after every error of the handler.  Over a proxy that tells the truth the
    client's provider reads back the validities and the payloads of the DA world. *)

From S2P Require Export RlpInstance DataSource Host.

(** ** Calls that end *)

(** [m] returns from [s], and an error uses up one of the [left] failures. *)
Definition ends {S A} (left : S → nat) (m : M S (result string A)) (s : S) : Prop :=
  ∃ r s', m s = Done (r, s') ∧ (left s' ≤ left s)%nat ∧ ∀ e, r = Err e → (left s' < left s)%nat.

Lemma try_bind_ends {S A B} (left : S → nat) (m : M S (result string A))
    (f : A → M S (result string B)) s :
  ends left m s → (∀ a s', m s = Done (Ok a, s') → ends left (f a) s') → ends left (try_bind m f) s.
Proof.
  intros (r & s1 & Hm & Hle & Hlt) Hf. unfold ends, try_bind. rewrite Hm. destruct r as [a|e].
  - destruct (Hf a s1 Hm) as (r2 & s2 & -> & Hle2 & Hlt2). exists r2, s2.
    split_and!; [done|lia|]. intros e He. specialize (Hlt2 e He). lia.
  - exists (Err e), s1. split_and!; [done..|]. intros _ _. by eapply Hlt.
Qed.

Lemma mret_ends {S A} (left : S → nat) (a : A) s : ends left (mret (M := M S) (Ok a)) s.
Proof. exists (Ok a), s. by split_and!. Qed.

(** ** kona's online host *)

Section reads.
Context `{!Alloy, !KonaPreimage, !Reqwest Net, !KeyValueStore K}.
Local Abbreviation HS := (OnlineEigenDAPreimageProvider Net * K)%type.
Context (kona_fetch_hint : HintType → Bytes → M HS (result string unit)).
Local Abbreviation hint := (ExtendedHintType * Bytes)%type.

(** The handler runs until it succeeds: "for all returned errors, they are handled by the
    kona host library, and currently this triggers an infinite retry loop" (handler.rs). *)
Inductive hint_runs (hn : hint) : HS → HS → Prop :=
| hint_ok h h' : fetch_hint kona_fetch_hint hn.1 hn.2 h = Done (Ok tt, h') → hint_runs hn h h'
| hint_retry h e h1 h' :
    fetch_hint kona_fetch_hint hn.1 hn.2 h = Done (Err e, h1) → hint_runs hn h1 h' → hint_runs hn h h'.

(** A read of the key [k] when [hn] was the last hint: the key is stored, or it is after
    the hint was fetched.  A key that the handler does not store is not read at all. *)
Inductive host_reads (hn : hint) (k : PreimageKey) (h : HS) : Bytes → HS → Prop :=
| read_stored v : kv_lookup h.2 k = Some v → host_reads hn k h v h
| read_fetched v h' :
    kv_lookup h.2 k = None → hint_runs hn h h' → kv_lookup h'.2 k = Some v → host_reads hn k h v h'.
End reads.

(** The states of the host behind the oracle: the provider and the store of
    [fetch_eigenda_hint], the hint remembered last, and how often the channel between
    client and host may still fail. *)
Class OnlineHost (T Net K : Type) `{!KonaPreimage, !Reqwest Net} := {
  online_of : T → OnlineEigenDAPreimageProvider Net;
  store_of : T → K;
  last_hint : T → option (ExtendedHintType * Bytes);
  channel_failures : T → nat;
}.

Section online_host.
Context `{!Alloy, !KonaPreimage, !CommsClient T, !Reqwest Net, !KeyValueStore K, !OnlineHost T Net K}.

Definition host_of (t : T) : OnlineEigenDAPreimageProvider Net * K := (online_of t, store_of t).
Definition cert_hint (c : AltDACommitment) : ExtendedHintType * Bytes := (EigenDACert, to_rlp_bytes c).
Definition hinted (c : AltDACommitment) (t : T) : Prop := last_hint t = Some (cert_hint c).

(** A certificate's hint is not fetched when it is written (cfg.rs makes only the hint
    [L2PayloadWitness] proactive) but remembered; a read is answered as [host_reads] says.
    The channel's errors are retryable ones: after an I/O error the client gives up. *)
Class OnlineHostLaws (D : AltDACommitment → Prop)
    (kona_fetch_hint : HintType → Bytes →
      M (OnlineEigenDAPreimageProvider Net * K) (result string unit)) := {
  online_write t c : D c →
    replied channel_failures (λ t', host_of t' = host_of t) (hinted c) tt t
      (oracle_write (encode_with EigenDACert [to_rlp_bytes c]) t);
  online_get t c k v h' : D c → hinted c t →
    host_reads kona_fetch_hint (cert_hint c) k (host_of t) v h' →
    replied channel_failures (λ t', host_of t' = host_of t ∨ host_of t' = h')
      (λ t', host_of t' = h' ∧ hinted c t') v t (oracle_get k t);
  online_get_exact t c k v h' n : D c → hinted c t →
    host_reads kona_fetch_hint (cert_hint c) k (host_of t) v h' → length v = n →
    replied channel_failures (λ t', host_of t' = host_of t ∨ host_of t' = h')
      (λ t', host_of t' = h' ∧ hinted c t') v t (oracle_get_exact k n t);
}.
End online_host.

(** ** Proxy and store *)

(** An encoded payload as EigenDA has it: field elements, the top three bits of each zero. *)
Definition canonical_payload (p : Bytes) : Prop :=
  p ≠ [] ∧ (length p mod 32 = 0)%nat ∧ Forall (λ chunk, u8_to_Z (chunk !!! 0%nat) < 32) (chunks_exact 32 p).

Section environment.
Context `{!Alloy, !KonaPreimage, !Reqwest Net, !KeyValueStore K}.
Context (w : DAWorld) (D : AltDACommitment → Prop) (bn : Z).

(** The proxy tells the truth about every certificate of [D], whatever its state. *)
Definition truthful_proxy : Prop := ∀ c p stage p',
  D c → fetch_data_from_proxy (to_rlp_bytes c) p = Done (Ok stage, p') → stage_truthful w c stage.

(** The certificates of [D] are well formed and survive their own encoding. *)
Definition sound_domain : Prop := ∀ c, D c →
  AltDACommitment_wf c = true ∧ try_from (to_rlp_bytes c) = Ok c ∧ blob_sized w c.

(** Requests to the proxy and writes to the store return and fail finitely often; the
    payloads that the proxy hands out are canonical; and its recency test (the request
    names no inclusion block) is not stricter than the derivation's at the block [bn]. *)
Class HostEnvironment (net_failures : OnlineEigenDAPreimageProvider Net → nat)
    (kv_failures : K → nat) := {
  proxy_ends c p : D c → ends net_failures (fetch_data_from_proxy (to_rlp_bytes c)) p;
  proxy_canonical c p stage p' : D c →
    fetch_data_from_proxy (to_rlp_bytes c) p = Done (Ok stage, p') →
    is_valid_cert stage = true → pass_recency_check stage = true →
    canonical_payload (stage_encoded_payload stage);
  proxy_lenient c p stage p' : D c → is_valid w c = true → passes_recency bn c →
    fetch_data_from_proxy (to_rlp_bytes c) p = Done (Ok stage, p') → pass_recency_check stage = true;
  kv_set_ends k v kv : ends kv_failures (kv_set k v) kv;
}.
End environment.

Section handler_ends.
Context `{!Alloy, !AlloyLaws, !KonaPreimage, !Reqwest Net, !KeyValueStore K, !KeyValueStoreLaws}.
Context (w : DAWorld) (D : AltDACommitment → Prop) (bn : Z).
Context (net_failures : OnlineEigenDAPreimageProvider Net → nat) (kv_failures : K → nat).
Context `{HE : !HostEnvironment w D bn net_failures kv_failures}.
Local Abbreviation HS := (OnlineEigenDAPreimageProvider Net * K)%type.

Lemma set_ends k v kv : ends kv_failures (kv_set k v) kv.
Proof. by destruct HE. Qed.

Definition host_failures (h : HS) : nat := net_failures h.1 + kv_failures h.2.

Lemma on_online_ends {A} (m : M _ (result string A)) h :
  ends net_failures m h.1 → ends host_failures (on_online m) h.
Proof.
  intros (r & p & Hm & Hle & Hlt). exists r, (p, h.2). unfold on_online, zoom, host_failures. rewrite Hm.
  cbn. split_and!; [done|lia|]. intros e He. specialize (Hlt e He). lia.
Qed.
Lemma on_kv_ends {A} (m : M _ (result string A)) h :
  ends kv_failures m h.2 → ends host_failures (on_kv m) h.
Proof.
  intros (r & kv & Hm & Hle & Hlt). exists r, (h.1, kv). unfold on_kv, zoom, host_failures. rewrite Hm.
  cbn. split_and!; [done|lia|]. intros e He. specialize (Hlt e He). lia.
Qed.

Lemma check_canonical chunks :
  Forall (λ chunk, u8_to_Z (chunk !!! 0%nat) < 32) chunks → check_field_elements chunks = Ok tt.
Proof.
  induction 1 as [|chunk chunks Hc _ IH]; [done|]. cbn [check_field_elements].
  rewrite bool_decide_false; [done|]. intros Hland. apply Hland.
  assert (Hb : ∀ b : byte, u8_to_Z b < 32 → Z.land (u8_to_Z b) 0xe0 = 0) by (by intros []).
  by apply Hb.
Qed.

Lemma store_field_elements_ends n i key p q kv :
  ends kv_failures (store_field_elements n i key p q) kv.
Proof.
  revert i key kv. induction n as [|n IH]; intros i key kv; cbn [store_field_elements].
  { apply mret_ends. }
  eapply try_bind_ends; [case_bool_decide; apply set_ends|]. intros _ kv' _. apply IH.
Qed.

Lemma store_encoded_payload_ends c p kv :
  canonical_payload p → ends kv_failures (store_encoded_payload c p) kv.
Proof.
  intros (Hne & Hmod & Hchunks). unfold store_encoded_payload, mbind, M_bind, lift.
  rewrite bool_decide_true by done. rewrite bool_decide_false by done. cbn [negb andb assert].
  eapply try_bind_ends; [rewrite check_canonical by done; apply mret_ends|].
  intros _ kv' _. apply store_field_elements_ends.
Qed.

(** The handler returns, and fails only if the proxy or the store does. *)
Lemma fetch_eigenda_hint_ends c h :
  D c → try_from (to_rlp_bytes c) = Ok c → ends host_failures (fetch_eigenda_hint (to_rlp_bytes c)) h.
Proof.
  intros HD Hparse. unfold fetch_eigenda_hint. rewrite Hparse. cbn [map_err].
  eapply try_bind_ends; [apply mret_ends|]. intros c1 h1 [= <- <-].
  eapply try_bind_ends; [apply on_online_ends; by destruct HE; auto|]. intros stage h2 Hf.
  eapply try_bind_ends; [apply on_kv_ends, set_ends|]. intros _ h3 _.
  destruct (is_valid_cert stage) eqn:Hv; cbn [negb]; [|apply mret_ends].
  destruct (pass_recency_check stage) eqn:Hr; cbn [negb]; [|apply mret_ends].
  eapply try_bind_ends; [|intros; apply mret_ends].
  apply on_kv_ends, store_encoded_payload_ends. unfold on_online, zoom in Hf.
  destruct (fetch_data_from_proxy _ h.1) as [[r p]|] eqn:Hp; [|done]. injection Hf as -> _.
  by eapply proxy_canonical.
Qed.

Context (kona_fetch_hint : HintType → Bytes → M HS (result string unit)).
Context (Hfree : collision_free D) (Hsound : sound_domain w D) (Htrue : truthful_proxy (Net := Net) w D).

(** So the fetch of a certificate's hint comes to an end, with everything that a
    derivation at [bn] reads in the store. *)
Lemma hint_runs_end c h : D c → kv_agrees w D h.2 →
  ∃ h', hint_runs kona_fetch_hint (cert_hint c) h h' ∧ kv_agrees w D h'.2 ∧
    ∀ k v, read_at w bn c k v → kv_lookup h'.2 k = Some v.
Proof.
  intros HD. destruct (Hsound c HD) as (_ & Hparse & _).
  induction h as [h IH] using (induction_ltof1 _ host_failures). unfold ltof in IH. intros Hag.
  destruct (fetch_eigenda_hint_ends c h HD Hparse) as (r & h1 & Hrun & _ & Hlt).
  destruct h as [p kv], h1 as [p1 kv1].
  destruct (fetch_eigenda_hint_extends w D Hfree (λ c HD, proj1 (Hsound c HD)) c _ _ _ _ _ HD Hparse
    (λ p1 stage, Htrue c _ stage p1 HD) Hag Hrun) as [[Hag1 _] Hr].
  destruct r as [[]|e].
  - exists (p1, kv1). split_and!; [by apply hint_ok|done|]. destruct (Hr eq_refl) as (stage & Hf & Hv & Hhas).
    intros k v [Hpre Hread]. cbn [snd]. destruct Hread as [->|Hpass].
    + destruct (Hsound c HD) as (Hwf & _).
      by rewrite (preimage_of_functional w D c c _ v _ Hfree HD HD Hwf Hwf Hpre (preimage_validity w c)).
    + destruct Hpre as [|i Hval Hi]; [done|].
      apply Hhas; [|by apply preimage_field_element]. by destruct HE; eauto.
  - destruct (IH (p1, kv1)) as (h' & Hruns & ?); [by eapply Hlt|done|].
    exists h'. split; [by eapply hint_retry|done].
Qed.

(** Every preimage that a derivation at [bn] reads is read from the host. *)
Lemma host_reads_preimage c k v h : D c → kv_agrees w D h.2 → read_at w bn c k v →
  ∃ h', host_reads kona_fetch_hint (cert_hint c) k h v h' ∧ kv_agrees w D h'.2.
Proof.
  intros HD Hag Hread. destruct (kv_lookup h.2 k) as [v'|] eqn:Hk.
  - exists h. split; [|done]. apply read_stored. rewrite Hk. f_equal. by eapply Hag, Hk; [|apply Hread].
  - destruct (hint_runs_end c h HD Hag) as (h' & Hruns & Hag' & Hall). exists h'.
    split; [|done]. apply read_fetched; [done..|]. by apply Hall.
Qed.

Context `{!CommsClient T, !OnlineHost T Net K, !OnlineHostLaws D kona_fetch_hint}.

Definition store_agrees (t : T) : Prop := kv_agrees w D (store_of t).

Lemma store_agrees_host t h : host_of t = h → kv_agrees w D h.2 → store_agrees t.
Proof. by intros <-. Qed.

Lemma online_host_answers : AnswersFrom w D bn store_agrees hinted channel_failures.
Proof.
  assert (Hreply : ∀ (t : T) c v h' (o : outcome (result PreimageOracleError Bytes * T)),
    store_agrees t → kv_agrees w D h'.2 →
    replied channel_failures (λ t', host_of t' = host_of t ∨ host_of t' = h')
      (λ t', host_of t' = h' ∧ hinted c t') v t o →
    replied channel_failures store_agrees (hinted c) v t o).
  { intros t c v h' o Hag Hag' (r & t' & -> & Hh & Hr). exists r, t'. split_and!; [done| |].
    - destruct Hh as [Hh|Hh]; by eapply store_agrees_host.
    - destruct Hr as [(? & [_ ?] & ?)|?]; [by left|by right]. }
  split.
  - intros t c Hag HD. destruct (online_write t c HD) as (r & t' & -> & Hh & Hr).
    exists r, t'. split_and!; [done|by eapply store_agrees_host|done].
  - intros t c k v Hag HD Hhint Hread.
    destruct (host_reads_preimage c k v (host_of t) HD Hag Hread) as (h' & Hreads & Hag').
    by eapply Hreply, online_get.
  - intros t c k v n Hag HD Hhint Hread Hn.
    destruct (host_reads_preimage c k v (host_of t) HD Hag Hread) as (h' & Hreads & Hag').
    by eapply Hreply, online_get_exact.
Qed.
End handler_ends.

(** ** Properties *)

(** kona's hint types are printed and parsed back, and none is the certificate's. *)
Class HintTypeLaws `{!KonaPreimage} := {
  HintType_round_trip h : HintType_from_str (HintType_into h) = Ok h;
  HintType_not_eigenda h : HintType_into h ≠ "eigenda-certificate"%string;
}.

Section claims.
Context `{!Alloy, !AlloyLaws, !KonaPreimage}.

(** Every hint type parses back from its text, the certificate hint and kona's own. *)
Theorem hint_round_trip `{!HintTypeLaws} (h : ExtendedHintType) :
  ExtendedHintType_from_str (ExtendedHintType_into h) = Ok h.
Proof.
  unfold ExtendedHintType_from_str. destruct h as [h|]; cbn [ExtendedHintType_into].
  - rewrite bool_decide_false by apply HintType_not_eigenda. by rewrite HintType_round_trip.
  - done.
Qed.

(** C31: Preimages of different certificates or of different kinds have different keys:
    if the hashes of two 80-byte addresses agree, the addresses are the same kind of
    address (validity, or field element of the same index) of the same certificate, or
    the addresses themselves, or the two serialisations, are a keccak256 collision. *)
Theorem preimage_addresses_separate (c c' : AltDACommitment) (a a' : Bytes)
    (Hc : AltDACommitment_wf c = true ∧ fits (to_rlp_bytes c) = true)
    (Hc' : AltDACommitment_wf c' = true ∧ fits (to_rlp_bytes c') = true)
    (Ha : addresses_of c a) (Ha' : addresses_of c' a') (Heq : keccak256 a = keccak256 a') :
  (c = c' ∧ a = a' ∧ (a = validity_address c ∨
    ∃ i, 0 ≤ i < get_num_field_element c ∧ a = field_element_address c i)) ∨
  (a ≠ a' ∧ keccak256 a = keccak256 a') ∨
  (to_rlp_bytes c ≠ to_rlp_bytes c' ∧
   keccak256 (to_rlp_bytes c) = keccak256 (to_rlp_bytes c')).
Proof.
  destruct (decide (a = a')) as [->|Hne]; [|right; by left].
  destruct Hc as [Hwf Hfit], Hc' as [Hwf' Hfit'].
  assert (Hd : to_digest c = to_digest c').
  { unfold addresses_of in *.
    assert (Hpre : ∀ c a, addresses_of c a → take 32 a = to_digest c).
    { intros c0 a0 [->|(i & _ & ->)]; rewrite ?validity_address_eq, ?field_element_address_eq;
        by rewrite take_app_length' by (symmetry; apply length_to_digest). }
    by rewrite <-(Hpre c a'), <-(Hpre c' a'). }
  destruct (decide (to_rlp_bytes c = to_rlp_bytes c')) as [Hb|Hb]; [|right; right; by split].
  left. split; [|split; [done|exact Ha]]. by apply to_rlp_bytes_inj.
Qed.

Context `{!Reqwest Net}.

(** C25: What the host makes of the proxy's response: it accepts a success status with
    its body as a valid, recent certificate, a 418 with code 3 as an invalid and one
    with code 2 as a not recent certificate; every other response is an error. *)
Theorem proxy_response_meaning (response : HttpResponse) (stage : ProxyDerivationStage) :
  handle_response response = Ok stage ↔
  (200 ≤ http_status response < 300 ∧ ∃ body, http_bytes response = Ok body ∧
     stage = {| is_valid_cert := true; pass_recency_check := true; stage_encoded_payload := body |}) ∨
  (http_status response = 418 ∧ ∃ d, http_json response = Ok d ∧
     ((status_code d = 3 ∧
       stage = {| is_valid_cert := false; pass_recency_check := true; stage_encoded_payload := [] |}) ∨
      (status_code d = 2 ∧
       stage = {| is_valid_cert := true; pass_recency_check := false; stage_encoded_payload := [] |}))).
Proof.
  unfold handle_response, is_success, HTTP_RESPONSE_STATUS_CODE_TEAPOT.
  case_bool_decide as Hs; cbn [negb].
  - destruct (http_bytes response) as [body|e]; cbn; naive_solver lia.
  - case_bool_decide as H418; [naive_solver lia|].
    destruct (http_json response) as [d|e]; cbn; [|naive_solver lia].
    unfold HostHandlerError_from, STATUS_CODE_INVALID_CERT, STATUS_CODE_RECENCY_ERROR,
      STATUS_CODE_CERT_PARSE_ERROR, STATUS_CODE_BLOB_DECODING_ERROR.
    repeat case_bool_decide; naive_solver lia.
Qed.

(** The proxy is asked once per certificate: after a request for c has succeeded,
    the validity and the payload of c come from the cached stage, without the network
    or any other change of state. *)
Theorem online_provider_cached (c : AltDACommitment) (s s' : OnlineEigenDAPreimageProvider Net)
    (stage : ProxyDerivationStage) (Hfetch : get_or_fetch_payload c s = Done (Ok stage, s')) :
  last_entry s' = Some (c, stage) ∧
  get_validity c s' = Done (Ok (is_valid_cert stage), s') ∧
  get_encoded_payload c s' = Done (Ok {| encoded_payload := stage_encoded_payload stage |}, s').
Proof.
  assert (Hlast : last_entry s' = Some (c, stage)).
  { revert Hfetch. unfold get_or_fetch_payload, mbind, M_bind, get, try_bind, modify, mret, M_ret.
    destruct (last_entry s) as [[cached st]|] eqn:Hs; [case_bool_decide as Hc|].
    { intros [= <- <-]. by rewrite Hs, Hc. }
    all: destruct (fetch_data_from_proxy _ s) as [[[st'|e] s1]|]; cbn; [by intros [= -> <-]|done..]. }
  assert (Hcached : get_or_fetch_payload c s' = Done (Ok stage, s')).
  { unfold get_or_fetch_payload, mbind, M_bind, get. by rewrite Hlast, bool_decide_true. }
  split; [done|]. cbn [get_validity get_encoded_payload online_provider]. unfold try_bind.
  by rewrite Hcached.
Qed.

Context `{!KeyValueStore K, !KeyValueStoreLaws}.

(** The host stores preimages only: when the proxy tells the truth about c and
    no two addresses collide, fetch_eigenda_hint leaves a store whose entries for the
    certificates considered are still the right preimages and that keeps those it had;
    and when it returns without an error for a recent certificate, every preimage that
    the client can ask for about c is stored. *)
Theorem hint_handler_stores_preimages (w : DAWorld) (D : AltDACommitment → Prop) (c : AltDACommitment)
    (p p' : OnlineEigenDAPreimageProvider Net) (kv kv' : K) (r : result string unit)
    (Hfree : collision_free D) (Hwf : ∀ c, D c → AltDACommitment_wf c = true)
    (HD : D c) (Hparse : try_from (to_rlp_bytes c) = Ok c)
    (Htrue : ∀ p1 stage, fetch_data_from_proxy (to_rlp_bytes c) p = Done (Ok stage, p1) →
      stage_truthful w c stage)
    (Hag : kv_agrees w D kv)
    (Hrun : fetch_eigenda_hint (to_rlp_bytes c) (p, kv) = Done (r, (p', kv'))) :
  kv_agrees w D kv' ∧
  (∀ c k v, D c → preimage_of w c k v → kv_lookup kv k = Some v → kv_lookup kv' k = Some v) ∧
  (r = Ok tt → kv_lookup kv' (OracleProvider.key (validity_address c)) = Some [bool_byte (is_valid w c)] ∧
    ∃ stage, fetch_data_from_proxy (to_rlp_bytes c) p = Done (Ok stage, p') ∧
      (pass_recency_check stage = true → kv_has w c kv')).
Proof.
  destruct (fetch_eigenda_hint_extends w D Hfree Hwf c p kv r p' kv' HD Hparse Htrue Hag Hrun)
    as [[Hag' Hkeep] Hr].
  split_and!; [done..|]. intros Hok. destruct (Hr Hok) as (stage & ? & ? & ?). eauto.
Qed.

Context `{!CommsClient T}.

(** C13: What the hint handler stores is what the client reads back: over kona's online host,
    which fetches the last hint when a key that is not stored is read and again after every
    error, a proxy that tells the truth in canonical payloads and is no stricter about
    recency than the derivation, and a network and a store that fail finitely often, the
    oracle-backed provider returns the validity of every certificate considered (well
    formed, and without collisions among their addresses) and the whole encoded payload of
    a valid and recent one, or the retryable error of a channel that fails, which uses up
    one of the channel's failures; with a channel that does not fail these are exactly the
    answers.  It never panics and never waits for a key that the handler does not store. *)
Theorem host_serves_client `{!CommsClient T, !OnlineHost T Net K} (w : DAWorld)
    (D : AltDACommitment → Prop) (bn : Z) (net_failures : OnlineEigenDAPreimageProvider Net → nat)
    (kv_failures : K → nat) (kona_fetch_hint : HintType → Bytes →
      M (OnlineEigenDAPreimageProvider Net * K) (result string unit))
    `{!OnlineHostLaws D kona_fetch_hint, !HostEnvironment w D bn net_failures kv_failures}
    (Hfree : collision_free D) (Hsound : sound_domain w D) (Htrue : truthful_proxy (Net := Net) w D)
    (c : AltDACommitment) (s : OracleEigenDAPreimageProvider T) (HD : D c)
    (Hag : store_agrees w D (oracle s)) :
  served (store_agrees w D) channel_failures (hinted c) (is_valid w c) s (get_validity c s) ∧
  (is_valid w c = true → passes_recency bn c →
   served (store_agrees w D) channel_failures (hinted c) (blob_of w c) s (get_encoded_payload c s)).
Proof.
  pose proof (online_host_answers w D bn net_failures kv_failures kona_fetch_hint Hfree Hsound Htrue)
    as Hanswers.
  destruct (Hsound c HD) as (Hwf & _ & Hsize). split.
  - by apply (get_validity_served w D bn).
  - intros Hval Hpass. by apply (get_encoded_payload_served w D bn).
Qed.
End claims.
