(* ===== verification/Kzg.v ===== *)
(** * The KZG batch verifier (crates/sp1-bn-verifier/src)

    The verifier over substrate-bn: blobs as polynomials in evaluation form,
    Fiat-Shamir challenges, barycentric evaluation and the batched pairing check.
    The curve library is an interface; [KzgTheory] proves what the code computes
    with it. *)

From S2P Require Export Preloaded.

(** ** substrate_bn and sha2

    Lengths are [nat] for [usize]; a conversion from bytes fails on a wrong
    length.  [bn_msm] panics on empty slices. *)
Class SubstrateBn := {
  Fr : Type;
  Fr_eq_dec :: EqDecision Fr;
  Fr_zero : Fr;
  Fr_one : Fr;
  Fr_add : Fr → Fr → Fr;
  Fr_sub : Fr → Fr → Fr;
  Fr_mul : Fr → Fr → Fr;
  Fr_opp : Fr → Fr;
  Fr_inverse : Fr → option Fr;
  Fr_pow : Fr → Fr → Fr;
  Fr_from_bytes_be_mod_order : Bytes → option Fr;
  Fr_from_slice : Bytes → option Fr;
  Fr_into_u256 : Fr → Z;
  Fr_from_str : string → option Fr;
  Fq : Type;
  Fq_from_be_bytes_mod_order : Bytes → option Fq;
  Fq_from_str : string → option Fq;
  Fq_opp : Fq → Fq;
  Fq_cmp : Fq → Fq → comparison;
  (** [to_big_endian] into 32 bytes *)
  Fq_to_big_endian : Fq → option Bytes;
  AffineG1 : Type;
  AffineG1_new : Fq → Fq → option AffineG1;
  AffineG1_default : AffineG1;
  AffineG1_x : AffineG1 → Fq;
  AffineG1_y : AffineG1 → Fq;
  bn_G1 : Type;
  AffineG1_into : AffineG1 → bn_G1;
  AffineG1_from_jacobian : bn_G1 → option AffineG1;
  bn_msm : list AffineG1 → list Fr → outcome AffineG1;
  G1_is_zero : bn_G1 → bool;
  G1_one : bn_G1;
  G1_add : bn_G1 → bn_G1 → bn_G1;
  G1_sub : bn_G1 → bn_G1 → bn_G1;
  G1_neg : bn_G1 → bn_G1;
  G1_mul : bn_G1 → Fr → bn_G1;
  bn_G2 : Type;
  G2_one : bn_G2;
  (** [AffineG2::new_unchecked(Fq2::new(_, _), Fq2::new(_, _)).into()] *)
  G2_new_unchecked : Fq * Fq → Fq * Fq → bn_G2;
  bn_Gt : Type;
  bn_Gt_eq_dec :: EqDecision bn_Gt;
  bn_Gt_one : bn_Gt;
  pairing_batch : list (bn_G1 * bn_G2) → bn_Gt;
  sha2_256 : Bytes → Bytes;
}.

Declare Scope fr_scope.
Delimit Scope fr_scope with fr.
Infix "+" := Fr_add : fr_scope.
Infix "*" := Fr_mul : fr_scope.
Infix "-" := Fr_sub : fr_scope.

(** ** errors.rs *)

Inductive KzgError :=
| KzgInvalidInputLength
| KzgInvalidFieldElement
| KzgNotOnCurveError (s : string)
| KzgSerializationError
| KzgDomainError
| KzgInvalidDenominator
| KzgGenericError (s : string).

#[export] Instance KzgError_eq_dec : EqDecision KzgError.
Proof. solve_decision. Defined.

Definition KzgError_display (e : KzgError) : string :=
  match e with
  | KzgInvalidInputLength => "input length is invalid"
  | KzgInvalidFieldElement =>
      "blob length is not a multiple of 32 bytes or contains a non-canonical field element"
  | KzgNotOnCurveError s => "g1 point not on curve or not in subgroup: " +:+ s
  | KzgSerializationError => "commitment failed to deserialize"
  | KzgDomainError => "polynomial domain construction failed"
  | KzgInvalidDenominator => "inverse does not exist for given input"
  | KzgGenericError s => s
  end.

(** ** consts.rs *)

Definition SIZE_OF_G1_AFFINE_COMPRESSED : nat := 32.
Definition FIAT_SHAMIR_PROTOCOL_DOMAIN : Bytes :=
  String.list_byte_of_string "EIGENDA_FSBLOBVERIFY_V1_".
Definition RANDOM_CHALLENGE_KZG_BATCH_DOMAIN : Bytes :=
  String.list_byte_of_string "EIGENDA_RCKZGBATCH___V1_".
(** [MAINNET_SRS_G1_SIZE], a [usize] *)
Definition MAINNET_SRS_G1_SIZE : Z := 268435456.

Definition PRIMITIVE_ROOTS_OF_UNITY_DEC : list string := [
  "1";
  "21888242871839275222246405745257275088548364400416034343698204186575808495616";
  "21888242871839275217838484774961031246007050428528088939761107053157389710902";
  "19540430494807482326159819597004422086093766032135589407132600596362845576832";
  "14940766826517323942636479241147756311199852622225275649687664389641784935947";
  "4419234939496763621076330863786513495701855246241724391626358375488475697872";
  "9088801421649573101014283686030284801466796108869023335878462724291607593530";
  "10359452186428527605436343203440067497552205259388878191021578220384701716497";
  "3478517300119284901893091970156912948790432420133812234316178878452092729974";
  "6837567842312086091520287814181175430087169027974246751610506942214842701774";
  "3161067157621608152362653341354432744960400845131437947728257924963983317266";
  "1120550406532664055539694724667294622065367841900378087843176726913374367458";
  "4158865282786404163413953114870269622875596290766033564087307867933865333818";
  "197302210312744933010843010704445784068657690384188106020011018676818793232";
  "20619701001583904760601357484951574588621083236087856586626117568842480512645";
  "20402931748843538985151001264530049874871572933694634836567070693966133783803";
  "421743594562400382753388642386256516545992082196004333756405989743524594615";
  "12650941915662020058015862023665998998969191525479888727406889100124684769509";
  "11699596668367776675346610687704220591435078791727316319397053191800576917728";
  "15549849457946371566896172786938980432421851627449396898353380550861104573629";
  "17220337697351015657950521176323262483320249231368149235373741788599650842711";
  "13536764371732269273912573961853310557438878140379554347802702086337840854307";
  "12143866164239048021030917283424216263377309185099704096317235600302831912062";
  "934650972362265999028062457054462628285482693704334323590406443310927365533";
  "5709868443893258075976348696661355716898495876243883251619397131511003808859";
  "19200870435978225707111062059747084165650991997241425080699860725083300967194";
  "7419588552507395652481651088034484897579724952953562618697845598160172257810";
  "2082940218526944230311718225077035922214683169814847712455127909555749686340";
  "19103219067921713944291392827692070036145651957329286315305642004821462161904"
].

Section kzg.
Context `{!SubstrateBn}.
Local Abbreviation OR A := (outcome (result KzgError A)).

(** The table of decimal literals read by [Fr::from_str]; [expect] panics. *)
Definition PRIMITIVE_ROOTS_OF_UNITY : outcome (list Fr) :=
  mapM_outcome (λ dec, match Fr_from_str dec with Some r => Done r | None => Panic end)
    PRIMITIVE_ROOTS_OF_UNITY_DEC.

Definition get_primitive_root_of_unity (power : nat) : outcome (option Fr) :=
  roots ← PRIMITIVE_ROOTS_OF_UNITY; Done (roots !! power).

Definition ok_or {A} (e : KzgError) (o : option A) : OR A :=
  match o with Some a => Done (Ok a) | None => Done (Err e) end.

(** [G2_TAU] and [g2_tau] *)
Definition g2_tau : outcome bn_G2 :=
  x_c0 ← opt_expect (Fq_from_str "19394299006376106554626551996044114846855237028623244664226757033024550999552");
  x_c1 ← opt_expect (Fq_from_str "10478571113809844268398751534081669357808742555529167819607714577862447855483");
  y_c0 ← opt_expect (Fq_from_str "9205262336805673656533560220225620941045451042642528799409071118332922267006");
  y_c1 ← opt_expect (Fq_from_str "10552783866161062341197740743287753408530108186218052255509661543860392060676");
  Done (G2_new_unchecked (x_c0, x_c1) (y_c0, y_c1)).

(** ** helpers.rs: encodings *)

Definition usize_to_be_bytes (number : nat) : Bytes := to_be_bytes 8 (Z.of_nat number).

Definition hash_to_field_element (msg : Bytes) : outcome Fr :=
  opt_expect (Fr_from_bytes_be_mod_order (sha2_256 msg)).

(** [\[base^0, ..., base^(count-1)\]] *)
Fixpoint powers_from (base current : Fr) (count : nat) : list Fr :=
  match count with
  | O => []
  | S count => current :: powers_from base (Fr_mul current base) count
  end.
Definition compute_powers (base : Fr) (count : nat) : list Fr := powers_from base Fr_one count.

Definition validate_g1_point (point : bn_G1) : result KzgError unit :=
  if G1_is_zero point then Ok tt
  else match AffineG1_from_jacobian point with
  | Some _ => Ok tt
  | None => Err (KzgNotOnCurveError "g1 point not on curve")
  end.

Definition g1_lincomb (points : list AffineG1) (scalars : list Fr) : OR bn_G1 :=
  if bool_decide (length points ≠ length scalars) then
    Done (Err (KzgGenericError "g1_lincomb: points and scalars have mismatched lengths"))
  else p ← bn_msm points scalars; Done (Ok (AffineG1_into p)).

Definition pairings_verify (a1 : bn_G1) (a2 : bn_G2) (b1 : bn_G1) (b2 : bn_G2) : bool :=
  bool_decide (pairing_batch [(a1, a2); (G1_neg b1, b2)] = bn_Gt_one).

Definition fq_to_le_bytes (value : Fq) : outcome Bytes :=
  be ← opt_expect (Fq_to_big_endian value); Done (rev be).

Definition fq_is_negative (y : Fq) : bool :=
  match Fq_cmp y (Fq_opp y) with Gt => true | _ => false end.

(** [bytes\[31\] |= flag] *)
Definition or_byte (i : nat) (flag : Z) (bytes : Bytes) : Bytes :=
  <[i := Z_to_u8 (Z.lor (u8_to_Z (bytes !!! i)) flag)]> bytes.

Definition serialize_g1_compressed (point : AffineG1) : outcome Bytes :=
  let jac := AffineG1_into point in
  if G1_is_zero jac then Done (<[31%nat := Z_to_u8 (Z.shiftl 1 6)]> (zeros 32))
  else
    bytes ← fq_to_le_bytes (AffineG1_x point);
    Done (if fq_is_negative (AffineG1_y point) then or_byte 31 (Z.shiftl 1 7) bytes else bytes).

Definition serialize_fr_le (value : Fr) : Bytes := rev (to_be_bytes 32 (Fr_into_u256 value)).

Definition canonical_chunk (chunk : Bytes) : result KzgError Fr :=
  match Fr_from_bytes_be_mod_order chunk, Fr_from_slice chunk with
  | Some reduced, Some direct =>
      if bool_decide (reduced ≠ direct) then Err KzgInvalidFieldElement else Ok direct
  | _, _ => Err KzgInvalidFieldElement
  end.

Definition to_fr_array_canonical (blob : Bytes) : result KzgError (list Fr) :=
  if bool_decide (length blob mod BYTES_PER_FIELD_ELEMENT ≠ 0)%nat then Err KzgInvalidInputLength
  else mapM_result canonical_chunk (chunks_exact BYTES_PER_FIELD_ELEMENT blob).

(** ** helpers.rs: polynomials *)

Record PolynomialEvalForm := {
  evaluations : list Fr;
  len_underlying_blob_bytes : nat;
}.

(** [usize::next_power_of_two]; [next_power_of_two(0) = 1]. *)
Definition next_power_of_two (n : nat) : nat := 2 ^ Nat.log2_up n.

(** [Vec::resize] to a length that is not smaller. *)
Definition pad_with {A} (n : nat) (a : A) (l : list A) : list A := l ++ replicate (n - length l) a.

Definition PolynomialEvalForm_new (evals : list Fr) : result KzgError PolynomialEvalForm :=
  if bool_decide (Z.of_nat (length evals) > MAINNET_SRS_G1_SIZE) then
    Err (KzgGenericError "Input size exceeds maximum polynomial size")
  else
    let underlying := (length evals * BYTES_PER_FIELD_ELEMENT)%nat in
    let next_pow2 := next_power_of_two (length evals) in
    Ok {| evaluations := pad_with next_pow2 Fr_zero evals; len_underlying_blob_bytes := underlying |}.

Definition poly_len (p : PolynomialEvalForm) : nat := length (evaluations p).

(** The loop of [to_byte_array]: [i] is the index of the next element. *)
Fixpoint to_byte_array_from (data_fr : list Fr) (i max_output_size : nat) (data : Bytes) : Bytes :=
  match data_fr with
  | [] => data
  | element :: data_fr =>
      let v := to_be_bytes 32 (Fr_into_u256 element) in
      let start := (i * BYTES_PER_FIELD_ELEMENT)%nat in
      let end_ := ((i + 1) * BYTES_PER_FIELD_ELEMENT)%nat in
      if bool_decide (max_output_size < end_)%nat then
        let slice_end := Nat.min (length v) (max_output_size - start) in
        copy_at start (take slice_end v) data
      else
        let actual_end := Nat.min end_ (length data) in
        to_byte_array_from data_fr (i + 1) max_output_size
          (copy_at start (take (actual_end - start) v) data)
  end.

Definition to_byte_array (data_fr : list Fr) (max_output_size : nat) : Bytes :=
  let n := length data_fr in
  let data_size := Nat.min (n * BYTES_PER_FIELD_ELEMENT) max_output_size in
  to_byte_array_from data_fr 0 max_output_size (zeros data_size).

(** [usize_to_decimal]: the digits of [n], last one first. *)
Fixpoint decimal_digits (fuel : nat) (x : Z) : list Ascii.ascii :=
  match fuel with
  | O => []
  | S fuel =>
      if bool_decide (x > 0) then
        Ascii.ascii_of_N (Z.to_N (x mod 10 + 48)) :: decimal_digits fuel (x / 10)
      else []
  end.
(** A [usize] has at most 20 decimal digits. *)
Definition usize_to_decimal (n : nat) : string :=
  if bool_decide (n = 0%nat) then "0"
  else String.string_of_list_ascii (rev (decimal_digits 20 (Z.of_nat n))).

Definition fr_from_usize (n : nat) : outcome Fr := opt_expect (Fr_from_str (usize_to_decimal n)).

(** ** helpers.rs: roots of unity *)

(** One round of the [while] loop, with [i] and [roots]; [inr] leaves it. *)
Definition expand_step (root : Fr) (s : nat * list Fr) : nat * list Fr + list Fr :=
  let '(i, roots) := s in
  let cur := nth i roots Fr_zero in
  if bool_decide (cur = Fr_one) then inr roots
  else inl ((i + 1)%nat, roots ++ [Fr_mul cur root]).

(** [i] runs from 1 while [i < MAINNET_SRS_G1_SIZE + 1]. *)
Definition expand_root_of_unity (root : Fr) : list Fr :=
  match iter_until (Z.to_pos MAINNET_SRS_G1_SIZE) (expand_step root) (1%nat, [Fr_one; root]) with
  | inl (_, roots) => roots
  | inr roots => roots
  end.

(** [trailing_zeros] of a [usize]; 64 for zero does not occur. *)
Fixpoint pos_trailing_zeros (p : positive) : nat :=
  match p with xO p => S (pos_trailing_zeros p) | _ => 0 end.
Definition trailing_zeros (n : nat) : nat :=
  match N.of_nat n with N0 => 64 | Npos p => pos_trailing_zeros p end.

Definition div_ceil (a b : Z) : Z := (a + b - 1) / b.

Definition calculate_roots_of_unity (length_of_data_after_padding : Z) : OR (list Fr) :=
  if bool_decide (length_of_data_after_padding = 0) then
    Done (Err (KzgGenericError "Length of data after padding is 0"))
  else
    let n_field_elements := div_ceil length_of_data_after_padding (Z.of_nat BYTES_PER_FIELD_ELEMENT) in
    if bool_decide (n_field_elements > MAINNET_SRS_G1_SIZE) then
      Done (Err (KzgGenericError "Length exceeds SRS"))
    else
      let target := next_power_of_two (Z.to_nat n_field_elements) in
      let log2 := trailing_zeros target in
      o ← get_primitive_root_of_unity log2;
      root ←! ok_or (KzgGenericError "power must be <= 28") o;
      let roots := expand_root_of_unity root in
      let last := (length roots - 1)%nat in
      Done (Ok (take last roots)).

(** ** helpers.rs: evaluation *)

(** The sum of the barycentric formula, with the sum so far. *)
Fixpoint barycentric_sum (pairs : list (Fr * Fr)) (z sum : Fr) : result KzgError Fr :=
  match pairs with
  | [] => Ok sum
  | (f_i, domain_i) :: pairs =>
      let a := Fr_mul f_i domain_i in
      let b := Fr_sub z domain_i in
      if bool_decide (b = Fr_zero) then
        Err (KzgGenericError "Division by zero in barycentric evaluation")
      else match Fr_inverse b with
      | None => Err KzgInvalidDenominator
      | Some b' => barycentric_sum pairs z (Fr_add sum (Fr_mul a b'))
      end
  end.

(** [iter().position(|d| *d == z)] *)
Fixpoint position (z : Fr) (l : list Fr) (i : nat) : option nat :=
  match l with
  | [] => None
  | d :: l => if bool_decide (d = z) then Some i else position z l (i + 1)
  end.

Definition evaluate_polynomial_in_evaluation_form (polynomial : PolynomialEvalForm) (z : Fr) : OR Fr :=
  let blob_size := len_underlying_blob_bytes polynomial in
  roots_of_unity ←! calculate_roots_of_unity (Z.of_nat blob_size);
  if bool_decide (poly_len polynomial ≠ length roots_of_unity) then Done (Err KzgInvalidInputLength)
  else
    let width := poly_len polynomial in
    w ← fr_from_usize width;
    inverse_width ←! ok_or KzgInvalidDenominator (Fr_inverse w);
    match position z roots_of_unity 0 with
    | Some idx => ok_or (KzgGenericError "polynomial element missing") (evaluations polynomial !! idx)
    | None =>
        sum ←! Done (barycentric_sum (zip (evaluations polynomial) roots_of_unity) z Fr_zero);
        w ← fr_from_usize width;
        let r := Fr_sub (Fr_pow z w) Fr_one in
        Done (Ok (Fr_mul (Fr_mul sum r) inverse_width))
    end.

(** ** helpers.rs: challenges *)

Definition compute_challenge (blob_poly : PolynomialEvalForm) (commitment : AffineG1) : OR Fr :=
  _ ←! Done (validate_g1_point (AffineG1_into commitment));
  let challenge_input_size := (length FIAT_SHAMIR_PROTOCOL_DOMAIN + 8 +
    poly_len blob_poly * BYTES_PER_FIELD_ELEMENT + SIZE_OF_G1_AFFINE_COMPRESSED)%nat in
  let buf := zeros challenge_input_size in
  let offset := 0%nat in
  let buf := copy_at offset FIAT_SHAMIR_PROTOCOL_DOMAIN buf in
  let offset := (offset + length FIAT_SHAMIR_PROTOCOL_DOMAIN)%nat in
  let buf := copy_at offset (usize_to_be_bytes (poly_len blob_poly)) buf in
  let offset := (offset + 8)%nat in
  let blob_bytes := to_byte_array (evaluations blob_poly) (poly_len blob_poly * BYTES_PER_FIELD_ELEMENT) in
  let buf := copy_at offset blob_bytes buf in
  let offset := (offset + length blob_bytes)%nat in
  commit_bytes ← serialize_g1_compressed commitment;
  let buf := copy_at offset commit_bytes buf in
  z ← hash_to_field_element buf;
  Done (Ok z).

Definition challenge_and_evaluate (pair : PolynomialEvalForm * AffineG1) : OR (Fr * Fr) :=
  z ←! compute_challenge pair.1 pair.2;
  y ←! evaluate_polynomial_in_evaluation_form pair.1 z;
  Done (Ok (z, y)).

Definition compute_challenges_and_evaluate_polynomial (blobs_data : list PolynomialEvalForm)
    (commitments : list AffineG1) : OR (list Fr * list Fr) :=
  if bool_decide (length blobs_data ≠ length commitments) && negb (bool_decide (length blobs_data = 0%nat)) then
    Done (Err (KzgGenericError "length's of the input are not the same or is empty"))
  else
    zys ←! mapM_or challenge_and_evaluate (zip blobs_data commitments);
    Done (Ok (zys.*1, zys.*2)).

(** ** batch.rs *)

Definition g1_point_to_affine (commitment : G1Point) : result KzgError AffineG1 :=
  let x_bytes := to_be_bytes 32 (x commitment) in
  let y_bytes := to_be_bytes 32 (y commitment) in
  match Fq_from_be_bytes_mod_order x_bytes with
  | None => Err KzgSerializationError
  | Some x =>
      match Fq_from_be_bytes_mod_order y_bytes with
      | None => Err KzgSerializationError
      | Some y =>
          match AffineG1_new x y with
          | None => Err (KzgNotOnCurveError "commitment not on curve")
          | Some affine => Ok affine
          end
      end
  end.

Definition proof_bytes_to_affine (proof : Bytes) : result KzgError AffineG1 :=
  match Fq_from_be_bytes_mod_order (take 32 proof) with
  | None => Err KzgSerializationError
  | Some x =>
      match Fq_from_be_bytes_mod_order (drop 32 proof) with
      | None => Err KzgSerializationError
      | Some y =>
          match AffineG1_new x y with
          | None => Err (KzgNotOnCurveError "proof not on curve")
          | Some affine => Ok affine
          end
      end
  end.

(** The bytes that the loop of [compute_r_powers] writes for one blob, at [offset]. *)
Definition write_entry (offset : nat) (entry : AffineG1 * Fr * Fr * AffineG1) (buf : Bytes) :
    outcome Bytes :=
  let '(commitment, z, y, proof) := entry in
  c ← serialize_g1_compressed commitment;
  let buf := copy_at offset c buf in
  let buf := copy_at (offset + 32) (serialize_fr_le z) buf in
  let buf := copy_at (offset + 64) (serialize_fr_le y) buf in
  p ← serialize_g1_compressed proof;
  Done (copy_at (offset + 96) p buf).

Fixpoint write_entries (offset : nat) (entries : list (AffineG1 * Fr * Fr * AffineG1)) (buf : Bytes) :
    outcome (nat * Bytes) :=
  match entries with
  | [] => Done (offset, buf)
  | e :: entries => buf ← write_entry offset e buf; write_entries (offset + 128) entries buf
  end.

(** [target_slice.chunks_mut(8).zip(blob_lengths)] on the slice from 24. *)
Fixpoint write_lengths (offset : nat) (blob_lengths : list Z) (buf : Bytes) : Bytes :=
  match blob_lengths with
  | [] => buf
  | l :: ls => write_lengths (offset + 8) ls (copy_at offset (to_be_bytes 8 l) buf)
  end.

(** The head of the transcript: everything before the entries. *)
Definition transcript_head (n : nat) (blob_lengths : list Z) : Bytes :=
  let input_size := (40 + n * (32 + 2 * 32 + 32 + 8))%nat in
  let buf := zeros input_size in
  let buf := copy_at 0 RANDOM_CHALLENGE_KZG_BATCH_DOMAIN buf in
  let buf := copy_at 32 (usize_to_be_bytes n) buf in
  write_lengths 24 (take n blob_lengths) buf.

Definition compute_r_powers (commitments : list AffineG1) (zs ys : list Fr) (proofs : list AffineG1)
    (blob_lengths : list Z) : OR (list Fr) :=
  let n := length commitments in
  let input_size := (40 + n * (32 + 2 * 32 + 32 + 8))%nat in
  let buf := transcript_head n blob_lengths in
  ob ← write_entries (40 + n * 8) (zip (zip (zip commitments zs) ys) proofs) buf;
  let '(offset, buf) := ob in
  if bool_decide (offset ≠ input_size) then Done (Err KzgInvalidInputLength)
  else r ← hash_to_field_element buf; Done (Ok (compute_powers r n)).

(** [Cᵢ - yᵢ·G] in affine coordinates. *)
Definition c_minus_y (commitment : AffineG1) (y : Fr) : outcome AffineG1 :=
  let ys_encrypted := G1_mul G1_one y in
  let ci_jac := AffineG1_into commitment in
  let diff := G1_sub ci_jac ys_encrypted in
  if G1_is_zero diff then Done AffineG1_default
  else opt_expect (AffineG1_from_jacobian diff).

Definition verify_kzg_proof_batch (commitments : list AffineG1) (zs ys : list Fr)
    (proofs : list AffineG1) (blob_lengths : list Z) : OR bool :=
  if negb (bool_decide (length commitments = length zs) && bool_decide (length zs = length ys) &&
           bool_decide (length ys = length proofs)) then
    Done (Err (KzgGenericError "length's of the input are not the same"))
  else
    _ ←! Done (mapM_result (λ c, validate_g1_point (AffineG1_into c)) commitments);
    _ ←! Done (mapM_result (λ p, validate_g1_point (AffineG1_into p)) proofs);
    r_powers ←! compute_r_powers commitments zs ys proofs blob_lengths;
    proof_lincomb ←! g1_lincomb proofs r_powers;
    c_minus_y ← mapM_outcome (λ '(c, y), c_minus_y c y) (zip commitments ys);
    let r_times_z := zip_with Fr_mul r_powers zs in
    proof_z_lincomb ←! g1_lincomb proofs r_times_z;
    c_minus_y_lincomb ←! g1_lincomb c_minus_y r_powers;
    let rhs_g1 := G1_add c_minus_y_lincomb proof_z_lincomb in
    tau ← g2_tau;
    Done (Ok (pairings_verify proof_lincomb tau rhs_g1 G2_one)).

Definition blob_polynomial (b : Bytes) : result KzgError PolynomialEvalForm :=
  evals ← to_fr_array_canonical b; PolynomialEvalForm_new evals.

Definition verify_blob_kzg_proof_batch (blobs : list Bytes) (commitments : list G1Point)
    (proofs : list Bytes) : OR bool :=
  polys ←! Done (mapM_result blob_polynomial blobs);
  commitments_aff ←! Done (mapM_result g1_point_to_affine commitments);
  proofs_aff ←! Done (mapM_result proof_bytes_to_affine proofs);
  if bool_decide (length commitments_aff ≠ length polys) || bool_decide (length proofs_aff ≠ length polys) then
    Done (Err (KzgGenericError "length's of the input are not the same"))
  else if bool_decide (length polys = 0%nat) then Done (Ok true)
  else
    zys ←! compute_challenges_and_evaluate_polynomial polys commitments_aff;
    let '(zs, ys) := zys in
    let blob_lengths := (λ poly, Z.of_nat (poly_len poly)) <$> polys in
    verify_kzg_proof_batch commitments_aff zs ys proofs_aff blob_lengths.

Definition batch_verify (blobs : list Bytes) (commitments : list G1Point) (proofs : list Bytes) :
    outcome bool :=
  r ← verify_blob_kzg_proof_batch blobs commitments proofs;
  Done (match r with Ok b => b | Err _ => false end).
End kzg.

(** The [sp1-bn] backend of the preloaded provider. *)
Definition sp1_bn_backend `{!SubstrateBn} : KzgBackend := {| Preloaded.batch_verify := batch_verify |}.
