(* ===== verification/Primality.v ===== *)
(** * Primality certificates

    Pocklington's criterion over the standard library's Fermat theorem: a boolean test on
    a factored part of [n - 1] that implies that [n] is prime, and trial division for the
    leaves of a certificate. *)

From S2P Require Export Prelude.
From Stdlib Require Import Znumtheory Zpow_facts.
From Stdlib Require ZmodInv.

(** ** Powers of one *)

Lemma pow_divides (p a m n : Z) :
  0 ≤ m → (m | n) → 0 ≤ n → a ^ m mod p = 1 → a ^ n mod p = 1.
Proof.
  intros Hm [k ->] Hn Ha. destruct (decide (m = 0)) as [->|Hm0]; [by rewrite Z.mul_0_r|].
  assert (Hp : 1 mod p = 1) by (rewrite <-Ha; apply Zmod_mod).
  assert (0 ≤ k) by nia. rewrite Z.mul_comm, Z.pow_mul_r, <-Z.mod_pow_l, Ha by lia.
  by rewrite Z.pow_1_l.
Qed.

(** Exponents of one are closed under greatest common divisors. *)
Lemma pow_gcd (p a x y : Z) :
  0 ≤ y → 0 ≤ x → a ^ x mod p = 1 → a ^ y mod p = 1 → a ^ Z.gcd x y mod p = 1.
Proof.
  intros Hy. revert x. induction (Z.lt_wf 0 y) as [y _ IH]. intros x Hx Hax Hay.
  destruct (decide (y = 0)) as [->|Hy0]; [by rewrite Z.gcd_0_r, Z.abs_eq|].
  rewrite Z.gcd_comm, <-Z.gcd_mod, Z.gcd_comm by lia.
  pose proof (Z.mod_pos_bound x y ltac:(lia)).
  apply IH; [lia|lia|lia|done|].
  assert (Hq : a ^ (y * (x / y)) mod p = 1).
  { apply (pow_divides p a y); [lia|by exists (x / y); lia| |done]. pose proof (Z.div_pos x y). nia. }
  rewrite (Z.div_mod x y), Z.pow_add_r in Hax by (try lia; pose proof (Z.div_pos x y); nia).
  by rewrite <-Zmult_mod_idemp_l, Hq, Z.mul_1_l in Hax.
Qed.

(** ** Divisors *)

Lemma prime_divisor (n : Z) : 1 < n → ∃ p, Z.prime p ∧ (p | n).
Proof.
  intros Hn. revert Hn. induction (Z.lt_wf 0 n) as [n _ IH]. intros Hn.
  destruct (prime_dec n) as [Hp|Hp]; [exists n; split; [by apply prime_alt|done]|].
  destruct (not_prime_divide n Hn Hp) as (d & Hd & Hdn).
  destruct (IH d) as (p & Hp' & Hpd); [lia|lia|]. exists p. split; [done|]. by transitivity d.
Qed.

(** A number without a prime divisor up to its square root is prime. *)
Lemma no_small_divisor (n : Z) :
  1 < n → (∀ p, Z.prime p → (p | n) → n < p * p) → Z.prime n.
Proof.
  intros Hn Hsmall. split; [done|]. intros d Hd [m ->].
  destruct (prime_divisor d) as (p & Hp & Hpd); [lia|].
  destruct (prime_divisor m) as (q & Hq & Hqm); [nia|].
  pose proof (Hsmall p Hp ltac:(by apply Z.divide_mul_r)).
  pose proof (Hsmall q Hq ltac:(by apply Z.divide_mul_l)).
  apply Z.divide_pos_le in Hpd; [|lia]. apply Z.divide_pos_le in Hqm; [|nia].
  pose proof (Z.prime_ge_2 p Hp). pose proof (Z.prime_ge_2 q Hq).
  assert (p * q ≤ m * d) by nia. destruct (Z.le_ge_cases p q); nia.
Qed.

Lemma coprime_mul_divide (a b n : Z) : Z.coprime a b → (a | n) → (b | n) → (a * b | n).
Proof.
  intros Hab [m ->] Hb. rewrite Z.mul_comm. apply Z.mul_divide_mono_r.
  apply (Z.gauss b a); [by rewrite Z.mul_comm|]. by rewrite Z.gcd_comm.
Qed.

(** ** The criterion *)

(** The order of [a] modulo a prime divisor of [n] has all of [q ^ k]. *)
Lemma pocklington_factor (n a p q k : Z) :
  1 < n → Z.prime p → (p | n) → a ^ (n - 1) mod n = 1 →
  Z.prime q → 1 ≤ k → (q ^ k | n - 1) → Z.gcd (a ^ ((n - 1) / q) - 1) n = 1 → (q ^ k | p - 1).
Proof.
  intros Hn Hp Hpn Ha Hq Hk Hdiv Hgcd. pose proof (Z.prime_ge_2 p Hp) as Hp2.
  pose proof (Z.prime_ge_2 q Hq) as Hq2.
  assert (Hap : a ^ (n - 1) mod p = 1).
  { rewrite <-(Z.mod_mod_divide _ n) by done. rewrite Ha. apply Z.mod_small. lia. }
  assert (Hpa : a mod p ≠ 0).
  { intros H0. rewrite <-Z.mod_pow_l, H0, Z.pow_0_l, Z.mod_0_l in Hap by lia. done. }
  pose proof (ZmodInv.Z.fermat_nz p a Hp Hpa) as Hfermat.
  set (g := Z.gcd (p - 1) (n - 1)).
  assert (Hg : a ^ g mod p = 1) by (apply pow_gcd; [lia|lia|done|done]).
  assert (Hgpos : 0 < g) by (pose proof (Z.gcd_nonneg (p - 1) (n - 1)); destruct (decide (g = 0)) as [H0|];
    [apply Z.gcd_eq_0_r in H0; lia|unfold g in *; lia]).
  destruct (Z.gcd_divide_r (p - 1) (n - 1)) as [m Hm]. fold g in Hm.
  destruct (decide (m mod q = 0)) as [[m' ->]%Z.mod_divide|Hqm]; [|lia|].
  - exfalso. assert (Hexp : (n - 1) / q = m' * g) by (rewrite Hm; symmetry; apply Z.div_unique_exact; lia).
    assert (H1 : a ^ ((n - 1) / q) mod p = 1).
    { apply (pow_divides p a g); [lia|rewrite Hexp; by exists m'| |done]. apply Z.div_pos; lia. }
    assert (Hd : (p | Z.gcd (a ^ ((n - 1) / q) - 1) n)).
    { apply Z.gcd_greatest; [|done]. apply Z.mod_divide; [lia|].
      by rewrite Zminus_mod, H1, Z.mod_1_l, Z.sub_diag, Z.mod_0_l by lia. }
    rewrite Hgcd in Hd. apply Z.divide_pos_le in Hd; lia.
  - assert (Hqg : (q ^ k | g)).
    { apply (Z.gauss _ m); [by rewrite <-Hm|]. apply Z.coprime_pow_l; [lia|].
      apply Z.coprime_prime_l; [done|]. by intros ?%Z.mod_divide; [|lia]. }
    etransitivity; [exact Hqg|]. apply Z.gcd_divide_l.
Qed.

(** The factored part of [n - 1], as primes and exponents. *)
Definition factored (fs : list (Z * Z)) : Z := foldr (λ f acc, f.1 ^ f.2 * acc) 1 fs.

Definition pocklington (n a : Z) (fs : list (Z * Z)) : bool :=
  bool_decide (1 < n) && bool_decide (Zpow_mod a (n - 1) n = 1) &&
  forallb (λ f, bool_decide (1 ≤ f.2) && bool_decide ((n - 1) mod f.1 ^ f.2 = 0) &&
    bool_decide (Z.gcd (Zpow_mod a ((n - 1) / f.1) n - 1) n = 1)) fs &&
  bool_decide (NoDup fs.*1) && bool_decide (n < factored fs * factored fs).

Lemma gcd_mod_pow a e n : 1 < n → Z.gcd (Zpow_mod a e n - 1) n = Z.gcd (a ^ e - 1) n.
Proof.
  intros Hn. rewrite Zpow_mod_correct by lia.
  rewrite (Z.gcd_comm _ n), (Z.gcd_comm _ n), <-(Z.gcd_mod (_ - 1) n), <-(Z.gcd_mod (a ^ e - 1) n) by lia.
  by rewrite Zminus_mod_idemp_l.
Qed.

Lemma factored_coprime q k fs :
  Z.prime q → 0 ≤ k → q ∉ fs.*1 → Forall (λ f, Z.prime f.1 ∧ 0 ≤ f.2) fs → Z.coprime (q ^ k) (factored fs).
Proof.
  intros Hq Hk. induction fs as [|[q' k'] fs IH]; intros Hin Hfs; [apply Z.coprime_1_r|].
  apply Forall_cons in Hfs as [[Hq' Hk'] Hfs]. rewrite fmap_cons in Hin. cbn [factored foldr fst snd] in *.
  apply not_elem_of_cons in Hin as [Hne Hin].
  apply Z.coprime_mul_r; [|by apply IH]. apply Z.coprime_pow_r, Z.coprime_pow_l; [done..|].
  apply Z.coprime_prime_l; [done|]. intros Hd. by apply Z.divide_prime_prime in Hd.
Qed.

Lemma factored_divides fs m :
  NoDup fs.*1 → Forall (λ f, Z.prime f.1 ∧ 0 ≤ f.2) fs → Forall (λ f, (f.1 ^ f.2 | m)) fs →
  (factored fs | m).
Proof.
  induction fs as [|[q k] fs IH]; intros Hnd Hp Hm; [apply Z.divide_1_l|].
  rewrite fmap_cons in Hnd. apply NoDup_cons in Hnd as [Hin Hnd].
  apply Forall_cons in Hp as [[Hq Hk] Hp], Hm as [Hqm Hm].
  apply coprime_mul_divide; [by apply factored_coprime|done|by apply IH].
Qed.

Lemma pocklington_prime (n a : Z) (fs : list (Z * Z)) :
  pocklington n a fs = true → Forall (λ f, Z.prime f.1) fs → Z.prime n.
Proof.
  unfold pocklington. rewrite !andb_true_iff, <-(Is_true_true (forallb _ _)), forallb_True.
  intros [[[[Hn%bool_decide_eq_true Ha%bool_decide_eq_true] Hall] Hnd%bool_decide_eq_true]
    Hbig%bool_decide_eq_true] Hprimes.
  rewrite Zpow_mod_correct in Ha by lia. apply no_small_divisor; [done|]. intros p Hp Hpn.
  assert (Hfs : Forall (λ f, 1 ≤ f.2 ∧ (f.1 ^ f.2 | p - 1)) fs).
  { rewrite Forall_forall in Hall, Hprimes |- *. intros f Hf. specialize (Hall f Hf). specialize (Hprimes f Hf).
    apply Is_true_true in Hall. rewrite !andb_true_iff, !bool_decide_eq_true in Hall.
    destruct Hall as [[Hk Hdiv] Hgcd]. split; [done|]. rewrite gcd_mod_pow in Hgcd by done.
    apply (pocklington_factor n a p f.1 f.2); try done. apply Z.mod_divide; [|done].
    pose proof (Z.prime_ge_2 _ Hprimes). apply Z.pow_nonzero; lia. }
  assert (Hd : (factored fs | p - 1)).
  { apply factored_divides; [done| |by eapply Forall_impl; [exact Hfs|by intros f [_ ?]]].
    rewrite Forall_forall in Hfs, Hprimes |- *. intros f Hf. split; [by apply Hprimes|].
    destruct (Hfs f Hf). lia. }
  pose proof (Z.prime_ge_2 p Hp). apply Z.divide_pos_le in Hd; [|lia].
  assert (0 < factored fs).
  { clear -Hprimes Hfs. induction fs as [|f fs IH]; [done|].
    apply Forall_cons in Hprimes as [Hf Hprimes], Hfs as [[Hk _] Hfs]. cbn [factored foldr].
    pose proof (Z.prime_ge_2 _ Hf). apply Z.mul_pos_pos; [apply Z.pow_pos_nonneg; lia|by apply IH]. }
  nia.
Qed.

(** Trial division by the numbers from [2] on. *)
Definition trial_division (n : Z) : bool :=
  bool_decide (1 < n) &&
  forallb (λ d, negb (bool_decide (n mod Z.of_nat d = 0))) (seq 2 (Z.to_nat (Z.sqrt n))).

Lemma trial_division_prime n : trial_division n = true → Z.prime n.
Proof.
  unfold trial_division. rewrite andb_true_iff, bool_decide_eq_true, <-(Is_true_true (forallb _ _)), forallb_True, Forall_forall.
  intros [Hn Hall]. apply no_small_divisor; [done|]. intros p Hp [m ->].
  pose proof (Z.prime_ge_2 p Hp). destruct (decide (m * p < p * p)) as [|Hge]; [done|]. exfalso.
  pose proof (Z.sqrt_le_square (m * p) p ltac:(lia) ltac:(lia)) as Hsq.
  specialize (Hall (Z.to_nat p)). rewrite Z2Nat.id, Z.mod_mul in Hall by lia.
  rewrite bool_decide_true in Hall by done. apply Hall. apply elem_of_seq. lia.
Qed.
