(* ===== verification/FieldTheory.v ===== *)
(** * Sums, powers and roots of unity in the scalar field

    What the KZG verifier needs of [substrate_bn::Fr]: the laws of the ring, the
    reading of decimal literals, and from them finite sums, powers, the order of
    the tabulated roots of unity and the orthogonality of their powers. *)

From S2P Require Export Kzg.
From Stdlib Require Import Ring.

Definition fr_modulus : Z :=
  21888242871839275222246405745257275088548364400416034343698204186575808495617.

(** The value of a decimal literal, most significant digit first. *)
Fixpoint decimal_value_from (acc : Z) (s : list Ascii.ascii) : option Z :=
  match s with
  | [] => Some acc
  | c :: s =>
      let d := Z.of_N (Ascii.N_of_ascii c) - 48 in
      if bool_decide (0 ≤ d) && bool_decide (d < 10) then decimal_value_from (acc * 10 + d) s
      else None
  end.
Definition decimal_value (s : string) : option Z :=
  decimal_value_from 0 (String.list_ascii_of_string s).

(** Repeated multiplication. *)
Fixpoint fr_power `{!SubstrateBn} (x : Fr) (n : nat) : Fr :=
  match n with O => Fr_one | S n => Fr_mul x (fr_power x n) end.

(** [Fr] is the ring of the integers modulo the scalar order; [from_str] reads
    decimal digits, [pow] raises to the canonical value of its argument, and
    [inverse] returns the inverse of every element but zero. *)
Class FrLaws `{!SubstrateBn} := {
  Fr_ring : ring_theory Fr_zero Fr_one Fr_add Fr_mul Fr_sub Fr_opp (=);
  Fr_of_Z : Z → Fr;
  Fr_of_Z_0 : Fr_of_Z 0 = Fr_zero;
  Fr_of_Z_1 : Fr_of_Z 1 = Fr_one;
  Fr_of_Z_add a b : Fr_of_Z (a + b) = Fr_add (Fr_of_Z a) (Fr_of_Z b);
  Fr_of_Z_mul a b : Fr_of_Z (a * b) = Fr_mul (Fr_of_Z a) (Fr_of_Z b);
  Fr_of_Z_eq a b : Fr_of_Z a = Fr_of_Z b ↔ a mod fr_modulus = b mod fr_modulus;
  Fr_from_str_value s v : decimal_value s = Some v → Fr_from_str s = Some (Fr_of_Z v);
  Fr_pow_value x n : 0 ≤ n < fr_modulus → Fr_pow x (Fr_of_Z n) = fr_power x (Z.to_nat n);
  Fr_inverse_Some a b : Fr_inverse a = Some b → Fr_mul a b = Fr_one;
  Fr_inverse_None a : Fr_inverse a = None → a = Fr_zero;
}.

Section field.
Context `{!SubstrateBn, !FrLaws}.
Add Ring fr_ring : Fr_ring.
Open Scope fr_scope.

(** ** Inverses *)

Lemma Fr_inverse_total a : a ≠ Fr_zero → ∃ b, Fr_inverse a = Some b ∧ a * b = Fr_one.
Proof.
  intros Ha. destruct (Fr_inverse a) as [b|] eqn:Hb; [|by apply Fr_inverse_None in Hb].
  exists b. split; [done|]. by apply Fr_inverse_Some.
Qed.

Lemma sub_zero_eq a b : a - b = Fr_zero → a = b.
Proof. intros Hab. transitivity (a - b + b); [ring|]. rewrite Hab. ring. Qed.

(** ** Sums *)

(** [rsum n f] is the sum of [f i] for [i < n]. *)
Fixpoint rsum (n : nat) (f : nat → Fr) : Fr :=
  match n with O => Fr_zero | S n => rsum n f + f n end.

Lemma rsum_ext n f g : (∀ i, (i < n)%nat → f i = g i) → rsum n f = rsum n g.
Proof.
  induction n as [|n IH]; intros Hfg; simpl; [done|].
  rewrite (Hfg n) by lia. by rewrite IH by (intros; apply Hfg; lia).
Qed.

Lemma rsum_zero n : rsum n (λ _, Fr_zero) = Fr_zero.
Proof. induction n as [|n IH]; simpl; [done|]. rewrite IH. ring. Qed.

Lemma rsum_plus n f g : rsum n (λ i, f i + g i) = rsum n f + rsum n g.
Proof. induction n as [|n IH]; simpl; [ring|]. rewrite IH. ring. Qed.

Lemma rsum_scale_l n a f : a * rsum n f = rsum n (λ i, a * f i).
Proof. induction n as [|n IH]; simpl; [ring|]. rewrite <-IH. ring. Qed.

Lemma rsum_scale_r n a f : rsum n f * a = rsum n (λ i, f i * a).
Proof. induction n as [|n IH]; simpl; [ring|]. rewrite <-IH. ring. Qed.

Lemma rsum_swap n m (f : nat → nat → Fr) :
  rsum n (λ i, rsum m (λ j, f i j)) = rsum m (λ j, rsum n (λ i, f i j)).
Proof.
  induction n as [|n IH]; simpl; [by rewrite rsum_zero|]. by rewrite IH, rsum_plus.
Qed.

Lemma rsum_split n m f : rsum (n + m) f = rsum n f + rsum m (λ i, f (n + i)%nat).
Proof.
  induction m as [|m IH]; simpl; [rewrite Nat.add_0_r; ring|].
  rewrite Nat.add_succ_r. simpl. rewrite IH. ring.
Qed.

(** A sum with one term that can differ from zero. *)
Lemma rsum_single n j f :
  (j < n)%nat → (∀ i, (i < n)%nat → i ≠ j → f i = Fr_zero) → rsum n f = f j.
Proof.
  induction n as [|n IH]; intros Hj Hf; [lia|]. simpl. destruct (decide (j = n)) as [->|Hne].
  - rewrite (rsum_ext n f (λ _, Fr_zero)) by (intros; apply Hf; lia). rewrite rsum_zero. ring.
  - rewrite IH by (lia || (intros; apply Hf; lia)). rewrite (Hf n) by lia. ring.
Qed.

(** [n] copies of one. *)
Lemma rsum_ones n : rsum n (λ _, Fr_one) = Fr_of_Z (Z.of_nat n).
Proof.
  induction n as [|n IH]; simpl; [by rewrite Fr_of_Z_0|].
  rewrite IH, <-Fr_of_Z_1, <-Fr_of_Z_add. f_equal. lia.
Qed.

(** ** Powers *)

Lemma fr_power_add x n m : fr_power x (n + m) = fr_power x n * fr_power x m.
Proof. induction n as [|n IH]; simpl; [ring|]. rewrite IH. ring. Qed.

Lemma fr_power_mul x n m : fr_power x (n * m) = fr_power (fr_power x n) m.
Proof.
  induction m as [|m IH]; simpl; [by rewrite Nat.mul_0_r|].
  rewrite Nat.mul_succ_r, Nat.add_comm, fr_power_add, IH. done.
Qed.

Lemma fr_power_one n : fr_power Fr_one n = Fr_one.
Proof. induction n as [|n IH]; simpl; [done|]. rewrite IH. ring. Qed.

Lemma fr_power_opp_one_odd s : fr_power (Fr_opp Fr_one) (2 * s + 1) = Fr_opp Fr_one.
Proof.
  rewrite fr_power_add, fr_power_mul.
  replace (fr_power (Fr_opp Fr_one) 2) with Fr_one by (simpl; ring).
  rewrite fr_power_one. simpl. ring.
Qed.

Lemma fr_power_of_Z a n : fr_power (Fr_of_Z a) n = Fr_of_Z (a ^ Z.of_nat n).
Proof.
  induction n as [|n IH]; [simpl; by rewrite Fr_of_Z_1|].
  rewrite Nat2Z.inj_succ, Z.pow_succ_r, Fr_of_Z_mul by lia. simpl. by rewrite IH.
Qed.

(** The geometric sum. *)
Lemma geometric x y n :
  fr_power x n - fr_power y n =
  (x - y) * rsum n (λ k, fr_power x k * fr_power y (n - 1 - k)).
Proof.
  induction n as [|n IH]; simpl; [ring|].
  replace (n - 0 - n)%nat with 0%nat by lia. simpl.
  transitivity (y * (fr_power x n - fr_power y n) + (x - y) * fr_power x n); [ring|].
  rewrite IH. transitivity ((x - y) * (y * rsum n (λ k, fr_power x k * fr_power y (n - 1 - k)) + fr_power x n)); [ring|].
  rewrite rsum_scale_l. f_equal. f_equal; [|ring].
  apply rsum_ext. intros i Hi. replace (n - 0 - i)%nat with (Datatypes.S (n - 1 - i)) by lia.
  simpl. ring.
Qed.

(** ** Roots of unity of order 2^k *)

Definition primitive_root (k : nat) (w : Fr) : Prop :=
  fr_power w (2 ^ k) = Fr_one ∧ (k ≠ 0%nat → fr_power w (2 ^ (k - 1)) = Fr_opp Fr_one).

Lemma two_adic (m : nat) : (0 < m)%nat → ∃ t s, m = (2 ^ t * (2 * s + 1))%nat.
Proof.
  induction m as [m IH] using lt_wf_ind. intros Hm.
  destruct (Nat.Even_or_Odd m) as [[h ->]|[h ->]].
  - destruct (IH h) as (t & s & ->); [lia..|]. exists (Datatypes.S t), s. simpl. lia.
  - exists 0%nat, h. simpl. lia.
Qed.

(** A power of [w] below its order has -1 among its own powers. *)
Lemma primitive_root_half k w m :
  primitive_root k w → (0 < m < 2 ^ k)%nat →
  ∃ h q, (2 ^ k = 2 * h * q)%nat ∧ fr_power (fr_power w m) h = Fr_opp Fr_one.
Proof.
  intros [_ Hhalf] [Hm0 Hm]. destruct (two_adic m Hm0) as (t & s & ->).
  assert (Ht : (t < k)%nat).
  { apply (Nat.pow_lt_mono_r_iff 2); [lia|]. nia. }
  exists (2 ^ (k - 1 - t))%nat, (2 ^ t)%nat. split.
  - rewrite <-Nat.mul_assoc, <-Nat.pow_add_r, <-(Nat.pow_succ_r' 2). f_equal. lia.
  - rewrite <-fr_power_mul. rewrite <-(fr_power_opp_one_odd s), <-Hhalf by lia.
    rewrite <-fr_power_mul. f_equal.
    replace (2 ^ (k - 1))%nat with (2 ^ t * 2 ^ (k - 1 - t))%nat; [lia|].
    rewrite <-Nat.pow_add_r. f_equal. lia.
Qed.

(** The powers of [x] cancel in blocks of [2 * h] when [x ^ h = -1]. *)
Lemma power_sum_zero x h q :
  fr_power x h = Fr_opp Fr_one → rsum (2 * h * q) (fr_power x) = Fr_zero.
Proof.
  intros Hh.
  assert (H2h : fr_power x (2 * h) = Fr_one).
  { rewrite Nat.mul_comm, fr_power_mul, Hh. simpl. ring. }
  assert (Hblock : rsum (2 * h) (fr_power x) = Fr_zero).
  { replace (2 * h)%nat with (h + h)%nat by lia. rewrite rsum_split.
    rewrite (rsum_ext h (λ i, fr_power x (h + i)) (λ i, Fr_opp Fr_one * fr_power x i)).
    - rewrite <-rsum_scale_l. ring.
    - intros i _. by rewrite fr_power_add, Hh. }
  induction q as [|q IH]; [by rewrite Nat.mul_0_r|].
  rewrite Nat.mul_succ_r, rsum_split, IH.
  rewrite (rsum_ext (2 * h) _ (fr_power x)), Hblock; [ring|].
  intros i _. rewrite fr_power_add, fr_power_mul, H2h, fr_power_one. ring.
Qed.

(** Orthogonality: the [m]-th powers of the roots sum to zero. *)
Lemma roots_power_sum k w m :
  primitive_root k w → (0 < m < 2 ^ k)%nat →
  rsum (2 ^ k) (λ i, fr_power (fr_power w i) m) = Fr_zero.
Proof.
  intros Hw Hm. destruct (primitive_root_half k w m Hw Hm) as (h & q & Hn & Hh).
  rewrite (rsum_ext _ _ (fr_power (fr_power w m))).
  - rewrite Hn. by apply power_sum_zero.
  - intros i _. by rewrite <-!fr_power_mul, Nat.mul_comm.
Qed.

Lemma one_neq_opp_one : Fr_one ≠ Fr_opp Fr_one.
Proof.
  intros Heq. assert (H2 : Fr_of_Z (1 + 1) = Fr_of_Z 0).
  { rewrite Fr_of_Z_add, Fr_of_Z_1, Fr_of_Z_0. rewrite Heq at 1. ring. }
  apply Fr_of_Z_eq in H2. by vm_compute in H2.
Qed.

(** The order of [w] is exactly [2 ^ k]. *)
Lemma primitive_root_order k w m :
  primitive_root k w → (0 < m < 2 ^ k)%nat → fr_power w m ≠ Fr_one.
Proof.
  intros Hw Hm H1. destruct (primitive_root_half k w m Hw Hm) as (h & q & Hn & Hh).
  apply one_neq_opp_one. by rewrite <-Hh, H1, fr_power_one.
Qed.
End field.
