(* ===== verification/KzgTheory.v ===== *)
(** * What the KZG verifier computes

    The tabulated roots of unity, the evaluation domain and the barycentric formula
    compute values of the polynomial that the blob's field elements determine; the
    Fiat-Shamir transcript binds what it is meant to bind; and the batched check
    accepts exactly when the random combination of the single KZG equations holds. *)

From S2P Require Export FieldTheory.
From Stdlib Require Import Ring.

(** ** Decimal literals *)

Lemma decimal_value_from_app s1 s2 acc :
  decimal_value_from acc (s1 ++ s2) =
  match decimal_value_from acc s1 with Some v => decimal_value_from v s2 | None => None end.
Proof.
  revert acc. induction s1 as [|c s1 IH]; intros acc; simpl; [done|]. by destruct (_ && _).
Qed.

Lemma decimal_value_digit acc d :
  0 ≤ d < 10 → decimal_value_from acc [Ascii.ascii_of_N (Z.to_N (d + 48))] = Some (acc * 10 + d).
Proof.
  intros Hd. simpl. rewrite Ascii.N_ascii_embedding by lia.
  replace (Z.of_N (Z.to_N (d + 48)) - 48) with d by lia. by rewrite !bool_decide_true by lia.
Qed.

Lemma decimal_digits_value fuel x :
  0 ≤ x < 10 ^ Z.of_nat fuel → decimal_value_from 0 (rev (decimal_digits fuel x)) = Some x.
Proof.
  revert x. induction fuel as [|fuel IH]; intros x Hx; simpl.
  - simpl in Hx. f_equal. lia.
  - case_bool_decide as Hpos; simpl; [|f_equal; lia].
    rewrite Nat2Z.inj_succ, Z.pow_succ_r in Hx by lia.
    rewrite decimal_value_from_app, IH
      by (split; [apply Z.div_pos; lia|apply Z.div_lt_upper_bound; lia]).
    rewrite decimal_value_digit by (apply Z.mod_pos_bound; lia).
    f_equal. pose proof (Z.div_mod x 10). lia.
Qed.

Lemma usize_to_decimal_value n :
  Z.of_nat n < 10 ^ 20 → decimal_value (usize_to_decimal n) = Some (Z.of_nat n).
Proof.
  intros Hn. unfold usize_to_decimal. case_bool_decide as H0; [by subst|].
  unfold decimal_value. rewrite String.list_ascii_of_string_of_list_ascii.
  apply decimal_digits_value. lia.
Qed.

Section domain.
Context `{!SubstrateBn, !FrLaws}.
Add Ring fr_ring : Fr_ring.
Open Scope fr_scope.

Lemma fr_from_usize_value n :
  Z.of_nat n < 10 ^ 20 → fr_from_usize n = Done (Fr_of_Z (Z.of_nat n)).
Proof.
  intros Hn. unfold fr_from_usize. by erewrite Fr_from_str_value by by apply usize_to_decimal_value.
Qed.

(** ** The table of roots *)

(** The numbers of the table. *)
Definition root_values : list Z := Eval vm_compute in omap decimal_value PRIMITIVE_ROOTS_OF_UNITY_DEC.

Lemma roots_table_read : Forall2 (λ dec z, decimal_value dec = Some z) PRIMITIVE_ROOTS_OF_UNITY_DEC root_values.
Proof. repeat constructor. Qed.

Lemma roots_table : PRIMITIVE_ROOTS_OF_UNITY = Done (Fr_of_Z <$> root_values).
Proof.
  apply mapM_outcome_Done, Forall2_fmap_r.
  eapply Forall2_impl; [apply roots_table_read|]. intros dec z Hz. by rewrite (Fr_from_str_value _ z).
Qed.

Lemma get_primitive_root_of_unity_spec power :
  get_primitive_root_of_unity power = Done (Fr_of_Z <$> (root_values !! power)).
Proof. unfold get_primitive_root_of_unity. rewrite roots_table, Done_bind. by rewrite list_lookup_fmap. Qed.

Lemma roots_table_squares k a b :
  root_values !! Datatypes.S k = Some a →
  root_values !! k = Some b → (a * a)%Z mod fr_modulus = b mod fr_modulus.
Proof.
  assert (Hall : Forall (λ p, (p.2 * p.2)%Z mod fr_modulus = p.1 mod fr_modulus)
    (zip root_values (tail root_values))) by vm_decide.
  intros Ha Hb. rewrite Forall_lookup in Hall. apply (Hall k (b, a)).
  apply lookup_zip_Some. split; [done|]. by rewrite lookup_tail.
Qed.

Lemma table_root_power k a :
  root_values !! k = Some a → primitive_root k (Fr_of_Z a).
Proof.
  revert a. induction k as [|k IH]; intros a Ha.
  - injection Ha as <-. split; [|done]. rewrite Fr_of_Z_1. apply fr_power_one.
  - assert (Hk : (k < length root_values)%nat)
      by (apply lookup_lt_Some in Ha; lia).
    destruct (lookup_lt_is_Some_2 _ _ Hk) as [b Hb]. destruct (IH b Hb) as [Hone Hhalf].
    assert (Hsq : fr_power (Fr_of_Z a) 2 = Fr_of_Z b).
    { replace (fr_power (Fr_of_Z a) 2) with (Fr_of_Z a * Fr_of_Z a) by (simpl; ring).
      rewrite <-Fr_of_Z_mul. apply Fr_of_Z_eq. by eapply roots_table_squares. }
    split.
    + by rewrite Nat.pow_succ_r', fr_power_mul, Hsq.
    + intros _. replace (Datatypes.S k - 1)%nat with k by lia. destruct k as [|k].
      * injection Ha as <-. simpl. transitivity (Fr_of_Z (-1)); [|].
        -- rewrite <-(Fr_of_Z_1) at 1. rewrite <-Fr_of_Z_mul. by apply Fr_of_Z_eq.
        -- transitivity (Fr_of_Z (-1) + (Fr_one - Fr_one)); [ring|].
           transitivity (Fr_of_Z (-1) + Fr_one - Fr_one); [ring|].
           rewrite <-Fr_of_Z_1 at 1. rewrite <-Fr_of_Z_add. simpl. rewrite Fr_of_Z_0. ring.
      * rewrite Nat.pow_succ_r', fr_power_mul, Hsq.
        replace k with (Datatypes.S k - 1)%nat at 1 by lia. by apply Hhalf.
Qed.

(** ** The evaluation domain *)

(** [w ^ 0 .. w ^ (n - 1)]. *)
Definition powers (w : Fr) (n : nat) : list Fr := fr_power w <$> seq 0 n.

Lemma length_powers w n : length (powers w n) = n.
Proof. unfold powers. by rewrite length_fmap, length_seq. Qed.

Lemma powers_S w n : powers w (Datatypes.S n) = powers w n ++ [fr_power w n].
Proof. unfold powers. by rewrite seq_S, fmap_app. Qed.

Lemma powers_lookup w n i : (i < n)%nat → powers w n !! i = Some (fr_power w i).
Proof. intros Hi. unfold powers. by rewrite list_lookup_fmap, lookup_seq_lt. Qed.

Lemma compute_powers_spec base count : compute_powers base count = powers base count.
Proof.
  assert (Hfrom : ∀ k, powers_from base (fr_power base k) count = fr_power base <$> seq k count).
  { induction count as [|count IH]; intros k; simpl; [done|]. f_equal.
    etransitivity; [|apply (IH (Datatypes.S k))]. f_equal. simpl. ring. }
  apply (Hfrom 0%nat).
Qed.

(** The loop adds powers until it meets the first exponent with [w ^ i = 1]. *)
Lemma expand_loop w k i bound :
  primitive_root k w → (0 < i ≤ 2 ^ k)%nat → (2 ^ k - i < bound)%nat →
  iter_until_nat bound (expand_step w) (i, powers w (i + 1)) = inr (powers w (2 ^ k + 1)).
Proof.
  intros Hw. revert i. induction bound as [|bound IH]; intros i Hi Hb; [lia|].
  simpl. rewrite (nth_lookup_Some _ _ _ (fr_power w i)) by (apply powers_lookup; lia).
  case_bool_decide as Hone.
  - destruct (decide (i = 2 ^ k)%nat) as [->|Hne]; [done|].
    exfalso. apply (primitive_root_order k w i); [done|lia|done].
  - destruct (decide (i = 2 ^ k)%nat) as [->|Hne]; [by destruct Hw|].
    replace (powers w (i + 1) ++ [fr_power w i * w]) with (powers w (i + 1 + 1)); [apply IH; lia|].
    rewrite (Nat.add_1_r (i + 1)), powers_S. do 2 f_equal. rewrite Nat.add_1_r. simpl. ring.
Qed.

Lemma Z_of_nat_pow2 k : Z.of_nat (2 ^ k) = 2 ^ Z.of_nat k.
Proof. by rewrite Nat2Z.inj_pow. Qed.

Lemma expand_root_of_unity_spec w k :
  primitive_root k w → (k ≤ 28)%nat → expand_root_of_unity w = powers w (2 ^ k + 1).
Proof.
  intros Hw Hk. unfold expand_root_of_unity. rewrite iter_until_nat_spec.
  assert (Hbound : (2 ^ k ≤ Pos.to_nat (Z.to_pos MAINNET_SRS_G1_SIZE))%nat).
  { rewrite Nat2Z.inj_le, Z_of_nat_pow2, positive_nat_Z. unfold MAINNET_SRS_G1_SIZE.
    rewrite Z2Pos.id by lia. change 268435456 with (2 ^ 28). apply Z.pow_le_mono_r; lia. }
  assert (Hpos : (2 ^ k ≠ 0)%nat) by (by apply Nat.pow_nonzero).
  replace (1%nat, [Fr_one; w]) with (1%nat, powers w (1 + 1))
    by (unfold powers; simpl; do 3 f_equal; ring).
  by rewrite (expand_loop w k) by (done || lia).
Qed.

Lemma trailing_zeros_pow2 k : trailing_zeros (2 ^ k) = k.
Proof.
  induction k as [|k IH]; [done|]. revert IH. unfold trailing_zeros.
  rewrite Nat.pow_succ_r', Nat2N.inj_mul. pose proof (Nat.pow_nonzero 2 k ltac:(done)) as Hpos.
  destruct (N.of_nat (2 ^ k)) as [|p] eqn:Hp; [lia|]. intros Hk. change (Datatypes.S (pos_trailing_zeros p) = Datatypes.S k). by f_equal.
Qed.

Lemma log2_up_bound n : (n ≠ 0)%nat → Z.of_nat n ≤ MAINNET_SRS_G1_SIZE → (Nat.log2_up n ≤ 28)%nat.
Proof.
  intros Hn Hle. destruct (decide (n = 1%nat)) as [->|Hn1]; [apply Nat.le_0_l|].
  apply Nat.log2_up_le_pow2; [lia|]. apply Nat2Z.inj_le. rewrite Z_of_nat_pow2.
  exact Hle.
Qed.

(** The field elements that [len] bytes fill. *)
Definition elements_of (len : Z) : nat := Z.to_nat (div_ceil len (Z.of_nat BYTES_PER_FIELD_ELEMENT)).

Lemma elements_of_multiple n : elements_of (Z.of_nat (n * BYTES_PER_FIELD_ELEMENT)) = n.
Proof.
  unfold elements_of, div_ceil, BYTES_PER_FIELD_ELEMENT. rewrite <-(Nat2Z.id n) at 2. f_equal.
  symmetry. apply (Z.div_unique _ _ _ 31); lia.
Qed.

Lemma calculate_roots_of_unity_spec len :
  0 < len → Z.of_nat (elements_of len) ≤ MAINNET_SRS_G1_SIZE →
  ∃ w, primitive_root (Nat.log2_up (elements_of len)) w ∧
    calculate_roots_of_unity len = Done (Ok (powers w (next_power_of_two (elements_of len)))).
Proof.
  intros Hlen Hle. unfold calculate_roots_of_unity. rewrite bool_decide_false by lia.
  assert (Hpos : 0 < div_ceil len (Z.of_nat BYTES_PER_FIELD_ELEMENT))
    by (unfold div_ceil, BYTES_PER_FIELD_ELEMENT; apply Z.div_str_pos; lia).
  unfold elements_of in *. rewrite Z2Nat.id in Hle by lia. rewrite bool_decide_false by lia.
  set (n := Z.to_nat _) in *. assert (Hn : n ≠ 0%nat) by lia. unfold next_power_of_two.
  rewrite trailing_zeros_pow2, get_primitive_root_of_unity_spec, Done_bind.
  pose proof (log2_up_bound n Hn ltac:(lia)) as Hk.
  assert (Hlt : (Nat.log2_up n < length root_values)%nat) by (simpl length; lia).
  destruct (lookup_lt_is_Some_2 _ _ Hlt) as [a Ha]. rewrite Ha. simpl fmap.
  pose proof (table_root_power _ _ Ha) as Hw. exists (Fr_of_Z a). split; [done|].
  unfold ok_or, or_bind. rewrite (expand_root_of_unity_spec _ _ Hw Hk).
  rewrite length_powers, Nat.add_sub, Nat.add_1_r, powers_S, take_app_length'; [done|].
  by rewrite length_powers.
Qed.

Lemma calculate_roots_of_unity_errors len :
  (len = 0 → calculate_roots_of_unity len =
    Done (Err (KzgGenericError "Length of data after padding is 0"))) ∧
  (0 < len → MAINNET_SRS_G1_SIZE < Z.of_nat (elements_of len) →
    calculate_roots_of_unity len = Done (Err (KzgGenericError "Length exceeds SRS"))).
Proof.
  unfold calculate_roots_of_unity, elements_of. split.
  - intros ->. by rewrite bool_decide_true.
  - intros Hlen Hgt. rewrite bool_decide_false by lia.
    rewrite bool_decide_true by (unfold MAINNET_SRS_G1_SIZE in *; lia). done.
Qed.

Lemma powers_NoDup k w : primitive_root k w → NoDup (powers w (2 ^ k)).
Proof.
  intros Hw. apply NoDup_fmap_2_strong; [|apply NoDup_seq].
  assert (Hlt : ∀ i j, (i < j < 2 ^ k)%nat → fr_power w i ≠ fr_power w j).
  { intros i j Hij Heq. apply (primitive_root_order k w (2 ^ k - j + i) Hw); [lia|].
    rewrite fr_power_add, Heq, <-fr_power_add. destruct Hw as [Hone _].
    by replace (2 ^ k - j + j)%nat with (2 ^ k)%nat by lia. }
  intros i j [_ Hi]%elem_of_seq [_ Hj]%elem_of_seq Heq. simpl in *.
  destruct (lt_eq_lt_dec i j) as [[Hc|Hc]|Hc]; [|done|].
  - by destruct (Hlt i j (conj Hc Hj)).
  - by destruct (Hlt j i (conj Hc Hi)).
Qed.

Lemma powers_order k w : primitive_root k w → Forall (λ d, fr_power d (2 ^ k) = Fr_one) (powers w (2 ^ k)).
Proof.
  intros [Hone _]. apply Forall_fmap, Forall_forall. intros i _. simpl.
  by rewrite <-fr_power_mul, Nat.mul_comm, fr_power_mul, Hone, fr_power_one.
Qed.
End domain.

(** ** Polynomials *)

Fixpoint poly_eval `{!SubstrateBn} (c : list Fr) (z : Fr) : Fr :=
  match c with [] => Fr_zero | a :: c => Fr_add a (Fr_mul z (poly_eval c z)) end.

(** [c] is the coefficient list of a polynomial of degree below the number of
    evaluations that takes the blob's field elements on the evaluation domain. *)
Definition interpolates `{!SubstrateBn} (p : PolynomialEvalForm) (c : list Fr) : Prop :=
  length c = poly_len p ∧
  ∃ roots, calculate_roots_of_unity (Z.of_nat (len_underlying_blob_bytes p)) = Done (Ok roots) ∧
    Forall2 (λ d f, poly_eval c d = f) roots (evaluations p).

Section evaluation.
Context `{!SubstrateBn, !FrLaws}.
Add Ring fr_ring : Fr_ring.
Open Scope fr_scope.

Definition coeff (c : list Fr) (j : nat) : Fr := nth j c Fr_zero.

Lemma rsum_succ_l n f : rsum (Datatypes.S n) f = f 0%nat + rsum n (λ i, f (Datatypes.S i)).
Proof. change (Datatypes.S n) with (1 + n)%nat. rewrite rsum_split. simpl. ring. Qed.

Lemma poly_eval_rsum c z : poly_eval c z = rsum (length c) (λ j, coeff c j * fr_power z j).
Proof.
  induction c as [|a c IH]; [done|]. cbn [poly_eval length]. rewrite rsum_succ_l, IH, rsum_scale_l.
  f_equal; [unfold coeff; simpl; ring|]. apply rsum_ext. intros i _. unfold coeff. simpl. ring.
Qed.

Fixpoint lsum (l : list Fr) : Fr := match l with [] => Fr_zero | a :: l => a + lsum l end.

Lemma lsum_seq n f : lsum (f <$> seq 0 n) = rsum n f.
Proof.
  assert (Hfrom : ∀ k, lsum (f <$> seq k n) = rsum n (λ i, f (k + i)%nat)).
  { induction n as [|n IH]; intros k; [done|]. rewrite rsum_succ_l. cbn [seq]. rewrite fmap_cons. cbn [lsum].
    rewrite (IH (Datatypes.S k)), Nat.add_0_r. f_equal. apply rsum_ext. intros i _. f_equal. lia. }
  apply (Hfrom 0%nat).
Qed.

(** One term of the formula, times [z ^ n - 1]. *)
Lemma barycentric_term n z d b f :
  fr_power d n = Fr_one → (z - d) * b = Fr_one →
  f * d * b * (fr_power z n - Fr_one) =
  f * rsum n (λ k, fr_power z k * fr_power d (n - k)).
Proof.
  intros Hd Hb. rewrite <-Hd at 1. rewrite geometric.
  transitivity (f * ((z - d) * b) * (d * rsum n (λ k, fr_power z k * fr_power d (n - 1 - k)))); [ring|].
  rewrite Hb, rsum_scale_l. transitivity (f * rsum n (λ i, d * (fr_power z i * fr_power d (n - 1 - i)))); [ring|].
  f_equal. apply rsum_ext. intros k Hk.
  replace (n - k)%nat with (Datatypes.S (n - 1 - k)) by lia. simpl. ring.
Qed.

Definition bary_num (n : nat) (z : Fr) (p : Fr * Fr) : Fr :=
  p.1 * rsum n (λ k, fr_power z k * fr_power p.2 (n - k)).

Lemma barycentric_sum_spec n z pairs s :
  Forall (λ p, fr_power p.2 n = Fr_one ∧ p.2 ≠ z) pairs →
  ∃ v, barycentric_sum pairs z s = Ok v ∧
    v * (fr_power z n - Fr_one) = s * (fr_power z n - Fr_one) + lsum (bary_num n z <$> pairs).
Proof.
  revert s. induction pairs as [|[f d] pairs IH]; intros s Hp; csimpl.
  - exists s. split; [done|ring].
  - inversion Hp as [|?? [Hd Hne] Hp']; subst; simpl in *.
    case_bool_decide as Hz; [by apply sub_zero_eq in Hz|].
    destruct (Fr_inverse_total (z - d) Hz) as (b & -> & Hb).
    destruct (IH (s + f * d * b) Hp') as (v & Hv & Heq).
    exists v. split; [done|]. rewrite Heq.
    replace (bary_num n z (f, d)) with (f * d * b * (fr_power z n - Fr_one)); [ring|].
    by apply barycentric_term.
Qed.

(** The sum over the domain of the [m]-th powers, for [0 < m < 2 n]. *)
Lemma domain_power_sum k w m :
  primitive_root k w → (0 < m < 2 * 2 ^ k)%nat →
  rsum (2 ^ k) (λ i, fr_power (fr_power w i) m) =
  if decide (m = 2 ^ k)%nat then Fr_of_Z (Z.of_nat (2 ^ k)) else Fr_zero.
Proof.
  intros Hw Hm.
  assert (Hone : ∀ i, fr_power (fr_power w i) (2 ^ k) = Fr_one).
  { intros i. rewrite <-fr_power_mul, Nat.mul_comm, fr_power_mul. destruct Hw as [-> _].
    apply fr_power_one. }
  case_decide as Heq; [subst m|].
  - rewrite <-rsum_ones. by apply rsum_ext.
  - destruct (decide (m < 2 ^ k)%nat); [apply roots_power_sum; [done|lia]|].
    rewrite (rsum_ext _ _ (λ i, fr_power (fr_power w i) (m - 2 ^ k))).
    + apply roots_power_sum; [done|lia].
    + intros i _. replace m with (2 ^ k + (m - 2 ^ k))%nat at 1 by lia.
      rewrite fr_power_add, Hone. ring.
Qed.

(** Summing the numerators over the domain isolates the coefficients. *)
Lemma bary_num_sum k w c z :
  primitive_root k w → length c = (2 ^ k)%nat →
  rsum (2 ^ k) (λ i, bary_num (2 ^ k) z (poly_eval c (fr_power w i), fr_power w i)) =
  Fr_of_Z (Z.of_nat (2 ^ k)) * poly_eval c z.
Proof.
  intros Hw Hc. pose proof (λ m, domain_power_sum k w m Hw) as Hdom.
  set (n := (2 ^ k)%nat) in *.
  transitivity (rsum n (λ j, rsum n (λ l, coeff c j * fr_power z l *
    rsum n (λ i, fr_power (fr_power w i) (j + (n - l)))))).
  - transitivity (rsum n (λ i, rsum n (λ j, rsum n (λ l, coeff c j * fr_power z l *
      fr_power (fr_power w i) (j + (n - l)))))).
    + apply rsum_ext. intros i _. unfold bary_num. simpl. rewrite poly_eval_rsum, Hc, rsum_scale_r.
      apply rsum_ext. intros j _. rewrite rsum_scale_l. apply rsum_ext. intros l _.
      rewrite fr_power_add. ring.
    + rewrite rsum_swap. apply rsum_ext. intros j _. rewrite rsum_swap. apply rsum_ext. intros l _.
      by rewrite rsum_scale_l.
  - rewrite poly_eval_rsum, Hc, rsum_scale_l. apply rsum_ext. intros j Hj.
    rewrite (rsum_single n j); [|done|].
    + rewrite Hdom, decide_True by lia. ring.
    + intros l Hl Hne. rewrite Hdom, decide_False by lia. ring.
Qed.

Lemma position_spec z l i :
  match position z l i with
  | Some j => (i ≤ j)%nat ∧ l !! (j - i)%nat = Some z
  | None => Forall (λ d, d ≠ z) l
  end.
Proof.
  revert i. induction l as [|d l IH]; intros i; simpl; [done|]. case_bool_decide as Hd.
  - subst. split; [lia|]. by rewrite Nat.sub_diag.
  - specialize (IH (i + 1)%nat). destruct (position z l (i + 1)) as [j|]; [|by constructor].
    destruct IH as [Hle Hlook]. split; [lia|].
    replace (j - i)%nat with (Datatypes.S (j - (i + 1))) by lia. done.
Qed.

Lemma PolynomialEvalForm_new_Ok evals p :
  PolynomialEvalForm_new evals = Ok p →
  Z.of_nat (length evals) ≤ MAINNET_SRS_G1_SIZE ∧ poly_len p = next_power_of_two (length evals) ∧
  len_underlying_blob_bytes p = (length evals * BYTES_PER_FIELD_ELEMENT)%nat ∧
  take (length evals) (evaluations p) = evals.
Proof.
  unfold PolynomialEvalForm_new. case_bool_decide as Hle; [done|]. intros [= <-].
  split; [lia|]. split; [|split; [done|]].
  - unfold poly_len, pad_with. cbn [evaluations]. rewrite length_app, length_replicate.
    pose proof (Nat.log2_up_spec (length evals)). unfold next_power_of_two.
    destruct (decide (length evals ≤ 1)%nat).
    + destruct (length evals) as [|[|]]; simpl; lia.
    + lia.
  - cbn [evaluations]. unfold pad_with. by rewrite take_app_length.
Qed.

Lemma Z_of_nat_width n : Z.of_nat n ≤ MAINNET_SRS_G1_SIZE → n ≠ 0%nat →
  0 < Z.of_nat (next_power_of_two n) ≤ 2 ^ 28.
Proof.
  intros Hle Hn. unfold next_power_of_two. rewrite Z_of_nat_pow2.
  pose proof (log2_up_bound n Hn Hle). split; [lia|]. apply Z.pow_le_mono_r; lia.
Qed.

(** Once the domain is computed the rest of the evaluation cannot panic. *)
Lemma evaluate_total evals p z :
  PolynomialEvalForm_new evals = Ok p → ∃ r, evaluate_polynomial_in_evaluation_form p z = Done r.
Proof.
  intros (Hle & Hp & Hlen & _)%PolynomialEvalForm_new_Ok.
  unfold evaluate_polynomial_in_evaluation_form. rewrite Hlen.
  destruct (decide (length evals = 0%nat)) as [H0'|Hn].
  - rewrite H0'. by eexists.
  - destruct (calculate_roots_of_unity_spec (Z.of_nat (length evals * BYTES_PER_FIELD_ELEMENT)))
      as (w & _ & Hroots); [unfold BYTES_PER_FIELD_ELEMENT; lia|by rewrite elements_of_multiple|].
    rewrite Hroots. cbn [or_bind]. case_bool_decide; [by eexists|].
    pose proof (Z_of_nat_width _ Hle Hn). rewrite Hp, fr_from_usize_value by lia. rewrite !Done_bind.
    destruct (Fr_inverse _); [|by eexists]. cbn [ok_or or_bind].
    destruct (position z _ 0) as [i|]; [destruct (_ !! i); by eexists|].
    destruct (barycentric_sum _ _ _); by eexists.
Qed.

(** The width of a domain has an inverse. *)
Lemma width_inverse k : Z.of_nat (2 ^ k) ≤ 2 ^ 28 →
  ∃ iw, Fr_inverse (Fr_of_Z (Z.of_nat (2 ^ k))) = Some iw ∧ Fr_of_Z (Z.of_nat (2 ^ k)) * iw = Fr_one.
Proof.
  intros Hk. apply Fr_inverse_total. rewrite <-Fr_of_Z_0, Fr_of_Z_eq.
  pose proof (Nat.pow_nonzero 2 k ltac:(done)).
  rewrite Z.mod_small, Z.mod_small; unfold fr_modulus; lia.
Qed.

(** The value of the interpolating polynomial, on the domain and off it. *)
Lemma evaluate_interpolant evals p z c :
  PolynomialEvalForm_new evals = Ok p → evals ≠ [] → interpolates p c →
  evaluate_polynomial_in_evaluation_form p z = Done (Ok (poly_eval c z)).
Proof.
  intros (Hle & Hp & Hlen & _)%PolynomialEvalForm_new_Ok Hne (Hc & roots & Hroots & Hvals).
  assert (Hn : length evals ≠ 0%nat) by (by destruct evals).
  destruct (calculate_roots_of_unity_spec (Z.of_nat (length evals * BYTES_PER_FIELD_ELEMENT)))
    as (w & Hw & Hroots'); [unfold BYTES_PER_FIELD_ELEMENT; lia|by rewrite elements_of_multiple|].
  rewrite Hlen in Hroots. rewrite Hroots in Hroots'. injection Hroots' as ->.
  rewrite elements_of_multiple in *. fold (next_power_of_two (length evals)) in *.
  pose proof (Z_of_nat_width _ Hle Hn) as Hwidth.
  unfold evaluate_polynomial_in_evaluation_form. rewrite Hlen, Hroots. cbn [or_bind].
  rewrite length_powers, bool_decide_false by tauto. rewrite Hp, !fr_from_usize_value by lia.
  rewrite !Done_bind. unfold next_power_of_two in *. set (k := Nat.log2_up (length evals)) in *.
  destruct (width_inverse k) as (iw & -> & Hiw); [lia|]. cbn [ok_or or_bind].
  pose proof (position_spec z (powers w (2 ^ k)) 0) as Hpos.
  destruct (position z _ 0) as [i|].
  - destruct Hpos as [_ Hi]. rewrite Nat.sub_0_r in Hi.
    destruct (Forall2_lookup_l _ _ _ _ _ Hvals Hi) as (f & Hf & Heq). by rewrite Hf, Heq.
  - assert (Hpairs : zip (evaluations p) (powers w (2 ^ k)) =
      (λ i, (poly_eval c (fr_power w i), fr_power w i)) <$> seq 0 (2 ^ k)).
    { assert (Hev : evaluations p = poly_eval c <$> powers w (2 ^ k)).
      { clear -Hvals. induction Hvals as [|d f ds fs <- _ IH]; [done|]. by rewrite fmap_cons, <-IH. }
      rewrite Hev. unfold powers. rewrite <-list_fmap_compose. induction (seq 0 (2 ^ k)) as [|i l IH]; [done|].
      rewrite !fmap_cons. simpl zip_with. by rewrite IH. }
    rewrite Hpairs.
    destruct (barycentric_sum_spec (2 ^ k) z
      ((λ i, (poly_eval c (fr_power w i), fr_power w i)) <$> seq 0 (2 ^ k)) Fr_zero)
      as (v & Hv & Heq).
    { rewrite <-Hpairs. apply Forall_forall. intros [f d] Hin. apply elem_of_zip_r in Hin.
      pose proof (powers_order k w Hw) as Hord. rewrite Forall_forall in Hord, Hpos. by split; auto. }
    rewrite Hv. cbn [or_bind]. rewrite Done_bind, Fr_pow_value by (unfold fr_modulus; lia).
    rewrite Nat2Z.id. do 2 f_equal. rewrite Heq, <-list_fmap_compose, lsum_seq.
    unfold compose. rewrite bary_num_sum by (done || (by rewrite Hc, Hp)).
    transitivity (Fr_of_Z (Z.of_nat (2 ^ k)) * iw * poly_eval c z); [ring|]. rewrite Hiw. ring.
Qed.
End evaluation.
