(* ===== verification/KzgBatch.v ===== *)
(** * Transcripts and the batched pairing check

    The laws of the curve groups that the verifier relies on, the bytes its two
    Fiat-Shamir transcripts hash, and the equation the pairing check decides. *)

From S2P Require Export KzgTheory.
From Stdlib Require Import Ring.

(** [G1] is a module over [Fr] with [into]/[from_jacobian] the affine view of its
    points; [msm] is the linear combination (it panics on empty slices); SHA-256
    digests have 32 bytes, and 32 bytes always reduce into the field; the pairing
    with [\[tau\]G2] and the generator compares a point times [tau] with another. *)
Class CurveLaws `{!SubstrateBn, !FrLaws} := {
  G1_zero : bn_G1;
  G1_is_zero_spec a : G1_is_zero a = true ↔ a = G1_zero;
  G1_add_comm a b : G1_add a b = G1_add b a;
  G1_add_assoc a b c : G1_add a (G1_add b c) = G1_add (G1_add a b) c;
  G1_add_zero a : G1_add G1_zero a = a;
  G1_add_neg a : G1_add a (G1_neg a) = G1_zero;
  G1_sub_spec a b : G1_sub a b = G1_add a (G1_neg b);
  G1_mul_one a : G1_mul a Fr_one = a;
  G1_mul_mul a x y : G1_mul (G1_mul a x) y = G1_mul a (Fr_mul x y);
  G1_mul_add_l a b x : G1_mul (G1_add a b) x = G1_add (G1_mul a x) (G1_mul b x);
  G1_mul_add_r a x y : G1_mul a (Fr_add x y) = G1_add (G1_mul a x) (G1_mul a y);
  AffineG1_default_spec : AffineG1_into AffineG1_default = G1_zero;
  AffineG1_from_jacobian_spec a p : AffineG1_from_jacobian a = Some p → AffineG1_into p = a;
  AffineG1_from_jacobian_total a : a ≠ G1_zero → is_Some (AffineG1_from_jacobian a);
  bn_msm_spec ps xs : length ps = length xs → ps ≠ [] →
    ∃ p, bn_msm ps xs = Done p ∧
      AffineG1_into p = foldr G1_add G1_zero (zip_with (λ p x, G1_mul (AffineG1_into p) x) ps xs);
  sha2_256_length bs : length (sha2_256 bs) = 32%nat;
  Fr_from_bytes_total bs :
    length bs = 32%nat → Fr_from_bytes_be_mod_order bs = Some (Fr_of_Z (from_be_bytes bs));
  Fr_into_u256_range a : 0 ≤ Fr_into_u256 a < 2 ^ 256;
  Fq_to_big_endian_total a : ∃ bs, Fq_to_big_endian a = Some bs ∧ length bs = 32%nat;
  Fq_from_str_total s v : decimal_value s = Some v → is_Some (Fq_from_str s);
  (** the secret of the trusted setup *)
  srs_tau : Fr;
  pairing_tau t a b : g2_tau = Done t →
    pairing_batch [(a, t); (G1_neg b, G2_one)] = bn_Gt_one ↔ G1_mul a srs_tau = b;
}.

(** ** Writing into buffers *)

Lemma copy_at_prefix (done src rest : Bytes) (m : nat) :
  copy_at (length done) src (done ++ zeros (length src + m)) = done ++ src ++ zeros m.
Proof.
  unfold copy_at. rewrite take_app_length, <-zeros_app. do 2 f_equal.
  rewrite app_assoc, drop_app_length'; [done|]. by rewrite length_app, length_zeros.
Qed.

(** The next write of a buffer that is filled from the left. *)
Lemma copy_at_next (written src : Bytes) i m :
  i = length written → (length src ≤ m)%nat →
  copy_at i src (written ++ zeros m) = (written ++ src) ++ zeros (m - length src).
Proof.
  intros -> Hm. rewrite <-app_assoc.
  replace (zeros m) with (zeros (length src + (m - length src))) by (f_equal; lia).
  by apply copy_at_prefix.
Qed.

Lemma copy_at_app (a src b : Bytes) i :
  (i + length src ≤ length a)%nat → copy_at i src (a ++ b) = copy_at i src a ++ b.
Proof.
  intros Hi. unfold copy_at. rewrite take_app_le, drop_app_le by lia. by rewrite <-!app_assoc.
Qed.

(** ** The head of the batch transcript *)

Lemma write_lengths_spec written ls m :
  (8 * length ls ≤ m)%nat →
  write_lengths (length written) ls (written ++ zeros m) =
  written ++ concat (to_be_bytes 8 <$> ls) ++ zeros (m - 8 * length ls).
Proof.
  revert written m. induction ls as [|l ls IH]; intros written m Hm.
  - cbn [length]. by rewrite Nat.mul_0_r, Nat.sub_0_r.
  - cbn [length] in Hm. cbn [write_lengths length]. rewrite fmap_cons. cbn [concat].
    rewrite copy_at_next by (done || (rewrite length_to_be_bytes; lia)).
    replace (length written + 8)%nat with (length (written ++ to_be_bytes 8 l))
      by (by rewrite length_app, length_to_be_bytes).
    rewrite IH by (rewrite length_to_be_bytes; lia). rewrite length_to_be_bytes.
    rewrite <-!app_assoc. replace (m - 8 * Datatypes.S (length ls))%nat
      with (m - 8 - 8 * length ls)%nat by lia. done.
Qed.

Lemma length_concat_be8 ls : length (concat (to_be_bytes 8 <$> ls)) = (8 * length ls)%nat.
Proof.
  induction ls as [|l ls IH]; [done|]. rewrite fmap_cons. cbn [concat length].
  rewrite length_app, length_to_be_bytes, IH. lia.
Qed.

(** Where the count survives: only a batch of one blob keeps it, after its length. *)
Definition count_field (n : nat) : Bytes :=
  if decide (n = 1%nat) then usize_to_be_bytes n ++ zeros 8 else zeros 16.

Lemma copy_at_over (a src b c : Bytes) i :
  i = length a → length b = length src → copy_at i src (a ++ b ++ c) = a ++ src ++ c.
Proof.
  intros -> Hb. unfold copy_at. rewrite take_app_length. do 2 f_equal.
  by rewrite <-Hb, <-length_app, app_assoc, drop_app_length.
Qed.

Lemma length_domain : length RANDOM_CHALLENGE_KZG_BATCH_DOMAIN = 24%nat.
Proof. done. Qed.

Lemma transcript_head_spec n ls :
  n ≠ 0%nat → length ls = n →
  transcript_head n ls =
  RANDOM_CHALLENGE_KZG_BATCH_DOMAIN ++ concat (to_be_bytes 8 <$> ls) ++ count_field n ++
    zeros (128 * n).
Proof.
  intros Hn Hls. unfold transcript_head. pose proof length_domain as Hd.
  generalize dependent RANDOM_CHALLENGE_KZG_BATCH_DOMAIN. intros dom Hd.
  rewrite (take_ge ls) by lia.
  replace (copy_at 0 dom (zeros (40 + n * (32 + 2 * 32 + 32 + 8))))
    with (dom ++ zeros 8 ++ zeros 8 ++ zeros (n * 136)).
  2: { symmetry. etransitivity; [apply (copy_at_next [] dom 0); [done|lia]|].
       rewrite app_nil_l, !zeros_app. do 2 f_equal. lia. }
  assert (Hcount : length (usize_to_be_bytes n) = 8%nat) by apply length_to_be_bytes.
  rewrite (app_assoc dom), copy_at_over by (rewrite ?length_app, ?length_zeros; lia).
  rewrite <-!app_assoc. unfold count_field.
  destruct ls as [|l [|l' ls]]; simpl in Hls; subst n; [done| |].
  - rewrite decide_True by done. cbn [write_lengths].
    rewrite copy_at_over by (rewrite ?length_to_be_bytes, ?length_zeros; lia).
    change (to_be_bytes 8 <$> [l]) with [to_be_bytes 8 l]. cbn [concat].
    rewrite app_nil_r, <-!app_assoc, zeros_app. done.
  - rewrite decide_False by done. cbn [write_lengths]. rewrite !fmap_cons. cbn [concat].
    rewrite copy_at_over by (rewrite ?length_to_be_bytes, ?length_zeros; lia).
    rewrite (app_assoc dom), copy_at_over
      by (rewrite ?length_app, ?length_to_be_bytes; lia).
    rewrite <-app_assoc, !app_assoc.
    replace (24 + 8 + 8)%nat with (length ((dom ++ to_be_bytes 8 l) ++ to_be_bytes 8 l'))
      by (rewrite !length_app, !length_to_be_bytes; lia).
    rewrite write_lengths_spec by lia. rewrite <-!app_assoc, zeros_app. cbn [length].
    by replace (Datatypes.S (Datatypes.S (length ls)) * 136 - 8 * length ls)%nat
      with (16 + 128 * Datatypes.S (Datatypes.S (length ls)))%nat by lia.
Qed.

Section transcript.
Context `{!SubstrateBn, !FrLaws, !CurveLaws}.

(** The 128 bytes of one commitment, challenge, value and proof. *)
Definition entry_bytes (entry : AffineG1 * Fr * Fr * AffineG1) : outcome Bytes :=
  let '(commitment, z, y, proof) := entry in
  c ← serialize_g1_compressed commitment;
  p ← serialize_g1_compressed proof;
  Done (c ++ serialize_fr_le z ++ serialize_fr_le y ++ p).

Lemma length_serialize_fr_le z : length (serialize_fr_le z) = 32%nat.
Proof. unfold serialize_fr_le. by rewrite length_rev, length_to_be_bytes. Qed.

Lemma serialize_g1_total p : ∃ bs, serialize_g1_compressed p = Done bs ∧ length bs = 32%nat.
Proof.
  unfold serialize_g1_compressed, fq_to_le_bytes. destruct (G1_is_zero _).
  - eexists. split; [done|]. by rewrite length_insert.
  - destruct (Fq_to_big_endian_total (AffineG1_x p)) as (be & -> & Hlen).
    cbn [opt_expect]. rewrite !Done_bind. eexists. split; [done|]. destruct (fq_is_negative _); [|by rewrite length_rev].
    unfold or_byte. by rewrite length_insert, length_rev.
Qed.

Lemma entry_bytes_total e : ∃ bs, entry_bytes e = Done bs ∧ length bs = 128%nat.
Proof.
  destruct e as [[[c z] y] p]. unfold entry_bytes.
  destruct (serialize_g1_total c) as (bc & -> & Hc), (serialize_g1_total p) as (bp & -> & Hp).
  rewrite !Done_bind. eexists. split; [done|].
  rewrite !length_app, !length_serialize_fr_le, Hc, Hp. done.
Qed.

Lemma write_entry_spec written e bs m :
  entry_bytes e = Done bs → (128 ≤ m)%nat →
  write_entry (length written) e (written ++ zeros m) = Done ((written ++ bs) ++ zeros (m - 128)).
Proof.
  destruct e as [[[c z] y] p]. unfold entry_bytes, write_entry.
  destruct (serialize_g1_total c) as (bc & -> & Hc), (serialize_g1_total p) as (bp & -> & Hp).
  rewrite !Done_bind. intros [= <-] Hm. f_equal.
  rewrite (copy_at_next written bc) by (done || lia).
  rewrite (copy_at_next (written ++ bc)) by (rewrite ?length_app, ?length_serialize_fr_le; lia).
  rewrite (copy_at_next ((written ++ bc) ++ _))
    by (rewrite ?length_app, ?length_serialize_fr_le; lia).
  rewrite (copy_at_next (((written ++ bc) ++ _) ++ _))
    by (rewrite ?length_app, ?length_serialize_fr_le; lia).
  rewrite <-!app_assoc, !length_serialize_fr_le, Hc, Hp.
  by replace (m - 32 - 32 - 32 - 32)%nat with (m - 128)%nat by lia.
Qed.

Lemma write_entries_spec written es bss m :
  Forall2 (λ e bs, entry_bytes e = Done bs) es bss → (128 * length es ≤ m)%nat →
  write_entries (length written) es (written ++ zeros m) =
  Done ((length written + 128 * length es)%nat,
        written ++ concat bss ++ zeros (m - 128 * length es)).
Proof.
  intros Hes. revert written m. induction Hes as [|e bs es bss He Hes IH]; intros written m Hm.
  - cbn [length write_entries concat]. by rewrite Nat.mul_0_r, Nat.add_0_r, Nat.sub_0_r.
  - cbn [length] in Hm. cbn [length write_entries concat].
    rewrite (write_entry_spec _ _ _ _ He), Done_bind by lia.
    assert (Hbs : length bs = 128%nat).
    { destruct (entry_bytes_total e) as (bs' & He' & Hlen). rewrite He in He'. by injection He' as ->. }
    replace (length written + 128)%nat with (length (written ++ bs)) by (rewrite length_app; lia).
    rewrite IH by lia. rewrite length_app, <-!app_assoc.
    replace (m - 128 - 128 * length es)%nat with (m - 128 * Datatypes.S (length es))%nat by lia.
    by replace (length written + length bs + 128 * length es)%nat
      with (length written + 128 * Datatypes.S (length es))%nat by lia.
Qed.

(** What [compute_r_powers] hashes. *)
Definition batch_transcript (ls : list Z) (bss : list Bytes) : Bytes :=
  RANDOM_CHALLENGE_KZG_BATCH_DOMAIN ++ concat (to_be_bytes 8 <$> ls) ++
    count_field (length bss) ++ concat bss.

Lemma hash_to_field_element_spec bs :
  hash_to_field_element bs = Done (Fr_of_Z (from_be_bytes (sha2_256 bs))).
Proof.
  unfold hash_to_field_element. by rewrite Fr_from_bytes_total by apply sha2_256_length.
Qed.

Lemma entries_total es :
  ∃ bss, Forall2 (λ e bs, entry_bytes e = Done bs) es bss ∧ Forall (λ bs, length bs = 128%nat) bss.
Proof.
  induction es as [|e es (bss & IH & IH')]; [by exists []|].
  destruct (entry_bytes_total e) as (bs & ? & ?). exists (bs :: bss). by split; constructor.
Qed.

Lemma compute_r_powers_spec cs zs ys ps ls :
  cs ≠ [] → length zs = length cs → length ys = length cs → length ps = length cs →
  length ls = length cs →
  ∃ bss, Forall2 (λ e bs, entry_bytes e = Done bs) (zip (zip (zip cs zs) ys) ps) bss ∧
    Forall (λ bs, length bs = 128%nat) bss ∧
    compute_r_powers cs zs ys ps ls = Done (Ok (powers
      (Fr_of_Z (from_be_bytes (sha2_256 (batch_transcript ls bss)))) (length cs))).
Proof.
  intros Hne Hz Hy Hp Hl. set (es := zip (zip (zip cs zs) ys) ps).
  assert (Hes : length es = length cs) by (unfold es; rewrite !length_zip_with; lia).
  destruct (entries_total es) as (bss & Hbss & H128). exists bss. split_and!; [done..|].
  assert (Hbl : length bss = length cs) by (apply Forall2_length in Hbss; lia).
  assert (Hn : length cs ≠ 0%nat) by (by destruct cs).
  unfold compute_r_powers. fold es. rewrite transcript_head_spec by done.
  set (head := RANDOM_CHALLENGE_KZG_BATCH_DOMAIN ++ concat (to_be_bytes 8 <$> ls) ++
    count_field (length cs)).
  replace (RANDOM_CHALLENGE_KZG_BATCH_DOMAIN ++ concat (to_be_bytes 8 <$> ls) ++
    count_field (length cs) ++ zeros (128 * length cs)) with (head ++ zeros (128 * length cs))
    by (unfold head; by rewrite <-!app_assoc).
  assert (Hhead : length head = (40 + length cs * 8)%nat).
  { unfold head. rewrite !length_app, length_domain, length_concat_be8, Hl. unfold count_field.
    case_decide; rewrite ?length_app, ?length_zeros; unfold usize_to_be_bytes;
      rewrite ?length_to_be_bytes; lia. }
  rewrite <-Hhead, (write_entries_spec head es bss) by (done || lia).
  rewrite Done_bind, bool_decide_false by lia.
  rewrite hash_to_field_element_spec, Done_bind, compute_powers_spec, Hes, Nat.sub_diag.
  unfold batch_transcript, head, zeros. rewrite Hbl. cbn [replicate].
  by rewrite app_nil_r, <-!app_assoc.
Qed.
End transcript.

(** ** Injectivity of the transcript *)

Lemma concat_uniform_inj {A} (k : nat) (l l' : list (list A)) :
  (0 < k)%nat → Forall (λ x, length x = k) l → Forall (λ x, length x = k) l' →
  concat l = concat l' → l = l'.
Proof.
  intros Hk Hl. revert l'. induction Hl as [|x l Hx Hl IH]; intros l' Hl' Heq.
  - destruct Hl' as [|x' l' Hx' _]; [done|]. destruct x'; simpl in *; [lia|done].
  - destruct Hl' as [|x' l' Hx' Hl']; [destruct x; simpl in *; [lia|done]|].
    cbn [concat] in Heq. apply app_inj_1 in Heq as [-> Heq]; [|lia]. f_equal. by apply IH.
Qed.

Lemma length_concat_uniform {A} (k : nat) (l : list (list A)) :
  Forall (λ x, length x = k) l → length (concat l) = (k * length l)%nat.
Proof. induction 1 as [|x l Hx _ IH]; simpl; [lia|]. rewrite length_app, IH. lia. Qed.

Lemma be8_inj ls ls' :
  Forall (λ l, 0 ≤ l < 2 ^ 64) ls → Forall (λ l, 0 ≤ l < 2 ^ 64) ls' →
  to_be_bytes 8 <$> ls = to_be_bytes 8 <$> ls' → ls = ls'.
Proof.
  intros Hls. revert ls'. induction Hls as [|l ls Hl _ IH]; intros ls' Hls' Heq;
    destruct Hls' as [|l' ls' Hl' Hls']; try done.
  rewrite !fmap_cons in Heq. pose proof (f_equal (hd []) Heq) as Hh. pose proof (f_equal tail Heq) as Ht.
  cbn [hd tail] in Hh, Ht. rewrite (to_be_bytes_inj 8 l l') by done. f_equal. by apply IH.
Qed.

Lemma length_count_field n : length (count_field n) = 16%nat.
Proof.
  unfold count_field, usize_to_be_bytes.
  case_decide; rewrite ?length_app, ?length_zeros, ?length_to_be_bytes; done.
Qed.

Lemma batch_transcript_inj ls ls' bss bss' :
  length ls = length bss → length ls' = length bss' →
  Forall (λ l, 0 ≤ l < 2 ^ 64) ls → Forall (λ l, 0 ≤ l < 2 ^ 64) ls' →
  Forall (λ bs, length bs = 128%nat) bss → Forall (λ bs, length bs = 128%nat) bss' →
  batch_transcript ls bss = batch_transcript ls' bss' → ls = ls' ∧ bss = bss'.
Proof.
  intros Hl Hl' Hu Hu' Hb Hb' Heq. unfold batch_transcript in Heq.
  apply app_inv_head in Heq.
  assert (Hlen : length bss = length bss').
  { apply (f_equal length) in Heq. rewrite !length_app, !length_concat_be8, !length_count_field in Heq.
    rewrite (length_concat_uniform 128 bss), (length_concat_uniform 128 bss') in Heq by done. lia. }
  apply app_inj_1 in Heq as [Hls Heq]; [|rewrite !length_concat_be8; lia].
  apply app_inj_1 in Heq as [_ Heq]; [|by rewrite !length_count_field]. split.
  - apply be8_inj; [done..|]. apply (concat_uniform_inj 8); [lia| | |done];
      apply Forall_fmap, Forall_true; intros; apply length_to_be_bytes.
  - by apply (concat_uniform_inj 128); [lia|..].
Qed.

(** ** The group *)

Section group.
Context `{!SubstrateBn, !FrLaws, !CurveLaws}.
Add Ring fr_ring : Fr_ring.

Lemma G1_add_zero_r a : G1_add a G1_zero = a.
Proof. by rewrite G1_add_comm, G1_add_zero. Qed.

Lemma G1_add_cancel a b c : G1_add a b = G1_add a c → b = c.
Proof.
  intros Heq. rewrite <-(G1_add_zero b), <-(G1_add_zero c), <-(G1_add_neg a), (G1_add_comm a).
  by rewrite <-!G1_add_assoc, Heq.
Qed.

Lemma G1_add4 a b c d : G1_add (G1_add a b) (G1_add c d) = G1_add (G1_add a c) (G1_add b d).
Proof. rewrite <-!G1_add_assoc. f_equal. by rewrite !G1_add_assoc, (G1_add_comm b). Qed.

Lemma G1_neg_unique a b : G1_add a b = G1_zero → b = G1_neg a.
Proof. intros Hab. apply (G1_add_cancel a). by rewrite Hab, G1_add_neg. Qed.

Lemma G1_neg_add a b : G1_neg (G1_add a b) = G1_add (G1_neg a) (G1_neg b).
Proof. symmetry. apply G1_neg_unique. by rewrite G1_add4, !G1_add_neg, G1_add_zero. Qed.

Lemma G1_sub_zero a b : G1_sub a b = G1_zero ↔ a = b.
Proof.
  rewrite G1_sub_spec. split; [|intros ->; apply G1_add_neg]. intros Hab.
  rewrite G1_add_comm in Hab. apply (G1_add_cancel (G1_neg b)). rewrite Hab, G1_add_comm.
  symmetry. apply G1_add_neg.
Qed.

Lemma G1_sub_self a : G1_sub a a = G1_zero.
Proof. by apply G1_sub_zero. Qed.

Lemma G1_sub_add a a' b b' : G1_sub (G1_add a a') (G1_add b b') = G1_add (G1_sub a b) (G1_sub a' b').
Proof. by rewrite !G1_sub_spec, G1_neg_add, G1_add4. Qed.

Lemma G1_zero_mul x : G1_mul G1_zero x = G1_zero.
Proof.
  apply (G1_add_cancel (G1_mul G1_zero x)). by rewrite <-G1_mul_add_l, !G1_add_zero_r.
Qed.

Lemma G1_mul_zero a : G1_mul a Fr_zero = G1_zero.
Proof.
  apply (G1_add_cancel (G1_mul a Fr_zero)). rewrite <-G1_mul_add_r, G1_add_zero_r. f_equal. ring.
Qed.

Lemma G1_neg_mul a x : G1_mul (G1_neg a) x = G1_neg (G1_mul a x).
Proof. apply G1_neg_unique. by rewrite <-G1_mul_add_l, G1_add_neg, G1_zero_mul. Qed.

Lemma G1_sub_mul a b x : G1_mul (G1_sub a b) x = G1_sub (G1_mul a x) (G1_mul b x).
Proof. by rewrite !G1_sub_spec, G1_mul_add_l, G1_neg_mul. Qed.

Definition gsum (l : list bn_G1) : bn_G1 := foldr G1_add G1_zero l.

Lemma gsum_cons a l : gsum (a :: l) = G1_add a (gsum l).
Proof. done. Qed.

(** ** The single equation and the batch *)

(** Zero when the pairing equation of one opening [(commitment, z, y, proof)] holds:
    [tau * proof = (commitment - y * G) + z * proof]. *)
Definition kzg_defect (commitment : AffineG1) (z y : Fr) (proof : AffineG1) : bn_G1 :=
  G1_sub (G1_mul (AffineG1_into proof) srs_tau)
    (G1_add (G1_sub (AffineG1_into commitment) (G1_mul G1_one y)) (G1_mul (AffineG1_into proof) z)).

Definition entry_defect (e : AffineG1 * Fr * Fr * AffineG1) : bn_G1 :=
  let '(c, z, y, p) := e in kzg_defect c z y p.

Definition opened (c_minus : AffineG1) (e : AffineG1 * Fr * Fr * AffineG1) : Prop :=
  let '(c, z, y, p) := e in AffineG1_into c_minus = G1_sub (AffineG1_into c) (G1_mul G1_one y).

(** Both sides of the batched equation differ by the combination of the defects. *)
Lemma batch_combination es cms rs :
  Forall2 opened cms es → length rs = length es →
  let combine ps xs := gsum (zip_with (λ p x, G1_mul (AffineG1_into p) x) ps xs) in
  G1_sub (G1_mul (combine (snd <$> es) rs) srs_tau)
    (G1_add (combine cms rs) (combine (snd <$> es) (zip_with Fr_mul rs ((λ e, e.1.1.2) <$> es)))) =
  gsum (zip_with G1_mul (entry_defect <$> es) rs).
Proof.
  intros Hcms. cbv zeta. revert rs. induction Hcms as [|cm e cms es Ho _ IH]; intros rs Hrs.
  - simpl. by rewrite G1_zero_mul, G1_add_zero, G1_sub_self.
  - destruct rs as [|r rs]; [done|]. cbn [length] in Hrs. specialize (IH rs ltac:(lia)).
    rewrite !fmap_cons. cbn [zip_with]. rewrite !gsum_cons, <-IH, G1_mul_add_l, G1_add4, G1_sub_add.
    f_equal. destruct e as [[[c z] y] p]. simpl. simpl in Ho. rewrite Ho. unfold kzg_defect.
    rewrite !G1_sub_mul, G1_mul_add_l, !G1_mul_mul, !G1_sub_mul, !G1_mul_mul.
    f_equal; [|f_equal]; f_equal; ring.
Qed.

Lemma validate_g1_point_Ok a : validate_g1_point a = Ok tt.
Proof.
  unfold validate_g1_point. destruct (G1_is_zero a) eqn:Hz; [done|].
  destruct (AffineG1_from_jacobian_total a) as [p ->]; [|done].
  intros ->. assert (G1_is_zero G1_zero = true) by (by apply G1_is_zero_spec). congruence.
Qed.

Lemma validate_all l : ∃ us, mapM_result (λ c, validate_g1_point (AffineG1_into c)) l = Ok us.
Proof.
  induction l as [|c l [us IH]]; [by exists []|]. simpl. rewrite validate_g1_point_Ok, Ok_bind, IH.
  by eexists.
Qed.

Lemma c_minus_y_spec c y :
  ∃ a, c_minus_y c y = Done a ∧
    AffineG1_into a = G1_sub (AffineG1_into c) (G1_mul G1_one y).
Proof.
  unfold c_minus_y. destruct (G1_is_zero _) eqn:Hz.
  - exists AffineG1_default. split; [done|]. apply G1_is_zero_spec in Hz as ->.
    apply AffineG1_default_spec.
  - destruct (AffineG1_from_jacobian_total (G1_sub (AffineG1_into c) (G1_mul G1_one y))) as [a Ha].
    { intros Heq. apply G1_is_zero_spec in Heq. congruence. }
    exists a. rewrite Ha. split; [done|]. by apply AffineG1_from_jacobian_spec.
Qed.

Lemma c_minus_y_all es :
  ∃ cms, mapM_outcome (λ '(c, y), c_minus_y c y) (zip ((λ e, e.1.1.1) <$> es) ((λ e, e.1.2) <$> es)) =
    Done cms ∧ Forall2 opened cms es.
Proof.
  induction es as [|[[[c z] y] p] es (cms & IH & IH')]; [by exists []|].
  destruct (c_minus_y_spec c y) as (a & Ha & Hinto). exists (a :: cms). csimpl.
  rewrite Ha, Done_bind, IH. split; [done|]. by constructor.
Qed.

Lemma g1_lincomb_spec ps rs :
  length ps = length rs → ps ≠ [] →
  g1_lincomb ps rs = Done (Ok (gsum (zip_with (λ p x, G1_mul (AffineG1_into p) x) ps rs))).
Proof.
  intros Hlen Hne. unfold g1_lincomb. rewrite bool_decide_false by tauto.
  destruct (bn_msm_spec ps rs Hlen Hne) as (p & -> & Hp). by rewrite Done_bind, Hp.
Qed.

Lemma literal_bind {A} s v (f : Fq → outcome A) :
  decimal_value s = Some v → (∀ q, ∃ t, f q = Done t) →
  ∃ t, opt_expect (Fq_from_str s) ≫= f = Done t.
Proof. intros [q ->]%Fq_from_str_total Hf. apply Hf. Qed.

Lemma g2_tau_Done : ∃ t, g2_tau = Done t.
Proof.
  unfold g2_tau. do 4 (eapply literal_bind; [vm_compute; reflexivity|intros ?]). by eexists.
Qed.

Lemma pairings_verify_spec t a b :
  g2_tau = Done t → pairings_verify a t b G2_one = true ↔ G1_mul a srs_tau = b.
Proof. intros Ht. unfold pairings_verify. rewrite bool_decide_eq_true. by apply pairing_tau. Qed.

(** The batched check on entries: it returns, and says whether the combination of
    the defects with the powers of the challenge is zero. *)
Lemma verify_kzg_proof_batch_entries es ls rs :
  es ≠ [] → length ls = length es → length rs = length es →
  compute_r_powers ((λ e, e.1.1.1) <$> es) ((λ e, e.1.1.2) <$> es) ((λ e, e.1.2) <$> es)
    (snd <$> es) ls = Done (Ok rs) →
  ∃ b, verify_kzg_proof_batch ((λ e, e.1.1.1) <$> es) ((λ e, e.1.1.2) <$> es)
    ((λ e, e.1.2) <$> es) (snd <$> es) ls = Done (Ok b) ∧
    (b = true ↔ gsum (zip_with G1_mul (entry_defect <$> es) rs) = G1_zero).
Proof.
  intros Hne Hls Hrs Hr. unfold verify_kzg_proof_batch.
  rewrite !bool_decide_true by (by rewrite !length_fmap). simpl negb. cbn iota.
  destruct (validate_all ((λ e, e.1.1.1) <$> es)) as [us1 ->].
  destruct (validate_all (snd <$> es)) as [us2 ->]. cbn [or_bind]. rewrite Hr. cbn [or_bind].
  assert (Hps : snd <$> es ≠ []) by (by destruct es).
  rewrite g1_lincomb_spec by (rewrite ?length_fmap; done). cbn [or_bind].
  destruct (c_minus_y_all es) as (cms & -> & Hcms). rewrite Done_bind.
  pose proof (Forall2_length _ _ _ Hcms) as Hcl.
  rewrite g1_lincomb_spec by (rewrite ?length_zip_with, ?length_fmap; done || lia). cbn [or_bind].
  rewrite g1_lincomb_spec; [cbn [or_bind]|lia|by (destruct cms, es; simpl in *; done)].
  destruct g2_tau_Done as [t Ht]. rewrite Ht, Done_bind. eexists. split; [done|].
  rewrite (pairings_verify_spec t) by done. rewrite <-G1_sub_zero.
  rewrite (batch_combination es cms rs Hcms Hrs). done.
Qed.
End group.
