(* ===== verification/PolyRoots.v ===== *)
(** * Polynomials over the scalar field have few roots

    For coefficients in a module over [Fr] (the field itself, or the group G1): a
    polynomial that vanishes at as many points as it has coefficients is zero.  With the
    orthogonality of the roots of unity this gives the existence and the uniqueness of the
    polynomial behind a blob, and the soundness of a random linear combination. *)

From S2P Require Export KzgBatch.
From Stdlib Require Import Ring.

(** A module over the scalar field; the scalar is the second argument, as in [G1_mul]. *)
Class FrModule `{!SubstrateBn, !FrLaws} (V : Type) := {
  m_zero : V;
  m_add : V → V → V;
  m_mul : V → Fr → V;
  m_add_comm a b : m_add a b = m_add b a;
  m_add_assoc a b c : m_add a (m_add b c) = m_add (m_add a b) c;
  m_add_zero a : m_add m_zero a = a;
  m_mul_one a : m_mul a Fr_one = a;
  m_mul_mul a x y : m_mul (m_mul a x) y = m_mul a (Fr_mul x y);
  m_mul_add_l a b x : m_mul (m_add a b) x = m_add (m_mul a x) (m_mul b x);
  m_mul_add_r a x y : m_mul a (Fr_add x y) = m_add (m_mul a x) (m_mul a y);
  m_zero_mul x : m_mul m_zero x = m_zero;
}.

Section roots.
Context `{!SubstrateBn, !FrLaws, !FrModule V}.
Add Ring fr_ring : Fr_ring.
Open Scope fr_scope.

Lemma m_add_zero_r a : m_add a m_zero = a.
Proof. by rewrite m_add_comm, m_add_zero. Qed.

(** The value of the polynomial with the coefficients [D]. *)
Fixpoint m_eval (D : list V) (x : Fr) : V :=
  match D with [] => m_zero | d :: D => m_add d (m_mul (m_eval D x) x) end.

(** Its quotient by [X - z]: the Horner values of its tails. *)
Fixpoint m_quotient (D : list V) (z : Fr) : list V :=
  match D with
  | [] => []
  | d :: D => match D with [] => [] | _ => m_eval D z :: m_quotient D z end
  end.

Lemma length_m_quotient D z : length (m_quotient D z) = (length D - 1)%nat.
Proof.
  induction D as [|d D IH]; [done|]. destruct D as [|d' D]; [done|].
  cbn [m_quotient length] in *. cbn [m_quotient] in IH. rewrite IH. lia.
Qed.

Lemma m_quotient_spec D x z :
  m_eval D x = m_add (m_eval D z) (m_mul (m_eval (m_quotient D z) x) (x - z)).
Proof.
  induction D as [|d D IH]; [cbn; by rewrite m_zero_mul, m_add_zero|].
  destruct D as [|d' D]; [cbn; by rewrite !m_zero_mul, !m_add_zero_r|].
  set (D' := d' :: D) in *. change (m_quotient (d :: D') z) with (m_eval D' z :: m_quotient D' z).
  cbn [m_eval]. rewrite IH. set (P := m_eval D' z). set (Q := m_eval (m_quotient D' z) x).
  rewrite <-m_add_assoc, !m_mul_add_l, !m_mul_mul. f_equal. rewrite m_add_assoc. f_equal.
  - rewrite <-m_mul_add_r. f_equal. ring.
  - f_equal. ring.
Qed.

Lemma m_quotient_zero D z :
  m_eval D z = m_zero → Forall (λ d, d = m_zero) (m_quotient D z) → Forall (λ d, d = m_zero) D.
Proof.
  induction D as [|d D IH]; intros Hz Hq; [done|]. cbn [m_eval] in Hz.
  destruct D as [|d' D].
  - constructor; [|done]. cbn in Hz. by rewrite m_zero_mul, m_add_zero_r in Hz.
  - set (D' := d' :: D) in *. change (m_quotient (d :: D') z) with (m_eval D' z :: m_quotient D' z) in Hq.
    apply Forall_cons in Hq as [Hz' Hq]. constructor; [|by apply IH].
    by rewrite Hz', m_zero_mul, m_add_zero_r in Hz.
Qed.

Lemma m_mul_cancel a x : x ≠ Fr_zero → m_mul a x = m_zero → a = m_zero.
Proof.
  intros Hx Ha. destruct (Fr_inverse_total x Hx) as (y & _ & Hy).
  by rewrite <-(m_mul_one a), <-Hy, <-m_mul_mul, Ha, m_zero_mul.
Qed.

(** As many distinct roots as coefficients leave only the zero polynomial. *)
Lemma few_roots D rs :
  NoDup rs → Forall (λ r, m_eval D r = m_zero) rs → (length D ≤ length rs)%nat →
  Forall (λ d, d = m_zero) D.
Proof.
  revert D. induction rs as [|r rs IH]; intros D Hnd Hroots Hlen;
    [destruct D; [done|cbn in Hlen; lia]|].
  apply NoDup_cons in Hnd as [Hin Hnd]. apply Forall_cons in Hroots as [Hr Hroots].
  apply (m_quotient_zero D r); [done|]. apply IH; [done| |rewrite length_m_quotient; cbn in Hlen; lia].
  rewrite Forall_forall in Hroots |- *. intros x Hx.
  apply (m_mul_cancel _ (x - r)).
  - by intros ->%sub_zero_eq.
  - pose proof (m_quotient_spec D x r) as Hspec. rewrite Hr, m_add_zero in Hspec. by rewrite <-Hspec, Hroots.
Qed.
End roots.

(** ** The field as a module: interpolation *)

Section field_module.
Context `{!SubstrateBn, !FrLaws}.
Add Ring fr_ring : Fr_ring.
Open Scope fr_scope.

#[export] Instance Fr_module : FrModule Fr.
Proof. refine {| m_zero := Fr_zero; m_add := Fr_add; m_mul a x := x * a |}; intros; ring. Defined.

Lemma m_eval_poly_eval c z : m_eval c z = poly_eval c z.
Proof. induction c as [|a c IH]; [done|]. cbn [m_eval poly_eval]. by rewrite IH. Qed.

Lemma poly_eval_sub c c' z :
  length c = length c' → poly_eval (zip_with Fr_sub c c') z = poly_eval c z - poly_eval c' z.
Proof.
  revert c'. induction c as [|a c IH]; intros [|a' c'] Hl; try done; cbn; [ring|].
  injection Hl as Hl. rewrite IH by done. ring.
Qed.

(** Two polynomials that agree at as many points as they have coefficients are equal. *)
Lemma poly_eval_inj c c' rs :
  length c = length c' → NoDup rs → (length c ≤ length rs)%nat →
  Forall (λ r, poly_eval c r = poly_eval c' r) rs → c = c'.
Proof.
  intros Hl Hnd Hrs Hall.
  assert (Hzero : Forall (λ d, d = Fr_zero) (zip_with Fr_sub c c')).
  { refine (few_roots (zip_with Fr_sub c c') rs _ _ _); [done| |rewrite length_zip_with; lia].
    eapply Forall_impl; [exact Hall|]. intros r Hr.
    rewrite m_eval_poly_eval, poly_eval_sub, Hr by done. cbn. ring. }
  clear rs Hnd Hrs Hall. revert c' Hl Hzero. induction c as [|a c IH]; intros [|a' c'] Hl Hzero; try done.
  injection Hl as Hl. cbn in Hzero. apply Forall_cons in Hzero as [Ha Hzero].
  f_equal; [by apply sub_zero_eq|by apply IH].
Qed.

(** The inverse of the discrete Fourier transform. *)
Definition inverse_dft (n : nat) (w iw : Fr) (evals : list Fr) : list Fr :=
  (λ j, iw * rsum n (λ i, coeff evals i * fr_power (fr_power w i) (n - j))) <$> seq 0 n.

Lemma coeff_fmap_seq (f : nat → Fr) n j : (j < n)%nat → coeff (f <$> seq 0 n) j = f j.
Proof.
  intros Hj. unfold coeff. apply nth_lookup_Some. by rewrite list_lookup_fmap, lookup_seq_lt.
Qed.

Lemma root_exponents k w i j l :
  primitive_root k w → (i < 2 ^ k)%nat → (j < 2 ^ k)%nat →
  fr_power (fr_power w i) (2 ^ k - j) * fr_power (fr_power w l) j =
  fr_power (fr_power w j) (l + (2 ^ k - i)).
Proof.
  intros [Hone _] Hi Hj. set (n := (2 ^ k)%nat) in *.
  assert (H1 : ∀ e m, fr_power w (e + n * m) = fr_power w e).
  { intros e m. rewrite fr_power_add, fr_power_mul, Hone, fr_power_one. ring. }
  rewrite <-!fr_power_mul, <-fr_power_add.
  rewrite <-(H1 (i * (n - j) + l * j)%nat j), <-(H1 (j * (l + (n - i)))%nat i). f_equal. nia.
Qed.

Lemma inverse_dft_spec k w iw evals l :
  primitive_root k w → Fr_of_Z (Z.of_nat (2 ^ k)) * iw = Fr_one → (l < 2 ^ k)%nat →
  poly_eval (inverse_dft (2 ^ k) w iw evals) (fr_power w l) = coeff evals l.
Proof.
  intros Hw Hiw Hl. pose proof (λ m, domain_power_sum k w m Hw) as Hdom.
  set (n := (2 ^ k)%nat) in *. rewrite poly_eval_rsum. unfold inverse_dft at 1. rewrite length_fmap, length_seq.
  transitivity (iw * rsum n (λ i, coeff evals i * rsum n (λ j, fr_power (fr_power w j) (l + (n - i))))).
  - rewrite (rsum_ext n _ (λ j, iw * rsum n (λ i, coeff evals i * fr_power (fr_power w j) (l + (n - i))))).
    + rewrite <-rsum_scale_l, rsum_swap. f_equal. apply rsum_ext. intros i _. by rewrite rsum_scale_l.
    + intros j Hj. unfold inverse_dft. rewrite coeff_fmap_seq by done.
      transitivity (iw * (rsum n (λ i, coeff evals i * fr_power (fr_power w i) (n - j)) *
        fr_power (fr_power w l) j)); [ring|]. f_equal. rewrite rsum_scale_r. apply rsum_ext. intros i Hi.
      pose proof (root_exponents k w i j l Hw Hi Hj) as Hexp. fold n in Hexp. rewrite <-Hexp. ring.
  - rewrite (rsum_single n l); [|done|].
    + rewrite Hdom, decide_True by lia.
      transitivity (Fr_of_Z (Z.of_nat n) * iw * coeff evals l); [ring|]. rewrite Hiw. ring.
    + intros i Hi Hne. rewrite Hdom, decide_False by lia. ring.
Qed.

(** The coefficients of a blob's polynomial, from its roots of unity. *)
Definition interpolant (p : PolynomialEvalForm) : option (list Fr) :=
  match calculate_roots_of_unity (Z.of_nat (len_underlying_blob_bytes p)) with
  | Done (Ok roots) =>
      iw ← Fr_inverse (Fr_of_Z (Z.of_nat (poly_len p)));
      Some (inverse_dft (poly_len p) (nth 1 roots Fr_one) iw (evaluations p))
  | _ => None
  end.

(** The evaluation domain of a blob. *)
Lemma blob_domain evals p :
  evals ≠ [] → PolynomialEvalForm_new evals = Ok p →
  ∃ k w iw, poly_len p = (2 ^ k)%nat ∧ primitive_root k w ∧ Fr_of_Z (Z.of_nat (2 ^ k)) * iw = Fr_one ∧
    calculate_roots_of_unity (Z.of_nat (len_underlying_blob_bytes p)) = Done (Ok (powers w (2 ^ k))) ∧
    interpolant p = Some (inverse_dft (2 ^ k) w iw (evaluations p)).
Proof.
  intros Hne (Hle & Hp & Hlen & _)%PolynomialEvalForm_new_Ok.
  assert (Hn : length evals ≠ 0%nat) by (by destruct evals).
  destruct (calculate_roots_of_unity_spec (Z.of_nat (length evals * BYTES_PER_FIELD_ELEMENT)))
    as (w & Hw & Hroots); [unfold BYTES_PER_FIELD_ELEMENT; lia|by rewrite elements_of_multiple|].
  rewrite elements_of_multiple in *. pose proof (Z_of_nat_width _ Hle Hn) as Hwidth.
  unfold next_power_of_two in *. set (k := Nat.log2_up (length evals)) in *.
  destruct (width_inverse k) as (iw & Hinv & Hiw); [lia|].
  exists k, w, iw. rewrite Hlen. split_and!; [done..|]. unfold interpolant.
  rewrite Hlen, Hroots, Hp, Hinv. simpl. do 2 f_equal.
  destruct (decide (k = 0%nat)) as [->|Hk].
  - destruct Hw as [Hone _]. simpl in Hone. cbn. transitivity (w * Fr_one); [done|ring].
  - assert (1 < 2 ^ k)%nat by (apply Nat.pow_gt_1; lia).
    rewrite (nth_lookup_Some _ _ _ (fr_power w 1)) by (by apply powers_lookup). simpl. ring.
Qed.

(** Every blob has exactly one polynomial. *)
Lemma interpolant_spec evals p :
  evals ≠ [] → PolynomialEvalForm_new evals = Ok p →
  ∃ c, interpolant p = Some c ∧ interpolates p c ∧ ∀ c', interpolates p c' → c' = c.
Proof.
  intros Hne Hnew. destruct (blob_domain evals p Hne Hnew) as (k & w & iw & Hp & Hw & Hiw & Hroots & Hint).
  exists (inverse_dft (2 ^ k) w iw (evaluations p)). split; [done|].
  assert (Hl : length (inverse_dft (2 ^ k) w iw (evaluations p)) = (2 ^ k)%nat)
    by (unfold inverse_dft; by rewrite length_fmap, length_seq).
  assert (Hvalue : ∀ l d f, powers w (2 ^ k) !! l = Some d → evaluations p !! l = Some f →
    poly_eval (inverse_dft (2 ^ k) w iw (evaluations p)) d = f).
  { intros l d f Hd Hf. assert (Hlt : (l < 2 ^ k)%nat) by (apply lookup_lt_Some in Hd; by rewrite length_powers in Hd).
    rewrite powers_lookup in Hd by done. injection Hd as <-.
    rewrite inverse_dft_spec by done. by apply nth_lookup_Some. }
  split.
  - split; [by rewrite Hp|]. exists (powers w (2 ^ k)). split; [done|]. unfold poly_len in Hp.
    by apply Forall2_same_length_lookup_2; [rewrite length_powers|].
  - intros c' (Hc' & roots & Hroots' & Hvals). rewrite Hroots in Hroots'. injection Hroots' as <-.
    apply (poly_eval_inj _ _ (powers w (2 ^ k))).
    + by rewrite Hc', Hp, Hl.
    + by apply powers_NoDup.
    + rewrite length_powers. lia.
    + apply Forall_lookup. intros l d Hd.
      destruct (Forall2_lookup_l _ _ _ _ _ Hvals Hd) as (f & Hf & ->). symmetry. by apply (Hvalue l).
Qed.

Lemma interpolant_exists evals p :
  evals ≠ [] → PolynomialEvalForm_new evals = Ok p →
  ∃ c, interpolates p c ∧ ∀ c', interpolates p c' → c' = c.
Proof. intros Hne Hnew. destruct (interpolant_spec evals p Hne Hnew) as (c & _ & ?). by exists c. Qed.
End field_module.

(** ** The group as a module: batching *)

Section group_module.
Context `{!SubstrateBn, !FrLaws, !CurveLaws}.

#[export] Instance G1_module : FrModule bn_G1 := {|
  m_zero := G1_zero; m_add := G1_add; m_mul := G1_mul;
  m_add_comm := G1_add_comm; m_add_assoc := G1_add_assoc; m_add_zero := G1_add_zero;
  m_mul_one := G1_mul_one; m_mul_mul := G1_mul_mul; m_mul_add_l := G1_mul_add_l;
  m_mul_add_r := G1_mul_add_r; m_zero_mul := G1_zero_mul;
|}.

Lemma combination_eval_from (D : list bn_G1) r k :
  gsum (zip_with G1_mul D (fr_power r <$> seq k (length D))) = G1_mul (m_eval D r) (fr_power r k).
Proof.
  revert k. induction D as [|d D IH]; intros k; [cbn; by rewrite G1_zero_mul|].
  cbn [length seq]. rewrite fmap_cons. cbn [zip_with m_eval]. rewrite gsum_cons, IH.
  cbn [m_add m_mul G1_module]. by rewrite G1_mul_add_l, G1_mul_mul.
Qed.

(** The linear combination with the powers of [r] is the value at [r] of a polynomial. *)
Lemma combination_eval (D : list bn_G1) r n :
  length D = n → gsum (zip_with G1_mul D (powers r n)) = m_eval D r.
Proof. intros <-. unfold powers. etransitivity; [apply combination_eval_from|]. apply G1_mul_one. Qed.
End group_module.
