(* ===== verification/KzgInstance.v ===== *)
(** * A concrete curve library

    [Fr] as the integers modulo the scalar order, which is prime, with the curve groups
    replaced by their exponents: small enough to evaluate, and it satisfies the laws. *)

From S2P Require Export Primality KzgBatch.
From Stdlib Require Import Zpow_facts Ring.

(** ** The scalar order is prime

    A chain of Pocklington certificates, each over the large factor of the next. *)

Lemma small_primes : Forall Z.prime [853; 983; 1637]%Z.
Proof. repeat apply Forall_cons_2; try apply trial_division_prime; try constructor; vm_compute; reflexivity. Qed.

Lemma prime_639533339 : Z.prime 639533339.
Proof.
  apply (pocklington_prime _ 2 [(853, 1); (1637, 1)]%Z); [vm_compute; reflexivity|].
  pose proof small_primes as [? [? [? _]%Forall_cons]%Forall_cons]%Forall_cons.
  by repeat apply Forall_cons_2.
Qed.

Lemma prime_65865678001877903 : Z.prime 65865678001877903.
Proof.
  apply (pocklington_prime _ 2 [(639533339, 1)]%Z); [vm_compute; reflexivity|].
  apply Forall_singleton, prime_639533339.
Qed.

Lemma prime_13818364434197438864469338081 : Z.prime 13818364434197438864469338081.
Proof.
  apply (pocklington_prime _ 2 [(65865678001877903, 1)]%Z); [vm_compute; reflexivity|].
  apply Forall_singleton, prime_65865678001877903.
Qed.

Theorem fr_modulus_prime : Z.prime fr_modulus.
Proof.
  apply (pocklington_prime _ 5 [(2, 28); (983, 1); (13818364434197438864469338081, 1)]%Z);
    [vm_compute; reflexivity|].
  pose proof small_primes as [_ [H983 _]%Forall_cons]%Forall_cons.
  repeat apply Forall_cons_2; [exact Z.prime_2|exact H983|exact prime_13818364434197438864469338081|].
  constructor.
Qed.

Module Exponents.

Definition F : Type := dsig (λ z : Z, 0 ≤ z < fr_modulus).
Definition val (a : F) : Z := proj1_sig a.

Lemma mod_in_range z : 0 ≤ z mod fr_modulus < fr_modulus.
Proof. apply Z.mod_pos_bound. done. Qed.

Definition mk (z : Z) : F := dexist (z mod fr_modulus) (mod_in_range z).

Lemma val_range a : 0 ≤ val a < fr_modulus.
Proof. apply (proj2_dsig a). Qed.

Lemma mk_eq a b : mk a = mk b ↔ a mod fr_modulus = b mod fr_modulus.
Proof. apply (dsig_eq (λ z : Z, 0 ≤ z < fr_modulus)). Qed.

Lemma mk_val a : mk (val a) = a.
Proof. apply (dsig_eq (λ z : Z, 0 ≤ z < fr_modulus)). apply Z.mod_small, val_range. Qed.

Definition add (a b : F) : F := mk (val a + val b).
Definition sub (a b : F) : F := mk (val a - val b).
Definition mul (a b : F) : F := mk (val a * val b).
Definition opp (a : F) : F := mk (- val a).
Definition power (a : F) (n : Z) : F := mk (Zpow_mod (val a) n fr_modulus).
(** Euclid's algorithm; 512 rounds are enough for 254-bit operands. *)
Fixpoint bezout (fuel : nat) (a b s0 s1 : Z) : Z :=
  match fuel with
  | O => s0
  | Datatypes.S fuel =>
      if bool_decide (b = 0) then s0 else bezout fuel b (a mod b) s1 (s0 - a / b * s1)
  end.
Definition inverse (a : F) : option F :=
  let b := mk (bezout 512 (val a) fr_modulus 1 0) in if bool_decide (mul a b = mk 1) then Some b else None.

Lemma inverse_Some a b : inverse a = Some b → mul a b = mk 1.
Proof.
  unfold inverse. generalize (mk (bezout 512 (val a) fr_modulus 1 0)). intros b'.
  case_bool_decide as Hb; [|done]. by intros [= <-].
Qed.

Lemma add_mk a b : add (mk a) (mk b) = mk (a + b).
Proof. apply mk_eq. symmetry. apply Zplus_mod. Qed.
Lemma sub_mk a b : sub (mk a) (mk b) = mk (a - b).
Proof. apply mk_eq. symmetry. apply Zminus_mod. Qed.
Lemma mul_mk a b : mul (mk a) (mk b) = mk (a * b).
Proof. apply mk_eq. symmetry. apply Zmult_mod. Qed.
Lemma opp_mk a : opp (mk a) = mk (- a).
Proof.
  transitivity (sub (mk 0) (mk a)); [|by rewrite sub_mk].
  apply mk_eq. cbn. by rewrite <-Z.sub_0_l.
Qed.

(** The rounds keep [s0 * x = a] and [s1 * x = b] modulo the order, and each shortens [b]. *)
Lemma bezout_gcd (x m : Z) fuel a b s0 s1 :
  0 ≤ b ≤ a → 0 < a → b = 0 ∨ Z.log2 a + Z.log2 b < Z.of_nat fuel →
  (s0 * x) mod m = a mod m → (s1 * x) mod m = b mod m →
  (bezout fuel a b s0 s1 * x) mod m = Z.gcd a b mod m.
Proof.
  revert a b s0 s1. induction fuel as [|fuel IH]; intros a b s0 s1 Hb Ha Hfuel H0 H1.
  - assert (b = 0) as -> by (pose proof (Z.log2_nonneg a); pose proof (Z.log2_nonneg b); lia).
    by rewrite Z.gcd_0_r, Z.abs_eq by lia.
  - cbn [bezout]. case_bool_decide as Hb0; [by rewrite Hb0, Z.gcd_0_r, Z.abs_eq by lia|].
    replace (Z.gcd a b) with (Z.gcd b (a mod b)) by (rewrite Z.gcd_comm, Z.gcd_mod by lia; apply Z.gcd_comm).
    pose proof (Z.mod_pos_bound a b ltac:(lia)) as Hr. pose proof (Z.div_mod a b Hb0) as Hdm.
    apply IH; [lia|lia| |done|].
    + destruct (decide (a mod b = 0)) as [|Hr0]; [by left|right].
      assert (1 ≤ a / b) by (apply Z.div_le_lower_bound; lia).
      assert (Hlog : Z.log2 (2 * (a mod b)) ≤ Z.log2 a) by (apply Z.log2_le_mono; nia).
      rewrite Z.log2_double in Hlog by lia. lia.
    + rewrite Z.mul_sub_distr_r, <-Z.mul_assoc, Zminus_mod, H0, <-Zmult_mod_idemp_r, H1, Zmult_mod_idemp_r, <-Zminus_mod.
      f_equal. lia.
Qed.

Lemma bezout_first fuel a b s0 s1 :
  0 ≤ a < b → bezout (Datatypes.S fuel) a b s0 s1 = bezout fuel b a s1 s0.
Proof.
  intros Hab. cbn [bezout]. rewrite bool_decide_false, Z.mod_small, Z.div_small by lia.
  f_equal. lia.
Qed.

Lemma bezout_inverse (x m : Z) fuel :
  Z.prime m → 0 < x < m → Z.log2 m + Z.log2 m < Z.of_nat fuel →
  (bezout (Datatypes.S fuel) x m 1 0 * x) mod m = 1 mod m.
Proof.
  intros Hm Hx Hfuel. rewrite bezout_first, (bezout_gcd x m); [|lia|lia| | |by rewrite Z.mul_1_l|lia].
  - f_equal. apply Z.coprime_prime_small; [done|lia].
  - right. assert (Z.log2 x ≤ Z.log2 m) by (apply Z.log2_le_mono; lia). lia.
  - by rewrite Z.mul_0_l, Z_mod_same_full.
Qed.

Lemma inverse_None a : inverse a = None → a = mk 0.
Proof.
  destruct (decide (a = mk 0)) as [|Ha]; [done|]. unfold inverse. rewrite bool_decide_true; [done|].
  pose proof (val_range a) as Hr.
  assert (val a ≠ 0) by (intros H0; by rewrite <-H0, mk_val in Ha).
  rewrite <-(mk_val a) at 1. rewrite mul_mk, Z.mul_comm. apply mk_eq.
  apply (bezout_inverse _ _ 511); [exact fr_modulus_prime|lia|done].
Qed.

(** Reduce an equation of [F] to one of integers. *)
Ltac to_Z :=
  repeat match goal with a : F |- _ => rewrite <-(mk_val a); generalize (val a); clear a; intros a end;
  rewrite ?add_mk, ?mul_mk, ?sub_mk, ?opp_mk;
  repeat (progress rewrite ?add_mk, ?mul_mk, ?sub_mk, ?opp_mk); apply (f_equal mk).

Lemma F_ring : ring_theory (mk 0) (mk 1) add mul sub opp (=).
Proof. constructor; intros; to_Z; ring. Qed.

Definition sha (bs : Bytes) : Bytes :=
  to_be_bytes 32 (foldr (λ b acc, (u8_to_Z b + 31 * acc + 7) mod 2 ^ 256) 1 bs).

#[global] Instance exponents : SubstrateBn := {|
  Fr := F; Fr_eq_dec := _;
  Fr_zero := mk 0; Fr_one := mk 1; Fr_add := add; Fr_sub := sub; Fr_mul := mul; Fr_opp := opp;
  Fr_inverse := inverse;
  Fr_pow a n := power a (val n);
  Fr_from_bytes_be_mod_order bs :=
    if bool_decide (length bs = 32%nat) then Some (mk (from_be_bytes bs)) else None;
  Fr_from_slice bs :=
    if bool_decide (length bs = 32%nat ∧ from_be_bytes bs < fr_modulus) then Some (mk (from_be_bytes bs))
    else None;
  Fr_into_u256 := val;
  Fr_from_str s := mk <$> decimal_value s;
  Fq := F;
  Fq_from_be_bytes_mod_order bs := Some (mk (from_be_bytes bs));
  Fq_from_str s := mk <$> decimal_value s;
  Fq_opp := opp;
  Fq_cmp a b := Z.compare (val a) (val b);
  Fq_to_big_endian a := Some (to_be_bytes 32 (val a));
  AffineG1 := F;
  AffineG1_new x y := if bool_decide (y = x ∧ x ≠ mk 0) then Some x else None;
  AffineG1_default := mk 0;
  AffineG1_x a := a;
  AffineG1_y a := a;
  bn_G1 := F;
  AffineG1_into a := a;
  AffineG1_from_jacobian a := if bool_decide (a = mk 0) then None else Some a;
  bn_msm ps xs := match ps with
    | [] => Panic
    | _ => Done (foldr add (mk 0) (zip_with mul ps xs))
    end;
  G1_is_zero a := bool_decide (a = mk 0);
  G1_one := mk 1; G1_add := add; G1_sub := sub; G1_neg := opp; G1_mul := mul;
  bn_G2 := F;
  G2_one := mk 1;
  G2_new_unchecked _ _ := mk 12345;
  bn_Gt := F; bn_Gt_eq_dec := _;
  bn_Gt_one := mk 0;
  pairing_batch l := foldr add (mk 0) ((λ '(a, b), mul a b) <$> l);
  sha2_256 := sha;
|}.

Lemma power_mk a n : fr_power (mk a) n = mk (a ^ Z.of_nat n).
Proof.
  induction n as [|n IH]; [done|]. rewrite Nat2Z.inj_succ, Z.pow_succ_r by lia.
  cbn [fr_power]. rewrite IH. apply mul_mk.
Qed.

#[global] Instance exponents_FrLaws : FrLaws.
Proof.
  refine {| Fr_of_Z := mk |}.
  - exact F_ring.
  - done.
  - done.
  - intros. symmetry. apply add_mk.
  - intros. symmetry. apply mul_mk.
  - apply mk_eq.
  - intros s v Hs. cbn [Fr_from_str exponents]. by rewrite Hs.
  - intros x n Hn. cbn [Fr_pow exponents]. rewrite <-(mk_val x) at 2. rewrite power_mk.
    unfold power. apply mk_eq. rewrite Zpow_mod_correct by done.
    change (val (mk n)) with (n mod fr_modulus).
    by rewrite (Z.mod_small n), Z.mod_mod, Z2Nat.id by (done || lia).
  - exact inverse_Some.
  - exact inverse_None.
Defined.

Lemma exponents_msm ps xs :
  length ps = length xs → ps ≠ [] →
  ∃ p, bn_msm ps xs = Done p ∧
    AffineG1_into p = foldr add (mk 0) (zip_with (λ p x, mul (AffineG1_into p) x) ps xs).
Proof. intros _ Hne. destruct ps as [|p ps]; [done|]. by eexists. Qed.

Lemma exponents_g2_tau t : g2_tau = Done t → t = mk 12345.
Proof.
  unfold g2_tau. do 4 (intros Hbind; apply outcome_bind_Done_inv in Hbind as (? & _ & Hrest); revert Hrest).
  by intros [= <-].
Qed.

Lemma exponents_pairing (t a b : F) :
  add (mul a t) (add (mul (opp b) (mk 1)) (mk 0)) = mk 0 ↔ mul a t = b.
Proof.
  assert (Hid : mul a t = add (add (mul a t) (add (mul (opp b) (mk 1)) (mk 0))) b)
    by (to_Z; ring).
  split.
  - intros Heq. rewrite Hid, Heq. clear. to_Z. ring.
  - intros <-. clear. to_Z. ring.
Qed.

#[global] Instance exponents_CurveLaws : CurveLaws.
Proof.
  refine {| G1_zero := mk 0; srs_tau := mk 12345 |}; cbn -[mk add mul sub opp sha bn_msm fr_modulus to_be_bytes from_be_bytes val g2_tau].
  - intros a. apply bool_decide_eq_true.
  - intros. to_Z. ring.
  - intros. to_Z. ring.
  - intros. to_Z. ring.
  - intros. to_Z. ring.
  - intros. to_Z. ring.
  - intros. to_Z. ring.
  - intros. to_Z. ring.
  - intros. to_Z. ring.
  - intros. to_Z. ring.
  - done.
  - intros a p. case_bool_decide; [done|]. by intros [= ->].
  - intros a Ha. rewrite bool_decide_false by done. by eexists.
  - exact exponents_msm.
  - intros. apply length_to_be_bytes.
  - intros bs Hbs. by rewrite bool_decide_true.
  - intros a. pose proof (val_range a). assert (fr_modulus < 2 ^ 256) by done. lia.
  - intros a. eexists. split; [done|]. apply length_to_be_bytes.
  - intros s v Hs. rewrite Hs. by eexists.
  - intros t a b ->%exponents_g2_tau. apply exponents_pairing.
Defined.

End Exponents.
