(* ===== verification/KzgProperties.v ===== *)
(** * Properties of the KZG verifier

    The evaluation domain, polynomial evaluation, the Fiat-Shamir transcripts and the
    meaning of the verifier's answer, each with a witness in [Exponents]. *)

From S2P Require Export PolyRoots KzgInstance.
From Stdlib Require Import Ring.

(** ** The transcript of one challenge *)

Section challenge.
Context `{!SubstrateBn, !FrLaws, !CurveLaws}.

Definition element_bytes (a : Fr) : Bytes := to_be_bytes 32 (Fr_into_u256 a).

Lemma to_byte_array_from_spec l i max written :
  length written = (i * 32)%nat → (i * 32 ≤ max)%nat →
  to_byte_array_from l i max (written ++ zeros (Nat.min (length l * 32) (max - i * 32))) =
  written ++ take (max - i * 32) (concat (element_bytes <$> l)).
Proof.
  revert i written. induction l as [|a l IH]; intros i written Hw Hmax.
  - simpl. by rewrite take_nil.
  - rewrite fmap_cons. cbn [to_byte_array_from concat length]. unfold BYTES_PER_FIELD_ELEMENT.
    assert (Ha : length (element_bytes a) = 32%nat) by apply length_to_be_bytes.
    fold (element_bytes a). case_bool_decide as Hend.
    + rewrite Ha, Nat.min_r, take_app_le, Nat.min_r by lia.
      rewrite <-Hw, copy_at_next by (done || (rewrite length_take; lia)).
      rewrite length_take, Ha. replace (max - length written - _)%nat with 0%nat by lia.
      by rewrite app_nil_r.
    + rewrite length_app, length_zeros, Hw.
      rewrite (take_ge (element_bytes a)) by lia.
      rewrite <-Hw, copy_at_next by (done || lia). rewrite Ha, Hw.
      replace (Nat.min (Datatypes.S (length l) * 32) (max - i * 32) - 32)%nat
        with (Nat.min (length l * 32) (max - (i + 1) * 32)) by lia.
      rewrite IH by (rewrite ?length_app, ?Ha; lia). rewrite <-app_assoc. f_equal.
      rewrite (take_app (element_bytes a)), (take_ge (element_bytes a)) by lia. do 2 f_equal. lia.
Qed.

(** [to_byte_array] writes the canonical big-endian elements, cut at the size. *)
Lemma to_byte_array_spec l max :
  to_byte_array l max = take max (concat (element_bytes <$> l)).
Proof.
  unfold to_byte_array, BYTES_PER_FIELD_ELEMENT.
  pose proof (to_byte_array_from_spec l 0 max [] eq_refl) as Hspec. simpl app in Hspec.
  rewrite Nat.mul_0_l, Nat.sub_0_r in Hspec. apply Hspec. lia.
Qed.

Lemma length_elements l : length (concat (element_bytes <$> l)) = (length l * 32)%nat.
Proof.
  induction l as [|a l IH]; [done|]. rewrite fmap_cons. cbn [concat length].
  rewrite length_app, IH. unfold element_bytes. rewrite length_to_be_bytes. lia.
Qed.

(** The transcript of [compute_challenge]: domain, count, elements, commitment. *)
Definition challenge_transcript (p : PolynomialEvalForm) (commit_bytes : Bytes) : Bytes :=
  FIAT_SHAMIR_PROTOCOL_DOMAIN ++ usize_to_be_bytes (poly_len p) ++
    concat (element_bytes <$> evaluations p) ++ commit_bytes.

Lemma compute_challenge_spec p commitment :
  ∃ bs, serialize_g1_compressed commitment = Done bs ∧ length bs = 32%nat ∧
    compute_challenge p commitment =
      Done (Ok (Fr_of_Z (from_be_bytes (sha2_256 (challenge_transcript p bs))))).
Proof.
  destruct (serialize_g1_total commitment) as (bs & Hbs & Hlen). exists bs. split_and!; [done..|].
  unfold compute_challenge. rewrite validate_g1_point_Ok. cbn [or_bind]. rewrite Hbs, Done_bind.
  rewrite hash_to_field_element_spec, Done_bind. unfold challenge_transcript.
  rewrite to_byte_array_spec. unfold poly_len, BYTES_PER_FIELD_ELEMENT, SIZE_OF_G1_AFFINE_COMPRESSED.
  rewrite take_ge by (rewrite length_elements; lia).
  assert (Hdom : length FIAT_SHAMIR_PROTOCOL_DOMAIN = 24%nat) by done.
  set (n := length (evaluations p)). generalize dependent FIAT_SHAMIR_PROTOCOL_DOMAIN. intros dom Hdom.
  assert (Hcount : length (usize_to_be_bytes n) = 8%nat) by apply length_to_be_bytes.
  pose proof (length_elements (evaluations p)) as Hels. fold n in Hels.
  set (els := concat (element_bytes <$> evaluations p)) in *.
  do 5 f_equal. rewrite Hdom, Hels.
  replace (copy_at 0 dom (zeros (24 + 8 + n * 32 + 32))) with (dom ++ zeros (8 + n * 32 + 32)).
  2: { symmetry. etransitivity; [apply (copy_at_next [] dom 0); [done|lia]|].
       rewrite app_nil_l. do 2 f_equal. lia. }
  rewrite copy_at_next by lia.
  rewrite copy_at_next by (rewrite ?length_app; lia).
  rewrite copy_at_next by (rewrite ?length_app; lia).
  rewrite Hcount, Hels, Hlen. replace (8 + n * 32 + 32 - 8 - n * 32 - 32)%nat with 0%nat by lia.
  by rewrite app_nil_r, <-!app_assoc.
Qed.

Lemma challenge_and_evaluate_total b p c :
  blob_polynomial b = Ok p → ∃ r, challenge_and_evaluate (p, c) = Done r.
Proof.
  intros (evals & _ & Hp)%result_bind_Ok_inv. unfold challenge_and_evaluate. simpl.
  destruct (compute_challenge_spec p c) as (bs & _ & _ & ->). cbn [or_bind].
  destruct (evaluate_total evals p (Fr_of_Z (from_be_bytes (sha2_256 (challenge_transcript p bs)))) Hp)
    as [[y|e] ->]; by eexists.
Qed.
End challenge.

(** ** The batch *)

Section batch.
Context `{!SubstrateBn, !FrLaws, !CurveLaws}.
Add Ring fr_ring : Fr_ring.

Abbreviation entry := (AffineG1 * Fr * Fr * AffineG1)%type.

Lemma zip_entries (cs : list AffineG1) (zs ys : list Fr) (ps : list AffineG1) :
  length zs = length cs → length ys = length cs → length ps = length cs →
  ∃ es : list entry, length es = length cs ∧ (λ e, e.1.1.1) <$> es = cs ∧
    (λ e, e.1.1.2) <$> es = zs ∧ (λ e, e.1.2) <$> es = ys ∧ snd <$> es = ps.
Proof.
  revert zs ys ps. induction cs as [|c cs IH]; intros [|z zs] [|y ys] [|p ps]; simpl; try lia.
  - intros _ _ _. by exists [].
  - intros Hz Hy Hp. destruct (IH zs ys ps) as (es & Hl & <- & <- & <- & <-); [lia..|].
    exists ((c, z, y, p) :: es). rewrite !fmap_cons. simpl. by rewrite Hl.
Qed.

(** The linear combination that the pairing check compares with zero. *)
Definition combined_defect (cs : list AffineG1) (zs ys : list Fr) (ps : list AffineG1)
    (r : Fr) : bn_G1 :=
  gsum (zip_with G1_mul (entry_defect <$> zip (zip (zip cs zs) ys) ps) (powers r (length cs))).

Lemma zip_of_entries (es : list entry) :
  zip (zip (zip ((λ e, e.1.1.1) <$> es) ((λ e, e.1.1.2) <$> es)) ((λ e, e.1.2) <$> es)) (snd <$> es) = es.
Proof.
  induction es as [|[[[c z] y] p] es IH]; [done|]. rewrite !fmap_cons. simpl zip_with.
  by rewrite IH.
Qed.

(** The check on lists: it always answers, and [true] says the combination vanishes. *)
Lemma verify_batch_spec cs zs ys ps ls :
  cs ≠ [] → length zs = length cs → length ys = length cs → length ps = length cs →
  length ls = length cs →
  ∃ bss b, Forall2 (λ e bs, entry_bytes e = Done bs) (zip (zip (zip cs zs) ys) ps) bss ∧
    verify_kzg_proof_batch cs zs ys ps ls = Done (Ok b) ∧
    (b = true ↔ combined_defect cs zs ys ps
      (Fr_of_Z (from_be_bytes (sha2_256 (batch_transcript ls bss)))) = G1_zero).
Proof.
  intros Hne Hz Hy Hp Hl.
  destruct (compute_r_powers_spec cs zs ys ps ls) as (bss & Hbss & _ & Hr); [done..|].
  exists bss. destruct (zip_entries cs zs ys ps Hz Hy Hp) as (es & Hes & Hc & Hz' & Hy' & Hp').
  destruct (verify_kzg_proof_batch_entries es ls (powers
    (Fr_of_Z (from_be_bytes (sha2_256 (batch_transcript ls bss)))) (length cs))) as (b & Hb & Hiff).
  - intros ->. by apply Hne, nil_length_inv.
  - lia.
  - rewrite length_powers. lia.
  - by rewrite Hc, Hz', Hy', Hp'.
  - exists b. rewrite Hc, Hz', Hy', Hp' in Hb. split_and!; [done..|].
    rewrite Hiff. unfold combined_defect. rewrite <-Hc, <-Hz', <-Hy', <-Hp', zip_of_entries.
    by rewrite length_fmap.
Qed.

(** ** Openings made with the secret polynomials *)

(** The value at [x] of the quotient of [P - P(z)] by [X - z]. *)
Fixpoint quotient_eval (c : list Fr) (z x : Fr) : Fr :=
  match c with [] => Fr_zero | _ :: c => Fr_add (poly_eval c x) (Fr_mul z (quotient_eval c z x)) end.

Lemma quotient_spec c z x :
  Fr_sub (poly_eval c x) (poly_eval c z) = Fr_mul (Fr_sub x z) (quotient_eval c z x).
Proof.
  induction c as [|a c IH]; simpl; [ring|].
  transitivity (Fr_add (Fr_mul (Fr_sub x z) (poly_eval c x))
    (Fr_mul z (Fr_sub (poly_eval c x) (poly_eval c z)))); [ring|]. rewrite IH. ring.
Qed.

(** Commitment, value and proof computed from one polynomial. *)
Definition honest_entry (e : entry) : Prop :=
  let '(c, z, y, p) := e in
  ∃ P, AffineG1_into c = G1_mul G1_one (poly_eval P srs_tau) ∧ y = poly_eval P z ∧
    AffineG1_into p = G1_mul G1_one (quotient_eval P z srs_tau).

Lemma honest_defect e : honest_entry e → entry_defect e = G1_zero.
Proof.
  destruct e as [[[c z] y] p]. intros (P & Hc & -> & Hp). unfold entry_defect, kzg_defect.
  rewrite Hc, Hp. apply G1_sub_zero. rewrite !G1_mul_mul, G1_sub_spec, <-G1_neg_mul.
  rewrite <-G1_add_assoc, (G1_add_comm (G1_mul (G1_neg _) _)), G1_add_assoc, <-G1_mul_add_r.
  rewrite G1_neg_mul, <-G1_sub_spec.
  apply (G1_add_cancel (G1_mul G1_one (poly_eval P z))).
  rewrite G1_sub_spec, G1_add_comm, (G1_add_comm _ (G1_add _ _)), <-G1_add_assoc.
  rewrite (G1_add_comm (G1_neg _)), G1_add_neg, G1_add_zero_r, <-G1_mul_add_r. f_equal.
  pose proof (quotient_spec P z srs_tau) as Hq.
  transitivity (Fr_add (Fr_mul (Fr_sub srs_tau z) (quotient_eval P z srs_tau))
    (Fr_add (poly_eval P z) (Fr_mul (quotient_eval P z srs_tau) z))); [ring|].
  rewrite <-Hq. ring.
Qed.

Lemma gsum_zero l : Forall (λ a, a = G1_zero) l → gsum l = G1_zero.
Proof. induction 1 as [|a l -> _ IH]; [done|]. by rewrite gsum_cons, IH, G1_add_zero. Qed.

Lemma zero_defects_combine es rs :
  Forall (λ e, entry_defect e = G1_zero) es → gsum (zip_with G1_mul (entry_defect <$> es) rs) = G1_zero.
Proof.
  intros Hes. apply gsum_zero. revert rs. induction Hes as [|e es He _ IH]; intros [|r rs]; try done.
  rewrite fmap_cons. cbn [zip_with]. constructor; [|apply IH]. by rewrite He, G1_zero_mul.
Qed.

(** ** The whole verifier *)

(** What an accepted batch went through: every input decodes, the openings are the
    challenges and values the code computes, and the combination vanishes. *)
Definition batch_accepts (blobs : list Bytes) (commitments : list G1Point) (proofs : list Bytes)
    : Prop :=
  ∃ polys cs ps,
    Forall2 (λ b p, blob_polynomial b = Ok p) blobs polys ∧
    Forall2 (λ c a, g1_point_to_affine c = Ok a) commitments cs ∧
    Forall2 (λ p a, proof_bytes_to_affine p = Ok a) proofs ps ∧
    length cs = length polys ∧ length ps = length polys ∧
    (polys ≠ [] → ∃ zys bss,
      Forall2 (λ pc zy, challenge_and_evaluate pc = Done (Ok zy)) (zip polys cs) zys ∧
      Forall2 (λ e bs, entry_bytes e = Done bs) (zip (zip (zip cs zys.*1) zys.*2) ps) bss ∧
      combined_defect cs zys.*1 zys.*2 ps (Fr_of_Z (from_be_bytes (sha2_256
        (batch_transcript ((λ p, Z.of_nat (poly_len p)) <$> polys) bss)))) = G1_zero).

(** The KZG equation of one opening. *)
Definition opening_holds (e : entry) : Prop :=
  let '(c, z, y, p) := e in
  G1_mul (AffineG1_into p) srs_tau =
    G1_add (G1_sub (AffineG1_into c) (G1_mul G1_one y)) (G1_mul (AffineG1_into p) z).

(** The combination vanishes at the batch's challenge, as it does at fewer field elements
    than there are openings. *)
Definition unlucky_combination (lens : list Z) (cs : list AffineG1) (zs ys : list Fr) (ps : list AffineG1)
    : Prop :=
  ∃ bss, Forall2 (λ e bs, entry_bytes e = Done bs) (zip (zip (zip cs zs) ys) ps) bss ∧
    combined_defect cs zs ys ps (Fr_of_Z (from_be_bytes (sha2_256 (batch_transcript lens bss)))) = G1_zero ∧
    ∀ rs, NoDup rs → Forall (λ r, combined_defect cs zs ys ps r = G1_zero) rs →
      (length rs < length cs)%nat.

(** Each opening holds, or the challenge is one of fewer values than there are openings. *)
Definition openings_sound (lens : list Z) (cs : list AffineG1) (zs ys : list Fr) (ps : list AffineG1)
    : Prop :=
  Forall opening_holds (zip (zip (zip cs zs) ys) ps) ∨ unlucky_combination lens cs zs ys ps.

Definition batch_sound (blobs : list Bytes) (commitments : list G1Point) (proofs : list Bytes) : Prop :=
  ∃ polys cs ps zys,
    Forall2 (λ b p, blob_polynomial b = Ok p) blobs polys ∧
    Forall2 (λ c a, g1_point_to_affine c = Ok a) commitments cs ∧
    Forall2 (λ p a, proof_bytes_to_affine p = Ok a) proofs ps ∧
    length cs = length polys ∧ length ps = length polys ∧
    Forall2 (λ pc zy, challenge_and_evaluate pc = Done (Ok zy)) (zip polys cs) zys ∧
    openings_sound ((λ p, Z.of_nat (poly_len p)) <$> polys) cs zys.*1 zys.*2 ps.

Lemma entry_defect_zero e : entry_defect e = G1_zero ↔ opening_holds e.
Proof. destruct e as [[[c z] y] p]. apply G1_sub_zero. Qed.

Lemma defects_decided (es : list entry) :
  Forall opening_holds es ∨ ¬ Forall (λ d, d = G1_zero) (entry_defect <$> es).
Proof.
  induction es as [|e es [IH|IH]]; [by left|..].
  - destruct (G1_is_zero (entry_defect e)) eqn:He.
    + left. constructor; [|done]. by apply entry_defect_zero, G1_is_zero_spec.
    + right. intros [Hd _]%Forall_cons. apply G1_is_zero_spec in Hd. congruence.
  - right. by intros [_ ?]%Forall_cons.
Qed.

(** A combination that vanishes at as many challenges as there are openings. *)
Lemma vanishing_combination lens cs zs ys ps bss :
  length zs = length cs → length ys = length cs → length ps = length cs →
  Forall2 (λ e bs, entry_bytes e = Done bs) (zip (zip (zip cs zs) ys) ps) bss →
  combined_defect cs zs ys ps (Fr_of_Z (from_be_bytes (sha2_256 (batch_transcript lens bss)))) = G1_zero →
  openings_sound lens cs zs ys ps.
Proof.
  intros Hz Hy Hp Hbss Hzero. destruct (defects_decided (zip (zip (zip cs zs) ys) ps)) as [Hall|Hsome];
    [by left|right]. exists bss. split_and!; [done..|]. intros rs Hnd Hrs.
  destruct (decide (length rs < length cs)%nat) as [|Hge]; [done|]. exfalso. apply Hsome.
  assert (Hl : length (entry_defect <$> zip (zip (zip cs zs) ys) ps) = length cs)
    by (rewrite length_fmap, !length_zip_with; lia).
  refine (few_roots (entry_defect <$> zip (zip (zip cs zs) ys) ps) rs Hnd _ _); [|lia].
  eapply Forall_impl; [exact Hrs|]. intros r Hr. cbn. by rewrite <-(combination_eval _ r (length cs) Hl).
Qed.

(** An accepted batch is sound. *)
Lemma accepts_sound blobs commitments proofs :
  batch_accepts blobs commitments proofs → batch_sound blobs commitments proofs.
Proof.
  intros (polys & cs & ps & Hpolys & Hcs & Hps & Hlc & Hlp & Hrun).
  destruct (decide (polys = [])) as [->|Hne].
  { exists [], cs, ps, []. destruct cs, ps; try done. split_and!; try done. by left. }
  destruct (Hrun Hne) as (zys & bss & Hzys & Hbss & Hzero).
  exists polys, cs, ps, zys. split_and!; [done..|].
  pose proof (Forall2_length _ _ _ Hzys) as Hl. rewrite length_zip_with in Hl.
  apply (vanishing_combination _ _ _ _ _ bss); rewrite ?length_fmap; try done; lia.
Qed.

(** ** Blobs *)

Lemma length_chunks k n bs : length (chunks k n bs) = k.
Proof. revert bs. induction k as [|k IH]; intros bs; [done|]. cbn [chunks length]. by rewrite IH. Qed.

Lemma to_fr_array_length bs evals : to_fr_array_canonical bs = Ok evals → length bs = (length evals * 32)%nat.
Proof.
  unfold to_fr_array_canonical, BYTES_PER_FIELD_ELEMENT. case_bool_decide as Hmod; [done|].
  intros Hl%mapM_result_Ok%Forall2_length. unfold chunks_exact in Hl. rewrite length_chunks in Hl.
  pose proof (Nat.div_mod_eq (length bs) 32). lia.
Qed.

Lemma to_fr_array_nonempty bs evals :
  bs ≠ [] → to_fr_array_canonical bs = Ok evals → evals ≠ [].
Proof. intros Hne Hl%to_fr_array_length ->. by apply Hne, nil_length_inv. Qed.

Lemma blob_polynomial_length bs poly :
  blob_polynomial bs = Ok poly → len_underlying_blob_bytes poly = length bs.
Proof.
  intros (evals & Hevals & Hnew)%result_bind_Ok_inv. apply PolynomialEvalForm_new_Ok in Hnew as (_ & _ & -> & _).
  by rewrite (to_fr_array_length _ _ Hevals).
Qed.

Lemma mapM_or_total {E A B} (f : A → outcome (result E B)) l :
  Forall (λ a, ∃ r, f a = Done r) l → ∃ r, mapM_or f l = Done r.
Proof.
  induction 1 as [|a l [[b|e] Ha] _ [[bs|e'] IH]]; [by eexists|..]; simpl; rewrite Ha; cbn [or_bind];
    rewrite ?IH; by eexists.
Qed.

Lemma Forall2_functional {A B} (f : A → B → Prop) l k k' :
  (∀ a b b', f a b → f a b' → b = b') → Forall2 f l k → Forall2 f l k' → k = k'.
Proof.
  intros Hf Hk. revert k'. induction Hk as [|a b l k Hb _ IH]; intros k'; inversion 1; subst; [done|].
  f_equal; [by eapply Hf|by apply IH].
Qed.

Lemma challenges_total blobs polys cs :
  Forall2 (λ b p, blob_polynomial b = Ok p) blobs polys →
  ∃ r, mapM_or challenge_and_evaluate (zip polys cs) = Done r.
Proof.
  intros Hpolys. apply mapM_or_total, Forall_forall. intros [p c] Hin.
  apply elem_of_zip_l in Hin. destruct (list_elem_of_lookup_1 _ _ Hin) as [i Hi].
  destruct (Forall2_lookup_r _ _ _ _ _ Hpolys Hi) as (b & _ & Hb).
  by apply (challenge_and_evaluate_total b).
Qed.

(** After the inputs decode: the empty batch, an evaluation error, or the check. *)
Lemma verify_decoded_spec blobs polys cs ps :
  Forall2 (λ b p, blob_polynomial b = Ok p) blobs polys →
  length cs = length polys → length ps = length polys → polys ≠ [] →
  ∃ r, (zys ←! compute_challenges_and_evaluate_polynomial polys cs;
        let '(zs, ys) := zys in
        verify_kzg_proof_batch cs zs ys ps ((λ p, Z.of_nat (poly_len p)) <$> polys)) = Done r ∧
    (r = Ok true ↔ ∃ zys bss,
      Forall2 (λ pc zy, challenge_and_evaluate pc = Done (Ok zy)) (zip polys cs) zys ∧
      Forall2 (λ e bs, entry_bytes e = Done bs) (zip (zip (zip cs zys.*1) zys.*2) ps) bss ∧
      combined_defect cs zys.*1 zys.*2 ps (Fr_of_Z (from_be_bytes (sha2_256
        (batch_transcript ((λ p, Z.of_nat (poly_len p)) <$> polys) bss)))) = G1_zero).
Proof.
  intros Hpolys Hc Hp Hne. unfold compute_challenges_and_evaluate_polynomial.
  rewrite (bool_decide_false (length polys ≠ length cs)) by (intros []; done). cbn [andb].
  destruct (challenges_total blobs polys cs Hpolys) as [[zys|e] Hzys]; rewrite Hzys; cbn [or_bind].
  - pose proof Hzys as Hall. apply mapM_or_Ok in Hall. pose proof (Forall2_length _ _ _ Hall) as Hl.
    rewrite length_zip_with in Hl.
    destruct (verify_batch_spec cs zys.*1 zys.*2 ps ((λ p, Z.of_nat (poly_len p)) <$> polys))
      as (bss & b & Hbss & Hb & Hiff); rewrite ?length_fmap; [by destruct cs, polys|lia..|].
    exists (Ok b). split; [done|]. split.
    + intros [= ->]. exists zys, bss. split_and!; [done..|]. by apply Hiff.
    + intros (zys' & bss' & Hzys' & Hbss' & Hzero). f_equal. apply Hiff.
      assert (zys' = zys) as ->.
      { apply mapM_or_Ok in Hzys'. congruence. }
      assert (bss' = bss) as ->; [|done].
      eapply Forall2_functional; [|exact Hbss'|exact Hbss]. simpl. congruence.
  - exists (Err e). split; [done|]. split; [done|]. intros (zys & bss & Hzys' & _).
    apply mapM_or_Ok in Hzys'. congruence.
Qed.

Lemma verify_blob_spec blobs commitments proofs :
  ∃ r, verify_blob_kzg_proof_batch blobs commitments proofs = Done r ∧
    (r = Ok true ↔ batch_accepts blobs commitments proofs).
Proof.
  unfold verify_blob_kzg_proof_batch.
  destruct (mapM_result blob_polynomial blobs) as [polys|e] eqn:Hpolys; cbn [or_bind].
  2: { exists (Err e). split; [done|]. split; [done|]. intros (polys & _ & _ & Hb & _).
       apply mapM_result_Ok in Hb. congruence. }
  destruct (mapM_result g1_point_to_affine commitments) as [cs|e] eqn:Hcs; cbn [or_bind].
  2: { exists (Err e). split; [done|]. split; [done|]. intros (? & cs & _ & _ & Hb & _).
       apply mapM_result_Ok in Hb. congruence. }
  destruct (mapM_result proof_bytes_to_affine proofs) as [ps|e] eqn:Hps; cbn [or_bind].
  2: { exists (Err e). split; [done|]. split; [done|]. intros (? & ? & ps & _ & _ & Hb & _).
       apply mapM_result_Ok in Hb. congruence. }
  pose proof (proj1 (mapM_result_Ok _ _ _) Hpolys) as Hpolys'.
  assert (Hsame : ∀ polys' cs' ps',
    Forall2 (λ b p, blob_polynomial b = Ok p) blobs polys' →
    Forall2 (λ c a, g1_point_to_affine c = Ok a) commitments cs' →
    Forall2 (λ p a, proof_bytes_to_affine p = Ok a) proofs ps' →
    polys' = polys ∧ cs' = cs ∧ ps' = ps).
  { intros polys' cs' ps' HF1%mapM_result_Ok HF2%mapM_result_Ok HF3%mapM_result_Ok.
    split_and!; congruence. }
  destruct (decide (length cs = length polys)) as [Hlc|Hlc];
    [destruct (decide (length ps = length polys)) as [Hlp|Hlp]|].
  3: { rewrite (bool_decide_true (length cs ≠ _)) by done. cbn [orb].
       eexists. split; [done|]. split; [done|]. intros (? & ? & ? & HF1 & HF2 & HF3 & Hc & _).
       by destruct (Hsame _ _ _ HF1 HF2 HF3) as (-> & -> & ->). }
  2: { rewrite (bool_decide_true (length ps ≠ _)), orb_true_r by done.
       eexists. split; [done|]. split; [done|]. intros (? & ? & ? & HF1 & HF2 & HF3 & _ & Hp & _).
       by destruct (Hsame _ _ _ HF1 HF2 HF3) as (-> & -> & ->). }
  - rewrite (bool_decide_false (length cs ≠ _)), (bool_decide_false (length ps ≠ _)) by (intros []; done).
    cbn [orb].
    apply mapM_result_Ok in Hcs, Hps. case_bool_decide as Hempty.
    + eexists. split; [done|]. split; [intros _|done]. exists polys, cs, ps.
      split_and!; [done..|]. intros Hne. by apply nil_length_inv in Hempty.
    + destruct (verify_decoded_spec blobs polys cs ps) as (r & Hr & Hiff); [done..|by destruct polys|].
      exists r. split; [done|]. rewrite Hiff. split.
      * intros Hz. exists polys, cs, ps. by split_and!.
      * intros (? & ? & ? & HF1 & HF2 & HF3 & _ & _ & Hz).
        destruct (Hsame _ _ _ HF1 HF2 HF3) as (-> & -> & ->). apply Hz. by destruct polys.
Qed.

Lemma batch_verify_spec blobs commitments proofs :
  ∃ b, batch_verify blobs commitments proofs = Done b ∧
    (b = true ↔ batch_accepts blobs commitments proofs).
Proof.
  unfold batch_verify. destruct (verify_blob_spec blobs commitments proofs) as (r & -> & Hiff).
  rewrite Done_bind. destruct r as [b|e]; eexists; (split; [done|]); rewrite <-Hiff; [|by split].
  split; [by intros ->|by intros [= ->]].
Qed.
End batch.

(** ** Properties *)

Section claims.
Context `{!SubstrateBn, !FrLaws, !CurveLaws}.

(** C29: The evaluation domain is right: for every blob length within the trusted
    setup, calculate_roots_of_unity returns exactly next_power_of_two(n) pairwise
    distinct field elements, n the number of field elements that the length fills, each
    of which is a root of unity of that order, starting with 1; the lengths zero and
    beyond the setup give the two errors. *)
Theorem evaluation_domain_correct (len : Z) (Hlen : 0 ≤ len) :
  let n := elements_of len in
  match calculate_roots_of_unity len with
  | Done (Ok roots) =>
      0 < len ∧ Z.of_nat n ≤ MAINNET_SRS_G1_SIZE ∧ length roots = next_power_of_two n ∧
      NoDup roots ∧ Forall (λ d, fr_power d (next_power_of_two n) = Fr_one) roots ∧
      roots !! 0%nat = Some Fr_one
  | Done (Err e) =>
      (len = 0 ∧ e = KzgGenericError "Length of data after padding is 0") ∨
      (MAINNET_SRS_G1_SIZE < Z.of_nat n ∧ e = KzgGenericError "Length exceeds SRS")
  | Panic => False
  end.
Proof.
  cbv zeta. destruct (calculate_roots_of_unity_errors len) as [Hzero Hlong].
  destruct (decide (len = 0)) as [Hz|Hz]; [rewrite Hzero by done; by left|].
  destruct (decide (MAINNET_SRS_G1_SIZE < Z.of_nat (elements_of len))) as [Hl|Hl];
    [rewrite Hlong by (done || lia); by right|].
  destruct (calculate_roots_of_unity_spec len) as (w & Hw & ->); [lia|lia|].
  split_and!; [lia|lia|apply length_powers|by apply powers_NoDup|by apply powers_order|].
  unfold next_power_of_two. rewrite powers_lookup; [done|].
  pose proof (Nat.pow_nonzero 2 (Nat.log2_up (elements_of len))). lia.
Qed.

(** C16: Barycentric evaluation computes the polynomial: for every nonempty blob of field
    elements there is exactly one polynomial with as many coefficients as padded elements
    that takes the elements on the evaluation domain, and
    evaluate_polynomial_in_evaluation_form returns, without error or panic, the value of
    that polynomial at every z, on the domain and off it. *)
Theorem evaluation_is_interpolation (evals : list Fr) (p : PolynomialEvalForm)
    (Hne : evals ≠ []) (Hnew : PolynomialEvalForm_new evals = Ok p) :
  ∃ c, interpolates p c ∧ (∀ c', interpolates p c' → c' = c) ∧
    ∀ z, evaluate_polynomial_in_evaluation_form p z = Done (Ok (poly_eval c z)).
Proof.
  destruct (interpolant_exists evals p Hne Hnew) as (c & Hc & Hunique). exists c.
  split_and!; [done|done|]. intros z. by apply (evaluate_interpolant evals).
Qed.

(** Different blobs of one length have the same value at fewer points than they have
    field elements. *)
Theorem evaluations_separate (evals evals' : list Fr) (p p' : PolynomialEvalForm) (zs : list Fr)
    (Hne : evals ≠ []) (Hlen : length evals = length evals') (Hdiff : evals ≠ evals')
    (Hnew : PolynomialEvalForm_new evals = Ok p) (Hnew' : PolynomialEvalForm_new evals' = Ok p')
    (Hnd : NoDup zs)
    (Hsame : Forall (λ z, evaluate_polynomial_in_evaluation_form p z =
      evaluate_polynomial_in_evaluation_form p' z) zs) :
  (length zs < poly_len p)%nat.
Proof.
  assert (Hne' : evals' ≠ []) by (by destruct evals, evals').
  pose proof (PolynomialEvalForm_new_Ok _ _ Hnew) as (_ & Hp & Hlb & Htake).
  pose proof (PolynomialEvalForm_new_Ok _ _ Hnew') as (_ & Hp' & Hlb' & Htake').
  destruct (interpolant_exists evals p Hne Hnew) as (c & Hc & _).
  destruct (interpolant_exists evals' p' Hne' Hnew') as (c' & Hc' & _).
  destruct (decide (length zs < poly_len p)%nat) as [|Hge]; [done|]. exfalso. apply Hdiff.
  assert (c = c') as <-.
  { apply (poly_eval_inj _ _ zs); [|done| |].
    - rewrite (proj1 Hc), (proj1 Hc'), Hp, Hp'. by rewrite Hlen.
    - rewrite (proj1 Hc). lia.
    - eapply Forall_impl; [exact Hsame|]. intros z Hz. cbn beta in Hz.
      rewrite (evaluate_interpolant evals p z c), (evaluate_interpolant evals' p' z c') in Hz by done.
      by injection Hz. }
  destruct Hc as (_ & roots & Hr & Hv), Hc' as (_ & roots' & Hr' & Hv').
  rewrite Hlb, Hlen, <-Hlb', Hr' in Hr. injection Hr as ->.
  assert (evaluations p = evaluations p') as Heq.
  { eapply Forall2_functional; [|exact Hv|exact Hv']. simpl. congruence. }
  by rewrite <-Htake, <-Htake', Heq, Hlen.
Qed.

(** C30: The batch challenge is the hash of the domain separator, the blob lengths, the
    (partly overwritten) count field and the 128 bytes of every opening, and two batches
    with the same transcript have the same number of blobs, the same lengths and the same
    serialized commitments, challenges, values and proofs. *)
Theorem batch_challenge_binds (cs cs' : list AffineG1) (zs ys zs' ys' : list Fr)
    (ps ps' : list AffineG1) (ls ls' : list Z) (bss bss' : list Bytes)
    (Hne : cs ≠ []) (Hz : length zs = length cs) (Hy : length ys = length cs)
    (Hp : length ps = length cs) (Hl : length ls = length cs)
    (Hne' : cs' ≠ []) (Hz' : length zs' = length cs') (Hy' : length ys' = length cs')
    (Hp' : length ps' = length cs') (Hl' : length ls' = length cs')
    (Hu : Forall (λ l, 0 ≤ l < 2 ^ 64) ls) (Hu' : Forall (λ l, 0 ≤ l < 2 ^ 64) ls')
    (Hb : Forall2 (λ e bs, entry_bytes e = Done bs) (zip (zip (zip cs zs) ys) ps) bss)
    (Hb' : Forall2 (λ e bs, entry_bytes e = Done bs) (zip (zip (zip cs' zs') ys') ps') bss') :
  compute_r_powers cs zs ys ps ls = Done (Ok (powers
    (Fr_of_Z (from_be_bytes (sha2_256 (batch_transcript ls bss)))) (length cs))) ∧
  (batch_transcript ls bss = batch_transcript ls' bss' → ls = ls' ∧ bss = bss').
Proof.
  destruct (compute_r_powers_spec cs zs ys ps ls) as (bss1 & Hb1 & H128 & Hr); [done..|].
  destruct (compute_r_powers_spec cs' zs' ys' ps' ls') as (bss2 & Hb2 & H128' & _); [done..|].
  assert (bss1 = bss) as -> by (eapply Forall2_functional; [|exact Hb1|exact Hb]; simpl; congruence).
  assert (bss2 = bss') as -> by (eapply Forall2_functional; [|exact Hb2|exact Hb']; simpl; congruence).
  split; [done|]. apply batch_transcript_inj; try done.
  - apply Forall2_length in Hb. rewrite !length_zip_with in Hb. lia.
  - apply Forall2_length in Hb'. rewrite !length_zip_with in Hb'. lia.
Qed.

(** C17: The verifier's answer, exactly: batch_verify never panics, whatever the bytes,
    commitments and proofs it is given, and answers true precisely when every blob,
    commitment and proof decodes, their numbers agree, every challenge and value can be
    computed, and the linear combination of the single KZG equations with the powers of
    the Fiat-Shamir challenge vanishes (for the empty batch: always). *)
Theorem batch_verify_exact (blobs : list Bytes) (commitments : list G1Point) (proofs : list Bytes) :
  ∃ b, batch_verify blobs commitments proofs = Done b ∧
    (b = true ↔ batch_accepts blobs commitments proofs).
Proof. apply batch_verify_spec. Qed.

(** Openings made from polynomials are accepted: if every commitment is P(tau) G,
    every claimed value P(z), and every proof q(tau) G for the quotient q of P - P(z) by
    X - z, the batched pairing check answers true, whatever the challenge. *)
Theorem honest_openings_accepted (cs : list AffineG1) (zs ys : list Fr) (ps : list AffineG1)
    (ls : list Z) (Hne : cs ≠ []) (Hz : length zs = length cs) (Hy : length ys = length cs)
    (Hp : length ps = length cs) (Hl : length ls = length cs)
    (Hhonest : Forall honest_entry (zip (zip (zip cs zs) ys) ps)) :
  verify_kzg_proof_batch cs zs ys ps ls = Done (Ok true).
Proof.
  destruct (verify_batch_spec cs zs ys ps ls) as (bss & b & _ & -> & Hiff); [done..|].
  do 2 f_equal. apply Hiff, zero_defects_combine.
  eapply Forall_impl; [exact Hhonest|]. apply honest_defect.
Qed.

(** For a single blob nothing is lost by batching: the check on one opening answers true
    exactly when its own KZG pairing equation
    tau * proof = (commitment - y * G) + z * proof holds. *)
Theorem single_opening_exact (c : AffineG1) (z y : Fr) (p : AffineG1) (l : Z) :
  ∃ b, verify_kzg_proof_batch [c] [z] [y] [p] [l] = Done (Ok b) ∧
    (b = true ↔ G1_mul (AffineG1_into p) srs_tau =
      G1_add (G1_sub (AffineG1_into c) (G1_mul G1_one y)) (G1_mul (AffineG1_into p) z)).
Proof.
  destruct (verify_batch_spec [c] [z] [y] [p] [l]) as (bss & b & _ & -> & Hiff); [done..|].
  exists b. split; [done|]. rewrite Hiff. unfold combined_defect. simpl.
  unfold gsum, kzg_defect. simpl. rewrite G1_add_zero_r, G1_mul_one. apply G1_sub_zero.
Qed.

(** C18: Batching is sound: when batch_verify answers true, every blob, commitment and
    proof decodes, and either each opening satisfies its own KZG pairing equation
    tau * proof = (commitment - y * G) + z * proof at the challenge and value that the code
    computes for it, or the Fiat-Shamir challenge of the batch, the hash of its transcript,
    is one of fewer than n field elements at which the combined equation holds by chance,
    n the number of blobs. *)
Theorem batch_soundness (blobs : list Bytes) (commitments : list G1Point) (proofs : list Bytes)
    (Hok : batch_verify blobs commitments proofs = Done true) : batch_sound blobs commitments proofs.
Proof.
  destruct (batch_verify_spec blobs commitments proofs) as (b & Hb & Hiff).
  rewrite Hok in Hb. injection Hb as <-.
  by apply accepts_sound, Hiff.
Qed.
End claims.

(** For two blobs or more the count written at byte 32 is lost: the second blob's length
    is there instead, followed by zeros. *)
Lemma transcript_count_overwritten (n : nat) (ls : list Z) (l l' : Z) :
  length (l :: l' :: ls) = n →
  take 40 (transcript_head n (l :: l' :: ls)) =
  RANDOM_CHALLENGE_KZG_BATCH_DOMAIN ++ to_be_bytes 8 l ++ to_be_bytes 8 l'.
Proof.
  intros Hn. rewrite transcript_head_spec by (simpl in Hn; lia || done).
  rewrite !fmap_cons. cbn [concat]. rewrite <-!app_assoc.
  by rewrite take_app, length_domain, take_ge by (rewrite length_domain; lia).
Qed.

(** ** Witnesses *)

Module Witnesses.
Import Exponents.

(** The polynomial 7 - 2 X takes the values 5 and 9 at 1 and -1. *)
Definition evals : list Fr := [mk 5; mk 9].
Definition form : PolynomialEvalForm :=
  {| evaluations := evals; len_underlying_blob_bytes := 64 |}.
Definition coefficients : list Fr := [mk 7; mk (-2)].
Definition blob : Bytes := to_be_bytes 32 5 ++ to_be_bytes 32 9.
(** Its commitment at the toy secret, and the proof, the same for every challenge. *)
Definition commitment : F := mk (7 - 2 * 12345).
Definition proof : F := mk (-2).
Definition commitment_point : G1Point := {| x := val commitment; y := val commitment |}.
Definition proof_bytes : Bytes := to_be_bytes 32 (val proof) ++ to_be_bytes 32 (val proof).

(** The whole verifier accepts the blob, and rejects a different one. *)
Example accepts_blob : batch_verify [blob] [commitment_point] [proof_bytes] = Done true.
Proof. vm_decide. Qed.
Example rejects_other :
  batch_verify [to_be_bytes 32 5 ++ to_be_bytes 32 8] [commitment_point] [proof_bytes] = Done false.
Proof. vm_decide. Qed.

Lemma evaluation_domain_correct_witness :
  calculate_roots_of_unity 64 = Done (Ok [mk 1; mk (-1)]) ∧
  match calculate_roots_of_unity 64 with
  | Done (Ok roots) =>
      0 < 64 ∧ Z.of_nat (elements_of 64) ≤ MAINNET_SRS_G1_SIZE ∧
      length roots = next_power_of_two (elements_of 64) ∧
      NoDup roots ∧ Forall (λ d, fr_power d (next_power_of_two (elements_of 64)) = Fr_one) roots ∧
      roots !! 0%nat = Some Fr_one
  | Done (Err e) =>
      (64 = 0 ∧ e = KzgGenericError "Length of data after padding is 0") ∨
      (MAINNET_SRS_G1_SIZE < Z.of_nat (elements_of 64) ∧ e = KzgGenericError "Length exceeds SRS")
  | Panic => False
  end.
Proof. split; [vm_decide|]. apply (evaluation_domain_correct 64). lia. Defined.

Lemma form_interpolated : interpolates form coefficients.
Proof.
  split; [done|]. exists [mk 1; mk (-1)]. split; [vm_decide|].
  repeat constructor; vm_decide.
Qed.

Lemma evaluation_is_interpolation_witness :
  ∃ c, interpolates form c ∧ (∀ c', interpolates form c' → c' = c) ∧
    ∀ z, evaluate_polynomial_in_evaluation_form form z = Done (Ok (poly_eval c z)).
Proof.
  apply (evaluation_is_interpolation evals form).
  - done.
  - reflexivity.
Defined.

(** The two blobs agree at one point only, where 7 - 2 X and 3 + 2 X meet. *)
Definition evals2 : list Fr := [mk 5; mk 1].
Definition form2 : PolynomialEvalForm := {| evaluations := evals2; len_underlying_blob_bytes := 64 |}.
Definition meeting : list Fr := [mk 1].
Lemma evaluations_separate_witness : (length meeting < poly_len form)%nat.
Proof.
  apply (evaluations_separate evals evals2 form form2 meeting).
  - done.
  - reflexivity.
  - vm_decide.
  - reflexivity.
  - reflexivity.
  - exact (NoDup_singleton (mk 1)).
  - apply Forall_singleton. vm_decide.
Defined.

(** Two copies of the blob, in one batch. *)
Lemma batch_soundness_witness :
  batch_verify [blob; blob] [commitment_point; commitment_point] [proof_bytes; proof_bytes] = Done true ∧
  batch_sound [blob; blob] [commitment_point; commitment_point] [proof_bytes; proof_bytes].
Proof.
  assert (Hok : batch_verify [blob; blob] [commitment_point; commitment_point] [proof_bytes; proof_bytes] =
    Done true) by vm_decide.
  split; [exact Hok|].
  exact (batch_soundness [blob; blob] [commitment_point; commitment_point] [proof_bytes; proof_bytes] Hok).
Defined.

Lemma batch_verify_exact_witness :
  ∃ b, batch_verify [blob] [commitment_point] [proof_bytes] = Done b ∧
    (b = true ↔ batch_accepts [blob] [commitment_point] [proof_bytes]).
Proof. exact (batch_verify_exact [blob] [commitment_point] [proof_bytes]). Defined.

(** Two openings of the blob, at 3 and at 4. *)
Definition commitments2 : list AffineG1 := [commitment; commitment].
Definition challenges2 : list Fr := [mk 3; mk 4].
Definition values2 : list Fr := [mk 1; mk (-1)].
Definition proofs2 : list AffineG1 := [proof; proof].

Lemma honest_openings_accepted_witness :
  verify_kzg_proof_batch commitments2 challenges2 values2 proofs2 [2; 2] = Done (Ok true).
Proof.
  apply (honest_openings_accepted commitments2 challenges2 values2 proofs2 [2; 2]).
  - done.
  - done.
  - done.
  - done.
  - done.
  - repeat constructor; exists coefficients; split_and!; vm_decide.
Defined.

Definition one_commitment : AffineG1 := commitment.
Definition one_challenge : Fr := mk 3.
Definition one_value : Fr := mk 1.
Definition other_value : Fr := mk 5.
Definition one_proof : AffineG1 := proof.

Lemma single_opening_exact_witness :
  ∃ b, verify_kzg_proof_batch [one_commitment] [one_challenge] [one_value] [one_proof] [2] =
      Done (Ok b) ∧
    (b = true ↔ G1_mul (AffineG1_into one_proof) srs_tau =
      G1_add (G1_sub (AffineG1_into one_commitment) (G1_mul G1_one one_value))
        (G1_mul (AffineG1_into one_proof) one_challenge)).
Proof. exact (single_opening_exact one_commitment one_challenge one_value one_proof 2). Defined.

(** The transcripts of two openings with different values. *)
Definition entry_bytes_of (y : Fr) : Bytes :=
  match entry_bytes (one_commitment, one_challenge, y, one_proof) with Done bs => bs | Panic => [] end.

Lemma entry_bytes_of_spec y :
  Forall2 (λ e bs, entry_bytes e = Done bs)
    (zip (zip (zip [one_commitment] [one_challenge]) [y]) [one_proof]) [entry_bytes_of y].
Proof.
  constructor; [|constructor]. unfold entry_bytes_of.
  by destruct (entry_bytes_total (one_commitment, one_challenge, y, one_proof)) as (bs & -> & _).
Qed.

Lemma batch_challenge_binds_witness :
  compute_r_powers [one_commitment] [one_challenge] [one_value] [one_proof] [2] = Done (Ok (powers
    (Fr_of_Z (from_be_bytes (sha2_256 (batch_transcript [2] [entry_bytes_of one_value])))) 1)) ∧
  (batch_transcript [2] [entry_bytes_of one_value] = batch_transcript [2] [entry_bytes_of other_value] →
   [2] = [2] ∧ [entry_bytes_of one_value] = [entry_bytes_of other_value]).
Proof.
  apply (batch_challenge_binds [one_commitment] [one_commitment] [one_challenge] [one_value]
    [one_challenge] [other_value] [one_proof] [one_proof] [2] [2]
    [entry_bytes_of one_value] [entry_bytes_of other_value]); try done.
  - by repeat constructor.
  - by repeat constructor.
  - apply entry_bytes_of_spec.
  - apply entry_bytes_of_spec.
Defined.
End Witnesses.
