(* ===== verification/HostWitnesses.v ===== *)
(** * Witnesses of the host's properties

    A proxy that knows two certificates, a store that is a finite map, and an oracle
    that runs the host's handler for the last hint when a key is read that is not stored. *)

From S2P Require Export DerivationTheory HostTheory.
Import Concrete.

(** ** kona's preimage types *)

Inductive toy_hint := L1BlockHeader | StartingL2Output.
#[export] Instance toy_hint_eq_dec : EqDecision toy_hint.
Proof. solve_decision. Defined.

(** Errors carry the text of an I/O error, or none. *)
#[export] Instance toy_preimage : KonaPreimage := {|
  PreimageKey := bool * Bytes;
  PreimageKey_eq_dec := _;
  PreimageKey_countable := _;
  PreimageKey_generic := pair false;
  PreimageKey_keccak256 := pair true;
  PreimageOracleError := option string;
  PreimageOracleError_display e := default "key not found"%string e;
  io_error := id;
  HintType := toy_hint;
  HintParsingError := string;
  HintType_from_str s :=
    if bool_decide (s = "l1-block-header"%string) then Ok L1BlockHeader
    else if bool_decide (s = "starting-l2-output"%string) then Ok StartingL2Output else Err s;
  HintType_into h := match h with
    | L1BlockHeader => "l1-block-header" | StartingL2Output => "starting-l2-output" end;
  hex_encode := String.string_of_list_byte;
|}.

#[export] Instance toy_hint_laws : HintTypeLaws.
Proof. split; by intros []. Qed.

(** ** The proxy *)

Definition not_found : HttpResponse :=
  {| http_status := 500; http_error_for_status := "500"; http_json := Err "no body"%string;
     http_bytes := Ok [] |}.
Definition found (body : Bytes) : HttpResponse :=
  {| http_status := 200; http_error_for_status := ""; http_json := Err "no json"%string;
     http_bytes := Ok body |}.
Definition teapot (code : Z) : HttpResponse :=
  {| http_status := 418; http_error_for_status := "418";
     http_json := Ok {| status_code := code; msg := "derivation error" |}; http_bytes := Ok [] |}.

Definition path_of (c : AltDACommitment) : string :=
  "get/" +:+ String.string_of_list_byte (to_rlp_bytes c).

(** The good certificate has a blob; the other one is too old. *)
Definition proxy_response (url : string) : HttpResponse :=
  if bool_decide (url = path_of good_cert) then found (encoded_payload (blob_of sample_world good_cert))
  else if bool_decide (url = path_of stale_cert) then teapot 2
  else not_found.

(** The network is a counter of the requests. *)
#[export] Instance toy_reqwest : Reqwest nat := {|
  Url := string;
  url_join _ path := Ok path;
  url_set_query u _ := u;
  http_get u n := Done (Ok (proxy_response u), Datatypes.S n);
|}.

(** ** The store *)

#[export] Instance toy_store : KeyValueStore (gmap PreimageKey Bytes) := {|
  kv_lookup m k := m !! k;
  kv_set k v m := Done (Ok tt, <[k := v]> m);
|}.

#[export] Instance toy_store_laws : KeyValueStoreLaws (K := gmap PreimageKey Bytes).
Proof.
  split. intros m k v r m' Hset. injection Hset as <- <-. left. split; [done|].
  intros k'. cbn. case_bool_decide as Hk; [subst; apply lookup_insert_eq|by apply lookup_insert_ne].
Qed.

(** ** The oracle *)

Definition host_state : Type := OnlineEigenDAPreimageProvider nat * gmap PreimageKey Bytes.

(** kona's online host, with the hint written last. *)
Record toy_online := { toy_state : host_state; toy_last : option (ExtendedHintType * Bytes) }.

Definition toy_fetch_hint (ty : HintType) (data : Bytes) : M host_state (result string unit) :=
  mret (Ok tt).

(** The certificates' hints are remembered, not fetched. *)
Definition remember (h : string) (t : toy_online) : toy_online :=
  if bool_decide (h = encode_with EigenDACert [to_rlp_bytes good_cert]) then
    {| toy_state := toy_state t; toy_last := Some (cert_hint good_cert) |}
  else if bool_decide (h = encode_with EigenDACert [to_rlp_bytes stale_cert]) then
    {| toy_state := toy_state t; toy_last := Some (cert_hint stale_cert) |}
  else t.

(** A read of a key that is not stored fetches the last hint; [Panic] stands for a read
    that does not end. *)
Definition toy_read (k : PreimageKey) (t : toy_online) : outcome (result (option string) Bytes * toy_online) :=
  match (toy_state t).2 !! k with
  | Some v => Done (Ok v, t)
  | None =>
      match toy_last t with
      | None => Panic
      | Some hn =>
          match fetch_hint toy_fetch_hint hn.1 hn.2 (toy_state t) with
          | Done (Ok _, h) =>
              match h.2 !! k with
              | Some v => Done (Ok v, {| toy_state := h; toy_last := Some hn |})
              | None => Panic
              end
          | _ => Panic
          end
      end
  end.

#[export] Instance toy_comms : CommsClient toy_online := {|
  oracle_write h t := Done (Ok tt, remember h t);
  oracle_get k := toy_read k;
  oracle_get_exact k n := toy_read k;
|}.

#[export] Instance toy_host : OnlineHost toy_online nat (gmap PreimageKey Bytes) := {|
  online_of t := (toy_state t).1; store_of t := (toy_state t).2;
  last_hint := toy_last; channel_failures _ := O;
|}.

(** ** The hypotheses hold *)

Definition all_addresses (c : AltDACommitment) : list Bytes :=
  validity_address c ::
  ((λ i, field_element_address c (Z.of_nat i)) <$> seq 0 (Z.to_nat (get_num_field_element c))).

Lemma addresses_listed c a : addresses_of c a → a ∈ all_addresses c.
Proof.
  intros [->|(i & Hi & ->)]; [by left|]. right. apply list_elem_of_fmap. exists (Z.to_nat i).
  split; [by rewrite Z2Nat.id by lia|]. apply elem_of_seq. lia.
Qed.

Lemma sample_no_collisions :
  Forall (λ a, Forall (λ a', keccak256 a = keccak256 a' → a = a')
    (all_addresses good_cert ++ all_addresses stale_cert))
    (all_addresses good_cert ++ all_addresses stale_cert).
Proof. vm_decide. Qed.

Lemma sample_digests_differ : to_digest good_cert ≠ to_digest stale_cert.
Proof. vm_decide. Qed.

Lemma toy_key_inj a a' : OracleProvider.key a = OracleProvider.key a' → keccak256 a = keccak256 a'.
Proof.
  unfold OracleProvider.key. intros Heq. exact (f_equal snd Heq).
Qed.

Lemma sample_collision_free : collision_free sample_domain.
Proof.
  pose proof sample_no_collisions as Hall. split.
  - intros c c' a a' HD HD' Ha%addresses_listed Ha'%addresses_listed Hk.
    apply toy_key_inj in Hk.
    rewrite Forall_forall in Hall.
    assert (Hin : a ∈ all_addresses good_cert ++ all_addresses stale_cert).
    { apply elem_of_app. destruct HD as [->| ->]; [left|right]; exact Ha. }
    specialize (Hall a Hin). rewrite Forall_forall in Hall. apply Hall; [|exact Hk].
    apply elem_of_app. destruct HD' as [->| ->]; [left|right]; exact Ha'.
  - intros c c' [->| ->] [->| ->] Hd; [reflexivity| | |reflexivity].
    + destruct (sample_digests_differ Hd).
    + destruct (sample_digests_differ (eq_sym Hd)).
Qed.

Lemma sample_sound : sound_domain sample_world sample_domain.
Proof.
  assert (Hgood : AltDACommitment_wf good_cert = true ∧ try_from (to_rlp_bytes good_cert) = Ok good_cert)
    by vm_decide.
  assert (Hstale : AltDACommitment_wf stale_cert = true ∧
    try_from (to_rlp_bytes stale_cert) = Ok stale_cert) by vm_decide.
  intros c [->| ->]; (split; [tauto|]; split; [tauto|]); unfold blob_sized; vm_decide.
Qed.

(** What the proxy answers, whatever the state of the provider. *)
Lemma sample_fetch c p r p' :
  fetch_data_from_proxy (to_rlp_bytes c) p = Done (r, p') →
  r = handle_response (proxy_response (path_of c)).
Proof.
  destruct p as [b n l]. unfold fetch_data_from_proxy, mbind, M_bind, get, try_bind, zoom, mret, M_ret.
  cbn [base inner last_entry toy_reqwest url_join map_err url_set_query http_get].
  change (hex_encode (to_rlp_bytes c)) with (String.string_of_list_byte (to_rlp_bytes c)).
  change ("get/" +:+ String.string_of_list_byte (to_rlp_bytes c)) with (path_of c).
  generalize (proxy_response (path_of c)). by intros response [= <- _].
Qed.

Lemma good_response :
  handle_response (proxy_response (path_of good_cert)) =
  Ok {| is_valid_cert := true; pass_recency_check := true;
        stage_encoded_payload := encoded_payload (blob_of sample_world good_cert) |}.
Proof. vm_compute. reflexivity. Qed.

Lemma stale_response :
  handle_response (proxy_response (path_of stale_cert)) =
  Ok {| is_valid_cert := true; pass_recency_check := false; stage_encoded_payload := [] |}.
Proof. vm_compute. reflexivity. Qed.

Lemma sample_truthful : truthful_proxy (Net := nat) sample_world sample_domain.
Proof.
  intros c p stage p' HD Hf. apply sample_fetch in Hf. destruct HD as [->| ->].
  - rewrite good_response in Hf. injection Hf as ->. split; [reflexivity|]. intros _ _. vm_decide.
  - rewrite stale_response in Hf. injection Hf as ->. split; [reflexivity|]. by intros _ [=].
Qed.

(** The handler's run for a certificate of the sample, whatever the state. *)

Lemma toy_store_elements n i key p q kv :
  ∃ kv' : gmap PreimageKey Bytes, store_field_elements n i key p q kv = Done (Ok tt, kv').
Proof.
  revert i key kv. induction n as [|n IH]; intros i key kv; [by exists kv|].
  cbn [store_field_elements]. unfold try_bind. case_bool_decide; cbn [kv_set toy_store]; apply IH.
Qed.

Lemma toy_fetch c (p : OnlineEigenDAPreimageProvider nat) :
  ∃ p', fetch_data_from_proxy (to_rlp_bytes c) p = Done (handle_response (proxy_response (path_of c)), p').
Proof.
  destruct (fetch_data_from_proxy (to_rlp_bytes c) p) as [[r p']|] eqn:Hf.
  - apply sample_fetch in Hf as ->. by exists p'.
  - destruct p as [u n l]. unfold fetch_data_from_proxy, mbind, M_bind, get, try_bind, zoom, mret, M_ret in Hf.
    cbn [base inner last_entry toy_reqwest url_join map_err url_set_query http_get] in Hf. done.
Qed.

(** A stage whose payload the handler can store, if it has to. *)
Definition storable (stage : ProxyDerivationStage) : bool :=
  negb (is_valid_cert stage) || negb (pass_recency_check stage) ||
  (bool_decide (length (stage_encoded_payload stage) mod 32 = 0)%nat &&
   negb (bool_decide (stage_encoded_payload stage = [])) &&
   is_ok (check_field_elements (chunks_exact BYTES_PER_FIELD_ELEMENT (stage_encoded_payload stage)))).

Lemma toy_handler_runs c stage (h : host_state) :
  try_from (to_rlp_bytes c) = Ok c → handle_response (proxy_response (path_of c)) = Ok stage →
  storable stage = true →
  ∃ h' : host_state, fetch_eigenda_hint (to_rlp_bytes c) h = Done (Ok tt, h').
Proof.
  intros Hparse Hstage Hstore. destruct h as [p kv]. destruct (toy_fetch c p) as [p' Hf]. rewrite Hstage in Hf.
  unfold fetch_eigenda_hint, on_online, on_kv, zoom, try_bind, mret, M_ret, store_cert_validity.
  rewrite Hparse. cbn [map_err fst snd]. rewrite Hf. cbn [fst snd kv_set toy_store].
  unfold storable in Hstore.
  destruct (is_valid_cert stage), (pass_recency_check stage); cbn [negb orb andb] in *; try by eexists.
  apply andb_prop in Hstore as [Hasserts Hchunks].
  unfold store_encoded_payload, mbind, M_bind, lift, try_bind, mret, M_ret.
  rewrite Hasserts. cbn [assert].
  destruct (check_field_elements _) as [[]|]; [|done].
  match goal with |- context [store_field_elements ?n ?i ?k ?p ?q ?m] =>
    destruct (toy_store_elements n i k p q m) as [kv' ->] end.
  by eexists.
Qed.

Lemma toy_handler c (h : host_state) : sample_domain c →
  ∃ h' : host_state, fetch_eigenda_hint (to_rlp_bytes c) h = Done (Ok tt, h').
Proof.
  intros HD. destruct (sample_sound c HD) as (_ & Hparse & _). destruct HD as [->| ->].
  - apply (toy_handler_runs _ _ _ Hparse good_response). vm_decide.
  - by apply (toy_handler_runs _ _ _ Hparse stale_response).
Qed.

#[export] Instance toy_environment : HostEnvironment (Net := nat) (K := gmap PreimageKey Bytes)
  sample_world sample_domain sample_block (λ _, O) (λ _, O).
Proof.
  split.
  - intros c p HD. destruct (toy_fetch c p) as [p' Hf]. unfold ends. rewrite Hf.
    destruct HD as [->| ->]; [rewrite good_response|rewrite stale_response];
      do 2 eexists; (split; [reflexivity|]); by split.
  - intros c p stage p' HD Hf _ Hrec. apply sample_fetch in Hf. destruct HD as [->| ->].
    + rewrite good_response in Hf. injection Hf as ->. unfold canonical_payload. vm_decide.
    + rewrite stale_response in Hf. injection Hf as ->. discriminate Hrec.
  - intros c p stage p' HD _ Hpass Hf. apply sample_fetch in Hf. destruct HD as [->| ->].
    + rewrite good_response in Hf. by injection Hf as ->.
    + exfalso. destruct Hpass as (window & Hw & Hrec).
      assert (Hwindow : cert_recency_window stale_cert = Ok 14400) by vm_decide.
      assert (Hold : recency_check sample_block (get_rbn stale_cert) 14400 ≠ Ok tt) by vm_decide.
      rewrite Hwindow in Hw. injection Hw as <-. exact (Hold Hrec).
  - intros k v kv. do 2 eexists. split; [reflexivity|]. by split.
Qed.

Lemma toy_runs c h h' : sample_domain c → hint_runs toy_fetch_hint (cert_hint c) h h' →
  fetch_eigenda_hint (to_rlp_bytes c) h = Done (Ok tt, h').
Proof.
  intros HD Hruns. destruct (toy_handler c h HD) as [h1 Hh1].
  destruct Hruns as [h h' Hrun|h e h2 h' Hrun _];
    change (fetch_eigenda_hint (to_rlp_bytes c) h = Done (Ok tt, h')) in Hrun ||
    change (fetch_eigenda_hint (to_rlp_bytes c) h = Done (Err e, h2)) in Hrun.
  - exact Hrun.
  - rewrite Hh1 in Hrun. discriminate Hrun.
Qed.

Lemma toy_reads c k t v h' : sample_domain c → hinted c t →
  host_reads toy_fetch_hint (cert_hint c) k (host_of t) v h' →
  toy_read k t = Done (Ok v, {| toy_state := h'; toy_last := Some (cert_hint c) |}).
Proof.
  destruct t as [[p kv] hn]. unfold hinted, host_of, online_of, store_of, last_hint, toy_host, toy_read.
  cbn [toy_state toy_last fst snd]. intros HD -> Hread.
  destruct Hread as [v Hk|v h' Hk Hruns Hv]; unfold kv_lookup, toy_store in *; cbn [fst snd] in *.
  - by rewrite Hk.
  - rewrite Hk. apply (toy_runs c _ _ HD) in Hruns.
    change (fetch_hint toy_fetch_hint (cert_hint c).1 (cert_hint c).2 (p, kv))
      with (fetch_eigenda_hint (to_rlp_bytes c) (p, kv)).
    by rewrite Hruns, Hv.
Qed.

#[export] Instance toy_host_laws : OnlineHostLaws (T := toy_online) (Net := nat)
    (K := gmap PreimageKey Bytes) sample_domain toy_fetch_hint.
Proof.
  assert (Hread : ∀ t c k v h', sample_domain c → hinted c t →
    host_reads toy_fetch_hint (cert_hint c) k (host_of t) v h' →
    replied channel_failures (λ t', host_of t' = host_of t ∨ host_of t' = h')
      (λ t', host_of t' = h' ∧ hinted c t') v t (toy_read k t)).
  { intros t c k v h' HD Hh Hr. rewrite (toy_reads c k t v h' HD Hh Hr).
    assert (Hh' : host_of {| toy_state := h'; toy_last := Some (cert_hint c) |} = h') by (by destruct h').
    do 2 eexists. split; [reflexivity|]. split; [right; exact Hh'|]. left. split; [reflexivity|].
    split; [split; [exact Hh'|reflexivity]|apply Nat.le_refl]. }
  split.
  - intros t c HD. do 2 eexists. split; [reflexivity|]. unfold remember.
    assert (Hne : encode_with EigenDACert [to_rlp_bytes stale_cert] ≠
      encode_with EigenDACert [to_rlp_bytes good_cert]) by vm_decide.
    destruct HD as [->| ->].
    + rewrite bool_decide_true by reflexivity. split; [reflexivity|]. left. split; [reflexivity|].
      split; [reflexivity|apply Nat.le_refl].
    + rewrite (bool_decide_false _ Hne), bool_decide_true by reflexivity. split; [reflexivity|]. left.
      split; [reflexivity|]. split; [reflexivity|apply Nat.le_refl].
  - intros t c k v h' HD Hh Hr. exact (Hread t c k v h' HD Hh Hr).
  - intros t c k v h' n HD Hh Hr _. exact (Hread t c k v h' HD Hh Hr).
Qed.

(** ** Witnesses *)

Lemma hint_round_trip_witness :
  ExtendedHintType_from_str "eigenda-certificate" = Ok EigenDACert ∧
  ExtendedHintType_from_str (ExtendedHintType_into (Original L1BlockHeader)) = Ok (Original L1BlockHeader).
Proof. split; [exact (hint_round_trip EigenDACert)|exact (hint_round_trip (Original L1BlockHeader))]. Defined.

Lemma preimage_addresses_separate_witness :
  (good_cert = good_cert ∧ validity_address good_cert = validity_address good_cert ∧
    (validity_address good_cert = validity_address good_cert ∨
     ∃ i, 0 ≤ i < get_num_field_element good_cert ∧
       validity_address good_cert = field_element_address good_cert i)) ∨
  (validity_address good_cert ≠ validity_address good_cert ∧
   keccak256 (validity_address good_cert) = keccak256 (validity_address good_cert)) ∨
  (to_rlp_bytes good_cert ≠ to_rlp_bytes good_cert ∧
   keccak256 (to_rlp_bytes good_cert) = keccak256 (to_rlp_bytes good_cert)).
Proof.
  apply (preimage_addresses_separate (H := concrete_alloy) good_cert good_cert (validity_address good_cert)
    (validity_address good_cert)).
  - vm_decide.
  - vm_decide.
  - left. reflexivity.
  - left. reflexivity.
  - reflexivity.
Defined.

Definition sample_online : OnlineEigenDAPreimageProvider nat := new_http "http://proxy" 0%nat.
Definition sample_fetched : OnlineEigenDAPreimageProvider nat :=
  {| base := "http://proxy"; inner := 1%nat;
     last_entry := Some (stale_cert,
       {| is_valid_cert := true; pass_recency_check := false; stage_encoded_payload := [] |}) |}.

Lemma online_provider_cached_witness :
  last_entry sample_fetched = Some (stale_cert,
    {| is_valid_cert := true; pass_recency_check := false; stage_encoded_payload := [] |}) ∧
  get_validity stale_cert sample_fetched = Done (Ok true, sample_fetched) ∧
  get_encoded_payload stale_cert sample_fetched = Done (Ok {| encoded_payload := [] |}, sample_fetched).
Proof.
  apply (online_provider_cached stale_cert sample_online sample_fetched
    {| is_valid_cert := true; pass_recency_check := false; stage_encoded_payload := [] |}).
  vm_compute. reflexivity.
Defined.

Lemma proxy_response_meaning_witness :
  handle_response (teapot 3) =
  Ok {| is_valid_cert := false; pass_recency_check := true; stage_encoded_payload := [] |}.
Proof.
  apply (proxy_response_meaning (teapot 3)). right. split; [reflexivity|].
  eexists. split; [reflexivity|]. by left.
Defined.

(** The store after the hint for the good certificate, from an empty one. *)
Definition filled_store : gmap PreimageKey Bytes :=
  match fetch_eigenda_hint (to_rlp_bytes good_cert) (sample_online, ∅) with
  | Done (_, (_, kv)) => kv
  | Panic => ∅
  end.
Definition after_hint : OnlineEigenDAPreimageProvider nat :=
  {| base := "http://proxy"; inner := 1%nat; last_entry := None |}.

Lemma hint_run :
  match fetch_eigenda_hint (to_rlp_bytes good_cert) (sample_online, ∅ : gmap PreimageKey Bytes) with
  | Done (r, (p, _)) => (r, base p, inner p, last_entry p) = (Ok tt, "http://proxy"%string, 1%nat, None)
  | Panic => False
  end.
Proof. vm_compute. reflexivity. Qed.

Lemma filled_store_run :
  fetch_eigenda_hint (to_rlp_bytes good_cert) (sample_online, ∅ : gmap PreimageKey Bytes) =
  Done (Ok tt, (after_hint, filled_store)).
Proof.
  pose proof hint_run as Hrun. unfold filled_store.
  destruct (fetch_eigenda_hint _ _) as [[r [[b i l] kv]]|]; [|destruct Hrun].
  cbn [base inner last_entry] in Hrun. by injection Hrun as -> -> -> ->.
Qed.

Lemma hint_handler_stores_preimages_witness :
  kv_agrees sample_world sample_domain filled_store ∧
  (∀ c k v, sample_domain c → preimage_of sample_world c k v →
    kv_lookup (∅ : gmap PreimageKey Bytes) k = Some v → kv_lookup filled_store k = Some v) ∧
  (Ok (E := string) tt = Ok tt →
    kv_lookup filled_store (OracleProvider.key (validity_address good_cert)) =
      Some [bool_byte (is_valid sample_world good_cert)] ∧
    ∃ stage, fetch_data_from_proxy (to_rlp_bytes good_cert) sample_online = Done (Ok stage, after_hint) ∧
      (pass_recency_check stage = true → kv_has sample_world good_cert filled_store)).
Proof.
  apply (hint_handler_stores_preimages sample_world sample_domain good_cert sample_online after_hint
    (∅ : gmap PreimageKey Bytes) filled_store (Ok tt)).
  - exact sample_collision_free.
  - intros c HD. exact (proj1 (sample_sound c HD)).
  - left. reflexivity.
  - exact (proj1 (proj2 (sample_sound good_cert (or_introl eq_refl)))).
  - intros p1 stage. apply (sample_truthful good_cert sample_online stage p1). left. reflexivity.
  - by intros c k v v' _ _.
  - exact filled_store_run.
Defined.

Definition sample_oracle : OracleEigenDAPreimageProvider toy_online :=
  OracleProvider.new {| toy_state := (sample_online, ∅); toy_last := None |}.

(** From an empty store the client reads the validity and then the payload. *)
Example sample_reads :
  match get_validity good_cert sample_oracle with
  | Done (Ok v, s) =>
      match get_encoded_payload good_cert s with
      | Done (Ok ep, s) => (v, ep, inner (toy_state (oracle s)).1) = (true, blob_of sample_world good_cert, 1%nat)
      | _ => False
      end
  | _ => False
  end.
Proof. vm_compute. reflexivity. Qed.

Lemma host_serves_client_witness :
  served (store_agrees sample_world sample_domain) channel_failures (hinted good_cert)
    (is_valid sample_world good_cert) sample_oracle (get_validity good_cert sample_oracle) ∧
  (is_valid sample_world good_cert = true → passes_recency sample_block good_cert →
   served (store_agrees sample_world sample_domain) channel_failures (hinted good_cert)
     (blob_of sample_world good_cert) sample_oracle (get_encoded_payload good_cert sample_oracle)).
Proof.
  apply (host_serves_client sample_world sample_domain sample_block (λ _, O) (λ _, O) toy_fetch_hint).
  - exact sample_collision_free.
  - exact sample_sound.
  - exact sample_truthful.
  - left. reflexivity.
  - intros c k v v' _ _ Hk. discriminate Hk.
Defined.
