(* ===== verification/HostLiveness.v ===== *)
(** * A block is derived over the host

    The host's handler, the oracle, the client's provider and the derivation together:
    over kona's online host and a network that fails finitely often, the client's pipeline
    hands out the payloads of a block. *)

From S2P Require Export Liveness HostWitnesses.

(** The provider over an oracle that serves the preimages of a DA world fails finitely
    often on the requests of a derivation. *)
Section finitely.
Context `{!Alloy, !KonaPreimage, !CommsClient T}.
Context (w : DAWorld) (D : AltDACommitment → Prop) (bn : Z) (Inv : T → Prop)
  (asked : AltDACommitment → T → Prop) (retries : T → nat).
Context `{!AnswersFrom w D bn Inv asked retries}.

Lemma oracle_fails_finitely :
  (∀ c, D c → AltDACommitment_wf c = true ∧ blob_sized w c) →
  FailsFinitely (OracleEigenDAPreimageProvider T) D (λ s, Inv (oracle s)) bn (λ s, retries (oracle s)).
Proof.
  intros Hsane. split.
  - intros c s r s' HD HI Hv. pose proof (get_validity_served w D bn Inv asked retries c s HD HI) as Hs.
    by destruct (served_retries _ _ _ _ _ _ _ _ Hs Hv) as (? & ? & _ & ?).
  - intros c s0 s r s' HD HI Hpass Hv Hp. destruct (Hsane c HD) as [Hwf Hsize].
    pose proof (get_validity_served w D bn Inv asked retries c s0 HD HI) as Hs.
    destruct (served_retries _ _ _ _ _ _ _ _ Hs Hv) as (HI1 & _ & Hval & _).
    pose proof (get_encoded_payload_served w D bn Inv asked retries c s Hwf Hsize HD HI1
      (eq_sym (Hval true eq_refl)) Hpass) as Hs'.
    by destruct (served_retries _ _ _ _ _ _ _ _ Hs' Hp) as (? & ? & _ & ?).
Qed.
End finitely.

(** ** Properties *)

Section claims.
Context `{!Alloy, !AlloyLaws, !Kona, !KonaLaws, !EthereumDataSource E}.
Context `{!KonaPreimage, !CommsClient T, !Reqwest Net, !KeyValueStore K, !KeyValueStoreLaws,
  !OnlineHost T Net K}.

(** C14: From the proxy to the payloads: over kona's online host, which fetches the last
    hint when a key that is not stored is read and again after every error, a proxy that
    tells the truth in canonical payloads and is no stricter about recency than the
    derivation, and a network, a store, a channel and an L1 source that fail finitely often,
    and for a block of certificates of known versions, the client's pipeline over the
    preimage oracle ends within one call per pending item and failure of the channel or
    the L1 source and one more, and has then delivered exactly the payloads of the block,
    in order. *)
Theorem hosted_block_derived (b : BlockInfo) (addr : Address) (pending : E → list Bytes) (w : DAWorld)
    (D : AltDACommitment → Prop) (eth_retries : E → nat)
    (net_failures : OnlineEigenDAPreimageProvider Net → nat) (kv_failures : K → nat)
    (kona_fetch_hint : HintType → Bytes →
      M (OnlineEigenDAPreimageProvider Net * K) (result string unit))
    `{!EthereumQueue b addr pending, !EthFailsFinitely E b addr eth_retries,
      !OnlineHostLaws D kona_fetch_hint,
      !HostEnvironment w D (block_number b) net_failures kv_failures}
    (Hfree : collision_free D) (Hsound : sound_domain w D) (Htrue : truthful_proxy (Net := Net) w D)
    (calls fuel : nat) (s : EigenDADataSource E (OracleEigenDAPreimageProvider T))
    (HI : provider_inv (λ p, store_agrees w D (oracle p)) s) (Hcov : covered D (position_of pending s))
    (Hversions : versions_known (position_of pending s))
    (Hfuel : (remaining (position_of pending s) < fuel)%nat)
    (Hcalls : (remaining (position_of pending s) +
      failures_left eth_retries (λ p, channel_failures (oracle p)) s < calls)%nat) :
  ∃ s', drain b addr calls fuel s =
    Some (block_payloads w (block_number b) (position_of pending s), s').
Proof.
  pose proof (online_host_answers w D (block_number b) net_failures kv_failures kona_fetch_hint
    Hfree Hsound Htrue) as Hanswers.
  assert (Hsane : ∀ c, D c → AltDACommitment_wf c = true ∧ blob_sized w c).
  { intros c HD. by destruct (Hsound c HD) as (? & _ & ?). }
  pose proof (oracle_provider_answers w D (block_number b) _ _ _ Hsane) as Hfaithful.
  pose proof (oracle_fails_finitely w D (block_number b) _ _ _ Hsane) as Hfinite.
  exact (drain_payloads b addr pending w D _ eth_retries _ calls fuel s HI Hcov Hversions Hfuel Hcalls).
Qed.
End claims.

(** ** Witness

    The toy host of [HostWitnesses], from an empty store. *)

Import Concrete.

Definition hosted_items : list Bytes :=
  [[]; x01 :: to_rlp_bytes stale_cert; x01 :: to_rlp_bytes good_cert; [x00; x2a]].
Definition hosted_source : EigenDADataSource (list Bytes) (OracleEigenDAPreimageProvider toy_online) :=
  DataSource.new hosted_items (PreimageSource.new sample_oracle).

Lemma hosted_payloads : block_payloads sample_world 20000 (None, hosted_items) = [[x68; x69]; [x00; x2a]].
Proof. vm_decide. Qed.

Lemma hosted_certs : Forall (λ d, ∀ c, read_item d = Cert c → version_known c ∧ sample_domain c) hosted_items.
Proof.
  assert (Hstale : read_item (x01 :: to_rlp_bytes stale_cert) = Cert stale_cert) by vm_decide.
  assert (Hgood : read_item (x01 :: to_rlp_bytes good_cert) = Cert good_cert) by vm_decide.
  assert (Hplain : read_item [x00; x2a] = Plain [x00; x2a]) by vm_decide.
  unfold hosted_items. rewrite !Forall_cons. split_and!; [done| | | |by apply Forall_nil]; intros c Hc.
  - rewrite Hstale in Hc. injection Hc as <-. split; [by exists 14400|by right].
  - rewrite Hgood in Hc. injection Hc as <-. split; [by exists 14400|by left].
  - by rewrite Hplain in Hc.
Qed.

Example hosted_drain :
  option_map fst (drain sample_block [] 5 5 hosted_source) = Some [[x68; x69]; [x00; x2a]].
Proof. vm_compute. reflexivity. Qed.

Lemma hosted_block_derived_witness :
  ∃ s', drain sample_block [] 5 5 hosted_source = Some ([[x68; x69]; [x00; x2a]], s').
Proof.
  rewrite <-hosted_payloads.
  apply (hosted_block_derived sample_block [] id sample_world sample_domain (λ _, O) (λ _, O) (λ _, O)
    toy_fetch_hint sample_collision_free sample_sound sample_truthful 5 5 hosted_source).
  - intros c k v v' _ _ Hk. discriminate Hk.
  - split; [done|]. eapply Forall_impl; [exact hosted_certs|]. intros d Hd c Hc. by apply Hd.
  - split; [done|]. eapply Forall_impl; [exact hosted_certs|]. intros d Hd c Hc. by apply Hd.
  - vm_decide.
  - vm_decide.
Defined.
