(* ===== verification/CanoeTheory.v ===== *)
(** * What canoe's verifiers establish

    The soundness of both verifiers against the guests they verify, the agreement of
    prover and verifier on honest inputs, and the chains that are supported. *)

From S2P Require Export RlpInstance Witness Preloaded.

Lemma Forall2_func_l {A B C} (f : A → outcome C) (g : B → outcome C) l k cs :
  Forall2 (λ a b, ∀ c, f a = Done c → g b = Done c) l k →
  mapM_outcome f l = Done cs → mapM_outcome g k = Done cs.
Proof.
  intros HF. revert cs. induction HF as [|a b l k Hab _ IH]; intros cs; [done|].
  cbn [mapM_outcome]. intros (c & Hc & Hrest)%outcome_bind_Done_inv.
  apply outcome_bind_Done_inv in Hrest as (cs' & Hcs & [= <-]).
  by rewrite (Hab c Hc), Done_bind, (IH cs' Hcs).
Qed.

(** ** Proof systems *)

(** The recursion of sp1: a verified digest is the SHA-256 of public values that a run
    of the guest with that key committed, on inputs that are values of their Rust types. *)
Class Sp1Soundness `{!Alloy, !SolEncoding, !Reth, !Sp1} := {
  verify_sp1_proof_sound digest u : verify_sp1_proof Sp1CC.V_KEY digest = Done u →
    ∃ sketch inputs bytes, Sp1CC.guest_main sketch inputs = Done bytes ∧ digest = sha256 bytes ∧
      Forall (λ i, commitment_ok (ci_altda_commitment i)) inputs;
}.

(** risc0: in the zkVM a verified journal, and outside a verified receipt's journal,
    was committed by a run of the guest. *)
Class SteelSoundness `{!Alloy, !SolEncoding, !Reth, !Steel} := {
  env_verify_sound bytes : env_verify CERT_VERIFICATION_ID bytes = Ok tt →
    ∃ input inputs, SteelCC.guest_main input inputs = Done bytes ∧
      Forall (λ i, commitment_ok (ci_altda_commitment i)) inputs;
  receipt_verify_sound receipt : receipt_verify receipt CERT_VERIFICATION_ID = Ok tt →
    ∃ input inputs, SteelCC.guest_main input inputs = Done (receipt_journal_bytes receipt) ∧
      Forall (λ i, commitment_ok (ci_altda_commitment i)) inputs;
}.

Section lemmas.
Context `{!Alloy, !AlloyLaws, !SolEncoding, !SolEncodingLaws, !Reth}.

Lemma steel_receipt_Ok `{!Steel, !SteelSoundness} zkvm pairs proof :
  SteelCC.validate_cert_receipt zkvm pairs proof = Done (Ok tt) →
  ∃ bytes input inputs, SteelCC.to_journals_bytes pairs = Done bytes ∧
    SteelCC.guest_main input inputs = Done bytes ∧
    Forall (λ i, commitment_ok (ci_altda_commitment i)) inputs.
Proof.
  unfold SteelCC.validate_cert_receipt. intros (bytes & Hb & Hv)%outcome_bind_Done_inv.
  exists bytes. destruct zkvm.
  - injection Hv as Hv. destruct (env_verify _ bytes) as [[]|e] eqn:He; [|done].
    destruct (env_verify_sound bytes He) as (input & inputs & Hg & Hok). by exists input, inputs.
  - destruct proof as [proof|]; [|done]. injection Hv as Hv.
    destruct (receipt_from_slice proof) as [receipt|e] eqn:Hr; [|done]. cbn [map_err] in Hv.
    rewrite Ok_bind in Hv.
    destruct (receipt_verify receipt _) as [[]|e] eqn:Hrv; [|done]. cbn [map_err] in Hv.
    rewrite Ok_bind in Hv. case_bool_decide as Hj; [done|].
    destruct (receipt_verify_sound receipt Hrv) as (input & inputs & Hg & Hok).
    exists input, inputs. by rewrite Hj in Hg.
Qed.

Lemma sp1_receipt_Ok `{!Sp1, !Sp1Soundness} zkvm pairs proof :
  Sp1CC.validate_cert_receipt zkvm pairs proof = Done (Ok tt) →
  zkvm = true ∧ pairs ≠ [] ∧ ∃ bytes sketch inputs bytes',
    Sp1CC.to_journals_bytes pairs = Done bytes ∧
    Sp1CC.guest_main sketch inputs = Done bytes' ∧ sha256 bytes = sha256 bytes' ∧
    Forall (λ i, commitment_ok (ci_altda_commitment i)) inputs.
Proof.
  unfold Sp1CC.validate_cert_receipt. intros [Hne Hv]%bind_assert_Done.
  apply negb_true_iff, bool_decide_eq_false in Hne. destruct zkvm; [|done].
  apply outcome_bind_Done_inv in Hv as (bytes & Hb & Hv).
  apply outcome_bind_Done_inv in Hv as (u & Hv & _).
  destruct (verify_sp1_proof_sound _ _ Hv) as (sketch & inputs & bytes' & Hg & Hd & Hok).
  split_and!; [done..|]. by exists bytes, sketch, inputs, bytes'.
Qed.

(** The journals rebuilt from the claims collide under SHA-256 with different journals
    that a run of the guest committed. *)
Definition journals_collide `{!Sp1} (pairs : list (AltDACommitment * CertValidity)) : Prop :=
  ∃ rebuilt sketch inputs committed, Sp1CC.to_journals_bytes pairs = Done rebuilt ∧
    Sp1CC.guest_main sketch inputs = Done committed ∧
    rebuilt ≠ committed ∧ sha256 rebuilt = sha256 committed.

Lemma sp1_claims_hold `{!Sp1, !Sp1Soundness} zkvm pairs proof :
  Sp1CC.validate_cert_receipt zkvm pairs proof = Done (Ok tt) →
  Forall (λ p, commitment_ok p.1) pairs →
  (∃ sketch ex, ClientExecutor_eth sketch = Ok ex ∧ Forall (sp1_claim_holds sketch ex) pairs) ∨
  journals_collide pairs.
Proof.
  intros (_ & _ & bytes & sketch & inputs & bytes' & Hb & Hg & Hsha & Hok)%sp1_receipt_Ok Hpairs.
  destruct (decide (bytes = bytes')) as [->|Hne]; [left|right; by exists bytes, sketch, inputs, bytes'].
  destruct (sp1_guest_claims sketch inputs pairs bytes' Hg Hb Hok Hpairs) as (ex & ? & ?).
  by exists sketch, ex.
Qed.

(** ** Honest inputs *)

Context `{!Sp1, !CanoeVerifierAddressFetcher F}.

(** The journal that the verifier rebuilds is the guest's, with its own chain configuration. *)
Definition with_config (config : B256) (j : Sol.Journal) : Sol.Journal := {|
  Sol.blockNumber := Sol.blockNumber j; Sol.certVerifierAddress := Sol.certVerifierAddress j;
  Sol.input := Sol.input j; Sol.blockhash := Sol.blockhash j; Sol.output := Sol.output j;
  Sol.l1ChainId := Sol.l1ChainId j; Sol.chainSpecHash := Sol.chainSpecHash j;
  Sol.chainConfigHash := config |}.

(** Every call that the executor answers at the block [hash] comes with [config]. *)
Definition config_at (ex : ClientExecutor) (hash config : B256) : Prop :=
  ∀ addr call out ty cfg, execute ex addr (zeros 20) call = Ok (out, hash, ty, cfg) → cfg = config.

Lemma honest_journal ex chain number hash gen ts config derived i p :
  ci_altda_commitment i = p.1 → ci_claimed_validity i = claimed_validity p.2 →
  ci_verifier_address i = verifier_address p.2 → l1_chain_id p.2 = chain →
  l1_head_block_hash p.2 = hash → l1_head_block_number p.2 = number →
  l1_head_block_timestamp p.2 = ts → config_at ex hash config →
  Sp1CC.derive_chain_config_hash chain ts number = Done derived →
  Sp1CC.rsp_genesis_hash chain = Done gen →
  ∀ j, Sp1CC.guest_journal ex chain number hash gen i = Done j →
    Sp1CC.to_journal p = Done (with_config derived j) ∧ Sol.chainConfigHash j = config.
Proof.
  destruct p as [c v]. cbn [fst snd]. intros Hc Hv Ha Hch Hh Hn Ht Hcfg Hderive Hgen j.
  unfold Sp1CC.guest_journal. destruct (CertVerifierCall_build _) as [call].
  intros ([[[out anchor] ty] cfg] & Hex%expect_Done & Hj)%outcome_bind_Done_inv.
  apply bind_assert_Done in Hj as [_ Hj]. apply bind_assert_Done in Hj as [Hcl Hj].
  apply bind_assert_Done in Hj as [Hanchor [= <-]].
  apply bool_decide_eq_true in Hcl, Hanchor. subst anchor. split; [|by eapply Hcfg].
  unfold Sp1CC.to_journal. rewrite Hch, Ht, Hn, Hderive, Done_bind, Hgen, Done_bind.
  unfold with_config. cbn. do 2 f_equal; congruence.
Qed.

Lemma honest_inputs (f : F) ex gen hash number ts chain config derived validities inputs pairs :
  Forall2 (λ v i, ci_altda_commitment i = v.1 ∧ ci_claimed_validity i = v.2 ∧
    fetch_address f chain (versioned_cert v.1) = Ok (ci_verifier_address i) ∧
    ci_l1_chain_id i = chain ∧ ci_l1_head_block_hash i = hash ∧
    ci_l1_head_block_number i = number) validities inputs →
  Forall2 (λ v p, to_cert_validity f hash number ts chain v = Done p) validities pairs →
  config_at ex hash config → Sp1CC.derive_chain_config_hash chain ts number = Done derived →
  Sp1CC.rsp_genesis_hash chain = Done gen →
  ∀ js, mapM_outcome (Sp1CC.guest_journal ex chain number hash gen) inputs = Done js →
    mapM_outcome Sp1CC.to_journal pairs = Done (with_config derived <$> js) ∧
    Forall (λ j, Sol.chainConfigHash j = config) js.
Proof.
  intros Hinputs Hpairs Hcfg Hderive Hgen. revert pairs Hpairs.
  induction Hinputs as [|[c b] i vs is' Hi _ IH]; intros pairs Hpairs js;
    inversion Hpairs as [|? p ? pairs' Hp Hpairs']; subst pairs; cbn [mapM_outcome].
  { by intros [= <-]. }
  intros (j & Hj & Hjs)%outcome_bind_Done_inv. apply outcome_bind_Done_inv in Hjs as (js' & Hjs & [= <-]).
  destruct (IH pairs' Hpairs' js' Hjs) as [-> Hall].
  cbn [fst snd] in Hi. destruct Hi as (? & ? & Ha & ? & ? & ?).
  unfold to_cert_validity in Hp. rewrite Ha in Hp. cbn [expect] in Hp. rewrite Done_bind in Hp.
  injection Hp as <-.
  edestruct (honest_journal ex chain number hash gen ts config derived i) as [-> Hc]; [..|exact Hj|]; try done.
  rewrite !Done_bind. split; [done|by constructor].
Qed.

(** The guest's run commits journals with its own chain configuration, and the verifier
    rebuilds the same ones with the one that it derives. *)
Lemma honest_run (f : F) (validities : list (AltDACommitment * bool)) (hash : B256) (number ts chain : Z)
    (config derived : B256) (inputs : list CanoeInput) (pairs : list (AltDACommitment * CertValidity))
    (sketch : EvmSketchInput) (ex : ClientExecutor) (bytes : Bytes) :
  from_eigenda_preimage_to_canoe_inputs validities f chain hash number = Ok inputs →
  mapM_outcome (to_cert_validity f hash number ts chain) validities = Done pairs →
  ClientExecutor_eth sketch = Ok ex → config_at ex hash config →
  Sp1CC.derive_chain_config_hash chain ts number = Done derived →
  Sp1CC.rsp_genesis_hash chain = Done (keccak256 (bincode_genesis (sketch_genesis sketch))) →
  Sp1CC.guest_main sketch inputs = Done bytes →
  ∃ rebuilt, Sp1CC.to_journals_bytes pairs = Done rebuilt ∧ (rebuilt = bytes ↔ config = derived).
Proof.
  intros Hinputs Hpairs Hex Hcfg Hderive Hgen Hrun.
  apply canoe_inputs_Ok in Hinputs. rewrite mapM_outcome_Done in Hpairs.
  unfold Sp1CC.guest_main in Hrun. destruct inputs as [|first rest]; [done|].
  set (inputs := first :: rest) in *.
  assert (Hanchor : ci_l1_chain_id first = chain ∧ ci_l1_head_block_hash first = hash ∧
    ci_l1_head_block_number first = number).
  { unfold inputs in Hinputs. by inversion Hinputs as [|?? ? ? (_ & _ & _ & ? & ? & ?)]. }
  destruct Hanchor as (Hch & Hh & Hn). rewrite Hch, Hh, Hn in Hrun.
  apply outcome_bind_Done_inv in Hrun as (u & _ & Hrun). rewrite Hex in Hrun. cbn [expect] in Hrun.
  rewrite Done_bind in Hrun. apply bind_assert_Done in Hrun as [_ Hrun].
  apply bind_assert_Done in Hrun as [Hch' Hrun]. apply bool_decide_eq_true in Hch'.
  rewrite <-Hch' in Hrun. apply outcome_bind_Done_inv in Hrun as (js & Hjs & [= <-]).
  destruct (honest_inputs f ex _ hash number ts chain config derived _ _ _ Hinputs Hpairs Hcfg Hderive
    Hgen js Hjs) as [Hto Hall].
  exists (bincode_journals (with_config derived <$> js)). unfold Sp1CC.to_journals_bytes.
  rewrite Hto, Done_bind. split; [done|]. split.
  - intros Heq%(inj _). destruct js as [|j js].
    { apply mapM_outcome_Done in Hjs. by inversion Hjs. }
    apply Forall_cons in Hall as [<- _]. rewrite fmap_cons in Heq. injection Heq as Hj _. by rewrite <-Hj.
  - intros ->. f_equal. clear Hjs Hto. induction Hall as [|j js Hc _ IH]; [done|].
    rewrite fmap_cons, IH. f_equal. destruct j. by cbn in *; subst.
Qed.
End lemmas.

(** ** Properties *)

(** The L1 chains with a deployed verifier. *)
Definition supported_chains : list Z := [1; 11155111; 17000; 3151908].

(** The defaults of the matches on chain ids. *)
Lemma unsupported_chain `{!Reth, !Steel} chain timestamp number :
  chain ≠ 1 → chain ≠ 11155111 → chain ≠ 17000 → chain ≠ 3151908 →
  cert_verifier_address_abi_encode_interface chain = Err (UnknownL1ChainId chain) ∧
  derive_chain_spec_id chain timestamp number = Panic ∧
  derive_chain_spec_genesis_hash chain = Panic ∧ SteelCC.chain_spec_for chain = Panic ∧
  SteelCC.get_allowed_steel_spec_id chain = Panic.
Proof.
  intros Hm Hs Hh Hd. destruct chain as [|p|p]; [by split_and!| |by split_and!].
  do 25 (destruct p as [p|p|]; try (by split_and!); try done).
Qed.

Section claims.
Context `{!Alloy, !AlloyLaws, !SolEncoding, !SolEncodingLaws, !Reth}.

(** C23: An accepted sp1 proof makes every claim true: if CanoeSp1CCVerifier accepts a
    list of claims, there is one executor over an L1 state sketch at the claimed block
    number, chain and genesis in which the verifier contract at each claim's address,
    called on its certificate at the claimed block hash, returns success exactly when
    the claim says valid - or the rebuilt journals and other journals that a guest run
    committed are a SHA-256 collision. *)
Theorem sp1_verifier_sound `{!Sp1, !Sp1Soundness} (zkvm : bool)
    (pairs : list (AltDACommitment * CertValidity)) (proof : option Bytes)
    (Hok : Forall (λ p, commitment_ok p.1) pairs)
    (Haccept : validate_cert_receipt {| sp1_zkvm := zkvm |} pairs proof = Done (Ok tt)) :
  (∃ sketch ex, ClientExecutor_eth sketch = Ok ex ∧ Forall (sp1_claim_holds sketch ex) pairs) ∨
  journals_collide pairs.
Proof. exact (sp1_claims_hold zkvm pairs proof Haccept Hok). Qed.

(** C24: An accepted steel proof makes every claim true, on no devnet: if
    CanoeSteelVerifier accepts, in the zkVM or outside it, no claim is for the devnet,
    and for every claim the contract, called in the environment whose sealed header is
    the claimed L1 head, returns success exactly when the claim says valid. *)
Theorem steel_verifier_sound `{!Steel, !SteelSoundness} (zkvm : bool)
    (pairs : list (AltDACommitment * CertValidity)) (proof : option Bytes)
    (Hok : Forall (λ p, commitment_ok p.1) pairs)
    (Haccept : validate_cert_receipt {| steel_zkvm := zkvm |} pairs proof = Done (Ok tt)) :
  Forall (λ p, l1_chain_id p.2 ≠ 3151908) pairs ∧
  ∃ input, Forall (steel_claim_holds input) pairs.
Proof.
  unfold validate_cert_receipt, canoe_steel_verifier, SteelCC.validate_cert_receipt_secure in Haccept.
  apply outcome_bind_Done_inv in Haccept as (u & Hdev & Haccept).
  rewrite forM_outcome_Done in Hdev. split.
  - eapply Forall_impl; [exact Hdev|]. intros p.
    by intros Hp%assert_Done%negb_true_iff%bool_decide_eq_false.
  - apply steel_receipt_Ok in Haccept as (bytes & input & inputs & Hb & Hg & Hin).
    exists input. by eapply steel_guest_claims.
Qed.

(** Prover and verifier agree on honest inputs: when the inputs that witness
    generation builds from recorded validities run through the sp1 guest, the bytes it
    commits are exactly those the verifier rebuilds from the witness's validities with
    the same L1 head, provided the executor's chain configuration and the sketch's
    genesis are those of the chain. *)
Theorem canoe_inputs_match_claims `{!Sp1, !CanoeVerifierAddressFetcher F}
    (f : F) (validities : list (AltDACommitment * bool)) (hash : B256) (number ts chain : Z)
    (inputs : list CanoeInput) (pairs : list (AltDACommitment * CertValidity))
    (sketch : EvmSketchInput) (ex : ClientExecutor) (bytes : Bytes)
    (Hinputs : from_eigenda_preimage_to_canoe_inputs validities f chain hash number = Ok inputs)
    (Hpairs : mapM_outcome (to_cert_validity f hash number ts chain) validities = Done pairs)
    (Hex : ClientExecutor_eth sketch = Ok ex) (config : B256) (Hcfg : config_at ex hash config)
    (Hderive : Sp1CC.derive_chain_config_hash chain ts number = Done config)
    (Hgen : Sp1CC.rsp_genesis_hash chain = Done (keccak256 (bincode_genesis (sketch_genesis sketch))))
    (Hrun : Sp1CC.guest_main sketch inputs = Done bytes) :
  Sp1CC.to_journals_bytes pairs = Done bytes.
Proof.
  destruct (honest_run f validities hash number ts chain config config inputs pairs sketch ex bytes)
    as (rebuilt & -> & Hsame); [done..|]. by rewrite (proj2 Hsame).
Qed.

(** One list of chains: the fetcher of deployed verifiers has a 20-byte address, the
    same for every certificate version, exactly for mainnet, Sepolia, Holesky and the
    devnet, and those are exactly the chains for which the verifiers have chain
    specifications; for every other chain the fetcher reports the unknown chain. *)
Theorem supported_chains_agree `{!Steel} (chain timestamp number : Z) (cert cert' : EigenDAVersionedCert) :
  if bool_decide (chain ∈ supported_chains) then
    ∃ addr, fetch_address DeployedByEigenLabs chain cert = Ok addr ∧ length addr = 20%nat ∧
      fetch_address DeployedByEigenLabs chain cert' = Ok addr ∧
      derive_chain_spec_id chain timestamp number ≠ Panic ∧
      derive_chain_spec_genesis_hash chain ≠ Panic ∧ SteelCC.chain_spec_for chain ≠ Panic ∧
      SteelCC.get_allowed_steel_spec_id chain ≠ Panic
  else
    fetch_address DeployedByEigenLabs chain cert = Err (UnknownL1ChainId chain) ∧
    derive_chain_spec_id chain timestamp number = Panic ∧
    derive_chain_spec_genesis_hash chain = Panic ∧ SteelCC.chain_spec_for chain = Panic ∧
    SteelCC.get_allowed_steel_spec_id chain = Panic.
Proof.
  assert (Hfetch : ∀ cert, fetch_address DeployedByEigenLabs chain cert =
    cert_verifier_address_abi_encode_interface chain) by (by intros []).
  case_bool_decide as Hin.
  - rewrite !Hfetch. unfold supported_chains in Hin. rewrite !elem_of_cons in Hin.
    destruct Hin as [->|[->|[->|[->|[]%elem_of_nil]]]]; by eexists.
  - rewrite Hfetch. unfold supported_chains in Hin. rewrite !not_elem_of_cons in Hin.
    destruct Hin as (Hm & Hs & Hh & Hd & _). by apply unsupported_chain.
Qed.
End claims.
