(* ===== verification/CanoeHostTheory.v ===== *)
(** * What canoe's provers hand to the guest

    The host makes the guest's checks before it starts a proof: what it writes for the
    sp1 guest is accepted by it, and the proof commits the journals that the verifier
    rebuilds; a status code that nobody knows stops the host where the guest goes on. *)

From S2P Require Export CanoeTheory CanoeHost.

Example parse_plain : parse_u64 "18446744073709551615" = Ok 18446744073709551615.
Proof. reflexivity. Qed.
Example parse_plus : parse_u64 "+7" = Ok 7.
Proof. reflexivity. Qed.
Example parse_large : parse_u64 "18446744073709551616" = Err "number too large to fit in target type"%string.
Proof. reflexivity. Qed.
Example parse_minus : parse_u64 "-1" = Err "invalid digit found in string"%string.
Proof. reflexivity. Qed.
Example parse_lone_plus : parse_u64 "+" = Err "invalid digit found in string"%string.
Proof. reflexivity. Qed.

Lemma mapM_outcome_total {A B} (f : A → outcome B) l :
  Forall (λ a, ∃ b, f a = Done b) l → ∃ bs, mapM_outcome f l = Done bs.
Proof.
  induction 1 as [|a l [b Hb] _ [bs IH]]; cbn [mapM_outcome]; [by eexists|].
  rewrite Hb, Done_bind, IH. by eexists.
Qed.

Lemma parse_u64_from_range acc s z :
  0 ≤ acc < 2 ^ 64 → parse_u64_from acc s = Ok z → 0 ≤ z < 2 ^ 64.
Proof.
  revert acc. induction s as [|c s IH]; intros acc Hacc; cbn [parse_u64_from]; [by intros [= <-]|].
  unfold ascii_digit. destruct (_ && _) eqn:Hd; [|done].
  apply andb_true_iff in Hd as [Hd0 _]. apply bool_decide_eq_true in Hd0.
  case_bool_decide; [|done]. apply IH. lia.
Qed.

Lemma parse_u64_range s z : parse_u64 s = Ok z → 0 ≤ z < 2 ^ 64.
Proof.
  unfold parse_u64. destruct (String.list_ascii_of_string s) as [|c l]; [done|].
  destruct (_ && _); by apply parse_u64_from_range.
Qed.

(** ** What the host libraries promise *)

(** A sketch remembers the calls that were made on it; the executor of a finalised
    sketch is at the sketch's block and chain, and answers those calls alike, anchored to
    the block hash of the sketch's header. *)
Class Sp1HostLaws `{!Sp1, !Sp1Host W} := {
  sketch_calls : EvmSketch → list (Address * checkDACertCall * Bytes);
  sketch_number : EvmSketch → Z;
  sketch_rsp_genesis : EvmSketch → RspGenesis;
  rsp_genesis_chain : RspGenesis → Z;
  EvmSketch_build_law number genesis w sketch w' :
    EvmSketch_build number genesis w = Done (Ok sketch, w') →
    sketch_number sketch = number ∧ sketch_rsp_genesis sketch = genesis;
  call_raw_law sketch a caller call w out sketch' w' :
    call_raw sketch a caller call w = Done (Ok (out, sketch'), w') →
    sketch_calls sketch' = sketch_calls sketch ++ [(a, call, out)] ∧
    sketch_number sketch' = sketch_number sketch ∧
    sketch_rsp_genesis sketch' = sketch_rsp_genesis sketch ∧
    anchor_header_hash sketch' = anchor_header_hash sketch;
  finalize_law sketch w input w' :
    finalize sketch w = Done (Ok input, w') →
    sketch_genesis input = sketch_rsp_genesis sketch ∧
    ∃ ex, ClientExecutor_eth input = Ok ex ∧ executor_header_number ex = sketch_number sketch ∧
      executor_chain_id ex = rsp_genesis_chain (sketch_rsp_genesis sketch) ∧
      Forall (λ '(a, call, out), ∃ ty cfg,
        execute ex a (zeros 20) call = Ok (out, anchor_header_hash sketch, ty, cfg) ∧
        anchor_is_block_hash ty = true) (sketch_calls sketch);
  RspGenesis_try_from_chain chain genesis :
    RspGenesis_try_from chain = Ok genesis → rsp_genesis_chain genesis = chain;
  HOLESKY_chain genesis : Genesis_Custom_from_str HOLESKY_GENESIS = Ok genesis →
    rsp_genesis_chain genesis = 17000;
  KURTOSIS_chain genesis : Genesis_Custom_from_str KURTOSIS_DEVNET_GENESIS = Ok genesis →
    rsp_genesis_chain genesis = 3151908;
}.

(** Executing or proving the guest on what the host wrote gives the bytes that the guest
    commits, and a mock proof has the public values it is made with. *)
Class Sp1ProverLaws `{!Alloy, !SolEncoding, !Sp1, !Sp1Host W} := {
  public_values : SP1ProofWithPublicValues → Bytes;
  execute_ELF_law client stdin input bytes w r w' :
    bincode_serialize_sketch input = Ok (stdin_sketch stdin) →
    Sp1CC.guest_main input (stdin_inputs stdin) = Done bytes →
    execute_ELF client stdin w = Done (Ok r, w') → r = bytes;
  prove_compressed_law client pk stdin request input bytes w proof w' :
    bincode_serialize_sketch input = Ok (stdin_sketch stdin) →
    Sp1CC.guest_main input (stdin_inputs stdin) = Done bytes →
    prove_compressed client pk stdin request w = Done (Ok proof, w') → public_values proof = bytes;
  mock_proof_law pk bytes : public_values (create_mock_proof pk bytes) = bytes;
}.

(** The chain configuration that sp1-cc commits (canoe/sp1-cc/verifier/src/lib.rs describes
    it at [hash_chain_config]): the chain id and the name of the fork that sp1-cc has active
    at the executor's header for the sketch's genesis. *)
Class Sp1ConfigLaws `{!Alloy, !Sp1} := {
  executor_header_timestamp : ClientExecutor → Z;
  sp1_active_fork : RspGenesis → Z → Z → string;
  execute_config_law sketch ex a caller call out h ty cfg :
    ClientExecutor_eth sketch = Ok ex → execute ex a caller call = Ok (out, h, ty, cfg) →
    cfg = Sp1CC.hash_chain_config (executor_chain_id ex)
      (sp1_active_fork (sketch_genesis sketch) (executor_header_timestamp ex) (executor_header_number ex));
}.

Section sp1_host.
Context `{!Alloy, !SolEncoding, !Reth, !Sp1, !Sp1Host W, !Sp1HostLaws, !Sp1ProverLaws}.
Implicit Types w : W.

Lemma host_genesis_chain chain genesis :
  Sp1Host.host_genesis chain = Done genesis → rsp_genesis_chain genesis = chain.
Proof.
  unfold Sp1Host.host_genesis. destruct (RspGenesis_try_from chain) as [g|e] eqn:Hg.
  { intros [= <-]. by apply RspGenesis_try_from_chain. }
  clear Hg. destruct (decide (chain = 17000)) as [->|Hh].
  { intros Hc%expect_Done. by apply HOLESKY_chain. }
  destruct (decide (chain = 3151908)) as [->|Hk].
  { intros Hc%expect_Done. by apply KURTOSIS_chain. }
  destruct chain as [|p|p]; [done| |done].
  do 23 (try destruct p as [p|p|]; try done).
Qed.

(** What the loop of calls has established for an input. *)
Definition called (sketch : EvmSketch) (i : CanoeInput) : Prop :=
  ∃ call out returns, CertVerifierCall_build (ci_altda_commitment i) = ABIEncodeInterface call ∧
    (ci_verifier_address i, call, out) ∈ sketch_calls sketch ∧
    abi_decode_StatusCode out = Some returns ∧
    ci_claimed_validity i = bool_decide (returns = Sol.SUCCESS).

Lemma preflight_Ok inputs sketch w sketch' w' :
  Sp1Host.preflight inputs sketch w = Done (Ok sketch', w') →
  Forall (called sketch') inputs ∧ sketch_calls sketch `prefix_of` sketch_calls sketch' ∧
  sketch_number sketch' = sketch_number sketch ∧
  sketch_rsp_genesis sketch' = sketch_rsp_genesis sketch ∧
  anchor_header_hash sketch' = anchor_header_hash sketch.
Proof.
  revert sketch w. induction inputs as [|i inputs IH]; intros sketch w; cbn [Sp1Host.preflight].
  { intros [= <- <-]. split_and!; by try constructor. }
  destruct (CertVerifierCall_build _) as [call] eqn:Hcall.
  intros ([out sketch1] & w1 & Hr & Hp)%try_bind_Ok_inv.
  destruct (call_raw_law _ _ _ _ _ _ _ _ Hr) as (Hcalls & Hn & Hg & Ha).
  destruct (abi_decode_StatusCode out) as [returns|] eqn:Hd; [|done].
  case_bool_decide as Hclaim; [done|].
  destruct (IH _ _ Hp) as (Hall & Hpre & Hn' & Hg' & Ha').
  split_and!; [|etransitivity; [|exact Hpre]; rewrite Hcalls; by apply prefix_app_r|congruence..].
  constructor; [|done]. exists call, out, returns. split_and!; [done| |done|congruence].
  eapply elem_of_prefix; [|exact Hpre]. rewrite Hcalls. set_solver.
Qed.

(** A successful [canoe_proof_stdin], taken apart. *)
Lemma canoe_proof_stdin_Ok inputs w stdin w' :
  Sp1Host.canoe_proof_stdin inputs w = Done (Ok stdin, w') →
  ∃ first rest sketch input, inputs = first :: rest ∧ stdin_inputs stdin = inputs ∧
    bincode_serialize_sketch input = Ok (stdin_sketch stdin) ∧
    forM_outcome (same_anchor (ci_l1_chain_id first) (ci_l1_head_block_number first)
      (ci_l1_head_block_hash first)) inputs = Done tt ∧
    Forall (called sketch) inputs ∧ sketch_number sketch = ci_l1_head_block_number first ∧
    rsp_genesis_chain (sketch_rsp_genesis sketch) = ci_l1_chain_id first ∧
    Sp1Host.host_genesis (ci_l1_chain_id first) = Done (sketch_rsp_genesis sketch) ∧
    anchor_header_hash sketch = ci_l1_head_block_hash first ∧
    ∃ w1 w2, finalize sketch w1 = Done (Ok input, w2).
Proof.
  unfold Sp1Host.canoe_proof_stdin. destruct inputs as [|first rest]; [done|].
  intros ([] & Hsame & Hin)%lift_bind_Done_inv.
  apply lift_bind_Done_inv in Hin as (genesis & Hg & Hin).
  apply try_bind_Ok_inv in Hin as (sketch & w1 & Hbuild & Hin).
  destruct (EvmSketch_build_law _ _ _ _ _ Hbuild) as [Hn Hgs].
  apply lift_bind_Done_inv in Hin as (u & Hhash%assert_Done%bool_decide_eq_true & Hin).
  apply try_bind_Ok_inv in Hin as (sketch' & w2 & Hpre & Hin).
  destruct (preflight_Ok _ _ _ _ _ Hpre) as (Hall & _ & Hn' & Hg' & Ha').
  apply try_bind_Ok_inv in Hin as (input & w3 & Hfin & Hin).
  apply lift_bind_Done_inv in Hin as (bytes & Hbin%expect_Done & [= <- _]).
  exists first, rest, sketch', input.
  split_and!; try congruence; [done|done| |by eexists _, _].
  rewrite Hg', Hgs. by apply host_genesis_chain.
Qed.

Lemma called_guest_journal sketch input ex chain number gen i :
  ClientExecutor_eth input = Ok ex →
  Forall (λ '(a, call, out), ∃ ty cfg,
    execute ex a (zeros 20) call = Ok (out, anchor_header_hash sketch, ty, cfg) ∧
    anchor_is_block_hash ty = true) (sketch_calls sketch) →
  called sketch i →
  ∃ j, Sp1CC.guest_journal ex chain number (anchor_header_hash sketch) gen i = Done j.
Proof.
  intros _ Hex (call & out & returns & Hcall & Hin & Hd & Hclaim).
  rewrite Forall_forall in Hex. destruct (Hex _ Hin) as (ty & cfg & Hrun & Hty).
  unfold Sp1CC.guest_journal. rewrite Hcall, Hrun. cbn [expect]. rewrite Done_bind, Hd, Hty.
  cbn [assert]. rewrite Done_bind, (bool_decide_true _ Hclaim), (bool_decide_true _ eq_refl). cbn [assert].
  rewrite !Done_bind. by eexists.
Qed.

(** The guest runs to the end on what the host wrote for it. *)
Lemma stdin_accepted inputs w stdin w' :
  Sp1Host.canoe_proof_stdin inputs w = Done (Ok stdin, w') →
  ∃ first rest input ex bytes, inputs = first :: rest ∧ stdin_inputs stdin = inputs ∧
    bincode_serialize_sketch input = Ok (stdin_sketch stdin) ∧
    Sp1Host.host_genesis (ci_l1_chain_id first) = Done (sketch_genesis input) ∧
    ClientExecutor_eth input = Ok ex ∧ executor_header_number ex = ci_l1_head_block_number first ∧
    executor_chain_id ex = ci_l1_chain_id first ∧ Sp1CC.guest_main input inputs = Done bytes.
Proof.
  intros (first & rest & sketch & input & -> & Hin & Hbin & Hsame & Hall & Hn & Hch & Hg & Ha &
    w1 & w2 & Hfin)%canoe_proof_stdin_Ok.
  destruct (finalize_law _ _ _ _ Hfin) as (Hgen & ex & Hex & Hexn & Hexc & Hcalls).
  destruct (mapM_outcome_total (Sp1CC.guest_journal ex (executor_chain_id ex)
    (ci_l1_head_block_number first) (ci_l1_head_block_hash first)
    (keccak256 (bincode_genesis (sketch_genesis input)))) (first :: rest)) as [js Hjs].
  { eapply Forall_impl; [exact Hall|]. intros i Hi. rewrite <-Ha. by eapply called_guest_journal. }
  exists first, rest, input, ex, (bincode_journals js). split_and!; try congruence; try done.
  unfold Sp1CC.guest_main. rewrite Hsame, Done_bind, Hex. cbn [expect]. rewrite Done_bind.
  rewrite Hexn, Hn, Hexc, Hch, !bool_decide_true by done. cbn [assert]. rewrite !Done_bind.
  by rewrite <-Hch, <-Hexc, Hjs.
Qed.

Lemma generate_canoe_proof_Ok stdin mock input bytes w proof w' :
  bincode_serialize_sketch input = Ok (stdin_sketch stdin) →
  Sp1CC.guest_main input (stdin_inputs stdin) = Done bytes →
  Sp1Host.generate_canoe_proof stdin mock w = Done (Ok proof, w') → public_values proof = bytes.
Proof.
  intros Hbin Hrun (strategy & w1 & _ & Hg)%try_bind_Ok_inv.
  apply try_bind_Ok_inv in Hg as (mode & w2 & _ & Hg).
  apply M_bind_Done_inv in Hg as (client & w3 & _ & Hg).
  apply M_bind_Done_inv in Hg as (pk & w4 & _ & Hg).
  apply lift_bind_Done_inv in Hg as (key & _ & Hg). destruct mock.
  - apply M_bind_Done_inv in Hg as (r & w5 & Hr & Hg).
    apply lift_bind_Done_inv in Hg as (values & ->%expect_Done & [= <- _]).
    rewrite mock_proof_law. by eapply execute_ELF_law.
  - do 3 apply try_bind_Ok_inv in Hg as (? & ? & _ & Hg).
    apply lift_bind_Done_inv in Hg as (request & _ & Hg).
    apply M_bind_Done_inv in Hg as (r & w5 & Hr & Hg).
    apply lift_bind_Done_inv in Hg as (? & ->%expect_Done & [= <- _]).
    by eapply prove_compressed_law.
Qed.

Lemma sp1_create_proof_Ok inputs prov proof prov' :
  sp1_create_proof inputs prov = Done (Some (Ok proof), prov') →
  ∃ first rest input ex, inputs = first :: rest ∧ ClientExecutor_eth input = Ok ex ∧
    Sp1Host.host_genesis (ci_l1_chain_id first) = Done (sketch_genesis input) ∧
    executor_header_number ex = ci_l1_head_block_number first ∧
    executor_chain_id ex = ci_l1_chain_id first ∧
    Sp1CC.guest_main input inputs = Done (public_values proof).
Proof.
  unfold sp1_create_proof. case_bool_decide; [done|].
  intros (s & w1 & [= <- <-] & Hz)%M_bind_Done_inv.
  apply M_bind_Done_inv in Hz as (r & w2 & Hz & [= -> _]). unfold zoom in Hz.
  destruct (Sp1Host.get_sp1_cc_proof _ _ _) as [[r' w3]|] eqn:Hget; [|done]. injection Hz as -> _.
  unfold Sp1Host.get_sp1_cc_proof in Hget.
  apply try_bind_Ok_inv in Hget as (stdin & w4 & Hstdin & Hgen).
  apply stdin_accepted in Hstdin as (first & rest & input & ex & bytes & Hin & Hsi & Hbin & Hg & Hex &
    Hn & Hch & Hrun).
  rewrite <-Hsi in Hrun. pose proof (generate_canoe_proof_Ok _ _ _ _ _ _ _ Hbin Hrun Hgen) as <-.
  rewrite Hsi in Hrun. by exists first, rest, input, ex.
Qed.

(** Without a genesis for the chain the verifier cannot rebuild any journal. *)
Lemma no_genesis_no_journals p pairs e :
  RspGenesis_try_from (l1_chain_id p.2) = Err e → Sp1CC.to_journals_bytes (p :: pairs) = Panic.
Proof.
  destruct p as [c v]. cbn [snd]. intros He. unfold Sp1CC.to_journals_bytes. cbn [mapM_outcome].
  unfold Sp1CC.to_journal, Sp1CC.rsp_genesis_hash. rewrite He.
  by destruct (Sp1CC.derive_chain_config_hash _ _ _).
Qed.

(** Nor without a chain specification of reth's. *)
Lemma no_spec_no_journals p pairs :
  derive_chain_spec_id (l1_chain_id p.2) (l1_head_block_timestamp p.2) (l1_head_block_number p.2) = Panic →
  Sp1CC.to_journals_bytes (p :: pairs) = Panic.
Proof.
  destruct p as [c v]. cbn [snd]. intros Hp. unfold Sp1CC.to_journals_bytes. cbn [mapM_outcome].
  unfold Sp1CC.to_journal, Sp1CC.derive_chain_config_hash. by rewrite Hp.
Qed.

(** The guest reads a status code that it does not know as a failure, and its comment says
    so; the host panics on it, so no proof of a claim of invalidity is ever started. *)
Lemma unrecognized_status_stops_host i rest sketch w call out sketch' w' ex ty cfg gen :
  CertVerifierCall_build (ci_altda_commitment i) = ABIEncodeInterface call →
  call_raw sketch (ci_verifier_address i) (zeros 20) call w = Done (Ok (out, sketch'), w') →
  abi_decode_StatusCode out = None → ci_claimed_validity i = false →
  execute ex (ci_verifier_address i) (zeros 20) call = Ok (out, ci_l1_head_block_hash i, ty, cfg) →
  anchor_is_block_hash ty = true →
  Sp1Host.preflight (i :: rest) sketch w = Panic ∧
  ∃ j, Sp1CC.guest_journal ex (ci_l1_chain_id i) (ci_l1_head_block_number i)
    (ci_l1_head_block_hash i) gen i = Done j ∧ Sol.output j = false.
Proof.
  intros Hcall Hraw Hd Hclaim Hex Hty. split.
  - cbn [Sp1Host.preflight]. rewrite Hcall. unfold try_bind. rewrite Hraw. by rewrite Hd.
  - unfold Sp1CC.guest_journal. rewrite Hcall, Hex. cbn [expect]. rewrite Done_bind, Hd, Hty.
    cbn [assert]. rewrite Done_bind, (bool_decide_true _ Hclaim), (bool_decide_true _ eq_refl).
    cbn [assert]. rewrite !Done_bind. by eexists.
Qed.
End sp1_host.

(** ** Properties *)

Section claims.
Context `{!Alloy, !AlloyLaws, !SolEncoding, !SolEncodingLaws, !Reth}.

(** C32: The host gives the guest only what the guest accepts: when canoe_proof_stdin
    returns, its first write is the encoding of a sketch, its second write is the inputs,
    and the guest run on the two finishes, so none of its assertions can stop a proof. *)
Theorem host_stdin_accepted `{!Sp1, !Sp1Host W, !Sp1HostLaws} (inputs : list CanoeInput)
    (w w' : W) (stdin : SP1Stdin)
    (Hstdin : Sp1Host.canoe_proof_stdin inputs w = Done (Ok stdin, w')) :
  stdin_inputs stdin = inputs ∧ ∃ input bytes,
    bincode_serialize_sketch input = Ok (stdin_sketch stdin) ∧
    Sp1CC.guest_main input inputs = Done bytes.
Proof.
  destruct (stdin_accepted _ _ _ _ Hstdin) as
    (first & rest & input & ex & bytes & _ & Hin & Hbin & _ & _ & _ & _ & Hrun).
  split; [done|]. by exists input, bytes.
Qed.

(** C10: A canoe proof is the proof of the witness's claims: when the sp1 provider proves
    the inputs made from recorded validities, the verifier in the zkVM checks the proof
    against the journals that it rebuilds from the witness's validities, and these are the
    proof's public values exactly if the chain configuration that sp1-cc commits at the L1
    head (the fork that sp1-cc has active there) is the one that the verifier derives from
    reth's; on a chain that rsp has no genesis for (the devnet, and Holesky, for which the
    host brings its own), or reth no specification, the verifier always panics.  Two facts
    on libraries: sp1-cc commits the hash of chain id and active fork, and the block hash
    determines the timestamp of the executor's header. *)
Theorem canoe_proof_matches_claims `{!CanoeVerifierAddressFetcher F,
      !Sp1, !Sp1Host W, !Sp1HostLaws, !Sp1ProverLaws, !Sp1ConfigLaws}
    (f : F) (validities : list (AltDACommitment * bool)) (hash : B256) (number ts chain : Z)
    (inputs : list CanoeInput) (pairs : list (AltDACommitment * CertValidity))
    (prov prov' : CanoeSp1CCProvider W) (proof : SP1ProofWithPublicValues)
    (Hinputs : from_eigenda_preimage_to_canoe_inputs validities f chain hash number = Ok inputs)
    (Hpairs : mapM_outcome (to_cert_validity f hash number ts chain) validities = Done pairs)
    (Hts : ∀ ex addr call out ty cfg, execute ex addr (zeros 20) call = Ok (out, hash, ty, cfg) →
      executor_header_timestamp ex = ts)
    (Hprove : create_certs_validity_proof inputs prov = Done (Some (Ok proof), prov')) :
  match RspGenesis_try_from chain, derive_chain_spec_id chain ts number with
  | Ok genesis, Done spec_id => ∃ bytes,
      to_journals_bytes {| sp1_zkvm := true |} pairs = Done bytes ∧
      (bytes = public_values proof ↔
        Sp1CC.hash_chain_config chain (sp1_active_fork genesis ts number) =
        Sp1CC.hash_chain_config chain (SpecId_to_string spec_id)) ∧
      ∀ receipt, validate_cert_receipt {| sp1_zkvm := true |} pairs receipt =
        (_ ← verify_sp1_proof Sp1CC.V_KEY (sha256 bytes); Done (Ok tt))
  | _, _ => ∀ receipt, validate_cert_receipt {| sp1_zkvm := true |} pairs receipt = Panic
  end.
Proof.
  apply sp1_create_proof_Ok in Hprove as (first & rest & input & ex & -> & Hex & Hgen & Hn & Hch & Hrun).
  pose proof Hinputs as Hall%canoe_inputs_Ok.
  inversion Hall as [|v i vs is' (_ & _ & _ & Hci & _ & Hni)]; subst i is' validities.
  rewrite Hci in Hch, Hgen. rewrite Hni in Hn.
  pose proof Hpairs as Hp%mapM_outcome_Done. inversion Hp as [|? p ? ps Hv]; subst pairs.
  assert (Hpc : l1_chain_id p.2 = chain ∧ l1_head_block_timestamp p.2 = ts ∧ l1_head_block_number p.2 = number).
  { unfold to_cert_validity in Hv. destruct v as [c b].
    apply outcome_bind_Done_inv in Hv as (a & _ & [= <-]). done. }
  destruct Hpc as (Hpc & Hpt & Hpn).
  cbn [to_journals_bytes validate_cert_receipt canoe_sp1_verifier].
  unfold Sp1CC.validate_cert_receipt, Sp1Host.host_genesis in *.
  rewrite bool_decide_false by done. cbn [negb assert sp1_zkvm]. rewrite Done_bind.
  destruct (RspGenesis_try_from chain) as [g|e] eqn:Hg;
    [|by rewrite (no_genesis_no_journals p ps e) by (by rewrite Hpc)].
  destruct (derive_chain_spec_id chain ts number) as [spec_id|] eqn:Hspec;
    [|by rewrite (no_spec_no_journals p ps) by (by rewrite Hpc, Hpt, Hpn)].
  injection Hgen as ->.
  destruct (honest_run f (v :: vs) hash number ts chain
    (Sp1CC.hash_chain_config chain (sp1_active_fork (sketch_genesis input) ts number))
    (Sp1CC.hash_chain_config chain (SpecId_to_string spec_id)) (first :: rest) (p :: ps) input ex
    (public_values proof)) as (bytes & Hb & Hsame); [done..| | | |done|].
  - intros addr call out ty cfg Hrun'. rewrite <-Hch, <-Hn, <-(Hts _ _ _ _ _ _ Hrun').
    by eapply execute_config_law.
  - unfold Sp1CC.derive_chain_config_hash. by rewrite Hspec.
  - unfold Sp1CC.rsp_genesis_hash. by rewrite Hg.
  - exists bytes. rewrite Hb, Done_bind. by split_and!.
Qed.
End claims.
