(* ===== verification/SteelHostTheory.v ===== *)
(** * What canoe's steel prover hands to the verifier

    A receipt that the steel provider returns has the journals that the verifier rebuilds,
    and it is for one of the four chains that both sides know. *)

From S2P Require Export CanoeHostTheory.

(** A receipt exists only for a run of the guest that finished, and has its journal. *)
Class SteelProverLaws `{!Alloy, !SolEncoding, !Reth, !Steel, !SteelHost W} := {
  steel_prove_law input inputs w receipt w' :
    steel_prove input inputs w = Done (Ok (Ok receipt), w') →
    SteelCC.guest_main input inputs = Done (receipt_journal_bytes receipt);
}.

(** The verifier accepts the fork that steel computes for a chain. *)
Definition fork_accepted `{!Reth, !Steel} (chain ts number : Z) (fork : string) : Prop :=
  ∃ spec_id, derive_chain_spec_id chain ts number = Done spec_id ∧
    (fork = SpecId_to_string spec_id ∨ fork = PRAGUE ∨ fork = OSAKA).

Section lemmas.
Context `{!Alloy, !AlloyLaws, !SolEncoding, !SolEncodingLaws, !Reth, !Steel}.

Lemma steel_chain_known chain spec :
  SteelCC.chain_spec_for chain = Done spec →
  chain ∈ supported_chains ∧ SteelCC.get_allowed_steel_spec_id chain = Done [PRAGUE; OSAKA].
Proof.
  intros Hspec. unfold supported_chains. rewrite !elem_of_cons.
  destruct (decide (chain = 1)) as [->|]; [by auto|].
  destruct (decide (chain = 11155111)) as [->|]; [by auto|].
  destruct (decide (chain = 17000)) as [->|]; [by auto|].
  destruct (decide (chain = 3151908)) as [->|]; [by auto 7|].
  destruct (unsupported_chain chain 0 0) as (_ & _ & _ & Hp & _); try done. congruence.
Qed.

Lemma steel_honest_journal env chain number hash ts spec fork i p :
  SteelCC.chain_spec_for chain = Done spec → active_fork spec number ts = Ok fork →
  fork_accepted chain ts number (SteelSpecId_to_string fork) →
  ci_altda_commitment i = p.1 → ci_claimed_validity i = claimed_validity p.2 →
  ci_verifier_address i = verifier_address p.2 → l1_chain_id p.2 = chain →
  l1_head_block_hash p.2 = hash → l1_head_block_number p.2 = number →
  l1_head_block_timestamp p.2 = ts →
  ∀ j, SteelCC.guest_journal env chain number hash
      (keccak256 (SteelCC.string_bytes (SteelSpecId_to_string fork))) i = Done j →
    SteelCC.to_journal p = Done j.
Proof.
  destruct p as [c v]. cbn [fst snd]. intros Hspec Hfork (spec_id & Hid & Hacc) Hc Hv Ha Hch Hh Hn Ht j.
  unfold SteelCC.guest_journal. destruct (CertVerifierCall_build _) as [call].
  intros (status & _ & Hj)%outcome_bind_Done_inv. apply bind_assert_Done in Hj as [_ Hj].
  apply bind_assert_Done in Hj as [Hcl [= <-]]. apply bool_decide_eq_true in Hcl.
  unfold SteelCC.to_journal, SteelCC.get_steel_active_fork.
  rewrite Hch, Ht, Hn, Hspec, Done_bind, Hfork. cbn [expect]. rewrite !Done_bind, Hid, Done_bind.
  destruct (steel_chain_known chain spec Hspec) as [_ Hallow]. rewrite Hallow.
  assert (Hallowed : (if bool_decide (SteelSpecId_to_string fork ≠ SpecId_to_string spec_id) then
      allowed ← Done [PRAGUE; OSAKA]; assert (bool_decide (SteelSpecId_to_string fork ∈ allowed))
    else Done tt) = Done tt).
  { destruct (bool_decide (SteelSpecId_to_string fork ≠ _)) eqn:Hne; [|done]. apply bool_decide_eq_true in Hne. rewrite Done_bind. apply assert_Done, bool_decide_eq_true.
    destruct Hacc as [|[-> | ->]]; [done|set_solver..]. }
  rewrite Hallowed, Done_bind. by rewrite Hc, Ha, Hh, <-Hv, Hcl.
Qed.

Context `{!CanoeVerifierAddressFetcher F}.

(** A run of the guest on the inputs of validities knows the chain and its active fork. *)
Lemma steel_run_fork (f : F) validities hash number ts chain inputs input bytes :
  from_eigenda_preimage_to_canoe_inputs validities f chain hash number = Ok inputs →
  (∀ spec env, into_env input spec = Done env → header_seal env = hash → header_timestamp env = ts) →
  SteelCC.guest_main input inputs = Done bytes →
  validities ≠ [] ∧ ∃ spec fork env js, SteelCC.chain_spec_for chain = Done spec ∧
    active_fork spec number ts = Ok fork ∧
    mapM_outcome (SteelCC.guest_journal env chain number hash
      (keccak256 (SteelCC.string_bytes (SteelSpecId_to_string fork)))) inputs = Done js ∧
    bytes = bincode_journals js.
Proof.
  intros Hinputs%canoe_inputs_Ok Hts Hrun.
  unfold SteelCC.guest_main in Hrun. destruct inputs as [|first rest]; [done|].
  split; [by intros ->; inversion Hinputs|].
  assert (Hanchor : ci_l1_chain_id first = chain ∧ ci_l1_head_block_hash first = hash ∧
    ci_l1_head_block_number first = number).
  { by inversion Hinputs as [|?? ? ? (_ & _ & _ & ? & ? & ?)]. }
  destruct Hanchor as (Hch & Hh & Hn). rewrite Hch, Hh, Hn in Hrun.
  apply outcome_bind_Done_inv in Hrun as (u & _ & Hrun).
  apply outcome_bind_Done_inv in Hrun as (spec & Hspec & Hrun).
  apply outcome_bind_Done_inv in Hrun as (env & Henv & Hrun).
  apply outcome_bind_Done_inv in Hrun as (fork & Hfork%expect_Done & Hrun).
  apply bind_assert_Done in Hrun as [_ Hrun].
  apply outcome_bind_Done_inv in Hrun as (js & Hjs & [= <-]).
  assert (Hseal : header_seal env = hash).
  { pose proof Hjs as Hall%mapM_outcome_Done. inversion Hall as [|? j ? ? Hj]; subst.
    by apply steel_guest_journal_Done in Hj as (_ & ? & _). }
  rewrite (Hts _ _ Henv Hseal) in Hfork. by exists spec, fork, env, js.
Qed.

Lemma active_fork_known chain spec number ts fork :
  SteelCC.chain_spec_for chain = Done spec → active_fork spec number ts = Ok fork →
  SteelCC.get_steel_active_fork chain ts number = Done (SteelSpecId_to_string fork).
Proof. intros Hspec Hfork. unfold SteelCC.get_steel_active_fork. by rewrite Hspec, Done_bind, Hfork. Qed.

(** The whole run of the guest, on the inputs and the claims of the same validities. *)
Lemma steel_honest_run (f : F) validities hash number ts chain inputs pairs input bytes :
  from_eigenda_preimage_to_canoe_inputs validities f chain hash number = Ok inputs →
  mapM_outcome (to_cert_validity f hash number ts chain) validities = Done pairs →
  (∀ spec env, into_env input spec = Done env → header_seal env = hash → header_timestamp env = ts) →
  (∀ fork, SteelCC.get_steel_active_fork chain ts number = Done fork →
    fork_accepted chain ts number fork) →
  SteelCC.guest_main input inputs = Done bytes →
  chain ∈ supported_chains ∧ SteelCC.to_journals_bytes pairs = Done bytes.
Proof.
  intros Hinputs Hpairs Hts Hacc Hrun.
  destruct (steel_run_fork _ _ _ _ _ _ _ _ _ Hinputs Hts Hrun)
    as (_ & spec & fork & env & js & Hspec & Hfork & Hjs & ->).
  split; [by eapply steel_chain_known|].
  apply canoe_inputs_Ok in Hinputs. rewrite mapM_outcome_Done in Hpairs.
  pose proof (Hacc _ (active_fork_known _ _ _ _ _ Hspec Hfork)) as Hok. unfold SteelCC.to_journals_bytes.
  assert (Hboth : mapM_outcome SteelCC.to_journal pairs = Done js); [|by rewrite Hboth].
  eapply Forall2_func_l; [|exact Hjs]. clear Hjs Hrun. revert pairs Hpairs.
  induction Hinputs as [|[c b] i vs is' Hi _ IH]; intros pairs Hpairs;
    inversion Hpairs as [|? p ? pairs' Hp Hpairs']; subst pairs; [constructor|constructor; [|by apply IH]].
  cbn [fst snd] in Hi. destruct Hi as (? & ? & Ha & ? & ? & ?).
  unfold to_cert_validity in Hp. rewrite Ha in Hp. cbn [expect] in Hp. rewrite Done_bind in Hp.
  injection Hp as <-. by eapply steel_honest_journal.
Qed.

(** With a fork that it does not accept, the verifier rebuilds no journal. *)
Lemma stale_fork_no_journals chain ts number fork p pairs :
  SteelCC.get_steel_active_fork chain ts number = Done fork → chain ∈ supported_chains →
  ¬ fork_accepted chain ts number fork →
  l1_chain_id p.2 = chain → l1_head_block_timestamp p.2 = ts → l1_head_block_number p.2 = number →
  SteelCC.to_journals_bytes (p :: pairs) = Panic.
Proof.
  destruct p as [c v]. cbn [snd]. intros Hfork Hchain Hstale Hc Ht Hn.
  unfold SteelCC.to_journals_bytes. cbn [mapM_outcome]. unfold SteelCC.to_journal.
  rewrite Hc, Ht, Hn, Hfork, Done_bind.
  destruct (derive_chain_spec_id chain ts number) as [spec_id|] eqn:Hid; [|done]. rewrite Done_bind.
  assert (Hallow : SteelCC.get_allowed_steel_spec_id chain = Done [PRAGUE; OSAKA]).
  { unfold supported_chains in Hchain. rewrite !elem_of_cons in Hchain.
    by destruct Hchain as [->|[->|[->|[->|[]%elem_of_nil]]]]. }
  rewrite Hallow. rewrite bool_decide_true; [|intros ->; apply Hstale; exists spec_id; by auto].
  rewrite Done_bind, bool_decide_false; [done|]. rewrite !elem_of_cons. intros Hin. apply Hstale.
  exists spec_id. split; [done|right]. by destruct Hin as [->|[->|[]%elem_of_nil]]; [left|right].
Qed.

(** The claims of validities at an L1 head are for that head. *)
Definition at_head (ts number chain : Z) (p : AltDACommitment * CertValidity) : Prop :=
  l1_chain_id p.2 = chain ∧ l1_head_block_timestamp p.2 = ts ∧ l1_head_block_number p.2 = number.

Lemma claims_at_head (f : F) hash number ts chain validities pairs :
  mapM_outcome (to_cert_validity f hash number ts chain) validities = Done pairs →
  Forall (at_head ts number chain) pairs ∧ length pairs = length validities.
Proof.
  intros Hall%mapM_outcome_Done. split; [|by apply symmetry, (Forall2_length _ _ _ Hall)].
  induction Hall as [|[c b] p vs ps Hp _ IH]; constructor; [|done].
  unfold to_cert_validity in Hp. by apply outcome_bind_Done_inv in Hp as (addr & _ & [= <-]).
Qed.

(** [CanoeSteelVerifier] refuses the devnet. *)
Lemma devnet_refused ts number chain pairs :
  Forall (at_head ts number chain) pairs → pairs ≠ [] →
  forM_outcome (λ pair : AltDACommitment * CertValidity,
    assert (negb (bool_decide (l1_chain_id pair.2 = 3151908)))) pairs =
  if bool_decide (chain = 3151908) then Panic else Done tt.
Proof.
  intros Hall Hne. case_bool_decide as Hc.
  - destruct Hall as [|p pairs (Hp & _) _]; [done|]. cbn [forM_outcome]. by rewrite Hp, Hc.
  - apply forM_outcome_Done. eapply Forall_impl; [exact Hall|]. intros p (Hp & _).
    by rewrite Hp, bool_decide_false.
Qed.

#[export] Instance fork_accepted_dec chain ts number fork : Decision (fork_accepted chain ts number fork).
Proof.
  unfold fork_accepted. destruct (derive_chain_spec_id chain ts number) as [spec_id|].
  - destruct (decide (fork = SpecId_to_string spec_id ∨ fork = PRAGUE ∨ fork = OSAKA)) as [Hok|Hno].
    + left. by exists spec_id.
    + right. by intros (? & [= <-] & ?).
  - right. by intros (? & ? & _).
Defined.

Lemma steel_create_proof_Ok `{!SteelHost W, !SteelProverLaws} inputs (prov prov' : CanoeSteelProvider W) receipt :
  steel_create_proof inputs prov = Done (Some (Ok receipt), prov') →
  ∃ input, SteelCC.guest_main input inputs = Done (receipt_journal_bytes receipt).
Proof.
  unfold steel_create_proof. case_bool_decide; [done|].
  intros (s & w1 & [= <- <-] & Hz)%M_bind_Done_inv.
  apply M_bind_Done_inv in Hz as (r & w2 & Hz & [= -> _]). unfold zoom in Hz.
  destruct (SteelHost.get_steel_proof _ _ _) as [[r' w3]|] eqn:Hget; [|done]. injection Hz as -> _.
  unfold SteelHost.get_steel_proof in Hget. destruct inputs as [|first rest]; [done|].
  apply lift_bind_Done_inv in Hget as (u & _ & Hget).
  apply try_bind_Ok_inv in Hget as (url & w4 & _ & Hget).
  apply try_bind_Ok_inv in Hget as (env & w5 & _ & Hget).
  apply lift_bind_Done_inv in Hget as (u' & _ & Hget).
  apply try_bind_Ok_inv in Hget as (env' & w6 & _ & Hget).
  apply try_bind_Ok_inv in Hget as (input & w7 & _ & Hget).
  apply try_bind_Ok_inv in Hget as (r & w8 & Hprove & [= Hr _]).
  destruct r as [receipt'|e]; [|done]. injection Hr as ->. exists input.
  by eapply steel_prove_law.
Qed.
End lemmas.

(** ** Properties *)

Section claims.
Context `{!Alloy, !AlloyLaws, !SolEncoding, !SolEncodingLaws, !Reth}.

(** C11: A steel receipt proves the witness's claims: when the steel provider proves the
    inputs made from recorded validities, the chain is one of the four that both sides know
    and steel knows its active fork at the L1 head.  If the verifier accepts that fork (it
    is reth's, or one of the two newest), the receipt's journal is exactly what the verifier
    rebuilds from the witness's validities with the same L1 head; outside the zkVM the
    verifier for devnet testing then accepts every encoding of the receipt that risc0
    verifies, and CanoeSteelVerifier accepts it on every chain but the devnet 3151908,
    where it panics.  If the fork is a stale one, both verifiers panic on every proof.  The
    block hash is assumed to determine the header's timestamp. *)
Theorem steel_proof_matches_claims `{!CanoeVerifierAddressFetcher F, !Steel, !SteelHost W, !SteelProverLaws}
    (f : F) (validities : list (AltDACommitment * bool)) (hash : B256) (number ts chain : Z)
    (inputs : list CanoeInput) (pairs : list (AltDACommitment * CertValidity))
    (prov prov' : CanoeSteelProvider W) (receipt : SteelReceipt)
    (Hinputs : from_eigenda_preimage_to_canoe_inputs validities f chain hash number = Ok inputs)
    (Hpairs : mapM_outcome (to_cert_validity f hash number ts chain) validities = Done pairs)
    (Hts : ∀ input spec env, into_env input spec = Done env → header_seal env = hash →
      header_timestamp env = ts)
    (Hprove : create_certs_validity_proof inputs prov = Done (Some (Ok receipt), prov')) :
  chain ∈ supported_chains ∧ ∃ fork, SteelCC.get_steel_active_fork chain ts number = Done fork ∧
  ((fork_accepted chain ts number fork ∧
    SteelCC.to_journals_bytes pairs = Done (receipt_journal_bytes receipt) ∧
    ∀ bytes, receipt_from_slice bytes = Ok receipt → receipt_verify receipt CERT_VERIFICATION_ID = Ok tt →
      validate_cert_receipt {| steel_devnet_zkvm := false |} pairs (Some bytes) = Done (Ok tt) ∧
      validate_cert_receipt {| steel_zkvm := false |} pairs (Some bytes) =
        if bool_decide (chain = 3151908) then Panic else Done (Ok tt)) ∨
   (¬ fork_accepted chain ts number fork ∧ ∀ proof zkvm,
      validate_cert_receipt {| steel_devnet_zkvm := zkvm |} pairs proof = Panic ∧
      validate_cert_receipt {| steel_zkvm := zkvm |} pairs proof = Panic)).
Proof.
  destruct (steel_create_proof_Ok _ _ _ _ Hprove) as [input Hrun].
  destruct (steel_run_fork _ _ _ _ _ _ _ _ _ Hinputs (Hts input) Hrun)
    as (Hne & spec & fork & env & js & Hspec & Hfork & _).
  destruct (claims_at_head _ _ _ _ _ _ _ Hpairs) as [Hhead Hlen].
  assert (Hpne : pairs ≠ []) by (intros ->; destruct validities; done).
  pose proof (proj1 (steel_chain_known _ _ Hspec)) as Hchain.
  pose proof (active_fork_known _ _ _ _ _ Hspec Hfork) as Hactive.
  split; [exact Hchain|]. exists (SteelSpecId_to_string fork). split; [exact Hactive|].
  unfold validate_cert_receipt, canoe_steel_devnet_verifier, canoe_steel_verifier,
    SteelCC.validate_cert_receipt_secure. cbn [steel_zkvm steel_devnet_zkvm].
  rewrite (devnet_refused _ _ _ _ Hhead Hpne).
  destruct (decide (fork_accepted chain ts number (SteelSpecId_to_string fork))) as [Hacc|Hstale];
    [left|right]; (split; [done|]).
  - destruct (steel_honest_run f validities hash number ts chain inputs pairs input
      (receipt_journal_bytes receipt) Hinputs Hpairs (Hts input)) as [_ Hbytes]; [|exact Hrun|].
    { intros fork'. rewrite Hactive. by intros [= <-]. }
    split; [exact Hbytes|]. intros bytes Hslice Hverify.
    assert (Haccept : SteelCC.validate_cert_receipt false pairs (Some bytes) = Done (Ok tt)).
    { unfold SteelCC.validate_cert_receipt. rewrite Hbytes, Done_bind, Hslice. cbn [map_err].
      rewrite Ok_bind, Hverify. cbn [map_err]. by rewrite Ok_bind, bool_decide_false by auto. }
    rewrite Haccept. split; [done|]. by case_bool_decide.
  - intros proof zkvm. destruct pairs as [|p pairs]; [done|].
    apply Forall_cons in Hhead as [(Hc & Ht & Hn) _].
    assert (Hrefuse : SteelCC.validate_cert_receipt zkvm (p :: pairs) proof = Panic).
    { unfold SteelCC.validate_cert_receipt.
      by rewrite (stale_fork_no_journals _ _ _ _ _ _ Hactive Hchain Hstale Hc Ht Hn). }
    rewrite Hrefuse. split; [done|]. by case_bool_decide.
Qed.
End claims.
