(* ===== verification/SepoliaExample.v ===== *)
(** * The canoe example on Sepolia (example/canoe-on-sepolia/src/main.rs)

    The example makes the input of a canoe proof from a certificate and the latest block of
    an Ethereum node, and checks the proof.  Its [main] builds a [CertValidity] without two
    of the fields that the verifier's struct has, so it is not modelled; its two functions
    are. *)

From S2P Require Export SteelHostTheory.

(** The node behind a URL, as alloy's provider sees it. *)
Class EthereumNode (W : Type) := {
  NodeUrl : Type;
  NodeUrl_from_str : string → result string NodeUrl;
  get_chain_id : NodeUrl → M W (result string Z);
  get_block_number : NodeUrl → M W (result string Z);
  NodeHeader : Type;
  (** the header of the block, by [into_consensus] *)
  get_block_by_number : NodeUrl → Z → M W (result string (option NodeHeader));
  hash_slow : NodeHeader → B256;
}.

Module SepoliaExample.
Section example.
Context `{!Alloy, !SolEncoding, !Reth, !Steel, !CanoeVerifierAddressFetcher F}.

Definition verify_canoe_proof (zkvm : bool) (cert_validity : CertValidity)
    (altda_commitment : AltDACommitment) (canoe_proof_bytes : Bytes) :
    outcome (result HokuleaCanoeVerificationError unit) :=
  let canoe_verifier := {| steel_zkvm := zkvm |} in
  validate_cert_receipt canoe_verifier [(altda_commitment, cert_validity)] (Some canoe_proof_bytes).

(** Errors are the texts of [anyhow]. *)
Definition get_canoe_input `{!EthereumNode W} (v2_cert_rlp_vec : Bytes) (validity : bool)
    (eth_rpc_url : string) (canoe_address_fetcher : F) : M W (result string CanoeInput) :=
  altda_commitment ← lift (expect (try_from v2_cert_rlp_vec));
  eth_rpc_url ← lift (expect (NodeUrl_from_str eth_rpc_url));
  provider_chain_id ← get_chain_id eth_rpc_url;
  provider_chain_id ← lift (expect provider_chain_id);
  if bool_decide (provider_chain_id ≠ 11155111) then panic
  else
    block_number ←? get_block_number eth_rpc_url;
    block_opt ←? get_block_by_number eth_rpc_url block_number;
    header ←? mret (match block_opt with
      | Some header => Ok header
      | None => Err ("block " +:+ display_uint block_number +:+ " not found")
      end);
    let l1_block_hash := hash_slow header in
    verifier_address ←? mret (map_err CanoeVerifierAddressFetcherError_display
      (fetch_address canoe_address_fetcher 11155111 (versioned_cert altda_commitment)));
    mret (Ok {|
      ci_altda_commitment := altda_commitment;
      ci_claimed_validity := validity;
      ci_l1_head_block_hash := l1_block_hash;
      ci_l1_head_block_number := block_number;
      ci_l1_chain_id := 11155111;
      ci_verifier_address := verifier_address;
    |}).

(** The input is the one that the library makes of the certificate with the claimed
    validity, at the head of Sepolia that the node has reported. *)
Theorem example_input_made `{!EthereumNode W} bs validity url f input w w' :
  get_canoe_input (W := W) bs validity url f w = Done (Ok input, w') →
  ∃ c node header number w1 w2, try_from bs = Ok c ∧ NodeUrl_from_str url = Ok node ∧
    get_block_by_number node number w1 = Done (Ok (Some header), w2) ∧
    from_eigenda_preimage_to_canoe_inputs [(c, validity)] f 11155111 (hash_slow header) number =
      Ok [input].
Proof.
  unfold get_canoe_input. intros (c & Hc%expect_Done & Hr)%lift_bind_Done_inv.
  apply lift_bind_Done_inv in Hr as (node & Hnode%expect_Done & Hr).
  apply M_bind_Done_inv in Hr as (chain & w1 & _ & Hr).
  apply lift_bind_Done_inv in Hr as (chain' & _ & Hr). case_bool_decide; [done|].
  apply try_bind_Ok_inv in Hr as (number & w2 & _ & Hr).
  apply try_bind_Ok_inv in Hr as (block & w3 & Hblock & Hr).
  apply try_bind_Ok_inv in Hr as (header & w4 & Hheader & Hr).
  apply try_bind_Ok_inv in Hr as (addr & w5 & Haddr & Hr).
  destruct block as [header'|]; [|done]. injection Hheader as -> <-. injection Hr as <- _.
  exists c, node, header, number, w2, w3. split_and!; [done..|].
  injection Haddr as Haddr _. destruct (fetch_address _ _ _) as [a|] eqn:Ha; [|done].
  injection Haddr as ->. unfold from_eigenda_preimage_to_canoe_inputs, to_canoe_input.
  cbn [mapM_result]. by rewrite Ha.
Qed.

(** A receipt that the steel provider makes of this input passes the example's check, for
    the validity that belongs to it, when risc0 verifies its encoding. *)
Theorem example_proof_verifies `{!AlloyLaws, !SolEncodingLaws, !EthereumNode W, !SteelHost WS,
      !SteelProverLaws}
    bs validity url (f : F) input (w w' : W) (prov prov' : CanoeSteelProvider WS) receipt bytes ts addr c
    (Hinput : get_canoe_input bs validity url f w = Done (Ok input, w'))
    (Hc : try_from bs = Ok c) (Haddr : fetch_address f 11155111 (versioned_cert c) = Ok addr)
    (Hts : ∀ evm spec env, into_env evm spec = Done env →
      header_seal env = ci_l1_head_block_hash input → header_timestamp env = ts)
    (Hfork : ∀ fork, SteelCC.get_steel_active_fork 11155111 ts (ci_l1_head_block_number input) = Done fork →
      fork_accepted 11155111 ts (ci_l1_head_block_number input) fork)
    (Hprove : create_certs_validity_proof [input] prov = Done (Some (Ok receipt), prov'))
    (Hslice : receipt_from_slice bytes = Ok receipt)
    (Hverify : receipt_verify receipt CERT_VERIFICATION_ID = Ok tt) :
  verify_canoe_proof false {|
      l1_head_block_hash := ci_l1_head_block_hash input; l1_chain_id := 11155111;
      l1_head_block_number := ci_l1_head_block_number input; l1_head_block_timestamp := ts;
      verifier_address := addr; claimed_validity := validity |} c bytes = Done (Ok tt).
Proof.
  destruct (example_input_made _ _ _ _ _ _ _ Hinput) as (c' & _ & header & number & _ & _ & Hc' & _ & _ & Hinputs).
  rewrite Hc in Hc'. injection Hc' as <-.
  pose proof Hinputs as [(_ & _ & _ & _ & Hh & Hn) _]%canoe_inputs_Ok%Forall2_cons.
  rewrite Hh, Hn in *.
  destruct (steel_create_proof_Ok _ _ _ _ Hprove) as [evm Hrun].
  destruct (steel_honest_run f [(c, validity)] (hash_slow header) number ts 11155111 [input]
    [(c, {| l1_head_block_hash := hash_slow header; l1_chain_id := 11155111; l1_head_block_number := number;
            l1_head_block_timestamp := ts; verifier_address := addr; claimed_validity := validity |})]
    evm (receipt_journal_bytes receipt)) as [_ Hbytes]; [done| |by apply Hts|done|done|].
  { cbn [mapM_outcome]. unfold to_cert_validity. rewrite Haddr. reflexivity. }
  unfold verify_canoe_proof, validate_cert_receipt, canoe_steel_verifier, SteelCC.validate_cert_receipt_secure.
  cbn [forM_outcome steel_zkvm]. unfold SteelCC.validate_cert_receipt.
  cbn [snd l1_chain_id]. rewrite Hbytes, Hslice. cbn [map_err]. rewrite !Done_bind.
  rewrite Ok_bind, Hverify. cbn [map_err]. by rewrite Ok_bind, bool_decide_false by auto.
Qed.
End example.
End SepoliaExample.
