(* ===== verification/CanoeWitnesses.v ===== *)
(** * Witnesses of canoe's properties

    Small instances of the libraries around one certificate: an encoding of journals
    that is injective, chain specifications with one fork, and executors over a state
    in which the verifier contract accepts. *)

From S2P Require Export DerivationTheory CanoeTheory.
Import Concrete.

(** ** Encodings *)

#[export] Instance Journal_eq_dec : EqDecision Sol.Journal.
Proof. solve_decision. Defined.

#[export] Instance Journal_countable : Countable Sol.Journal.
Proof.
  refine (inj_countable'
    (λ j, (Sol.certVerifierAddress j, Sol.input j, Sol.blockhash j, Sol.output j,
           Sol.blockNumber j, Sol.l1ChainId j, Sol.chainConfigHash j, Sol.chainSpecHash j))
    (λ '(a, i, h, o, n, c, g, s), {|
      Sol.certVerifierAddress := a; Sol.input := i; Sol.blockhash := h; Sol.output := o;
      Sol.blockNumber := n; Sol.l1ChainId := c; Sol.chainConfigHash := g; Sol.chainSpecHash := s |}) _).
  by intros [].
Defined.

Fixpoint positive_bytes (p : positive) : Bytes :=
  match p with xH => [] | xO p => x00 :: positive_bytes p | xI p => x01 :: positive_bytes p end.

#[export] Instance positive_bytes_inj : Inj (=) (=) positive_bytes.
Proof.
  intros p. induction p as [p IH|p IH|]; intros [q|q|]; simpl; intros Heq; try done;
    injection Heq as Heq; f_equal; by apply IH.
Qed.

#[export] Instance toy_sol : SolEncoding := {|
  abi_encode_v3 _ := [x03];
  abi_encode_v4 _ := [x04];
  abi_decode_StatusCode bs := match bs with [x01] => Some Sol.SUCCESS | _ => None end;
  bincode_journals js := positive_bytes (encode js);
|}.

#[export] Instance toy_sol_laws : SolEncodingLaws.
Proof. split. intros js js' Heq. apply (inj encode). by apply (inj positive_bytes). Qed.

#[export] Instance toy_reth : Reth := {|
  ChainSpec := Z;
  SpecId := string;
  SpecId_to_string s := s;
  MAINNET := 1; SEPOLIA := 11155111; HOLESKY := 17000;
  genesis_hash z := to_be_bytes 32 z;
  ChainSpecBuilder_build z _ := z;
  spec_by_timestamp_and_block_number _ _ _ := "Prague"%string;
|}.

(** ** One certificate, one claim *)

Definition l1_hash : B256 := repeat x2a 32.
Definition claim : CertValidity := {|
  claimed_validity := true; l1_head_block_hash := l1_hash; l1_head_block_number := 100;
  l1_head_block_timestamp := 7; l1_chain_id := 1;
  verifier_address := address "1be7258230250bc6a4548f8d59d576a87d216c12" |}.
Definition canoe_input : CanoeInput := {|
  ci_altda_commitment := good_cert; ci_claimed_validity := true; ci_l1_head_block_hash := l1_hash;
  ci_l1_head_block_number := 100; ci_l1_chain_id := 1;
  ci_verifier_address := address "1be7258230250bc6a4548f8d59d576a87d216c12" |}.
Definition claims : list (AltDACommitment * CertValidity) := [(good_cert, claim)].

Lemma good_cert_ok : commitment_ok good_cert.
Proof. split; vm_decide. Qed.

(** The journal of the claim, with the two hashes that the stacks fill differently. *)
Definition claim_journal (config spec : B256) : Sol.Journal := {|
  Sol.blockNumber := 100; Sol.certVerifierAddress := verifier_address claim;
  Sol.input := to_rlp_bytes good_cert; Sol.blockhash := l1_hash; Sol.output := true;
  Sol.l1ChainId := 1; Sol.chainConfigHash := config; Sol.chainSpecHash := spec |}.

(** ** sp1 *)

Definition toy_config (chain : Z) (fork : string) : Bytes :=
  to_be_bytes 8 chain ++ String.list_byte_of_string fork.
Definition sp1_journal_bytes : Bytes :=
  bincode_journals [claim_journal (keccak256 (toy_config 1 "Prague")) (keccak256 (to_be_bytes 8 1))].

#[export] Instance toy_sp1 : Sp1 := {|
  EvmSketchInput := unit;
  ClientExecutor := unit;
  ClientExecutor_eth := Ok;
  executor_header_number _ := 100;
  executor_chain_id _ := 1;
  AnchorType := unit;
  anchor_is_block_hash _ := true;
  execute _ _ _ _ := Ok ([x01], l1_hash, tt, keccak256 (toy_config 1 "Prague"));
  RspGenesis := Z;
  sketch_genesis _ := 1;
  RspGenesis_try_from := Ok;
  bincode_genesis := to_be_bytes 8;
  abi_encode_packed_config := toy_config;
  sha256 := toy_hash;
  verify_sp1_proof _ digest := assert (bool_decide (digest = toy_hash sp1_journal_bytes));
|}.

Lemma anchored : forM_outcome (same_anchor 1 100 l1_hash) [canoe_input] = Done tt.
Proof. vm_decide. Qed.

Lemma sp1_sample_journal gen :
  Sp1CC.guest_journal (tt : ClientExecutor) 1 100 l1_hash gen canoe_input =
  Done (claim_journal (keccak256 (toy_config 1 "Prague")) gen).
Proof.
  unfold Sp1CC.guest_journal. change (CertVerifierCall_build (ci_altda_commitment canoe_input))
    with (ABIEncodeInterface {| abiEncodedCert := [x04] |}).
  cbn [execute toy_sp1 expect ci_claimed_validity canoe_input]. rewrite Done_bind.
  change (abi_decode_StatusCode [x01]) with (Some Sol.SUCCESS).
  rewrite !bool_decide_true by reflexivity. cbn [assert anchor_is_block_hash]. by rewrite !Done_bind.
Qed.

Lemma sp1_guest_run : Sp1CC.guest_main tt [canoe_input] = Done sp1_journal_bytes.
Proof.
  unfold Sp1CC.guest_main.
  change (ci_l1_chain_id canoe_input) with 1. change (ci_l1_head_block_number canoe_input) with 100.
  change (ci_l1_head_block_hash canoe_input) with l1_hash.
  rewrite anchored, Done_bind. cbn [ClientExecutor_eth toy_sp1 expect]. rewrite Done_bind.
  cbn [executor_header_number executor_chain_id toy_sp1]. rewrite !bool_decide_true by reflexivity.
  cbn [assert]. rewrite !Done_bind. cbn [mapM_outcome]. rewrite sp1_sample_journal, !Done_bind.
  cbn [bincode_genesis sketch_genesis toy_sp1]. unfold sp1_journal_bytes. reflexivity.
Qed.

#[export] Instance toy_sp1_sound : Sp1Soundness.
Proof.
  split. intros digest u Hv. apply assert_Done, bool_decide_eq_true in Hv as ->.
  exists tt, [canoe_input], sp1_journal_bytes. split_and!; [exact sp1_guest_run|reflexivity|].
  repeat constructor; apply good_cert_ok.
Qed.

Lemma sp1_claim_journal :
  Sp1CC.to_journal (good_cert, claim) =
  Done (claim_journal (keccak256 (toy_config 1 "Prague")) (keccak256 (to_be_bytes 8 1))).
Proof.
  unfold Sp1CC.to_journal. change (Sp1CC.derive_chain_config_hash _ _ _)
    with (Done (keccak256 (toy_config 1 "Prague"))).
  change (Sp1CC.rsp_genesis_hash _) with (Done (keccak256 (to_be_bytes 8 1))). by rewrite !Done_bind.
Qed.

Lemma sp1_claims_bytes : Sp1CC.to_journals_bytes claims = Done sp1_journal_bytes.
Proof.
  unfold Sp1CC.to_journals_bytes, claims. cbn [mapM_outcome]. rewrite sp1_claim_journal, !Done_bind.
  unfold sp1_journal_bytes. reflexivity.
Qed.

Lemma sp1_accepts proof : validate_cert_receipt {| sp1_zkvm := true |} claims proof = Done (Ok tt).
Proof.
  unfold validate_cert_receipt, canoe_sp1_verifier, Sp1CC.validate_cert_receipt. cbn [sp1_zkvm].
  rewrite bool_decide_false by done. cbn [negb assert]. rewrite Done_bind, sp1_claims_bytes, Done_bind.
  cbn [verify_sp1_proof toy_sp1 sha256]. rewrite bool_decide_true by reflexivity. reflexivity.
Qed.

Lemma claims_ok : Forall (λ p, commitment_ok p.1) claims.
Proof. repeat constructor; apply good_cert_ok. Qed.

(** ** steel *)

Definition steel_journal_bytes : Bytes :=
  bincode_journals [claim_journal (keccak256 (SteelCC.string_bytes "Prague")) (zeros 32)].

Definition toy_verify (bytes : Bytes) : result string unit :=
  if bool_decide (bytes = steel_journal_bytes) then Ok tt else Err "invalid"%string.

Lemma toy_verified bytes : toy_verify bytes = Ok tt → bytes = steel_journal_bytes.
Proof. unfold toy_verify. generalize steel_journal_bytes. intros b. by case_bool_decide. Qed.

#[export] Instance toy_steel : Steel := {|
  SteelChainSpec := Z;
  ETH_MAINNET_CHAIN_SPEC := 1; ETH_SEPOLIA_CHAIN_SPEC := 11155111; ETH_HOLESKY_CHAIN_SPEC := 17000;
  EthChainSpec_new_single z := z;
  SteelSpecId := string;
  SteelSpecId_to_string s := s;
  active_fork _ _ _ := Ok "Prague"%string;
  EthEvmInput := unit;
  EvmEnv := unit;
  into_env _ _ := Done tt;
  header_number _ := 100;
  header_timestamp _ := 7;
  header_seal _ := l1_hash;
  contract_call _ _ _ := Done 1;
  PRAGUE := "Prague"; OSAKA := "Osaka";
  CERT_VERIFICATION_ID := [1];
  env_verify _ := toy_verify;
  SteelReceipt := Bytes;
  receipt_from_slice bytes := Ok bytes;
  receipt_verify bytes _ := toy_verify bytes;
  receipt_journal_bytes bytes := bytes;
|}.

Lemma steel_sample_journal config :
  SteelCC.guest_journal (tt : EvmEnv) 1 100 l1_hash config canoe_input =
  Done (claim_journal config (zeros 32)).
Proof.
  unfold SteelCC.guest_journal. change (CertVerifierCall_build (ci_altda_commitment canoe_input))
    with (ABIEncodeInterface {| abiEncodedCert := [x04] |}).
  cbn [contract_call toy_steel ci_claimed_validity canoe_input header_seal]. rewrite Done_bind.
  rewrite !bool_decide_true by reflexivity. cbn [assert]. by rewrite !Done_bind.
Qed.

Lemma steel_guest_run : SteelCC.guest_main tt [canoe_input] = Done steel_journal_bytes.
Proof.
  unfold SteelCC.guest_main.
  change (ci_l1_chain_id canoe_input) with 1. change (ci_l1_head_block_number canoe_input) with 100.
  change (ci_l1_head_block_hash canoe_input) with l1_hash.
  rewrite anchored, Done_bind. cbn [SteelCC.chain_spec_for]. rewrite Done_bind.
  cbn [into_env toy_steel active_fork expect]. rewrite !Done_bind.
  cbn [header_number]. rewrite bool_decide_true by reflexivity.
  cbn [assert]. rewrite Done_bind. cbn [mapM_outcome]. rewrite steel_sample_journal, !Done_bind.
  unfold steel_journal_bytes. reflexivity.
Qed.

#[export] Instance toy_steel_sound : SteelSoundness.
Proof.
  assert (Hrun : ∃ input inputs, SteelCC.guest_main input inputs = Done steel_journal_bytes ∧
    Forall (λ i, commitment_ok (ci_altda_commitment i)) inputs).
  { exists tt, [canoe_input]. split; [exact steel_guest_run|]. repeat constructor; apply good_cert_ok. }
  split; intros bytes Hv; apply toy_verified in Hv; [|cbn [receipt_journal_bytes toy_steel]];
    rewrite Hv; exact Hrun.
Qed.

Lemma steel_claim_journal :
  SteelCC.to_journal (good_cert, claim) =
  Done (claim_journal (keccak256 (SteelCC.string_bytes "Prague")) (zeros 32)).
Proof.
  unfold SteelCC.to_journal. change (SteelCC.get_steel_active_fork _ _ _) with (Done "Prague"%string).
  rewrite Done_bind. change (derive_chain_spec_id _ _ _) with (Done "Prague"%string).
  rewrite Done_bind. cbn [SpecId_to_string toy_reth].
  rewrite bool_decide_false by (intros Hne; by apply Hne). reflexivity.
Qed.

Lemma steel_claims_bytes : SteelCC.to_journals_bytes claims = Done steel_journal_bytes.
Proof.
  unfold SteelCC.to_journals_bytes, claims. cbn [mapM_outcome]. rewrite steel_claim_journal, !Done_bind.
  unfold steel_journal_bytes. reflexivity.
Qed.

Lemma steel_accepts proof : validate_cert_receipt {| steel_zkvm := true |} claims proof = Done (Ok tt).
Proof.
  unfold validate_cert_receipt, canoe_steel_verifier, SteelCC.validate_cert_receipt_secure.
  replace (forM_outcome _ claims) with (Done tt) by reflexivity. cbn [steel_zkvm].
  rewrite Done_bind. unfold SteelCC.validate_cert_receipt. rewrite steel_claims_bytes, Done_bind.
  cbn [env_verify toy_steel]. unfold toy_verify. rewrite bool_decide_true by reflexivity. reflexivity.
Qed.

(** ** Witnesses *)

Lemma sp1_verifier_sound_witness :
  (∃ sketch ex, ClientExecutor_eth sketch = Ok ex ∧ Forall (sp1_claim_holds sketch ex) claims) ∨
  journals_collide claims.
Proof.
  apply (sp1_verifier_sound true claims None).
  - exact claims_ok.
  - exact (sp1_accepts None).
Defined.

Lemma steel_verifier_sound_witness :
  Forall (λ p : AltDACommitment * CertValidity, l1_chain_id p.2 ≠ 3151908) claims ∧
  ∃ input, Forall (steel_claim_holds input) claims.
Proof.
  apply (steel_verifier_sound true claims None).
  - exact claims_ok.
  - exact (steel_accepts None).
Defined.

Definition toy_sketch : @EvmSketchInput toy_sp1 := tt.
Definition toy_executor : @ClientExecutor toy_sp1 := tt.

Lemma canoe_inputs_match_claims_witness : Sp1CC.to_journals_bytes claims = Done sp1_journal_bytes.
Proof.
  apply (canoe_inputs_match_claims DeployedByEigenLabs [(good_cert, true)] l1_hash 100 7 1
    [canoe_input] claims toy_sketch toy_executor sp1_journal_bytes)
    with (config := keccak256 (toy_config 1 "Prague")).
  - reflexivity.
  - reflexivity.
  - reflexivity.
  - by intros addr call out ty cfg [= <- <- <-].
  - reflexivity.
  - reflexivity.
  - exact sp1_guest_run.
Defined.

Lemma supported_chains_agree_witness :
  fetch_address DeployedByEigenLabs 5 (versioned_cert good_cert) = Err (UnknownL1ChainId 5) ∧
  derive_chain_spec_id 5 7 100 = Panic ∧ derive_chain_spec_genesis_hash 5 = Panic ∧
  SteelCC.chain_spec_for 5 = Panic ∧ SteelCC.get_allowed_steel_spec_id 5 = Panic.
Proof. exact (supported_chains_agree 5 7 100 (versioned_cert good_cert) (versioned_cert stale_cert)). Defined.
