(* ===== verification/CanoeHostWitnesses.v ===== *)
(** * Witnesses of the properties of canoe's provers

    A node at one block of mainnet whose verifier contract accepts, and a prover that
    runs the guest. *)

From S2P Require Export SteelHostTheory SepoliaExample CanoeWitnesses.
Import Concrete.

Record toy_evm_sketch := {
  toy_calls : list (Address * checkDACertCall); toy_number : Z; toy_genesis : Z }.

Definition toy_run (stdin : SP1Stdin) : result string Bytes :=
  match Sp1CC.guest_main tt (stdin_inputs stdin) with
  | Done bytes => Ok bytes
  | Panic => Err "guest panicked"%string
  end.

Definition holesky_genesis : string := "{ chainId: 17000 }".

#[export] Instance toy_sp1_host : Sp1Host unit := {|
  Genesis_Custom_from_str s := Ok (if bool_decide (s = holesky_genesis) then 17000 else 3151908);
  HOLESKY_GENESIS := holesky_genesis;
  KURTOSIS_DEVNET_GENESIS := "{ chainId: 3151908 }";
  EvmSketch := toy_evm_sketch;
  EvmSketch_build number genesis :=
    mret (Ok {| toy_calls := []; toy_number := number; toy_genesis := genesis |});
  anchor_header_hash _ := l1_hash;
  call_raw sketch a _ call := mret (Ok ([x01], {| toy_calls := toy_calls sketch ++ [(a, call)];
    toy_number := toy_number sketch; toy_genesis := toy_genesis sketch |}));
  finalize sketch := mret (
    if bool_decide (toy_number sketch = 100) && bool_decide (toy_genesis sketch = 1) then Ok tt
    else Err "no such block"%string);
  bincode_serialize_sketch _ := Ok [x00];
  env_var name := if bool_decide (name = "SP1_CC_GAS_LIMIT"%string) then Some "5000"%string else None;
  to_uppercase s := s;
  FulfillmentStrategy_from_str_name s := None;
  NetworkProver := unit;
  network_prover _ _ := mret tt;
  ProvingKey := unit;
  setup_ELF _ := mret (Ok tt);
  SP1ProofWithPublicValues := Bytes;
  execute_ELF _ stdin := mret (toy_run stdin);
  create_mock_proof _ bytes := bytes;
  prove_compressed _ _ stdin _ := mret (toy_run stdin);
  SP1RecursionProof := Bytes;
  compressed_proof := Some;
|}.

#[export] Instance toy_sp1_host_laws : Sp1HostLaws (W := unit).
Proof.
  refine {|
    sketch_calls := λ sketch : EvmSketch, (λ '(a, call), (a, call, [x01])) <$> toy_calls sketch;
    sketch_number := toy_number; sketch_rsp_genesis := toy_genesis;
    rsp_genesis_chain := λ g : RspGenesis, g |}.
  - intros number genesis [] sketch [] [= <-]. done.
  - intros sketch a caller call [] out sketch' [] [= <- <-]. split; [exact (fmap_app _ _ _)|done].
  - intros sketch [] input [] Hf. cbn in Hf.
    destruct (_ && _) eqn:Hb; [|done].
    apply andb_true_iff in Hb as [Hn%bool_decide_eq_true Hg%bool_decide_eq_true].
    split; [by destruct input|]. exists tt. split_and!; [by destruct input|done..|].
    apply Forall_fmap, Forall_true. intros [a call]. by eexists tt, _.
  - by intros chain genesis [= <-].
  - intros genesis [= <-]. reflexivity.
  - intros genesis [= <-]. reflexivity.
Defined.

#[export] Instance toy_sp1_prover_laws : Sp1ProverLaws (W := unit).
Proof.
  refine {| public_values := λ bytes : SP1ProofWithPublicValues, bytes |}; [| |done].
  - intros [] stdin [] bytes [] r [] _ Hrun. cbn [execute_ELF toy_sp1_host]. unfold toy_run.
    rewrite Hrun. by intros [= <-].
  - intros [] [] stdin request [] bytes [] r [] _ Hrun. cbn [prove_compressed toy_sp1_host]. unfold toy_run.
    rewrite Hrun. by intros [= <-].
Defined.

Definition toy_stdin : SP1Stdin := {| stdin_sketch := [x00]; stdin_inputs := [canoe_input] |}.

Lemma toy_stdin_made : Sp1Host.canoe_proof_stdin [canoe_input] tt = Done (Ok toy_stdin, tt).
Proof. vm_compute. reflexivity. Qed.

Definition toy_prover : CanoeSp1CCProvider unit := {| sp1_eth_rpc_client := tt; sp1_mock_mode := false |}.

Lemma toy_proof_generated :
  Sp1Host.generate_canoe_proof toy_stdin false tt = Done (Ok sp1_journal_bytes, tt).
Proof.
  assert (Hrun : toy_run toy_stdin = Ok sp1_journal_bytes).
  { unfold toy_run, toy_stdin. cbn [stdin_inputs]. by rewrite sp1_guest_run. }
  unfold Sp1Host.generate_canoe_proof. cbn [prove_compressed toy_sp1_host]. rewrite Hrun. reflexivity.
Qed.

Lemma toy_proof_got :
  Sp1Host.get_sp1_cc_proof [canoe_input] false tt = Done (Ok sp1_journal_bytes, tt).
Proof. unfold Sp1Host.get_sp1_cc_proof, try_bind. by rewrite toy_stdin_made, toy_proof_generated. Qed.

Definition toy_proof : SP1ProofWithPublicValues (W := unit) := sp1_journal_bytes.

Lemma toy_proof_created :
  sp1_create_proof [canoe_input] toy_prover = Done (Some (Ok sp1_journal_bytes), toy_prover).
Proof.
  transitivity (match Sp1Host.get_sp1_cc_proof [canoe_input] false tt with
    | Done (r, w) => Done (Some r, {| sp1_eth_rpc_client := w; sp1_mock_mode := false |})
    | Panic => Panic
    end); [reflexivity|]. by rewrite toy_proof_got.
Qed.

Lemma host_stdin_accepted_witness :
  stdin_inputs toy_stdin = [canoe_input] ∧ ∃ (input : @EvmSketchInput toy_sp1) bytes,
    bincode_serialize_sketch input = Ok (stdin_sketch toy_stdin) ∧
    Sp1CC.guest_main input [canoe_input] = Done bytes.
Proof. exact (host_stdin_accepted [canoe_input] tt tt toy_stdin toy_stdin_made). Defined.

#[export] Instance toy_sp1_config : Sp1ConfigLaws.
Proof.
  refine {| executor_header_timestamp := λ _ : ClientExecutor, 7;
    sp1_active_fork := λ _ _ _, "Prague"%string |}.
  by intros sketch ex a caller call out h ty cfg _ [= <- <- <- <-].
Defined.

(** The verifier's part of the property, for any public values. *)
Definition verifier_follows (pairs : list (AltDACommitment * CertValidity)) (chain ts number : Z)
    (values : Bytes) : Prop :=
  match RspGenesis_try_from chain, derive_chain_spec_id chain ts number with
  | Ok genesis, Done spec_id => ∃ bytes,
      to_journals_bytes {| sp1_zkvm := true |} pairs = Done bytes ∧
      (bytes = values ↔
        Sp1CC.hash_chain_config chain (sp1_active_fork genesis ts number) =
        Sp1CC.hash_chain_config chain (SpecId_to_string spec_id)) ∧
      ∀ receipt, validate_cert_receipt {| sp1_zkvm := true |} pairs receipt =
        (_ ← verify_sp1_proof Sp1CC.V_KEY (sha256 bytes); Done (Ok tt))
  | _, _ => ∀ receipt, validate_cert_receipt {| sp1_zkvm := true |} pairs receipt = Panic
  end.

Lemma canoe_proof_matches_claims_witness : verifier_follows claims 1 7 100 (public_values toy_proof).
Proof.
  exact (canoe_proof_matches_claims DeployedByEigenLabs [(good_cert, true)] l1_hash 100 7 1
    [canoe_input] claims toy_prover toy_prover toy_proof eq_refl eq_refl (λ _ _ _ _ _ _ _, eq_refl)
    toy_proof_created).
Defined.

(** ** Steel *)

Definition steel_run (input : EthEvmInput) (inputs : list CanoeInput) : result string SteelReceipt :=
  match SteelCC.guest_main input inputs with
  | Done bytes => Ok bytes
  | Panic => Err "guest panicked"%string
  end.

#[export] Instance toy_steel_host : SteelHost unit := {|
  Url_from_str s := Ok s;
  HostEvmEnv := unit;
  EthEvmEnv_build _ _ _ w := Done (Ok tt, w);
  host_header_seal _ := l1_hash;
  preflight_call env _ _ w := Done (Ok (1, env), w);
  into_input _ w := Done (Ok tt, w);
  steel_prove input inputs w := Done (Ok (steel_run input inputs), w);
|}.

#[export] Instance toy_steel_prover_laws : SteelProverLaws (W := unit).
Proof.
  split. intros input inputs w receipt w' Hp. cbn [steel_prove toy_steel_host] in Hp. unfold steel_run in Hp.
  destruct (SteelCC.guest_main input inputs) as [bytes|]; [|done]. by injection Hp as ->.
Qed.

Definition toy_steel_prover : CanoeSteelProvider unit := {| eth_rpc_url := "http://l1"; steel_world := tt |}.

Lemma steel_run_made : steel_run tt [canoe_input] = Ok steel_journal_bytes.
Proof. unfold steel_run. by rewrite steel_guest_run. Qed.

Lemma steel_preflight : SteelHost.preflight [canoe_input] (tt : HostEvmEnv) tt = Done (Ok tt, tt).
Proof. vm_compute. reflexivity. Qed.

Lemma steel_proof_got :
  SteelHost.get_steel_proof [canoe_input] "http://l1" tt = Done (Ok steel_journal_bytes, tt).
Proof.
  unfold SteelHost.get_steel_proof. unfold mbind at 1, M_bind at 1, lift at 1.
  change (ci_l1_chain_id canoe_input) with 1. change (ci_l1_head_block_number canoe_input) with 100.
  change (ci_l1_head_block_hash canoe_input) with l1_hash. rewrite anchored.
  transitivity (match SteelHost.preflight [canoe_input] (tt : HostEvmEnv) tt with
    | Done (Ok env, w) => Done (map_err (λ _, "failed to create proof"%string) (steel_run tt [canoe_input]), w)
    | Done (Err e, w) => Done (Err e, w)
    | Panic => Panic
    end); [|by rewrite steel_preflight, steel_run_made].
  reflexivity.
Qed.

Definition steel_receipt : SteelReceipt := steel_journal_bytes.

Lemma steel_proof_created :
  steel_create_proof [canoe_input] toy_steel_prover = Done (Some (Ok steel_receipt), toy_steel_prover).
Proof.
  transitivity (match SteelHost.get_steel_proof [canoe_input] "http://l1" tt with
    | Done (r, w) => Done (Some r, {| eth_rpc_url := "http://l1"; steel_world := w |})
    | Panic => Panic
    end); [reflexivity|]. rewrite steel_proof_got. unfold steel_receipt. reflexivity.
Qed.

Lemma toy_fork_accepted : fork_accepted 1 7 100 "Prague".
Proof. exists "Prague"%string. split; [reflexivity|by left]. Qed.

Lemma steel_proof_matches_claims_witness :
  1 ∈ supported_chains ∧ ∃ fork, SteelCC.get_steel_active_fork 1 7 100 = Done fork ∧
  ((fork_accepted 1 7 100 fork ∧
    SteelCC.to_journals_bytes claims = Done (receipt_journal_bytes steel_receipt) ∧
    ∀ bytes, receipt_from_slice bytes = Ok steel_receipt →
      receipt_verify steel_receipt CERT_VERIFICATION_ID = Ok tt →
      validate_cert_receipt {| steel_devnet_zkvm := false |} claims (Some bytes) = Done (Ok tt) ∧
      validate_cert_receipt {| steel_zkvm := false |} claims (Some bytes) =
        if bool_decide (1 = 3151908) then Panic else Done (Ok tt)) ∨
   (¬ fork_accepted 1 7 100 fork ∧ ∀ proof zkvm,
      validate_cert_receipt {| steel_devnet_zkvm := zkvm |} claims proof = Panic ∧
      validate_cert_receipt {| steel_zkvm := zkvm |} claims proof = Panic)).
Proof.
  exact (steel_proof_matches_claims DeployedByEigenLabs [(good_cert, true)] l1_hash 100 7 1
    [canoe_input] claims toy_steel_prover toy_steel_prover steel_receipt eq_refl eq_refl
    (λ _ _ _ _ _, eq_refl) steel_proof_created).
Defined.

(** ** The example on Sepolia

    A node on chain [chain] whose latest block is 100. *)

Definition toy_node (chain : Z) : EthereumNode unit := {|
  NodeUrl := string; NodeUrl_from_str := Ok;
  get_chain_id _ w := Done (Ok chain, w);
  get_block_number _ w := Done (Ok 100, w);
  NodeHeader := B256;
  get_block_by_number _ n w := Done (Ok (if bool_decide (n = 100) then Some l1_hash else None), w);
  hash_slow h := h;
|}.

Definition example_run (chain : Z) : outcome (result string CanoeInput * unit) :=
  SepoliaExample.get_canoe_input (W := unit) (EthereumNode0 := toy_node chain) (to_rlp_bytes good_cert) true "http://l1"
    DeployedByEigenLabs tt.

Example example_on_sepolia :
  match example_run 11155111 with
  | Done (Ok input, _) => ci_altda_commitment input = good_cert ∧ ci_l1_head_block_hash input = l1_hash
  | _ => False
  end.
Proof. vm_compute. split; reflexivity. Qed.

Example example_refuses_mainnet : example_run 1 = Panic.
Proof. vm_compute. reflexivity. Qed.
