(* ===== verification/WitnessTheory.v ===== *)
(** * From a recorded run to the zkVM

    Witnesses are built and taken apart without loss, the preloaded provider replays
    what was recorded in order, what it holds has been proved, and the fault proof
    client accepts only claims it has derived. *)

From S2P Require Export CanoeTheory KzgProperties Client.

Lemma Forall2_chain {A B} (P : A → B → Prop) (Q : B → Prop) (R : A → Prop) l k :
  (∀ a b, P a b → Q b → R a) → Forall2 P l k → Forall Q k → Forall R l.
Proof. intros HPQ. induction 1; inversion 1; subst; constructor; eauto. Qed.

(** ** Encoding of integers *)

Lemma to_be_bytes_S k z : to_be_bytes (Datatypes.S k) z = to_be_bytes k (z / 256) ++ [Z_to_u8 z].
Proof. unfold to_be_bytes. cbn [to_le_bytes rev]. by rewrite shiftr_8. Qed.

Lemma to_le_bytes_pad k m z :
  0 ≤ z < 256 ^ Z.of_nat k → to_le_bytes (k + m) z = to_le_bytes k z ++ zeros m.
Proof.
  revert z. induction k as [|k IH]; intros z Hz.
  - simpl in Hz. assert (z = 0) as -> by lia. cbn [Nat.add to_le_bytes app]. clear.
    induction m as [|m IH]; [done|]. cbn [to_le_bytes]. rewrite Z.shiftr_0_l, IH. done.
  - rewrite Nat2Z.inj_succ, Z.pow_succ_r in Hz by lia. cbn [Nat.add to_le_bytes app]. f_equal.
    rewrite shiftr_8. apply IH.
    split; [apply Z.div_pos; lia|apply Z.div_lt_upper_bound; lia].
Qed.

Lemma to_be_bytes_pad k m z :
  0 ≤ z < 256 ^ Z.of_nat k → to_be_bytes (k + m) z = zeros m ++ to_be_bytes k z.
Proof.
  intros Hz. unfold to_be_bytes. rewrite to_le_bytes_pad, rev_app_distr by done. f_equal.
  unfold zeros. rewrite rev_alt. apply reverse_replicate.
Qed.

(** [to_bytes_be] is the shortest big-endian encoding. *)
Lemma be_bytes_from_spec fuel z acc :
  fuel ≠ 0%nat → 0 ≤ z < 256 ^ Z.of_nat fuel →
  ∃ k, (1 ≤ k ≤ fuel)%nat ∧ z < 256 ^ Z.of_nat k ∧ (k ≠ 1%nat → 256 ^ (Z.of_nat k - 1) ≤ z) ∧
    be_bytes_from fuel z acc = to_be_bytes k z ++ acc.
Proof.
  revert z acc. induction fuel as [|fuel IH]; intros z acc Hf Hz; [done|]. cbn [be_bytes_from].
  case_bool_decide as Hsmall.
  - exists 1%nat. split_and!; [lia|lia|exact Hsmall|done|done].
  - rewrite Nat2Z.inj_succ, Z.pow_succ_r in Hz by lia.
    destruct (decide (fuel = 0%nat)) as [->|Hf']; [simpl in Hz; lia|].
    destruct (IH (z / 256) (Z_to_u8 z :: acc) Hf') as (k & Hk & Hlt & Hge & Heq).
    { split; [apply Z.div_pos; lia|apply Z.div_lt_upper_bound; lia]. }
    exists (Datatypes.S k). pose proof (Z.div_mod z 256 ltac:(lia)) as Hdm.
    pose proof (Z.mod_pos_bound z 256 ltac:(lia)).
    rewrite Nat2Z.inj_succ, Z.pow_succ_r by lia. split_and!; [lia|lia|lia| |].
    + intros _. replace (Z.succ (Z.of_nat k) - 1) with (Z.of_nat k) by lia.
      destruct (decide (k = 1%nat)) as [->|Hk1]; [simpl; lia|]. specialize (Hge Hk1).
      replace (Z.of_nat k) with (Z.succ (Z.of_nat k - 1)) by lia. rewrite Z.pow_succ_r by lia. lia.
    + rewrite Heq, to_be_bytes_S, <-app_assoc. done.
Qed.

Lemma convert_biguint_spec z :
  0 ≤ z → convert_biguint_to_be_32_bytes z =
  if bool_decide (z < 2 ^ 256) then Done (to_be_bytes 32 z) else Panic.
Proof.
  intros Hz. unfold convert_biguint_to_be_32_bytes, to_bytes_be.
  set (fuel := (Z.to_nat (Z.log2 z) / 8 + 1)%nat).
  assert (Hfuel : z < 256 ^ Z.of_nat fuel).
  { destruct (decide (z = 0)) as [->|Hz0]; [apply Z.pow_pos_nonneg; lia|].
    pose proof (Z.log2_spec z ltac:(lia)) as [_ Hlog]. pose proof (Z.log2_nonneg z).
    change 256 with (2 ^ 8). rewrite <-Z.pow_mul_r by lia. eapply Z.lt_le_trans; [exact Hlog|].
    apply Z.pow_le_mono_r; [lia|]. unfold fuel.
    pose proof (Nat.div_mod_eq (Z.to_nat (Z.log2 z)) 8).
    pose proof (Nat.mod_upper_bound (Z.to_nat (Z.log2 z)) 8 ltac:(lia)). lia. }
  destruct (be_bytes_from_spec fuel z []) as (k & Hk & Hlt & Hge & ->); [unfold fuel; lia|lia|].
  rewrite app_nil_r, length_to_be_bytes. change (2 ^ 256) with (256 ^ 32).
  case_bool_decide as Hlong; case_bool_decide as Hsmall; try done.
  - specialize (Hge ltac:(lia)). assert (256 ^ 32 ≤ 256 ^ (Z.of_nat k - 1)); [|lia].
    apply Z.pow_le_mono_r; lia.
  - f_equal. rewrite <-to_be_bytes_pad by lia. f_equal. lia.
  - assert (256 ^ Z.of_nat k ≤ 256 ^ 32); [|lia]. apply Z.pow_le_mono_r; lia.
Qed.

(** ** What a witness holds *)

Lemma from_preimage_Ok pre proofs canoe w :
  from_preimage pre proofs canoe = Ok w →
  witness_validities w = preimage_validities pre ∧
  fst <$> witness_encoded_payloads w = preimage_encoded_payloads pre.
Proof.
  unfold from_preimage. destruct (_ && _); [done|]. case_bool_decide as Hlen; [done|].
  intros [= <-]. split; [done|].
  pose proof (into_from_preimage_unchecked _ proofs canoe Hlen) as Hinto.
  apply (f_equal (λ r, preimage_encoded_payloads r.1.1)) in Hinto. cbn [fst snd preimage_encoded_payloads into_preimage] in Hinto.
  etransitivity; [|exact Hinto]. f_equal. symmetry.
  etransitivity; [|apply list_fmap_id]. apply fmap_eq. by intros [[]].
Qed.

(** ** The preloaded provider *)

Section preloaded.
Context `{!Alloy, !KonaPreimage}.

Lemma pop_Some {A} (l : list A) a rest : Preloaded.pop l = Some (a, rest) ↔ l = rest ++ [a].
Proof.
  unfold Preloaded.pop. split.
  - destruct (rev l) as [|a' r] eqn:Hr; [done|]. intros [= -> <-].
    by rewrite <-(rev_involutive l), Hr.
  - intros ->. rewrite rev_app_distr. cbn [rev app]. by rewrite rev_involutive.
Qed.
End preloaded.

(** ** What a verified witness holds *)

Section verified.
Context `{!Alloy, !AlloyLaws, !SolEncoding, !SolEncodingLaws, !Reth, !Sp1, !Sp1Soundness}.
Context `{!KzgBackend, !CanoeVerifierAddressFetcher F}.

(** The contract's answer on a recorded validity. *)
Definition validity_proved (f : F) (ex : ClientExecutor) (hash : B256) (number chain : Z)
    (v : AltDACommitment * bool) : Prop :=
  ∃ addr, fetch_address f chain (versioned_cert v.1) = Ok addr ∧
    sp1_contract_says ex hash addr v.1 v.2 ∧
    executor_header_number ex = number ∧ executor_chain_id ex = chain.

Lemma claims_proved (f : F) sketch ex hash number ts chain vs pairs :
  mapM_outcome (to_cert_validity f hash number ts chain) vs = Done pairs →
  Forall (sp1_claim_holds sketch ex) pairs →
  Forall (validity_proved f ex hash number chain) vs.
Proof.
  intros Hpairs%cert_validities_of. eapply Forall2_chain; [|exact Hpairs].
  intros [c b] [c' v]. cbn. intros (-> & Hb & Ha & Hch & Hh & Hn) (Hsays & Hnum & Hid & _).
  exists (verifier_address v). rewrite Hb, Hh in Hsays. cbn [fst snd].
  split_and!; [exact Ha|exact Hsays|congruence..].
Qed.

Lemma from_witness_validities (w : EigenDAWitness) hash number ts chain zkvm (f : F) p :
  from_witness w hash number ts chain {| sp1_zkvm := zkvm |} f = Done p →
  witness_validities w ≠ [] → Forall (λ v, commitment_ok v.1) (witness_validities w) →
  (∃ sketch ex, ClientExecutor_eth sketch = Ok ex ∧
    Forall (validity_proved f ex hash number chain) (witness_validities w)) ∨
  ∃ pairs, mapM_outcome (to_cert_validity f hash number ts chain) (witness_validities w) = Done pairs ∧
    journals_collide pairs.
Proof.
  intros (_ & _ & _ & Hcanoe & _)%from_witness_Done Hne Hok.
  destruct (Hcanoe Hne) as (pairs & Hpairs & Hv).
  assert (Hpok : Forall (λ p, commitment_ok p.1) pairs).
  { pose proof (cert_validities_of _ _ _ _ _ _ _ Hpairs) as HF. clear -HF Hok.
    induction HF as [|v q vs ps (Hq & _) _ IH]; [constructor|].
    apply Forall_cons in Hok as [Hv Hok]. constructor; [by rewrite Hq|by apply IH]. }
  destruct (sp1_claims_hold zkvm pairs (canoe_proof_bytes w) Hv Hpok) as [(sketch & ex & Hex & Hall)|?]; [left|right; by exists pairs].
  exists sketch, ex. split; [done|]. by eapply claims_proved.
Qed.
End verified.

Lemma from_witness_payloads `{!SubstrateBn, !FrLaws, !CurveLaws, !CanoeVerifier V,
    !CanoeVerifierAddressFetcher F} (w : EigenDAWitness) hash number ts chain (v : V) (f : F) p :
  from_witness (H := sp1_bn_backend) w hash number ts chain v f = Done p →
  Forall (λ e, num_field_element e.1.2 = get_num_field_element e.1.1) (witness_encoded_payloads w) ∧
  batch_accepts ((λ e, serialize e.1.2) <$> witness_encoded_payloads w)
    ((λ e, get_kzg_commitment e.1.1) <$> witness_encoded_payloads w)
    (snd <$> witness_encoded_payloads w).
Proof.
  intros (_ & _ & Hnum & _ & Hkzg)%from_witness_Done. split; [done|].
  destruct (batch_verify_spec ((λ e, serialize e.1.2) <$> witness_encoded_payloads w)
    ((λ e, get_kzg_commitment e.1.1) <$> witness_encoded_payloads w)
    (snd <$> witness_encoded_payloads w)) as (b & Hb & Hiff).
  apply Hiff. unfold sp1_bn_backend in Hkzg. cbn [Preloaded.batch_verify] in Hkzg.
  rewrite Hb in Hkzg. by injection Hkzg.
Qed.

(** ** The fault proof client *)

Section client.
Context `{!Alloy, !Kona, !EthereumDataSource E, !KonaClient Ora E, !EigenDAPreimageProvider A}.

(** What the prologue has established when it succeeds. *)
Definition prologue_checked (o : Ora) (p : prologue_result) (boot : BootInfo) : Prop :=
  ∃ o1 hash o2 number o3,
    BootInfo_load o = Done (Ok boot, o1) ∧
    fetch_safe_head_hash (agreed_l2_output_root boot) o1 = Done (Ok hash, o2) ∧
    l2_header_number boot hash o2 = Done (Ok number, o3) ∧
    number ≤ claimed_l2_block_number boot ∧
    match p with
    | Agreed => agreed_l2_output_root boot = claimed_l2_output_root boot
    | Derive boot' _ => boot' = boot
    end.

Lemma prologue_Ok o p o' : prologue o = Done (Ok p, o') → ∃ boot, prologue_checked o p boot.
Proof.
  unfold prologue. intros Hp.
  apply try_bind_Ok_inv in Hp as (boot & o1 & Hboot & Hp).
  apply try_bind_Ok_inv in Hp as (hash & o2 & Hhash & Hp).
  apply try_bind_Ok_inv in Hp as (number & o3 & Hnum & Hp).
  exists boot, o1, hash, o2, number, o3.
  case_bool_decide as Hlt; [done|]. case_bool_decide as Hagree.
  - injection Hp as <- _. split_and!; [done..|lia|done].
  - apply try_bind_Ok_inv in Hp as (cursor & o4 & _ & Hp).
    apply try_bind_Ok_inv in Hp as (u & o5 & _ & Hp).
    injection Hp as <- _. split_and!; [done..|lia|done].
Qed.

Lemma epilogue_Ok boot (r : result FaultProofProgramError (Z * B256)) :
  epilogue boot r = Ok tt → ∃ n, r = Ok (n, claimed_l2_output_root boot).
Proof.
  unfold epilogue. destruct r as [[n root]|e]; [|done]. rewrite Ok_bind.
  case_bool_decide as Hroot; [done|]. intros _. exists n. by rewrite Hroot.
Qed.
End client.

(** ** Properties *)

Section claims.
Context `{!Alloy, !AlloyLaws}.

(** A witness holds what it was made of: from_preimage refuses a preimage with
    recorded validities but no canoe proof, and one whose number of KZG proofs is not
    that of its payloads; every other preimage comes back from the witness by
    into_preimage, with the proofs, unchanged. *)
Theorem witness_round_trip (preimage : EigenDAPreimage) (kzg_proofs : list Bytes)
    (canoe_proof : option Bytes) :
  match from_preimage preimage kzg_proofs canoe_proof with
  | Ok w => into_preimage w = (preimage, kzg_proofs, canoe_proof) ∧
      (preimage_validities preimage ≠ [] → canoe_proof ≠ None)
  | Err MissingCanoeProof => preimage_validities preimage ≠ [] ∧ canoe_proof = None
  | Err MismatchKzgProof => length kzg_proofs ≠ length (preimage_encoded_payloads preimage) ∧
      (preimage_validities preimage ≠ [] → canoe_proof ≠ None)
  end.
Proof.
  unfold from_preimage. case_bool_decide as Hv; cbn [negb andb].
  - case_bool_decide as Hl; [done|]. split; [by apply into_from_preimage_unchecked|done].
  - case_bool_decide as Hc; [done|]. case_bool_decide as Hl; [done|].
    split; [by apply into_from_preimage_unchecked|done].
Qed.

(** A KZG proof coordinate is written as exactly 32 big-endian bytes: every value
    below 2^256 gives its fixed-width encoding (zero included), every larger one panics. *)
Theorem proof_coordinate_encoding (z : Z) (Hz : 0 ≤ z) :
  convert_biguint_to_be_32_bytes z =
  (if bool_decide (z < 2 ^ 256) then Done (to_be_bytes 32 z) else Panic) ∧
  (z < 2 ^ 256 → from_be_bytes (to_be_bytes 32 z) = z).
Proof. split; [by apply convert_biguint_spec|]. intros. by apply from_to_be_bytes_small. Qed.

Context `{!KonaPreimage}.

(** The preloaded provider serves the witness in order and nothing else: a validity
    request returns exactly when the last entry is for the requested commitment, and then
    gives that entry's value and removes it; in every other case it panics. *)
Theorem preloaded_serves_in_order (c : AltDACommitment) (s s' : PreloadedEigenDAPreimageProvider)
    (r : result (provider_error (A := PreloadedEigenDAPreimageProvider)) bool)
    (r' : result (provider_error (A := PreloadedEigenDAPreimageProvider)) EncodedPayload) :
  (get_validity c s = Done (r, s') ↔
    ∃ b, r = Ok b ∧ validity_entries s = validity_entries s' ++ [(c, b)] ∧
      encoded_payload_entries s' = encoded_payload_entries s) ∧
  (get_encoded_payload c s = Done (r', s') ↔
    ∃ ep, r' = Ok ep ∧ encoded_payload_entries s = encoded_payload_entries s' ++ [(c, ep)] ∧
      validity_entries s' = validity_entries s).
Proof.
  destruct s as [vs eps], s' as [vs' eps'].
  cbn [get_validity get_encoded_payload Preloaded.preloaded_provider validity_entries encoded_payload_entries].
  unfold Preloaded.get_validity, Preloaded.get_encoded_payload.
  cbn [validity_entries encoded_payload_entries]. split.
  - destruct (Preloaded.pop vs) as [[[c' b] rest]|] eqn:Hpop.
    + apply pop_Some in Hpop as ->. case_bool_decide as Hc.
      * split; [intros [= <- <- <-]; subst; eauto|].
        intros (b' & -> & Heq & <-). by apply app_inj_2 in Heq as [-> [= _ ->]].
      * split; [done|]. intros (b' & _ & Heq & _). by apply app_inj_2 in Heq as [_ [= -> _]].
    + split; [done|]. intros (b & _ & Heq & _). apply pop_Some in Heq. congruence.
  - destruct (Preloaded.pop eps) as [[[c' b] rest]|] eqn:Hpop.
    + apply pop_Some in Hpop as ->. case_bool_decide as Hc.
      * split; [intros [= <- <- <-]; subst; eauto|].
        intros (b' & -> & Heq & <-). by apply app_inj_2 in Heq as [-> [= _ ->]].
      * split; [done|]. intros (b' & _ & Heq & _). by apply app_inj_2 in Heq as [_ [= -> _]].
    + split; [done|]. intros (b & _ & Heq & _). apply pop_Some in Heq. congruence.
Qed.
End claims.

Section soundness_claims.
Context `{!Alloy, !AlloyLaws, !SolEncoding, !SolEncodingLaws, !Reth, !Sp1, !Sp1Soundness}.
Context `{!CanoeVerifierAddressFetcher F}.

(** C15: The zkVM never uses an unproved validity: when from_witness returns with the sp1
    verifier, the provider holds exactly the witness's validities, and there is one
    executor over an L1 state at the given head number and chain in which the verifier
    contract at the fetched address, called at the given head hash, returns success on
    each certificate exactly when the witness says valid - or the journals rebuilt from
    these validities are a SHA-256 collision with others that a guest run committed. *)
Theorem preloaded_validity_sound `{!KzgBackend} (w : EigenDAWitness) (hash : B256)
    (number timestamp chain : Z) (zkvm : bool) (f : F) (p : PreloadedEigenDAPreimageProvider)
    (Hne : witness_validities w ≠ [])
    (Hok : Forall (λ v, commitment_ok v.1) (witness_validities w))
    (Hp : from_witness w hash number timestamp chain {| sp1_zkvm := zkvm |} f = Done p) :
  validity_entries p = rev (witness_validities w) ∧
  ((∃ sketch ex, ClientExecutor_eth sketch = Ok ex ∧
     Forall (validity_proved f ex hash number chain) (witness_validities w)) ∨
   ∃ pairs, mapM_outcome (to_cert_validity f hash number timestamp chain) (witness_validities w) =
       Done pairs ∧ journals_collide pairs).
Proof.
  split; [|by eapply from_witness_validities].
  by apply from_witness_Done in Hp as [-> _].
Qed.

End soundness_claims.

Section client_claims.
Context `{!Alloy, !Kona, !EthereumDataSource E, !KonaClient Ora E}.

(** C21: The fault proof client accepts only what it derived: run_fp_client returns
    without an error only if the claimed block is not before the safe head of the agreed
    output root, and either both roots of the boot info are equal or the driver, run over
    the data source it was given, reached an output root equal to the claimed one. *)
Theorem fp_client_checks_claim `{!EigenDAPreimageProvider A} (fuel : nat) (eigenda eigenda' : A)
    (o o' : Ora) (Hrun : run_fp_client fuel eigenda o = Some (Done (Ok tt, eigenda', o'))) :
  ∃ boot o1 hash o2 number o3,
    BootInfo_load o = Done (Ok boot, o1) ∧
    fetch_safe_head_hash (agreed_l2_output_root boot) o1 = Done (Ok hash, o2) ∧
    l2_header_number boot hash o2 = Done (Ok number, o3) ∧
    number ≤ claimed_l2_block_number boot ∧
    (agreed_l2_output_root boot = claimed_l2_output_root boot ∨
     ∃ cursor n s, run_driver fuel (advance_to_target boot cursor (claimed_l2_block_number boot))
       (DataSource.new (eth_new_from_parts boot o') (PreimageSource.new eigenda)) =
       Some (Done (Ok (n, claimed_l2_output_root boot), s)) ∧
       eigenda' = eigenda_fetcher (eigenda_source s)).
Proof.
  unfold run_fp_client in Hrun.
  destruct (prologue o) as [[[p|e] o4]|] eqn:Hp; [|done..].
  destruct (prologue_Ok o p o4 Hp) as (boot & o1 & hash & o2 & number & o3 & Hload & Hhash & Hnum & Hle & Hboot).
  exists boot, o1, hash, o2, number, o3. split_and!; [done..|].
  destruct p as [|boot' cursor]; [by left|right]. subst boot'.
  destruct (run_driver fuel _ _) as [[[r s]|]|] eqn:Hd; [|done..].
  injection Hrun as Hr <- <-. destruct (epilogue_Ok boot r Hr) as [n ->].
  by exists cursor, n, s.
Qed.

(** C2: A recorded run replays in the zkVM: take a run of the fault proof client over the
    recorder and a provider that never fails, make a witness of what it recorded, and
    let from_witness accept it; then the client over the preloaded provider, with the
    same oracle, gives the same result and uses up every entry of the witness.  A provider
    that fails is excluded for a reason: the derivation repeats the request, its validity
    is recorded twice, and the replay panics ([retry_does_not_replay]). *)
Theorem recorded_run_replays `{!KonaPreimage, !EigenDAPreimageProvider T, !NeverFails T}
    `{!KzgBackend, !CanoeVerifier V, !CanoeVerifierAddressFetcher F}
    (fuel : nat) (t : T) (o o' : Ora) (r : result FaultProofProgramError unit)
    (recorder : OracleEigenDAPreimageProviderWithPreimage T)
    (kzg_proofs : list Bytes) (canoe_proof : option Bytes) (w : EigenDAWitness)
    (hash : B256) (number timestamp chain : Z) (v : V) (f : F) (p : PreloadedEigenDAPreimageProvider)
    (Hrecord : run_fp_client fuel {| provider := t; preimage := EigenDAPreimage_default |} o =
      Some (Done (r, recorder, o')))
    (Hwitness : from_preimage (preimage recorder) kzg_proofs canoe_proof = Ok w)
    (Hload : from_witness w hash number timestamp chain v f = Done p) :
  ∃ p', run_fp_client fuel p o = Some (Done (r, p', o')) ∧
    validity_entries p' = [] ∧ encoded_payload_entries p' = [].
Proof.
  apply from_witness_Done in Hload as [-> _].
  destruct (from_preimage_Ok _ _ _ _ Hwitness) as [-> ->].
  exists (Preloaded.holding [] []). split; [by eapply replay_client|done].
Qed.
End client_claims.
