(* ===== verification/PayloadBinding.v ===== *)
(** * The zkVM uses the payloads that were committed

    From the verifier's equation to the payload: when a certificate carries the commitment of
    a blob, made with the points of the trusted setup, an accepted payload has the blob's
    field elements, unless a Fiat-Shamir challenge falls on one of a few field elements or
    the opening proof solves the strong Diffie-Hellman problem of the setup.  The solution
    is computed from the proof, the blob and the setup's points.

    Field elements determine the bytes only up to the order of the field.  The verifier's
    check for that compares [Fr::from_slice] with the reduced value, so it depends on what
    [from_slice] makes of larger values; [slipped] says that it has missed one. *)

From S2P Require Export WitnessTheory.
From S2P Require Import EncodedPayloadTheory.
From Stdlib Require Import Ring.

Section binding.
Context `{!SubstrateBn, !FrLaws, !CurveLaws, !Alloy, !AlloyLaws}.
Add Ring fr_ring : Fr_ring.
Open Scope fr_scope.

(** ** Commitments *)

(** The first [n] points of the setup. *)
Definition srs_points (n : nat) : list bn_G1 := (λ i, G1_mul G1_one (fr_power srs_tau i)) <$> seq 0 n.

(** The commitment of a polynomial, from the points of a setup. *)
Definition commit (srs : list bn_G1) (c : list Fr) : bn_G1 := gsum (zip_with G1_mul srs c).

Lemma commit_from k n c :
  (length c ≤ n)%nat →
  gsum (zip_with G1_mul ((λ i, G1_mul G1_one (fr_power srs_tau i)) <$> seq k n) c) =
  G1_mul G1_one (fr_power srs_tau k * poly_eval c srs_tau).
Proof.
  revert k n. induction c as [|a c IH]; intros k n Hl.
  - destruct n; cbn; symmetry; (etransitivity; [|apply G1_mul_zero]); f_equal; ring.
  - destruct n as [|n]; [cbn in Hl; lia|]. cbn [seq]. rewrite fmap_cons. cbn [zip_with poly_eval].
    rewrite gsum_cons, IH by (cbn in Hl; lia). rewrite G1_mul_mul, <-G1_mul_add_r. f_equal.
    cbn [fr_power]. ring.
Qed.

Lemma commit_eval n c : (length c ≤ n)%nat → commit (srs_points n) c = G1_mul G1_one (poly_eval c srs_tau).
Proof. intros Hl. unfold commit, srs_points. rewrite commit_from by done. f_equal. cbn. ring. Qed.

Lemma G1_mul_sub a x y : G1_sub (G1_mul a x) (G1_mul a y) = G1_mul a (x - y).
Proof.
  rewrite G1_sub_spec. apply (G1_add_cancel (G1_mul a y)).
  rewrite G1_add_comm, <-G1_add_assoc, (G1_add_comm (G1_neg _)), G1_add_neg, G1_add_zero_r, <-G1_mul_add_r.
  f_equal. ring.
Qed.

(** ** Extraction *)

(** From an opening of the commitment of [c] at [z] with the value [y] and the proof [P]. *)
Definition sdh_solution (srs : list bn_G1) (c : list Fr) (z y : Fr) (P : AffineG1) : bn_G1 :=
  match Fr_inverse (poly_eval c z - y) with
  | Some i => G1_mul (G1_sub (AffineG1_into P) (commit srs (m_quotient c z))) i
  | None => G1_zero
  end.

(** [S] is the generator divided by [tau - z]. *)
Definition solves_sdh (z : Fr) (S : bn_G1) : Prop := G1_mul S (srs_tau - z) = G1_one.

(** A wrong value makes an accepted opening a solution. *)
Lemma wrong_value_solves n c z y C P :
  (length c ≤ n)%nat → AffineG1_into C = commit (srs_points n) c → opening_holds (C, z, y, P) →
  y ≠ poly_eval c z → solves_sdh z (sdh_solution (srs_points n) c z y P).
Proof.
  intros Hl HC Hopen Hy. unfold solves_sdh, sdh_solution.
  destruct (Fr_inverse_total (poly_eval c z - y)) as (i & -> & Hi).
  { intros Hz%sub_zero_eq. by apply Hy. }
  cbn [opening_holds] in Hopen. rewrite HC, commit_eval, G1_mul_sub in Hopen by done.
  rewrite commit_eval by (rewrite length_m_quotient; lia).
  pose proof (m_quotient_spec c srs_tau z) as Hq. rewrite !m_eval_poly_eval in Hq.
  cbn [m_add m_mul Fr_module] in Hq. set (q := poly_eval (m_quotient c z) srs_tau) in *.
  assert (HP : G1_mul (AffineG1_into P) (srs_tau - z) = G1_mul G1_one (poly_eval c srs_tau - y)).
  { apply (G1_add_cancel (G1_mul (AffineG1_into P) z)). rewrite (G1_add_comm _ (G1_mul G1_one _)), <-Hopen.
    rewrite <-G1_mul_add_r. f_equal. ring. }
  rewrite G1_mul_mul. replace (i * (srs_tau - z)) with ((srs_tau - z) * i) by ring.
  rewrite <-G1_mul_mul, G1_sub_mul, HP, (G1_mul_mul G1_one), G1_mul_sub, G1_mul_mul.
  etransitivity; [|apply G1_mul_one]. f_equal. rewrite <-Hi, Hq. ring.
Qed.

(** ** One payload *)

(** The point [c] commits to the blob [bs0]. *)
Definition commits_to (srs : list bn_G1) (c : G1Point) (bs0 : Bytes) : Prop :=
  ∃ C p0 c0, g1_point_to_affine c = Ok C ∧ blob_polynomial bs0 = Ok p0 ∧ interpolates p0 c0 ∧
    (length c0 ≤ length srs)%nat ∧ AffineG1_into C = commit srs c0.

(** The polynomials of both blobs have one value at [z]. *)
Definition meet (p p0 : PolynomialEvalForm) (z : Fr) : Prop :=
  evaluate_polynomial_in_evaluation_form p z = evaluate_polynomial_in_evaluation_form p0 z.

(** The challenge of the payload [bs] is one of the points, fewer than its field elements,
    where the blobs meet. *)
Definition unlucky_challenge (c : G1Point) (bs bs0 : Bytes) : Prop :=
  ∃ C p p0 z, g1_point_to_affine c = Ok C ∧ blob_polynomial bs = Ok p ∧ blob_polynomial bs0 = Ok p0 ∧
    compute_challenge p C = Done (Ok z) ∧ meet p p0 z ∧
    ∀ zs, NoDup zs → Forall (meet p p0) zs → (length zs < poly_len p)%nat.

(** The proof solves the strong Diffie-Hellman problem at the challenge. *)
Definition sdh_broken (srs : list bn_G1) (c : G1Point) (bs bs0 proof : Bytes) : Prop :=
  ∃ C p p0 c0 z y P, g1_point_to_affine c = Ok C ∧ blob_polynomial bs = Ok p ∧
    blob_polynomial bs0 = Ok p0 ∧ interpolates p0 c0 ∧ proof_bytes_to_affine proof = Ok P ∧
    challenge_and_evaluate (p, C) = Done (Ok (z, y)) ∧ solves_sdh z (sdh_solution srs c0 z y P).

(** The payload has the field elements of the blob. *)
Definition same_elements (bs bs0 : Bytes) : Prop :=
  ∃ evals, to_fr_array_canonical bs = Ok evals ∧ to_fr_array_canonical bs0 = Ok evals.

(** *** From field elements to bytes *)

(** The check of a chunk passes exactly if [Fr::from_slice] gives the reduced value. *)
Lemma canonical_chunk_Ok c a :
  length c = 32%nat →
  canonical_chunk c = Ok a ↔ Fr_from_slice c = Some a ∧ a = Fr_of_Z (from_be_bytes c).
Proof.
  intros Hl. unfold canonical_chunk. rewrite Fr_from_bytes_total by done.
  destruct (Fr_from_slice c) as [d|]; [|by split; [|intros [[=] _]]].
  case_bool_decide as Hd; split.
  - done.
  - by intros [[= ->] ->].
  - intros [= <-]. split; [done|]. by destruct (decide (Fr_of_Z (from_be_bytes c) = d)).
  - by intros [[= ->] _].
Qed.

(** Chunks below the order of the field, and the chunks that pass the check without. *)
Definition canonical_bytes (bs : Bytes) : Prop :=
  Forall (λ c, from_be_bytes c < fr_modulus) (chunks_exact BYTES_PER_FIELD_ELEMENT bs).
Definition slipped (bs : Bytes) : Prop :=
  Exists (λ c, fr_modulus ≤ from_be_bytes c ∧ Fr_from_slice c = Some (Fr_of_Z (from_be_bytes c)))
    (chunks_exact BYTES_PER_FIELD_ELEMENT bs).

Lemma same_chunk c c' a :
  length c = 32%nat → length c' = 32%nat → from_be_bytes c < fr_modulus → from_be_bytes c' < fr_modulus →
  canonical_chunk c = Ok a → canonical_chunk c' = Ok a → c = c'.
Proof.
  intros Hl Hl' Hr Hr' [_ ->]%canonical_chunk_Ok [_ Heq]%canonical_chunk_Ok; [|done..].
  apply Fr_of_Z_eq in Heq. pose proof (from_be_bytes_range c). pose proof (from_be_bytes_range c').
  rewrite !Z.mod_small in Heq by lia.
  rewrite <-(to_from_be_bytes c), <-(to_from_be_bytes c'), Hl, Hl'. by f_equal.
Qed.

Lemma same_chunks l l' evals :
  Forall (λ c, length c = 32%nat) l → Forall (λ c, length c = 32%nat) l' →
  Forall (λ c, from_be_bytes c < fr_modulus) l' →
  Forall2 (λ c a, canonical_chunk c = Ok a) l evals → Forall2 (λ c a, canonical_chunk c = Ok a) l' evals →
  l = l' ∨ Exists (λ c, fr_modulus ≤ from_be_bytes c ∧ Fr_from_slice c = Some (Fr_of_Z (from_be_bytes c))) l.
Proof.
  intros Hl Hl' Hr Hc. revert l' Hl' Hr. induction Hc as [|c a l evals Hca Hc IH]; intros l' Hl' Hr Hc';
    [apply Forall2_nil_inv_r in Hc' as ->; by left|].
  apply Forall2_cons_inv_r in Hc' as (c' & l2 & Hca' & Hc' & ->).
  apply Forall_cons in Hl as [Hs Hl]. apply Forall_cons in Hl' as [Hs' Hl']. apply Forall_cons in Hr as [Hr' Hr].
  destruct (Z.lt_ge_cases (from_be_bytes c) fr_modulus) as [Hsmall|Hbig].
  - destruct (IH Hl l2 Hl' Hr Hc') as [->|Hslip]; [left|right; by constructor 2].
    f_equal. by eapply same_chunk.
  - right. constructor 1. split; [done|]. by apply canonical_chunk_Ok in Hca as [-> ->].
Qed.

Lemma chunks_inj k n bs bs0 :
  length bs = (n * k)%nat → length bs0 = (n * k)%nat → chunks k n bs = chunks k n bs0 → bs = bs0.
Proof.
  revert bs bs0. induction k as [|k IH]; intros bs bs0 Hl Hl0; cbn [chunks].
  - intros _. by rewrite (nil_length_inv bs), (nil_length_inv bs0) by lia.
  - intros [= Htake Hdrop]. rewrite <-(take_drop n bs), <-(take_drop n bs0), Htake. f_equal.
    apply IH; [rewrite length_drop; lia..|done].
Qed.

Lemma chunks_sized k n bs : length bs = (n * k)%nat → Forall (λ c, length c = n) (chunks k n bs).
Proof.
  revert bs. induction k as [|k IH]; intros bs Hl; cbn [chunks]; constructor.
  - rewrite length_take. lia.
  - apply IH. rewrite length_drop. lia.
Qed.

Lemma to_fr_array_chunks bs evals :
  to_fr_array_canonical bs = Ok evals →
  length bs = (32 * (length bs / 32))%nat ∧ length bs = (32 * length evals)%nat ∧
  Forall2 (λ c a, canonical_chunk c = Ok a) (chunks_exact BYTES_PER_FIELD_ELEMENT bs) evals.
Proof.
  intros Hb. pose proof (to_fr_array_length _ _ Hb) as Hn. unfold to_fr_array_canonical in Hb.
  destruct (bool_decide _) in Hb; [done|]. apply mapM_result_Ok in Hb.
  split_and!; [rewrite Hn, Nat.div_mul by done; lia|lia|done].
Qed.

(** Equal field elements mean equal bytes, or a chunk that the check should have refused. *)
Lemma same_elements_bytes bs bs0 :
  same_elements bs bs0 → canonical_bytes bs0 → bs = bs0 ∨ slipped bs.
Proof.
  intros (evals & (Hd & Hl & Hc)%to_fr_array_chunks & (Hd0 & Hl0 & Hc0)%to_fr_array_chunks) Hcan.
  unfold canonical_bytes, slipped, chunks_exact, BYTES_PER_FIELD_ELEMENT in *.
  destruct (same_chunks _ _ _ (chunks_sized _ _ _ Hd) (chunks_sized _ _ _ Hd0) Hcan Hc Hc0) as [Heq|?];
    [left|by right].
  assert (Hlen : length bs = length bs0) by lia. rewrite <-Hlen in Heq, Hd0.
  eapply chunks_inj; [exact Hd|rewrite <-Hlen; exact Hd|exact Heq].
Qed.

(** What decodes has no such chunk. *)
Lemma decode_not_slipped ep m : decode ep = Ok m → ¬ slipped (serialize ep).
Proof.
  intros (_ & Hsmall & _)%decode_chunks Hslip. unfold slipped in Hslip.
  apply Exists_exists in Hslip as (c & Hin & Hbig & _). rewrite Forall_forall in Hsmall.
  destruct (Hsmall _ Hin) as [_ Hc]. assert (2 ^ 248 < fr_modulus) by (vm_compute; reflexivity). lia.
Qed.

(** The payload has the field elements of the blob, and if the blob is canonical, also its
    bytes, unless a chunk has slipped through the check; then the payload does not decode. *)
Definition same_payload (ep : EncodedPayload) (bs0 : Bytes) : Prop :=
  same_elements (serialize ep) bs0 ∧
  (canonical_bytes bs0 → serialize ep = bs0 ∨ (slipped (serialize ep) ∧ ¬ ∃ m, decode ep = Ok m)).

Lemma same_elements_payload ep bs0 : same_elements (serialize ep) bs0 → same_payload ep bs0.
Proof.
  intros Hsame. split; [done|]. intros Hcan.
  destruct (same_elements_bytes _ _ Hsame Hcan) as [?|Hslip]; [by left|right].
  split; [done|]. intros [m Hm]. by eapply decode_not_slipped.
Qed.

Lemma blob_polynomial_size bs p : blob_polynomial bs = Ok p → length bs = (length bs / 32 * 32)%nat.
Proof.
  intros (evals & He%to_fr_array_length & _)%result_bind_Ok_inv.
  by rewrite He, Nat.div_mul by done.
Qed.

Lemma challenge_and_evaluate_Ok p C z y :
  challenge_and_evaluate (p, C) = Done (Ok (z, y)) →
  compute_challenge p C = Done (Ok z) ∧ evaluate_polynomial_in_evaluation_form p z = Done (Ok y).
Proof.
  unfold challenge_and_evaluate. cbn [fst snd].
  destruct (compute_challenge p C) as [[z'|e]|]; cbn [or_bind]; [|done..].
  destruct (evaluate_polynomial_in_evaluation_form p z') as [[y'|e]|] eqn:He; cbn [or_bind]; [|done..].
  by intros [= <- <-].
Qed.

Lemma opening_bound srs c bs bs0 proof C p z y P :
  srs = srs_points (length srs) → length bs = length bs0 → commits_to srs c bs0 →
  g1_point_to_affine c = Ok C → blob_polynomial bs = Ok p → proof_bytes_to_affine proof = Ok P →
  challenge_and_evaluate (p, C) = Done (Ok (z, y)) → opening_holds (C, z, y, P) →
  same_elements bs bs0 ∨ unlucky_challenge c bs bs0 ∨ sdh_broken srs c bs bs0 proof.
Proof.
  intros Hsrs Hlen (C' & p0 & c0 & HC & Hp0 & Hc0 & Hl0 & HC0) HC' Hp HP Hzy Hopen.
  rewrite HC' in HC. injection HC as <-.
  destruct (challenge_and_evaluate_Ok _ _ _ _ Hzy) as [Hz Hy].
  pose proof Hp as (evals & Hevals & Hnew)%result_bind_Ok_inv.
  pose proof Hp0 as (evals0 & Hevals0 & Hnew0)%result_bind_Ok_inv.
  pose proof (to_fr_array_length _ _ Hevals) as Hn. pose proof (to_fr_array_length _ _ Hevals0) as Hn0.
  destruct (decide (evals = evals0)) as [->|Hdiff].
  { left. by exists evals0. }
  assert (Hne : evals ≠ []) by (intros ->; destruct evals0; [done|cbn in Hn, Hn0; lia]).
  assert (Hne0 : evals0 ≠ []) by (intros ->; destruct evals; [done|cbn in Hn, Hn0; lia]).
  right. destruct (decide (y = poly_eval c0 z)) as [Hsame|Hwrong].
  - left. exists C, p, p0, z. split_and!; [done..| |].
    + unfold meet. rewrite Hy, (evaluate_interpolant evals0 p0 z c0) by done. by rewrite Hsame.
    + intros zs Hnd Hmeet. apply (evaluations_separate evals evals0 p p0 zs); try done. lia.
  - right. exists C, p, p0, c0, z, y, P. split_and!; [done..|]. rewrite Hsrs.
    apply (wrong_value_solves _ _ _ _ C); [done|by rewrite <-Hsrs|done|done].
Qed.
End binding.

(** ** The batch *)

Section batch.
Context `{!SubstrateBn, !FrLaws, !CurveLaws}.

(** The challenge of the whole batch is one of fewer field elements than there are blobs, at
    which openings that do not all hold combine to zero. *)
Definition unlucky_batch (blobs : list Bytes) (commitments : list G1Point) (proofs : list Bytes) : Prop :=
  ∃ polys cs ps zys,
    Forall2 (λ b p, blob_polynomial b = Ok p) blobs polys ∧
    Forall2 (λ c a, g1_point_to_affine c = Ok a) commitments cs ∧
    Forall2 (λ p a, proof_bytes_to_affine p = Ok a) proofs ps ∧
    Forall2 (λ pc zy, challenge_and_evaluate pc = Done (Ok zy)) (zip polys cs) zys ∧
    unlucky_combination ((λ p, Z.of_nat (poly_len p)) <$> polys) cs zys.*1 zys.*2 ps.

(** What holds of one blob, commitment and proof of an accepted batch. *)
Definition opened (b : Bytes) (c : G1Point) (proof : Bytes) : Prop :=
  ∃ C p z y P, g1_point_to_affine c = Ok C ∧ blob_polynomial b = Ok p ∧ proof_bytes_to_affine proof = Ok P ∧
    challenge_and_evaluate (p, C) = Done (Ok (z, y)) ∧ opening_holds (C, z, y, P).

Lemma accepted_opened blobs commitments proofs i b c pr :
  batch_sound blobs commitments proofs → blobs !! i = Some b → commitments !! i = Some c →
  proofs !! i = Some pr → unlucky_batch blobs commitments proofs ∨ opened b c pr.
Proof.
  intros (polys & cs & ps & zys & Hpolys & Hcs & Hps & _ & _ & Hzys & [Hall|Hunlucky]) Hb Hc Hpr;
    [right|left; by exists polys, cs, ps, zys].
  destruct (Forall2_lookup_l _ _ _ _ _ Hpolys Hb) as (p & Hp & Hbp).
  destruct (Forall2_lookup_l _ _ _ _ _ Hcs Hc) as (C & HC & HcC).
  destruct (Forall2_lookup_l _ _ _ _ _ Hps Hpr) as (P & HP & HprP).
  assert (Hzip : zip polys cs !! i = Some (p, C)) by (apply lookup_zip_Some; done).
  destruct (Forall2_lookup_l _ _ _ _ _ Hzys Hzip) as ([z y] & Hzy & Hch).
  exists C, p, z, y, P. split_and!; [done..|]. rewrite Forall_lookup in Hall. apply (Hall i).
  rewrite !lookup_zip_Some, !list_lookup_fmap, Hzy. by split_and!.
Qed.
End batch.

(** ** The payloads of a witness *)

Section witness.
Context `{!Alloy, !AlloyLaws, !SubstrateBn, !FrLaws, !CurveLaws}.
Implicit Types payloads : list (AltDACommitment * EncodedPayload * Bytes).

(** The payload and the proof of a certificate that commits to [bs0]. *)
Definition bound (srs : list bn_G1) (c : AltDACommitment) (ep : EncodedPayload) (proof bs0 : Bytes) : Prop :=
  same_payload ep bs0 ∨ unlucky_challenge (get_kzg_commitment c) (serialize ep) bs0 ∨
  sdh_broken srs (get_kzg_commitment c) (serialize ep) bs0 proof.

(** The batch of the payloads had an unlucky challenge. *)
Definition unlucky_payloads payloads : Prop :=
  unlucky_batch ((λ e, serialize e.1.2) <$> payloads) ((λ e, get_kzg_commitment e.1.1) <$> payloads)
    (snd <$> payloads).

Lemma payloads_opened payloads :
  batch_accepts ((λ e, serialize e.1.2) <$> payloads) ((λ e, get_kzg_commitment e.1.1) <$> payloads)
    (snd <$> payloads) →
  unlucky_payloads payloads ∨
  ∀ c ep proof, (c, ep, proof) ∈ payloads → opened (serialize ep) (get_kzg_commitment c) proof.
Proof.
  intros Hacc%accepts_sound.
  assert (Hopened : Forall (λ e, unlucky_payloads payloads ∨
    opened (serialize e.1.2) (get_kzg_commitment e.1.1) e.2) payloads).
  { apply Forall_lookup. intros i e Hi.
    apply (accepted_opened _ _ _ i); [done|by rewrite list_lookup_fmap, Hi..]. }
  apply Forall_or_all in Hopened as [?|Hopened]; [by left|right].
  rewrite Forall_forall in Hopened. intros c ep proof Hin. exact (Hopened _ Hin).
Qed.

Lemma opened_bound srs c ep proof bs0 :
  srs = srs_points (length srs) → num_field_element ep = get_num_field_element c →
  opened (serialize ep) (get_kzg_commitment c) proof → commits_to srs (get_kzg_commitment c) bs0 →
  Z.of_nat (length bs0 / 32) = get_num_field_element c → bound srs c ep proof bs0.
Proof.
  intros Hsrs Hnum (C & q & z & y & P & HC & Hq & HP & Hzy & Hopen) Hcommit Hsize.
  assert (Hlen : length (serialize ep) = length bs0).
  { pose proof Hcommit as (_ & p0 & _ & _ & Hp0 & _). rewrite <-Hsize in Hnum. apply Nat2Z.inj in Hnum.
    rewrite (blob_polynomial_size _ _ Hq), (blob_polynomial_size _ _ Hp0).
    unfold serialize, BYTES_PER_FIELD_ELEMENT in *. by rewrite Hnum. }
  destruct (opening_bound srs _ _ bs0 _ C q z y P Hsrs Hlen Hcommit HC Hq HP Hzy Hopen) as [Hsame|Hbad];
    [left; by apply same_elements_payload|by right].
Qed.

Lemma payloads_bound_to srs payloads :
  srs = srs_points (length srs) →
  Forall (λ e, num_field_element e.1.2 = get_num_field_element e.1.1) payloads →
  batch_accepts ((λ e, serialize e.1.2) <$> payloads) ((λ e, get_kzg_commitment e.1.1) <$> payloads)
    (snd <$> payloads) →
  unlucky_payloads payloads ∨
  ∀ c ep proof bs0, (c, ep, proof) ∈ payloads → commits_to srs (get_kzg_commitment c) bs0 →
    Z.of_nat (length bs0 / 32) = get_num_field_element c → bound srs c ep proof bs0.
Proof.
  intros Hsrs Hnum [?|Hopened]%payloads_opened; [by left|right]. rewrite Forall_forall in Hnum.
  intros c ep proof bs0 Hin. apply opened_bound; [done|exact (Hnum _ Hin)|by apply Hopened].
Qed.
End witness.

(** ** Properties *)

Section claims.
Context `{!Alloy, !AlloyLaws, !SubstrateBn, !FrLaws, !CurveLaws, !CanoeVerifier V,
  !CanoeVerifierAddressFetcher F}.

(** C4: The zkVM derives from committed data: when from_witness returns with the sp1-bn
    backend, the provider holds the witness's payloads in reverse. Each of them has exactly
    the field elements of any blob of the certificate's size that the certificate's point
    commits to with the trusted setup. If every chunk of the blob is below the field's
    order, the payload is the blob byte by byte, or has a chunk that is not and that
    Fr::from_slice nevertheless reads as its reduced value, and then does not decode. The
    exceptions: the batch's challenge or the payload's own challenge is one of a few
    unlucky field elements (fewer than the blobs of the batch, fewer than the payload's
    field elements), or the witness's proof yields, by the computation of sdh_solution, the
    generator divided by tau minus the challenge. *)
Theorem payloads_bound (srs : list bn_G1) (w : EigenDAWitness) (hash : B256)
    (number timestamp chain : Z) (v : V) (f : F) (p : PreloadedEigenDAPreimageProvider)
    (Hsrs : srs = srs_points (length srs))
    (Hp : from_witness (H := sp1_bn_backend) w hash number timestamp chain v f = Done p) :
  encoded_payload_entries p = rev (fst <$> witness_encoded_payloads w) ∧
  (unlucky_payloads (witness_encoded_payloads w) ∨
   ∀ c ep proof bs0, (c, ep, proof) ∈ witness_encoded_payloads w →
     commits_to srs (get_kzg_commitment c) bs0 →
     Z.of_nat (length bs0 / 32) = get_num_field_element c →
     bound srs c ep proof bs0).
Proof.
  split; [by apply from_witness_Done in Hp as [-> _]|].
  apply from_witness_payloads in Hp as [Hnum Hacc]. by apply payloads_bound_to.
Qed.
End claims.
