(* ===== verification/ProverTheory.v ===== *)
(** * Honest KZG proofs and the verifier in the zkVM

    What rust-kzg-bn254's prover promises, and what the zkVM's verifier says to proofs that
    [create_kzg_proofs_for_eigenda_preimage] makes with it: it accepts a batch exactly if
    no commitment and no proof in it is the point at infinity, which no affine point of
    substrate-bn has the coordinates of.  A payload whose field elements are all equal, one
    of a single field element for instance, has such a proof. *)

From S2P Require Export WitnessTheory KzgProperties.
From Stdlib Require Import Ring.

(** ** The prover *)

Section prover.
Context `{!KzgProver}.

(** The commitment and the proof that [compute_kzg_proof_with_srs] computes. *)
Definition prover_run (bs : Bytes) (srs : SRS) : result Client.KzgError (ProverG1 * ProverG1) :=
  kzg ← calculate_and_store_roots_of_unity (Z.of_nat (length bs)) KZG_new;
  blob ← ProverBlob_new bs;
  input_poly ← to_polynomial_eval_form blob;
  commitment ← commit_eval_form kzg input_poly srs;
  proof ← compute_blob_proof kzg blob commitment srs;
  Ok (commitment, proof).

Definition coordinates (p : ProverG1) : G1Point := {| x := proof_x p; y := proof_y p |}.
Definition coordinate_bytes (p : ProverG1) : Bytes := to_be_bytes 32 (proof_x p) ++ to_be_bytes 32 (proof_y p).

Lemma compute_kzg_proof_run bs srs C P :
  prover_run bs srs = Ok (C, P) → 0 ≤ proof_x P < 2 ^ 256 → 0 ≤ proof_y P < 2 ^ 256 →
  compute_kzg_proof_with_srs bs srs = Done (Ok (coordinate_bytes P)).
Proof.
  unfold prover_run, compute_kzg_proof_with_srs. intros Hrun Hx Hy.
  destruct (calculate_and_store_roots_of_unity _ _) as [kzg|]; [|done]. rewrite Ok_bind in Hrun.
  destruct (ProverBlob_new bs) as [blob|]; [|done]. rewrite Ok_bind in Hrun. cbn [expect]. rewrite !Done_bind.
  destruct (to_polynomial_eval_form blob) as [poly|]; [|done]. rewrite Ok_bind in Hrun. cbn [or_bind].
  destruct (commit_eval_form kzg poly srs) as [C'|]; [|done]. rewrite Ok_bind in Hrun. cbn [or_bind].
  destruct (compute_blob_proof kzg blob C' srs) as [P'|]; [|done]. injection Hrun as <- <-. cbn [or_bind].
  rewrite !convert_biguint_spec, !bool_decide_true by lia. by rewrite !Done_bind.
Qed.
End prover.

(** The laws of the prover: its points are elements of G1 with coordinates that substrate-bn
    reads back, but for the point at infinity, whose coordinates (arkworks: zero and zero)
    are not on the curve; the SRS holds so many points; for a blob within the SRS the
    commitment is the blob's polynomial at the secret, and the proof, if the commitment is
    finite, the polynomial's quotient for the verifier's challenge. *)
Class KzgProverLaws `{!SubstrateBn, !FrLaws, !CurveLaws, !KzgProver} := {
  srs_size : SRS → nat;
  prover_point : ProverG1 → bn_G1;
  prover_coordinates p : 0 ≤ proof_x p < 2 ^ 256 ∧ 0 ≤ proof_y p < 2 ^ 256;
  prover_affine p : prover_point p ≠ G1_zero →
    ∃ a, g1_point_to_affine (coordinates p) = Ok a ∧ AffineG1_into a = prover_point p;
  prover_infinity p a : prover_point p = G1_zero → g1_point_to_affine (coordinates p) ≠ Ok a;
  prover_law bs srs poly c : bs ≠ [] → blob_polynomial bs = Ok poly → (poly_len poly ≤ srs_size srs)%nat →
    interpolates poly c →
    ∃ C P, prover_run bs srs = Ok (C, P) ∧
      prover_point C = G1_mul G1_one (poly_eval c srs_tau) ∧
      ∀ a z, g1_point_to_affine (coordinates C) = Ok a → compute_challenge poly a = Done (Ok z) →
        prover_point P = G1_mul G1_one (quotient_eval c z srs_tau);
}.

Section verdict.
Context `{!SubstrateBn, !FrLaws, !CurveLaws, !KzgProver, !KzgProverLaws}.
Add Ring fr_ring : Fr_ring.

(** A payload that can be proved: canonical field elements, at least one, within the SRS. *)
Definition provable (ep : EncodedPayload) : Prop :=
  serialize ep ≠ [] ∧ ∃ poly, blob_polynomial (serialize ep) = Ok poly ∧ (poly_len poly ≤ srs_size G1_SRS)%nat.

(** The certificate carries the payload's commitment. *)
Definition committed (e : AltDACommitment * EncodedPayload) : Prop :=
  ∃ C P, prover_run (serialize e.2) G1_SRS = Ok (C, P) ∧ get_kzg_commitment e.1 = coordinates C.

(** Neither the commitment nor the proof is the point at infinity. *)
Definition finite_points (ep : EncodedPayload) : Prop :=
  ∃ C P, prover_run (serialize ep) G1_SRS = Ok (C, P) ∧ prover_point C ≠ G1_zero ∧ prover_point P ≠ G1_zero.

Lemma coordinate_bytes_affine P a :
  proof_bytes_to_affine (coordinate_bytes P) = Ok a ↔ g1_point_to_affine (coordinates P) = Ok a.
Proof.
  unfold proof_bytes_to_affine, coordinate_bytes, g1_point_to_affine, coordinates. cbn [x y].
  rewrite take_app_length', drop_app_length' by (by rewrite length_to_be_bytes).
  destruct (Fq_from_be_bytes_mod_order _); [|done]. destruct (Fq_from_be_bytes_mod_order _); [|done].
  by destruct (AffineG1_new _ _).
Qed.

Lemma blob_polynomial_interpolant bs poly :
  bs ≠ [] → blob_polynomial bs = Ok poly →
  ∃ c, interpolates poly c ∧ (∀ c', interpolates poly c' → c' = c) ∧
    ∀ z, evaluate_polynomial_in_evaluation_form poly z = Done (Ok (poly_eval c z)).
Proof.
  intros Hne (evals & Hevals & Hnew)%result_bind_Ok_inv.
  assert (Hevals' : evals ≠ []) by (by eapply to_fr_array_nonempty).
  destruct (interpolant_exists evals poly Hevals' Hnew) as (c & Hc & Hunique). exists c.
  split_and!; [done|done|]. intros z. by apply (evaluate_interpolant evals).
Qed.
(** What substrate-bn reads from the coordinates is the prover's point, which is finite. *)
Lemma affine_point p a :
  g1_point_to_affine (coordinates p) = Ok a → AffineG1_into a = prover_point p ∧ prover_point p ≠ G1_zero.
Proof.
  intros Ha. destruct (G1_is_zero (prover_point p)) eqn:Hz.
  - apply G1_is_zero_spec in Hz. by destruct (prover_infinity p a Hz).
  - assert (Hne : prover_point p ≠ G1_zero) by (intros Heq%G1_is_zero_spec; congruence).
    destruct (prover_affine p Hne) as (a' & Ha' & Hinto). split; [congruence|done].
Qed.

(** One payload's run of the prover, with what the verifier computes for it. *)
Lemma prover_entry e :
  provable e.2 → committed e → ∃ poly C P, blob_polynomial (serialize e.2) = Ok poly ∧
    prover_run (serialize e.2) G1_SRS = Ok (C, P) ∧ get_kzg_commitment e.1 = coordinates C ∧
    ∀ a p, g1_point_to_affine (coordinates C) = Ok a → proof_bytes_to_affine (coordinate_bytes P) = Ok p →
      ∃ z y, challenge_and_evaluate (poly, a) = Done (Ok (z, y)) ∧ honest_entry (a, z, y, p).
Proof.
  intros (Hne & poly & Hpoly & Hsize) (C & P & Hrun & Hcommit). exists poly, C, P.
  split_and!; [done..|]. intros a p Ha Hp.
  destruct (blob_polynomial_interpolant _ _ Hne Hpoly) as (c & Hc & _ & Heval).
  destruct (prover_law (serialize e.2) G1_SRS poly c Hne Hpoly Hsize Hc) as (C' & P' & Hrun' & HC & HP).
  rewrite Hrun in Hrun'. injection Hrun' as <- <-.
  destruct (compute_challenge_spec poly a) as (bs & _ & _ & Hz).
  eexists _, _. split.
  - unfold challenge_and_evaluate. cbn [fst snd]. rewrite Hz. cbn [or_bind]. rewrite Heval. reflexivity.
  - exists c. split_and!; [|done|].
    + rewrite <-HC. by apply affine_point.
    + rewrite <-(HP a _ Ha Hz). apply affine_point. by apply coordinate_bytes_affine.
Qed.
(** ** The batch *)

(** The proof that [create_kzg_proofs_for_eigenda_preimage] makes for a payload. *)
Definition honest_proof (e : AltDACommitment * EncodedPayload) (proof : Bytes) : Prop :=
  ∃ C P, prover_run (serialize e.2) G1_SRS = Ok (C, P) ∧ get_kzg_commitment e.1 = coordinates C ∧
    proof = coordinate_bytes P.

Lemma honest_proofs_made pre :
  Forall committed (preimage_encoded_payloads pre) →
  ∃ proofs, create_kzg_proofs_for_eigenda_preimage pre = Done proofs ∧
    Forall2 honest_proof (preimage_encoded_payloads pre) proofs.
Proof.
  unfold create_kzg_proofs_for_eigenda_preimage, compute_kzg_proof.
  induction 1 as [|[c ep] es (C & P & Hrun & HC) _ (proofs & Hproofs & Hall)]; [by exists []|].
  exists (coordinate_bytes P :: proofs). split; [|constructor; [by exists C, P|done]].
  cbn [mapM_outcome]. cbn [snd] in Hrun.
  destruct (prover_coordinates P) as [Hx Hy].
  rewrite (compute_kzg_proof_run _ _ C P Hrun Hx Hy), Done_bind. cbn [expect]. rewrite Done_bind.
  rewrite bool_decide_true by (unfold coordinate_bytes; by rewrite length_app, !length_to_be_bytes).
  cbn [assert]. by rewrite !Done_bind, Hproofs.
Qed.

(** What the verifier decodes and computes for one opening: the polynomial, the affine
    commitment, the challenge, the value and the affine proof. *)
Abbreviation row := (PolynomialEvalForm * (AffineG1 * Fr * Fr * AffineG1))%type.
Definition row_of (e : AltDACommitment * EncodedPayload) (proof : Bytes) (r : row) : Prop :=
  let '(poly, (a, z, y, p)) := r in
  blob_polynomial (serialize e.2) = Ok poly ∧ g1_point_to_affine (get_kzg_commitment e.1) = Ok a ∧
  proof_bytes_to_affine proof = Ok p ∧ challenge_and_evaluate (poly, a) = Done (Ok (z, y)) ∧
  honest_entry (a, z, y, p).

Lemma finite_row e proof :
  provable e.2 → committed e → honest_proof e proof → finite_points e.2 → ∃ r, row_of e proof r.
Proof.
  intros Hprov Hcommit (C & P & Hrun & HC & ->) (C' & P' & Hrun' & HCf & HPf).
  rewrite Hrun in Hrun'. injection Hrun' as <- <-.
  destruct (prover_entry e Hprov Hcommit) as (poly & C' & P' & Hpoly & Hrun' & _ & Hentry).
  rewrite Hrun in Hrun'. injection Hrun' as <- <-.
  destruct (prover_affine C HCf) as (a & Ha & _), (prover_affine P HPf) as (p & Hp & _).
  apply coordinate_bytes_affine in Hp. destruct (Hentry a p Ha Hp) as (z & y & Hzy & Hhonest).
  exists (poly, (a, z, y, p)). rewrite <-HC in Ha. by split_and!.
Qed.

Lemma finite_rows es proofs :
  Forall (λ e, provable e.2) es → Forall committed es → Forall2 honest_proof es proofs →
  Forall (λ e, finite_points e.2) es → ∃ rows, Forall2 (λ ep r, row_of ep.1 ep.2 r) (zip es proofs) rows.
Proof.
  intros Hprov Hcommit Hall. induction Hall as [|e proof es proofs He _ IH]; intros Hfin; [by exists []|].
  apply Forall_cons in Hprov as [Hp Hprov], Hcommit as [Hc Hcommit], Hfin as [Hf Hfin].
  destruct (finite_row e proof Hp Hc He Hf) as [r Hr], (IH Hprov Hcommit Hfin) as [rows Hrows].
  exists (r :: rows). by constructor.
Qed.

(** An accepted batch decodes, so its points are finite. *)
Lemma accepted_finite es proofs :
  Forall2 honest_proof es proofs →
  batch_accepts ((λ e, serialize e.2) <$> es) ((λ e, get_kzg_commitment e.1) <$> es) proofs →
  Forall (λ e, finite_points e.2) es.
Proof.
  intros Hall (polys & cs & ps & _ & Hcs & Hps & _). revert cs ps Hcs Hps.
  induction Hall as [|e proof es proofs (C & P & Hrun & HC & ->) _ IH]; intros cs ps Hcs Hps; [done|].
  rewrite fmap_cons in Hcs. apply Forall2_cons_inv_l in Hcs as (a & cs' & Ha & Hcs & ->).
  apply Forall2_cons_inv_l in Hps as (p & ps' & Hp & Hps & ->).
  constructor; [|by apply (IH cs' ps')]. rewrite HC in Ha. apply coordinate_bytes_affine in Hp.
  exists C, P. split; [done|]. by split; [apply (affine_point C a)|apply (affine_point P p)].
Qed.

Lemma rows_accepted es proofs rows :
  Forall2 (λ ep r, row_of ep.1 ep.2 r) (zip es proofs) rows → length proofs = length es →
  batch_accepts ((λ e, serialize e.2) <$> es) ((λ e, get_kzg_commitment e.1) <$> es) proofs.
Proof.
  intros Hrows Hl. exists rows.*1, ((λ r : row, r.2.1.1.1) <$> rows), ((λ r : row, r.2.2) <$> rows).
  assert (Hdec : Forall2 (λ b p, blob_polynomial b = Ok p) ((λ e, serialize e.2) <$> es) rows.*1 ∧
    Forall2 (λ c a, g1_point_to_affine c = Ok a) ((λ e, get_kzg_commitment e.1) <$> es)
      ((λ r : row, r.2.1.1.1) <$> rows) ∧
    Forall2 (λ p a, proof_bytes_to_affine p = Ok a) proofs ((λ r : row, r.2.2) <$> rows) ∧
    Forall (λ r : row, challenge_and_evaluate (r.1, r.2.1.1.1) = Done (Ok (r.2.1.1.2, r.2.1.2)) ∧
      honest_entry r.2) rows).
  { clear -Hrows Hl. revert proofs rows Hrows Hl.
    induction es as [|e es IH]; intros [|pr proofs] rows Hrows Hl; try done.
    - by inversion Hrows.
    - cbn in Hrows. apply Forall2_cons_inv_l in Hrows as ([poly [[[a z] y'] p]] & rows' & Hr & Hrows & ->).
      injection Hl as Hl. destruct (IH proofs rows' Hrows Hl) as (? & ? & ? & ?).
      destruct Hr as (? & ? & ? & ? & ?). rewrite !fmap_cons. split_and!; by constructor. }
  destruct Hdec as (Hpolys & Hcs & Hps & Hall). rewrite !length_fmap. split_and!; [done..|]. intros _.
  set (zys := (λ r : row, (r.2.1.1.2, r.2.1.2)) <$> rows).
  assert (Hes : zip (zip (zip ((λ r : row, r.2.1.1.1) <$> rows) zys.*1) zys.*2)
      ((λ r : row, r.2.2) <$> rows) = rows.*2).
  { unfold zys. clear. induction rows as [|[poly [[[a z] y'] p]] rows IH]; [done|].
    rewrite !fmap_cons. cbn [zip_with]. by rewrite IH. }
  destruct (entries_total rows.*2) as (bss & Hbss & _).
  exists zys, bss. rewrite Hes. split_and!; [|done|].
  - unfold zys. clear -Hall. induction Hall as [|r rows [Hr _] _ IH]; [done|].
    rewrite !fmap_cons. cbn [zip_with]. by constructor.
  - unfold combined_defect. rewrite Hes. apply zero_defects_combine, Forall_fmap.
    eapply Forall_impl; [exact Hall|]. intros r [_ Hr]. by apply honest_defect.
Qed.
(** ** Constant payloads *)

Lemma poly_eval_zeros n z : poly_eval (replicate n Fr_zero) z = Fr_zero.
Proof. induction n as [|n IH]; [done|]. cbn. rewrite IH. ring. Qed.

Lemma quotient_eval_constant v n z x : quotient_eval (v :: replicate n Fr_zero) z x = Fr_zero.
Proof.
  assert (Hz : ∀ n, quotient_eval (replicate n Fr_zero) z x = Fr_zero).
  { intros m. induction m as [|m IH]; [done|]. cbn. rewrite poly_eval_zeros, IH. ring. }
  cbn. rewrite poly_eval_zeros, Hz. ring.
Qed.

Lemma constant_interpolant bs poly v :
  bs ≠ [] → blob_polynomial bs = Ok poly → Forall (λ f, f = v) (evaluations poly) →
  interpolates poly (v :: replicate (poly_len poly - 1) Fr_zero).
Proof.
  intros Hne Hpoly Hv. destruct (blob_polynomial_interpolant bs poly Hne Hpoly) as (c & (Hlen & roots & Hroots & Hvals) & _ & _).
  pose proof Hpoly as (evals & Hevals & Hnew)%result_bind_Ok_inv.
  apply PolynomialEvalForm_new_Ok in Hnew as (_ & Hp & _ & _).
  assert (poly_len poly ≠ 0%nat) by (rewrite Hp; unfold next_power_of_two; by apply Nat.pow_nonzero).
  split; [cbn; rewrite length_replicate; lia|]. exists roots. split; [done|].
  revert Hv. generalize (poly_len poly - 1)%nat. intros n Hv. clear Hroots Hlen.
  induction Hvals as [|d f roots fs _ _ IH]; [done|]. apply Forall_cons in Hv as [-> Hv].
  constructor; [|by apply IH]. cbn. rewrite poly_eval_zeros. ring.
Qed.

(** The proof of a constant payload is the point at infinity. *)
Lemma constant_not_finite e poly v :
  provable e.2 → committed e → blob_polynomial (serialize e.2) = Ok poly →
  Forall (λ f, f = v) (evaluations poly) → ¬ finite_points e.2.
Proof.
  intros (Hne & poly' & Hpoly' & Hsize) _ Hpoly Hv (C & P & Hrun & HC & HP).
  rewrite Hpoly in Hpoly'. injection Hpoly' as <-.
  destruct (prover_law (serialize e.2) G1_SRS poly _ Hne Hpoly Hsize (constant_interpolant _ _ _ Hne Hpoly Hv))
    as (C' & P' & Hrun' & _ & Hproof).
  rewrite Hrun in Hrun'. injection Hrun' as <- <-.
  destruct (prover_affine C HC) as (a & Ha & _).
  destruct (compute_challenge_spec poly a) as (bs & _ & _ & Hz).
  apply HP. rewrite (Hproof a _ Ha Hz), quotient_eval_constant. apply G1_mul_zero.
Qed.

Lemma single_element_constant bs poly :
  length bs = 32%nat → blob_polynomial bs = Ok poly → ∃ v, Forall (λ f, f = v) (evaluations poly).
Proof.
  intros Hl (evals & Hevals & Hnew)%result_bind_Ok_inv.
  assert (He : length evals = 1%nat).
  { revert Hevals. unfold to_fr_array_canonical. case_bool_decide; [done|].
    intros Hlen%mapM_result_Ok%Forall2_length. unfold chunks_exact in Hlen.
    rewrite length_chunks, Hl in Hlen. by rewrite <-Hlen. }
  apply PolynomialEvalForm_new_Ok in Hnew as (_ & Hp & _ & Htake). unfold poly_len in Hp. rewrite He in Hp.
  destruct (evaluations poly) as [|v [|]]; try done. exists v. by repeat constructor.
Qed.

(** ** The witness *)

Lemma from_preimage_proofs pre proofs canoe w :
  from_preimage pre proofs canoe = Ok w → snd <$> witness_encoded_payloads w = proofs.
Proof.
  unfold from_preimage. destruct (_ && _); [done|]. case_bool_decide as Hlen; [done|]. intros [= <-].
  pose proof (into_from_preimage_unchecked _ proofs canoe Hlen) as Hinto.
  apply (f_equal (λ r, r.1.2)) in Hinto. cbn [fst snd into_preimage] in Hinto.
  etransitivity; [|exact Hinto]. f_equal. symmetry.
  etransitivity; [|apply list_fmap_id]. apply fmap_eq. by intros [[]].
Qed.

Lemma witness_payload_columns w es :
  fst <$> witness_encoded_payloads w = es →
  (λ e, serialize e.1.2) <$> witness_encoded_payloads w = (λ e, serialize e.2) <$> es ∧
  (λ e, get_kzg_commitment e.1.1) <$> witness_encoded_payloads w = (λ e, get_kzg_commitment e.1) <$> es.
Proof. intros <-. by rewrite <-!list_fmap_compose. Qed.
End verdict.

(** ** Properties *)

Section claims.
Context `{!SubstrateBn, !FrLaws, !CurveLaws, !KzgProver, !KzgProverLaws}.

(** C19: Prover and verifier fit together: for payloads of canonical field elements within
    the SRS whose certificates carry their commitments,
    create_kzg_proofs_for_eigenda_preimage makes a proof for each, and the zkVM's
    batch_verify accepts the proofs if and only if no commitment and no proof among them
    is the point at infinity. *)
Theorem honest_proofs_verdict (pre : EigenDAPreimage)
    (Hprov : Forall (λ e, provable e.2) (preimage_encoded_payloads pre))
    (Hcommit : Forall committed (preimage_encoded_payloads pre)) :
  ∃ proofs b, create_kzg_proofs_for_eigenda_preimage pre = Done proofs ∧
    Kzg.batch_verify ((λ e, serialize e.2) <$> preimage_encoded_payloads pre)
      ((λ e, get_kzg_commitment e.1) <$> preimage_encoded_payloads pre) proofs = Done b ∧
    (b = true ↔ Forall (λ e, finite_points e.2) (preimage_encoded_payloads pre)).
Proof.
  destruct (honest_proofs_made pre Hcommit) as (proofs & Hproofs & Hall).
  set (es := preimage_encoded_payloads pre) in *.
  destruct (batch_verify_spec ((λ e, serialize e.2) <$> es) ((λ e, get_kzg_commitment e.1) <$> es) proofs)
    as (b & Hb & Hiff).
  exists proofs, b. split_and!; [done..|]. rewrite Hiff. split.
  - intros Hacc. by apply (accepted_finite es proofs).
  - intros Hfin. destruct (finite_rows es proofs Hprov Hcommit Hall Hfin) as [rows Hrows].
    apply (rows_accepted es proofs rows Hrows). by apply Forall2_length in Hall.
Qed.

(** C20: The zkVM cannot be convinced of a constant payload: if the field elements of one
    recorded payload are all equal, as those of any payload of a single field element are,
    then from_witness panics on the witness that is made of the record and of honest KZG
    proofs, whatever the other payloads and the canoe proof are, although the decoder and
    the fault proof program have no objection to such payloads. *)
Theorem constant_payload_refused `{!CanoeVerifier V, !CanoeVerifierAddressFetcher F}
    (pre : EigenDAPreimage) (e : AltDACommitment * EncodedPayload) (poly : PolynomialEvalForm) (v : Fr)
    (proofs : list Bytes) (canoe : option Bytes) (w : EigenDAWitness)
    (hash : B256) (number timestamp chain : Z) (ver : V) (f : F)
    (Hprov : Forall (λ e, provable e.2) (preimage_encoded_payloads pre))
    (Hcommit : Forall committed (preimage_encoded_payloads pre))
    (Hin : e ∈ preimage_encoded_payloads pre) (Hpoly : blob_polynomial (serialize e.2) = Ok poly)
    (Hconst : Forall (λ f, f = v) (evaluations poly))
    (Hmade : create_kzg_proofs_for_eigenda_preimage pre = Done proofs)
    (Hwitness : from_preimage pre proofs canoe = Ok w) :
  from_witness (H := sp1_bn_backend) w hash number timestamp chain ver f = Panic.
Proof.
  destruct (from_witness _ _ _ _ _ _ _) as [p|] eqn:Hp; [exfalso|done].
  apply from_witness_payloads in Hp as [_ Hacc].
  destruct (from_preimage_Ok _ _ _ _ Hwitness) as [_ Heps].
  destruct (witness_payload_columns w _ Heps) as [Hbs Hcs].
  rewrite Hbs, Hcs, (from_preimage_proofs _ _ _ _ Hwitness) in Hacc.
  destruct (honest_proofs_made pre Hcommit) as (proofs' & Hproofs & Hall).
  rewrite Hmade in Hproofs. injection Hproofs as <-.
  apply accepted_finite in Hacc; [|done]. rewrite Forall_forall in Hprov, Hcommit, Hacc.
  exact (constant_not_finite e poly v (Hprov e Hin) (Hcommit e Hin) Hpoly Hconst (Hacc e Hin)).
Qed.
End claims.
