(* ===== verification/Recording.v ===== *)
(** * Recording changes nothing, and keeps the record in order

    The recorder answers like the provider it wraps; and what it records keeps the shape
    that [from_witness] asserts, from the first call of a derivation to the last. *)

From S2P Require Import RlpInstance.
From S2P Require Export WitnessTheory Simulation.

(** The recorder answers like the provider under it. *)
Section recorder.
Context `{!Alloy, !EigenDAPreimageProvider T}.

#[export] Instance recorder_alike :
  ProviderSimulation False (λ (s : OracleEigenDAPreimageProviderWithPreimage T) (t : T), provider s = t).
Proof.
  split; [intros c s t <-|intros c s0 t0 s t _ _ _ <-].
  - change (get_validity c s) with (Recorder.get_validity c s). rewrite Recorder.get_validity_eq.
    by destruct (get_validity c (provider s)) as [[[]]|].
  - change (get_encoded_payload c s) with (Recorder.get_encoded_payload c s).
    rewrite Recorder.get_encoded_payload_eq.
    by destruct (get_encoded_payload c (provider s)) as [[[]]|].
Qed.
End recorder.

(** ** The shape of a record *)

(** A provider whose payloads have the length that the certificate states. *)
Class SizedProvider `{!Alloy} (T : Type) `{!EigenDAPreimageProvider T} := {
  get_encoded_payload_sized c t ep t' : AltDACommitment_wf c = true →
    get_encoded_payload c t = Done (Ok ep, t') → num_field_element ep = get_num_field_element c;
}.

(** What [from_witness] asserts of a witness, and the order behind it: the payloads are for
    certificates recorded as valid, in the order of their validities. *)
Record record_ok (pre : EigenDAPreimage) : Prop := {
  record_wf : Forall (λ v, AltDACommitment_wf v.1 = true) (preimage_validities pre);
  record_order : sublist (fst <$> preimage_encoded_payloads pre)
    (fst <$> filter (λ v, v.2 = true) (preimage_validities pre));
  record_sized : Forall (λ e, num_field_element e.2 = get_num_field_element e.1)
    (preimage_encoded_payloads pre);
}.

Lemma record_ok_default : record_ok EigenDAPreimage_default.
Proof. split; constructor. Qed.

Lemma record_ok_validity pre c v :
  record_ok pre → AltDACommitment_wf c = true →
  record_ok {| preimage_validities := preimage_validities pre ++ [(c, v)];
               preimage_encoded_payloads := preimage_encoded_payloads pre |}.
Proof.
  intros [Hwf Horder Hsized] Hc. split; [| |done]; cbn [preimage_validities preimage_encoded_payloads].
  - apply Forall_app_2; [done|]. by constructor.
  - rewrite filter_app, fmap_app. by apply sublist_inserts_r.
Qed.

Lemma record_ok_both pre c ep :
  record_ok pre → AltDACommitment_wf c = true → num_field_element ep = get_num_field_element c →
  record_ok {| preimage_validities := preimage_validities pre ++ [(c, true)];
               preimage_encoded_payloads := preimage_encoded_payloads pre ++ [(c, ep)] |}.
Proof.
  intros [Hwf Horder Hsized] Hc Hep. split; cbn [preimage_validities preimage_encoded_payloads].
  - apply Forall_app_2; [done|]. by constructor.
  - rewrite filter_app, !fmap_app, filter_cons_True by done.
    by apply sublist_app.
  - apply Forall_app_2; [done|]. by constructor.
Qed.

Lemma record_ok_length pre :
  record_ok pre →
  (length (preimage_encoded_payloads pre) ≤ length (preimage_validities pre))%nat.
Proof.
  intros [_ Horder%sublist_length _]. rewrite !length_fmap in Horder.
  pose proof (length_filter (λ v : AltDACommitment * bool, v.2 = true) (preimage_validities pre)). lia.
Qed.

Section invariant.
Context `{!Alloy, !AlloyLaws, !Kona, !EthereumDataSource E}.
Context `{!EigenDAPreimageProvider T, !SizedProvider T}.
Local Abbreviation R := (OracleEigenDAPreimageProviderWithPreimage T).
Implicit Types s : EigenDADataSource E R.

Lemma source_next_record c bn (q q' : EigenDAPreimageSource R) r :
  AltDACommitment_wf c = true → record_ok (preimage (eigenda_fetcher q)) →
  PreimageSource.next c bn q = Done (r, q') → record_ok (preimage (eigenda_fetcher q')).
Proof.
  intros Hc Hq. destruct q as [rec]. cbn [eigenda_fetcher] in Hq.
  unfold PreimageSource.next, PreimageSource.fetcher, zoom, mbind, M_bind. cbn [eigenda_fetcher].
  change (get_validity c rec) with (Recorder.get_validity c rec). rewrite Recorder.get_validity_eq.
  destruct (get_validity c (provider rec)) as [[[v|e] t]|]; [|by intros [= <- <-]|done].
  pose proof (record_ok_validity _ c v Hq Hc) as Hv.
  destruct v; [|by intros [= <- <-]].
  unfold try_bind, mret, M_ret.
  destruct (map_err _ _) as [u|k]; [|by intros [= <- <-]]. cbn [eigenda_fetcher].
  set (rec1 := Recorder.push_validity c true _).
  change (get_encoded_payload c rec1) with (Recorder.get_encoded_payload c rec1).
  rewrite Recorder.get_encoded_payload_eq.
  destruct (get_encoded_payload c (provider rec1)) as [[[ep|e] t']|] eqn:Hep; [|by intros [= <- <-]|done].
  intros [= <- <-]. apply (record_ok_both (preimage rec) c ep Hq Hc).
  by eapply get_encoded_payload_sized.
Qed.

(** The state of a recording derivation. *)
Record recording_ok s : Prop := {
  commitment_wf : ∀ c, altda_commitment s = Some c → AltDACommitment_wf c = true;
  recorded_ok : record_ok (preimage (eigenda_fetcher (eigenda_source s)));
}.

Lemma load_recording b addr s r s' :
  DataSource.load b addr s = Done (r, s') → recording_ok s → recording_ok s'.
Proof.
  destruct s as [e q [c|]]; [by intros [= <- <-]|]. intros Hl [_ Hrec]. revert Hl.
  unfold DataSource.load, DataSource.on_ethereum, zoom, mbind, M_bind. cbn.
  destruct (eth_next b addr e) as [[[[|v rest]|k] e1]|]; cbn; [by intros [= <- <-]| | |done].
  - case_bool_decide as Hv; [by intros [= <- <-]|].
    destruct (parse (v :: rest)) as [c|] eqn:Hp; intros [= <- <-]; [|by split].
    split; [|done]. intros ? [= <-]. apply parse_Ok in Hp as (? & ? & _ & Hp).
    by destruct (try_from_Ok_inv _ _ Hp) as (? & _ & _ & _ & _ & ?).
  - case_bool_decide; by intros [= <- <-].
Qed.

Lemma resolve_recording b s r s' :
  DataSource.resolve b s = Done (r, s') → recording_ok s → recording_ok s'.
Proof.
  destruct s as [e q [c|]]; [|done]. intros Hr [Hc Hrec]. revert Hr.
  unfold DataSource.resolve, DataSource.on_eigenda, zoom, mbind, M_bind. cbn.
  destruct (PreimageSource.next c (block_number b) q) as [[r1 q1]|] eqn:Hn; [|done].
  assert (Hq1 : record_ok (preimage (eigenda_fetcher q1))).
  { by eapply source_next_record; [apply Hc| |exact Hn]. }
  destruct r1 as [ep|[]]; cbn; [destruct (decode ep)| | |]; intros [= <- <-]; by split.
Qed.

Lemma next_recording fuel b addr s r s' :
  DataSource.next fuel b addr s = Some (Done (r, s')) → recording_ok s → recording_ok s'.
Proof.
  revert s. induction fuel as [|fuel IH]; intros s; [done|]. cbn.
  destruct (DataSource.load b addr s) as [[[[d|]|k] s1]|] eqn:Hl; [| | |done].
  1, 3: intros [= <- <-] Hs; by eapply load_recording.
  destruct (DataSource.resolve b s1) as [[[[p|]|k] s2]|] eqn:Hr; [| | |done].
  1, 3: intros [= <- <-] Hs; eapply resolve_recording; [exact Hr|]; by eapply load_recording.
  intros Hn Hs. eapply IH; [exact Hn|]. eapply resolve_recording; [exact Hr|]. by eapply load_recording.
Qed.

Lemma clear_recording s : recording_ok s → recording_ok (DataSource.clear s).
Proof. intros [_ Hrec]. by split. Qed.

Lemma run_recording s rs s' : Run s rs s' → recording_ok s → recording_ok s'.
Proof.
  induction 1 as [s|s fuel b addr r s1 rs s2 Hn _ IH|s rs s2 _ IH]; intros Hs; [done| |].
  - apply IH. by eapply next_recording.
  - by apply IH, clear_recording.
Qed.

Lemma driver_recording {B} fuel (d : Driver B) s r s' :
  run_driver fuel d s = Some (Done (r, s')) → recording_ok s → recording_ok s'.
Proof.
  revert s. induction d as [r'|b addr k IH|d IH]; intros s; cbn [run_driver].
  - by intros [= <- <-].
  - destruct (DataSource.next fuel b addr s) as [[[r1 s1]|]|] eqn:Hn; [|done..].
    intros Hd Hs. eapply IH; [exact Hd|]. by eapply next_recording.
  - intros Hd Hs. eapply IH; [exact Hd|]. by apply clear_recording.
Qed.

Lemma client_recording `{!KonaClient Ora E} fuel (rec rec' : R) (o o' : Ora) r :
  run_fp_client fuel rec o = Some (Done (r, rec', o')) →
  record_ok (preimage rec) → record_ok (preimage rec').
Proof.
  unfold run_fp_client. destruct (prologue o) as [[[[|boot cursor]|e] o1]|]; [| | |done].
  1, 3: by intros [= <- <- <-].
  destruct (run_driver fuel _ _) as [[[r1 s1]|]|] eqn:Hd; [|done..].
  intros [= <- <- <-] Hrec. eapply driver_recording in Hd as [_ Hrec']; [done|]. by split.
Qed.
End invariant.

(** ** What [from_witness] accepts *)

Section acceptance.
Context `{!KzgBackend, !CanoeVerifier V, !CanoeVerifierAddressFetcher F}.

(** The two checks of a witness that are not about its shape. *)
Definition proofs_accepted (w : EigenDAWitness) hash number timestamp chain (v : V) (f : F) : Prop :=
  (witness_validities w ≠ [] → ∃ pairs,
    mapM_outcome (to_cert_validity f hash number timestamp chain) (witness_validities w) = Done pairs ∧
    validate_cert_receipt v pairs (canoe_proof_bytes w) = Done (Ok tt)) ∧
  batch_verify ((λ e, serialize e.1.2) <$> witness_encoded_payloads w)
    ((λ e, get_kzg_commitment e.1.1) <$> witness_encoded_payloads w)
    (snd <$> witness_encoded_payloads w) = Done true.

Lemma from_witness_accepts (w : EigenDAWitness) hash number timestamp chain (v : V) (f : F) :
  (length (witness_encoded_payloads w) ≤ length (witness_validities w))%nat →
  Forall (λ e, num_field_element e.1.2 = get_num_field_element e.1.1) (witness_encoded_payloads w) →
  proofs_accepted w hash number timestamp chain v f →
  from_witness w hash number timestamp chain v f =
    Done (Preloaded.holding (witness_validities w) (fst <$> witness_encoded_payloads w)).
Proof.
  intros Hlen Hnum [Hcanoe Hkzg]. unfold from_witness.
  rewrite (bool_decide_true (length (witness_encoded_payloads w) ≤ length (witness_validities w))%nat)
    by done. cbn [assert]. rewrite Done_bind.
  assert (Hforms : forM_outcome (λ '(altda_commitment, encoded_payload, _),
      assert (bool_decide (num_field_element encoded_payload = get_num_field_element altda_commitment)))
      (witness_encoded_payloads w) = Done tt).
  { apply forM_outcome_Done. eapply Forall_impl; [exact Hnum|]. intros [[c ep] p] He. cbn in *.
    by rewrite bool_decide_true. }
  rewrite Hforms, Done_bind.
  assert (Hvalid : (if bool_decide (witness_validities w = []) then Done tt
      else cert_validities ← mapM_outcome (to_cert_validity f hash number timestamp chain)
             (witness_validities w);
           receipt ← validate_cert_receipt v cert_validities (canoe_proof_bytes w);
           expect receipt) = Done tt).
  { case_bool_decide as Hne; [done|]. destruct (Hcanoe Hne) as (pairs & -> & Hv).
    by rewrite Done_bind, Hv. }
  rewrite Hvalid, Done_bind.
  assert (Hbatch : batch_verify ((λ '(_, ep, _), serialize ep) <$> witness_encoded_payloads w)
      ((λ '(ac, _, _), get_kzg_commitment ac) <$> witness_encoded_payloads w)
      ((λ '(_, _, p), p) <$> witness_encoded_payloads w) = Done true).
  { rewrite <-Hkzg. f_equal; apply fmap_eq; by intros [[]]. }
  rewrite Hbatch, Done_bind. cbn [assert]. rewrite Done_bind, length_fmap.
  rewrite bool_decide_true by done. cbn [assert]. rewrite Done_bind. unfold Preloaded.holding.
  do 3 f_equal. apply fmap_eq. by intros [[]].
Qed.

Lemma from_witness_iff (w : EigenDAWitness) hash number timestamp chain (v : V) (f : F) p :
  (length (witness_encoded_payloads w) ≤ length (witness_validities w))%nat →
  Forall (λ e, num_field_element e.1.2 = get_num_field_element e.1.1) (witness_encoded_payloads w) →
  from_witness w hash number timestamp chain v f = Done p ↔
  proofs_accepted w hash number timestamp chain v f ∧
  p = Preloaded.holding (witness_validities w) (fst <$> witness_encoded_payloads w).
Proof.
  intros Hlen Hnum. split.
  - intros (-> & _ & _ & Hcanoe & Hkzg)%from_witness_Done. by split.
  - intros [Hp ->]. by apply from_witness_accepts.
Qed.
End acceptance.

(** ** The oracle's payloads *)

(** [get_exact] fills the whole buffer. *)
Class ExactReads `{!KonaPreimage} (T : Type) `{!CommsClient T} := {
  oracle_get_exact_length k n t bs t' :
    oracle_get_exact k n t = Done (Ok bs, t') → length bs = n;
}.

Section oracle.
Context `{!Alloy, !AlloyLaws, !KonaPreimage, !CommsClient T, !ExactReads T}.

Lemma fetch_encoded_payload_length n i key payload (s : OracleEigenDAPreimageProvider T) bs s' :
  OracleProvider.fetch_encoded_payload n i key payload s = Done (Ok bs, s') →
  length payload = ((i + n) * 32)%nat → length bs = length payload.
Proof.
  revert i key payload s. induction n as [|n IH]; intros i key payload s.
  - by intros [= <- _].
  - cbn [OracleProvider.fetch_encoded_payload].
    intros (fe & s1 & Hfe & Hn)%try_bind_Ok_inv Hlen.
    assert (Hfe32 : length fe = 32%nat).
    { revert Hfe. unfold OracleProvider.call, zoom, mbind, M_bind.
      destruct (oracle_get_exact _ 32 (oracle s)) as [[[bs'|e] t]|] eqn:Ho; [|done..].
      intros [= <- _]. by eapply oracle_get_exact_length. }
    assert (Hcopy : length (copy_at (i * 32) fe payload) = length payload).
    { apply length_copy_at. lia. }
    rewrite <-Hcopy. eapply IH; [exact Hn|]. rewrite Hcopy. lia.
Qed.

Lemma oracle_payload_length c (s s' : OracleEigenDAPreimageProvider T) ep :
  OracleProvider.get_encoded_payload c s = Done (Ok ep, s') →
  length (encoded_payload ep) = (32 * Z.to_nat (get_num_field_element c))%nat.
Proof.
  unfold OracleProvider.get_encoded_payload.
  intros (u & s1 & _ & Hep)%try_bind_Ok_inv.
  apply try_bind_Ok_inv in Hep as (bs & s2 & Hf & Hep).
  injection Hep as <- _. apply fetch_encoded_payload_length in Hf.
  - cbn. rewrite Hf. unfold zeros. rewrite length_replicate. unfold BYTES_PER_FIELD_ELEMENT. lia.
  - unfold zeros. rewrite length_replicate. unfold BYTES_PER_FIELD_ELEMENT. lia.
Qed.

#[export] Instance oracle_sized : SizedProvider (OracleEigenDAPreimageProvider T).
Proof.
  split. intros c t ep t' Hwf Hep. apply oracle_payload_length in Hep.
  pose proof (AltDACommitment_wf_num c Hwf).
  unfold num_field_element, BYTES_PER_FIELD_ELEMENT. rewrite Hep, Nat.mul_comm, Nat.div_mul by lia. lia.
Qed.
End oracle.

(** ** Properties *)

Section claims.
Context `{!Alloy, !Kona, !EthereumDataSource E, !KonaClient Ora E}.

(** C33: Recording changes nothing: the client over the recorder gives the result that it
    gives over the provider underneath, leaves that provider in the same state, and panics
    or runs out of fuel exactly when it does, whatever was recorded before. *)
Theorem recording_is_transparent `{!EigenDAPreimageProvider T} (fuel : nat) (t : T)
    (pre : EigenDAPreimage) (o : Ora) :
  run_fp_client fuel t o =
  match run_fp_client fuel {| provider := t; preimage := pre |} o with
  | Some (Done (r, recorder, o')) => Some (Done (r, provider recorder, o'))
  | Some Panic => Some Panic
  | None => None
  end.
Proof.
  pose proof (client_alike False (λ (s : OracleEigenDAPreimageProviderWithPreimage T) t, provider s = t)
    fuel {| provider := t; preimage := pre |} t o eq_refl) as Hc.
  destruct (run_fp_client fuel {| provider := t; preimage := pre |} o) as [[[[r rec] o1]|]|],
    (run_fp_client fuel t o) as [[[[r' t'] o2]|]|]; try done.
  by destruct Hc as (-> & -> & ->).
Qed.

Context `{!AlloyLaws}.

(** C9: The record of a derivation keeps its shape: in every state that calls of next and
    clear reach from a fresh recorder, every certificate is well formed, the recorded
    payloads are for certificates recorded as valid, in the order of their validities (so
    there are no more payloads than validities), and each payload has the number of field
    elements of its certificate. *)
Theorem recorder_invariant `{!EigenDAPreimageProvider T, !SizedProvider T} (e : E) (t : T)
    (rs : list (result pipeline_error_kind Bytes))
    (s : EigenDADataSource E (OracleEigenDAPreimageProviderWithPreimage T))
    (Hrun : Run (DataSource.new e (PreimageSource.new
      {| provider := t; preimage := EigenDAPreimage_default |})) rs s) :
  (∀ c, altda_commitment s = Some c → AltDACommitment_wf c = true) ∧
  record_ok (preimage (eigenda_fetcher (eigenda_source s))) ∧
  (length (preimage_encoded_payloads (preimage (eigenda_fetcher (eigenda_source s)))) ≤
   length (preimage_validities (preimage (eigenda_fetcher (eigenda_source s)))))%nat.
Proof.
  destruct (run_recording _ _ _ Hrun) as [Hc Hrec]; [split; [done|exact record_ok_default]|].
  split_and!; [done..|by apply record_ok_length].
Qed.

(** C8: A recorded witness stands or falls with its proofs: for a witness made of what a
    client run recorded, from_witness returns if and only if the canoe verifier accepts
    the validities (when there are any) and the KZG verifier the payloads; the assertions
    on the numbers of payloads and field elements never fail. *)
Theorem recorded_witness_verdict `{!EigenDAPreimageProvider T, !SizedProvider T}
    `{!KzgBackend, !CanoeVerifier V, !CanoeVerifierAddressFetcher F}
    (fuel : nat) (t : T) (o o' : Ora) (r : result FaultProofProgramError unit)
    (recorder : OracleEigenDAPreimageProviderWithPreimage T)
    (kzg_proofs : list Bytes) (canoe_proof : option Bytes) (w : EigenDAWitness)
    (hash : B256) (number timestamp chain : Z) (v : V) (f : F) (p : PreloadedEigenDAPreimageProvider)
    (Hrecord : run_fp_client fuel {| provider := t; preimage := EigenDAPreimage_default |} o =
      Some (Done (r, recorder, o')))
    (Hwitness : from_preimage (preimage recorder) kzg_proofs canoe_proof = Ok w) :
  from_witness w hash number timestamp chain v f = Done p ↔
  proofs_accepted w hash number timestamp chain v f ∧
  p = Preloaded.holding (preimage_validities (preimage recorder))
        (preimage_encoded_payloads (preimage recorder)).
Proof.
  destruct (from_preimage_Ok _ _ _ _ Hwitness) as [Hvs Heps].
  pose proof (client_recording _ _ _ _ _ _ Hrecord record_ok_default) as Hrec.
  rewrite from_witness_iff, Hvs, Heps; [done| |].
  - rewrite <-(length_fmap fst), Hvs, Heps. by apply record_ok_length.
  - apply Forall_fmap with (f := fst) (P := λ e, num_field_element e.2 = get_num_field_element e.1).
    rewrite Heps. apply Hrec.
Qed.
End claims.

Section oracle_claims.
Context `{!Alloy, !AlloyLaws, !KonaPreimage, !CommsClient T, !ExactReads T}.

(** C35: An encoded payload from the oracle has the size of its certificate: over an oracle
    that fills the buffers it is given, get_encoded_payload returns exactly 32 bytes for
    each field element that the certificate states, no more and no less. *)
Theorem oracle_payload_sized (c : AltDACommitment) (s s' : OracleEigenDAPreimageProvider T)
    (ep : EncodedPayload) (Hwf : AltDACommitment_wf c = true)
    (Hget : get_encoded_payload c s = Done (Ok ep, s')) :
  Z.of_nat (length (encoded_payload ep)) = 32 * get_num_field_element c ∧
  num_field_element ep = get_num_field_element c.
Proof.
  split; [|exact (get_encoded_payload_sized c s ep s' Hwf Hget)].
  pose proof (AltDACommitment_wf_num c Hwf).
  pose proof (oracle_payload_length c s s' ep Hget) as Hlen. rewrite Hlen. lia.
Qed.
End oracle_claims.
