(* ===== verification/ZkvmTheory.v ===== *)
(** * From the preparation of a witness to the run in the zkVM

    The two ends of the zkVM integration: a witness that [prepare_witness] made is
    accepted in the zkVM exactly if [from_witness] accepts it, and a run that the zkVM
    accepts rests on proved validities and payloads only. *)

From S2P Require Export WitnessTheory.

Section lemmas.
Context `{!Alloy, !Kona, !EthereumDataSource E, !KonaClient Ora E, !KonaPreimage, !CommsClient Ora,
  !HostGlue (Ora := Ora) (E := E), !CanoeVerifierAddressFetcher F}.

Lemma run_preimage_client_Ok fuel (o o' : Ora) pre :
  run_preimage_client fuel o = Some (Done (Ok pre, o')) →
  ∃ recorder, pre = preimage recorder ∧
    run_fp_client fuel {| provider := OracleProvider.new o; preimage := EigenDAPreimage_default |} o =
      Some (Done (Ok tt, recorder, o')).
Proof.
  unfold run_preimage_client. intros Hrun.
  destruct (run_fp_client _ _ _) as [[[[[[]|e] recorder] o1]|]|] eqn:Hclient; [|done..].
  injection Hrun as <- <-. by exists recorder.
Qed.

Lemma preloaded_provider_loaded `{!KzgBackend, !CanoeVerifier V} boot (v : V) (f : F) w (o o' : Ora) p :
  eigenda_witness_to_preloaded_provider boot v f w o = Done (p, o') →
  ∃ number timestamp, l1_header_by_hash (boot_l1_head boot) o = Done (Ok (number, timestamp), o') ∧
    from_witness w (boot_l1_head boot) number timestamp (boot_l1_chain_id boot) v f = Done p.
Proof.
  unfold eigenda_witness_to_preloaded_provider. intros (r & o1 & Hr & Hp)%M_bind_Done_inv.
  apply M_bind_Done_inv in Hp as (header & o2 & Hheader & Hp). unfold lift in Hheader, Hp.
  destruct r as [[number timestamp]|e]; [|done]. injection Hheader as <- <-.
  destruct (from_witness _ _ _ _ _ _ _) as [p'|] eqn:Hw; [|done]. injection Hp as <- <-.
  by exists number, timestamp.
Qed.

Lemma witness_of_preimage_Ok `{!CanoeProvider P, !KzgProver} to_vec (f : F) pre w (s s' : Ora * P) :
  witness_of_preimage to_vec f pre s = Done (Ok w, s') →
  ∃ proofs canoe, from_preimage pre proofs canoe = Ok w.
Proof.
  unfold witness_of_preimage. intros (boot & s1 & _ & Hw)%M_bind_Done_inv.
  apply try_bind_Ok_inv in Hw as (boot' & s2 & _ & Hw).
  apply M_bind_Done_inv in Hw as (proofs & s3 & _ & Hw).
  apply try_bind_Ok_inv in Hw as (canoe & s4 & _ & Hw).
  apply M_bind_Done_inv in Hw as (bytes & s5 & _ & Hw).
  injection Hw as Hw _. destruct (from_preimage pre proofs bytes) eqn:Hpre; [|done].
  injection Hw as ->. by exists proofs, bytes.
Qed.

Lemma prepare_witness_Ok `{!CanoeProvider P, !KzgProver} to_vec fuel (f : F) w (s s' : Ora * P) :
  prepare_witness to_vec fuel f s = Some (Done (Ok w, s')) →
  ∃ recorder proofs canoe o', from_preimage (preimage recorder) proofs canoe = Ok w ∧
    run_fp_client fuel {| provider := OracleProvider.new s.1; preimage := EigenDAPreimage_default |} s.1 =
      Some (Done (Ok tt, recorder, o')).
Proof.
  unfold prepare_witness.
  destruct (run_preimage_client fuel s.1) as [[[[pre|e] o1]|]|] eqn:Hrun; [|done..].
  intros [= Hw]. destruct (run_preimage_client_Ok _ _ _ _ Hrun) as (recorder & -> & Hclient).
  destruct (witness_of_preimage_Ok _ _ _ _ _ _ Hw) as (proofs & canoe & Hpre).
  by exists recorder, proofs, canoe, o1.
Qed.
End lemmas.

(** ** Properties *)

Section claims.
Context `{!Alloy, !Kona, !EthereumDataSource E, !KonaClient Ora E, !KonaPreimage, !CommsClient Ora,
  !HostGlue (Ora := Ora) (E := E), !CanoeVerifierAddressFetcher F}.

(** C5: A prepared witness is as good as its proofs: when prepare_witness has made a
    witness over an oracle provider that never fails, and the oracle is one that the reads
    of the boot info and of the L1 head's header leave as it is, the run in the zkVM over
    the same oracle succeeds if from_witness accepts the witness for that L1 head, and
    panics if not; the derivation itself cannot go another way.  (After a request that
    fails the record does not replay: [retry_does_not_replay].) *)
Theorem prepared_witness_verdict `{!CanoeProvider P, !KzgProver, !KzgBackend, !CanoeVerifier V}
    `{!NeverFails (OracleEigenDAPreimageProvider Ora)}
    (to_vec : Receipt → outcome Bytes) (fuel : nat) (f : F) (v : V) (w : EigenDAWitness)
    (s s' : Ora * P) (boot : BootInfo) (number timestamp : Z)
    (Hprepare : prepare_witness to_vec fuel f s = Some (Done (Ok w, s')))
    (Hboot : BootInfo_load s.1 = Done (Ok boot, s.1))
    (Hheader : l1_header_by_hash (boot_l1_head boot) s.1 = Done (Ok (number, timestamp), s.1)) :
  run_within_zkvm_assume_oracle_verified fuel v f w s.1 = Some
    (match from_witness w (boot_l1_head boot) number timestamp (boot_l1_chain_id boot) v f with
     | Done _ => Done (Ok tt)
     | Panic => Panic
     end).
Proof.
  destruct (prepare_witness_Ok _ _ _ _ _ _ Hprepare) as (rec & proofs & canoe & o' & Hpre & Hclient).
  destruct (from_preimage_Ok _ _ _ _ Hpre) as [Hvs Heps].
  unfold run_within_zkvm_assume_oracle_verified, eigenda_witness_to_preloaded_provider.
  rewrite Hboot, (M_bind_done _ _ _ _ _ Hheader). unfold lift, mbind, M_bind. cbn [expect].
  destruct (from_witness w _ _ _ _ v f) as [p|] eqn:Hw; [|done].
  apply from_witness_Done in Hw as [-> _]. rewrite Hvs, Heps.
  by rewrite (replay_client _ _ _ _ _ _ Hclient).
Qed.

Context `{!AlloyLaws, !SolEncoding, !SolEncodingLaws, !Reth, !Sp1, !Sp1Soundness}.
Context `{!SubstrateBn, !FrLaws, !CurveLaws}.

(** What an accepted run in the zkVM rests on: if the program with the sp1 verifier
    and the sp1-bn backend succeeds, the fault proof client has succeeded over a provider
    that holds the witness's validities and payloads and nothing else; every payload has
    the length of its certificate and the batch passes the KZG check; and if there are
    validities, they are the contract's answers at the L1 head and chain of the boot info
    and the head's number - or their journals collide under SHA-256. *)
Theorem zkvm_run_sound (fuel : nat) (zkvm : bool) (f : F) (w : EigenDAWitness) (o : Ora)
    (Hok : Forall (λ v, commitment_ok v.1) (witness_validities w))
    (Hrun : run_within_zkvm_assume_oracle_verified (H3 := sp1_bn_backend) fuel
      {| sp1_zkvm := zkvm |} f w o = Some (Done (Ok tt))) :
  ∃ boot o1 number timestamp o2 p' o3,
    BootInfo_load o = Done (Ok boot, o1) ∧
    l1_header_by_hash (boot_l1_head boot) o1 = Done (Ok (number, timestamp), o2) ∧
    run_fp_client fuel (Preloaded.holding (witness_validities w) (fst <$> witness_encoded_payloads w)) o2 =
      Some (Done (Ok tt, p', o3)) ∧
    Forall (λ e, num_field_element e.1.2 = get_num_field_element e.1.1) (witness_encoded_payloads w) ∧
    batch_accepts ((λ e, serialize e.1.2) <$> witness_encoded_payloads w)
      ((λ e, get_kzg_commitment e.1.1) <$> witness_encoded_payloads w)
      (snd <$> witness_encoded_payloads w) ∧
    (witness_validities w ≠ [] →
     (∃ sketch ex, ClientExecutor_eth sketch = Ok ex ∧
       Forall (validity_proved f ex (boot_l1_head boot) number (boot_l1_chain_id boot))
         (witness_validities w)) ∨
     ∃ pairs, mapM_outcome (to_cert_validity f (boot_l1_head boot) number timestamp
         (boot_l1_chain_id boot)) (witness_validities w) = Done pairs ∧ journals_collide pairs).
Proof.
  revert Hrun. unfold run_within_zkvm_assume_oracle_verified.
  destruct (BootInfo_load o) as [[[boot|e] o1]|]; [|done..].
  destruct (eigenda_witness_to_preloaded_provider _ _ _ _ _) as [[p o2]|] eqn:Hload; [|done].
  destruct (run_fp_client fuel p o2) as [[[[r p'] o3]|]|] eqn:Hclient; [|done..].
  intros [= Hr]. destruct r as [[]|e]; [|done].
  apply preloaded_provider_loaded in Hload as (number & timestamp & Hheader & Hw).
  destruct (from_witness_payloads _ _ _ _ _ _ _ _ Hw) as [Hnum Hbatch].
  exists boot, o1, number, timestamp, o2, p', o3. split_and!; [done..| |done|done|].
  - pose proof Hw as Hp. apply from_witness_Done in Hp as [-> _]. exact Hclient.
  - intros Hne. by eapply from_witness_validities.
Qed.
End claims.
