(* ===== verification/Agreement.v ===== *)
(** * The zkVM agrees with the chain and with EigenDA

    A claim that the zkVM accepts is the claim of the client over any provider that
    answers truthfully: from the contract's view of the certificates at the L1 head, and
    with the blobs that the certificates commit to.  The exceptions are explicit: a
    collision of the journals' hash, an unlucky challenge of the KZG verifier, a solution
    of the strong Diffie-Hellman problem, or a field element that slips through the check
    of its range. *)

From S2P Require Export PayloadBinding Recording ZkvmTheory.

Lemma Forall_or_Exists {A} (P Q : A → Prop) l : Forall (λ a, P a ∨ Q a) l → Forall P l ∨ Exists Q l.
Proof.
  induction 1 as [|a l [?|?] _ [?|?]]; [by left; constructor|by left; constructor|by right; constructor 2|
    by right; constructor 1..].
Qed.

(** ** A preloaded provider that holds the truth *)

Section truth.
Context `{!Alloy, !KonaPreimage, !EigenDAPreimageProvider T, !NeverFails T}.
Context (world : DAWorld) (D : AltDACommitment → Prop) (Inv : T → Prop).
Context `{!FaithfulProvider world D Inv}.

Definition true_validity (v : AltDACommitment * bool) : Prop := D v.1 ∧ v.2 = is_valid world v.1.
Definition true_payload (e : AltDACommitment * EncodedPayload) : Prop :=
  is_valid world e.1 = true → e.2 = blob_of world e.1.

Definition holds_truth (p : PreloadedEigenDAPreimageProvider) (t : T) : Prop :=
  ∃ vs eps, p = Preloaded.holding vs eps ∧ Forall true_validity vs ∧ Forall true_payload eps ∧ Inv t.

Lemma truthful_validity t c :
  Inv t → D c → ∃ t', get_validity c t = Done (Ok (is_valid world c), t') ∧ Inv t'.
Proof.
  intros Ht Hc. destruct (get_validity_faithful t c Ht Hc) as (r & t' & Hr & Ht' & [->|(e & -> & _)]); [by exists t'|].
  by destruct (get_validity_never_fails _ _ _ _ Hr).
Qed.

Lemma truthful_payload t c :
  Inv t → D c → is_valid world c = true →
  ∃ t', get_encoded_payload c t = Done (Ok (blob_of world c), t') ∧ Inv t'.
Proof.
  intros Ht Hc Hv. destruct (get_encoded_payload_faithful t c Ht Hc Hv) as (r & t' & Hr & Ht' & [->|(e & -> & _)]);
    [by exists t'|].
  by destruct (get_encoded_payload_never_fails _ _ _ _ Hr).
Qed.

(** What the preloaded provider returns, and leaves. *)
Lemma held_validity c vs eps r p' :
  get_validity c (Preloaded.holding vs eps) = Done (r, p') →
  ∃ v vs', vs = (c, v) :: vs' ∧ r = Ok v ∧ p' = Preloaded.holding vs' eps.
Proof.
  change (Preloaded.get_validity c (Preloaded.holding vs eps) = Done (r, p') →
    ∃ v vs', vs = (c, v) :: vs' ∧ r = Ok v ∧ p' = Preloaded.holding vs' eps).
  rewrite Preloaded.get_validity_holding. destruct vs as [|[c' v] vs]; [done|].
  case_bool_decide; [|done]. intros [= <- <-]. subst. eauto.
Qed.

Lemma held_payload c vs eps r p' :
  get_encoded_payload c (Preloaded.holding vs eps) = Done (r, p') →
  ∃ ep eps', eps = (c, ep) :: eps' ∧ r = Ok ep ∧ p' = Preloaded.holding vs eps'.
Proof.
  change (Preloaded.get_encoded_payload c (Preloaded.holding vs eps) = Done (r, p') →
    ∃ ep eps', eps = (c, ep) :: eps' ∧ r = Ok ep ∧ p' = Preloaded.holding vs eps').
  rewrite Preloaded.get_encoded_payload_holding. destruct eps as [|[c' ep] eps]; [done|].
  case_bool_decide; [|done]. intros [= <- <-]. subst. eauto.
Qed.

(** It panics, or answers like a truthful provider. *)
#[export] Instance truth_alike : ProviderSimulation True holds_truth.
Proof.
  split.
  - intros c p t (vs & eps & -> & Hvs & Heps & Ht).
    destruct (get_validity c (Preloaded.holding vs eps)) as [[r p']|] eqn:Hp; [|by apply panic_alike].
    apply held_validity in Hp as (v & vs' & -> & -> & ->). apply Forall_cons in Hvs as [[Hc Hv] Hvs].
    cbn in Hc, Hv. destruct (truthful_validity t c Ht Hc) as (t' & -> & Ht'). cbn. rewrite Hv. split; [done|].
    by exists vs', eps.
  - intros c p t p' t' (vs & eps & -> & Hvs & _ & _) Hp _ (vs' & eps' & -> & Hvs' & Heps' & Ht').
    apply held_validity in Hp as (v & vs2 & -> & [= <-] & _). apply Forall_cons in Hvs as [[Hc Hv] _].
    destruct (get_encoded_payload c (Preloaded.holding vs' eps')) as [[r p2]|] eqn:Hp; [|by apply panic_alike].
    apply held_payload in Hp as (ep & eps2 & -> & -> & ->). apply Forall_cons in Heps' as [Hep Heps].
    destruct (truthful_payload t' c Ht' Hc (eq_sym Hv)) as (t2 & -> & Ht2).
    specialize (Hep (eq_sym Hv)). cbn [fst snd] in Hep. subst ep. split; [done|]. by exists vs', eps2.
Qed.
End truth.

(** ** Properties *)

Section claims.
Context `{!Alloy, !Kona, !EthereumDataSource E, !KonaClient Ora E, !KonaPreimage, !CommsClient Ora,
  !HostGlue (Ora := Ora) (E := E), !CanoeVerifierAddressFetcher F}.
Context `{!AlloyLaws, !SolEncoding, !SolEncodingLaws, !Reth, !Sp1, !Sp1Soundness}.
Context `{!SubstrateBn, !FrLaws, !CurveLaws}.
Context `{!EigenDAPreimageProvider T, !NeverFails T}.

(** The DA world's blob for a certificate: it has the size that the certificate states, is a
    list of canonical field elements, and the certificate commits to it. *)
Definition published (srs : list bn_G1) (world : DAWorld) (c : AltDACommitment) : Prop :=
  commits_to srs (get_kzg_commitment c) (serialize (blob_of world c)) ∧
  num_field_element (blob_of world c) = get_num_field_element c ∧
  canonical_bytes (serialize (blob_of world c)).

(** How an accepted payload of a valid certificate can differ from the published blob. *)
Definition exceptional (srs : list bn_G1) (world : DAWorld) (e : AltDACommitment * EncodedPayload * Bytes) : Prop :=
  is_valid world e.1.1 = true ∧
  (unlucky_challenge (get_kzg_commitment e.1.1) (serialize e.1.2) (serialize (blob_of world e.1.1)) ∨
   sdh_broken srs (get_kzg_commitment e.1.1) (serialize e.1.2) (serialize (blob_of world e.1.1)) e.2 ∨
   slipped (serialize e.1.2)).

Lemma payloads_true srs world (payloads : list (AltDACommitment * EncodedPayload * Bytes)) :
  srs = srs_points (length srs) →
  (∀ c, c ∈ (λ e, e.1.1) <$> payloads → is_valid world c = true → published srs world c) →
  Forall (λ e, num_field_element e.1.2 = get_num_field_element e.1.1) payloads →
  batch_accepts ((λ e, serialize e.1.2) <$> payloads) ((λ e, get_kzg_commitment e.1.1) <$> payloads)
    (snd <$> payloads) →
  Forall (true_payload world) (fst <$> payloads) ∨ unlucky_payloads payloads ∨
  Exists (exceptional srs world) payloads.
Proof.
  intros Hsrs Hpub Hnum Hacc.
  destruct (payloads_bound_to srs payloads Hsrs Hnum Hacc) as [?|Hbound]; [by right; left|].
  enough (Hall : Forall (λ e, true_payload world e.1 ∨ exceptional srs world e) payloads).
  { apply Forall_or_Exists in Hall as [Htrue|?]; [left|by right; right]. by apply Forall_fmap. }
  apply Forall_forall. intros [[c ep] proof] Hin. unfold true_payload, exceptional. cbn [fst snd].
  destruct (is_valid world c) eqn:Hv; [|by left].
  destruct (Hpub c) as (Hcommit & Hsize & Hcan); [|done|]; [by apply list_elem_of_fmap; exists (c, ep, proof)|].
  destruct (Hbound c ep proof _ Hin Hcommit Hsize) as [[_ Hbytes]|[?|?]]; [|by right; auto..].
  destruct (Hbytes Hcan) as [Heq|[? _]]; [left|by right; auto].
  intros _. destruct ep, (blob_of world c). unfold serialize in Heq. cbn in Heq. by subst.
Qed.

(** C3: The zkVM accepts what is true: if the zkVM program with the sp1 verifier and the
    sp1-bn backend succeeds, so does the fault proof client, from the same oracle state,
    over any provider that never fails and answers truthfully: with the validity that the
    verifier contract gives at the L1 head of the boot info (for the witness's
    certificates), and with the published blob of each valid certificate. Otherwise the
    witness's journals collide under SHA-256, or the KZG verifier's batch challenge was
    unlucky, or the payload of a valid certificate met an unlucky challenge, came with a
    proof that solves the strong Diffie-Hellman problem, or has a chunk above the field's
    order that Fr::from_slice reads as its reduced value. *)
Theorem zkvm_run_agrees (srs : list bn_G1) (fuel : nat) (zkvm : bool) (f : F) (w : EigenDAWitness)
    (o o1 o2 : Ora) (boot : BootInfo) (number timestamp : Z) (world : DAWorld) (Inv : T → Prop) (t : T)
    `{!FaithfulProvider world (λ c, c ∈ (witness_validities w).*1) Inv}
    (Hsrs : srs = srs_points (length srs))
    (Hok : Forall (λ v, commitment_ok v.1) (witness_validities w))
    (Hboot : BootInfo_load o = Done (Ok boot, o1))
    (Hheader : l1_header_by_hash (boot_l1_head boot) o1 = Done (Ok (number, timestamp), o2))
    (Hcontract : ∀ ex v, v ∈ witness_validities w →
      validity_proved f ex (boot_l1_head boot) number (boot_l1_chain_id boot) v → v.2 = is_valid world v.1)
    (Hpublished : ∀ c, c ∈ (λ e, e.1.1) <$> witness_encoded_payloads w → is_valid world c = true →
      published srs world c)
    (Ht : Inv t)
    (Hrun : run_within_zkvm_assume_oracle_verified (H3 := sp1_bn_backend) fuel
      {| sp1_zkvm := zkvm |} f w o = Some (Done (Ok tt))) :
  (∃ t' o3, run_fp_client fuel t o2 = Some (Done (Ok tt, t', o3))) ∨
  (∃ pairs, mapM_outcome (to_cert_validity f (boot_l1_head boot) number timestamp
     (boot_l1_chain_id boot)) (witness_validities w) = Done pairs ∧ journals_collide pairs) ∨
  unlucky_payloads (witness_encoded_payloads w) ∨
  Exists (exceptional srs world) (witness_encoded_payloads w).
Proof.
  destruct (zkvm_run_sound fuel zkvm f w o Hok Hrun)
    as (boot' & o1' & number' & ts' & o2' & p' & o3 & Hboot' & Hheader' & Hclient & Hnum & Hbatch & Hcanoe).
  rewrite Hboot in Hboot'. injection Hboot' as <- <-.
  rewrite Hheader in Hheader'. injection Hheader' as <- <- <-.
  destruct (payloads_true srs world _ Hsrs Hpublished Hnum Hbatch) as [Htrue|?]; [|by right; right].
  assert (Hvalid : Forall (true_validity world (λ c, c ∈ (witness_validities w).*1)) (witness_validities w) ∨
    ∃ pairs, mapM_outcome (to_cert_validity f (boot_l1_head boot) number timestamp (boot_l1_chain_id boot))
      (witness_validities w) = Done pairs ∧ journals_collide pairs).
  { destruct (decide (witness_validities w = [])) as [->|Hne]; [by left|].
    destruct (Hcanoe Hne) as [(sketch & ex & _ & Hproved)|?]; [left|by right].
    rewrite Forall_forall in Hproved. apply Forall_forall. intros v Hin. split; [|by eapply Hcontract; auto].
    by apply list_elem_of_fmap_2. }
  destruct Hvalid as [Hvalid|?]; [left|by right; left].
  pose proof (client_alike True (holds_truth world (λ c, c ∈ (witness_validities w).*1) Inv) fuel
    (Preloaded.holding (witness_validities w) (fst <$> witness_encoded_payloads w)) t o2) as Hsim.
  rewrite Hclient in Hsim. specialize (Hsim ltac:(by do 2 eexists)).
  destruct (run_fp_client fuel t o2) as [[[[r t'] o3']|]|]; [|done..].
  destruct Hsim as (<- & _ & _). by exists t', o3'.
Qed.
End claims.
