(* ===== verification/HostServer.v ===== *)
(** * The binaries (bin/host/src, bin/client/src, example/preloader/src/main.rs)

    The host's configuration and the backend of its preimage server, the client program
    over the oracle that the server answers, and the preloader, which makes a witness and
    runs the derivation on it.  A task's panic ends the task: the process that joins it
    sees an error.  [W] is the state of the host's machine and network. *)

From S2P Require Export Host Client CanoeHost.
From Stdlib Require Ascii.

(** ** bin/host/src/lib.rs *)

Inductive LevelFilter := INFO | DEBUG | TRACE.

Definition tracing_level (verbosity_level : Z) : LevelFilter :=
  match verbosity_level with
  | 0 => INFO
  | 1 => DEBUG
  | _ => TRACE
  end.

(** The default level and the directives that are added to it. *)
Definition init_tracing_subscriber (verbosity_level : Z) : LevelFilter * list string :=
  (tracing_level verbosity_level,
   ["hyper_util=info"; "reqwest=info"; "alloy_rpc_client=info"; "alloy_transport_http=info"]%string).

(** ** The ends of processes and tasks *)

(** [client_result.is_err() as i32] *)
Definition exit_code {E A} (client_result : result E A) : Z := if is_ok client_result then 0 else 1.

Inductive ProcessEnd (E : Type) := Exit (code : Z) | Returned (r : result E unit).
Arguments Exit {E} code.
Arguments Returned {E} r.

(** ** kona_host, kona_preimage, url and tokio *)

(** [serve_result] is how the task of the preimage server over a backend ends;
    [native_clients] are the oracle reader and the hint writer that are connected to it. *)
Class KonaHost `{!KonaPreimage, !Reqwest Net} (K W PC HC : Type) := {
  SingleChainHostError : Type;
  SingleChainHostError_Other : string → SingleChainHostError;
  (** [From<JoinError>]: the task panicked *)
  SingleChainHostError_JoinError : SingleChainHostError;
  KonaCfg : Type;
  kona_server : KonaCfg → bool;
  kona_is_offline : KonaCfg → bool;
  l1_node_address : KonaCfg → option string;
  create_key_value_store : KonaCfg → M W (result SingleChainHostError K);
  SingleChainProviders : Type;
  kona_create_providers : KonaCfg → M W (result SingleChainHostError SingleChainProviders);
  Url_parse : string → option Url;
  (** the network of the HTTP client that [new_http] makes *)
  http_client : W → Net;
  L2PayloadWitness : HintType;
  BidirectionalChannel_new : M W (result SingleChainHostError unit);
}.

(** ** bin/host/src/cfg.rs *)

Section config.
Context `{!Alloy, !KonaPreimage, !Reqwest Net, !KonaHost K W PC HC}.

Record SingleChainHostWithEigenDA := {
  kona_cfg : KonaCfg;
  eigenda_proxy_address : option string;
  verbose : Z;
}.

Record SingleChainProvidersWithEigenDA := {
  kona_providers : SingleChainProviders;
  eigenda_preimage_provider : OnlineEigenDAPreimageProvider Net;
}.

(** The backend that [start_server] gives to the preimage server. *)
Inductive HostBackend :=
| OfflineHostBackend (kv_store : K)
| OnlineHostBackend (cfg : SingleChainHostWithEigenDA) (kv_store : K)
    (providers : SingleChainProvidersWithEigenDA) (proactive_hint : option ExtendedHintType).

Definition is_offline (self : SingleChainHostWithEigenDA) : bool :=
  kona_is_offline (kona_cfg self) && bool_decide (eigenda_proxy_address self = None).

Definition create_providers (self : SingleChainHostWithEigenDA) :
    M W (result SingleChainHostError SingleChainProvidersWithEigenDA) :=
  kona_providers ←? kona_create_providers (kona_cfg self);
  url_str ←? mret (match eigenda_proxy_address self with
    | Some url_str => Ok url_str
    | None => Err (SingleChainHostError_Other "EigenDA API URL must be set")
    end);
  base_url ←? mret (match Url_parse url_str with
    | Some base_url => Ok base_url
    | None => Err (SingleChainHostError_Other "Failed to parse EigenDA API URL")
    end);
  w ← get;
  mret (Ok {| kona_providers := kona_providers;
              eigenda_preimage_provider := new_http base_url (http_client w) |}).

(** The task that is spawned, by the backend that it serves. *)
Definition start_server (self : SingleChainHostWithEigenDA) :
    M W (result SingleChainHostError HostBackend) :=
  kv_store ←? create_key_value_store (kona_cfg self);
  if is_offline self then mret (Ok (OfflineHostBackend kv_store))
  else
    providers ←? create_providers self;
    mret (Ok (OnlineHostBackend self kv_store providers (Some (Original L2PayloadWitness)))).

(** [tokio::try_join!(server_task, client_task)?]: an error of either task is a panic in
    it; what the server returned is dropped. *)
Definition try_join {C} (server_task : outcome (result SingleChainHostError unit)) (client_task : outcome C) :
    result SingleChainHostError C :=
  match server_task, client_task with
  | Done _, Done client_result => Ok client_result
  | _, _ => Err SingleChainHostError_JoinError
  end.
End config.

(** The tasks of a process: how a server ends, and the clients connected to it. *)
Class Tasks `{!KonaPreimage, !Reqwest Net, !KonaHost K W PC HC} := {
  serve_result : HostBackend → W → outcome (result SingleChainHostError unit);
  native_clients : HostBackend → W → PC * HC;
}.

(** ** bin/client/src/client.rs *)

Definition ORACLE_LRU_SIZE : Z := 1024.

(** [CachingOracle::new] over a preimage client and a hint client. *)
Class KonaOracle (PC HC Ora : Type) := { CachingOracle_new : Z → PC → HC → Ora }.

Section client.
Context `{!Alloy, !Kona, !EthereumDataSource E, !KonaClient Ora E, !KonaPreimage, !CommsClient Ora,
  !KonaOracle PC HC Ora}.

Definition run_direct_client (fuel : nat) (oracle_client : PC) (hint_client : HC) :
    option (outcome (result FaultProofProgramError unit)) :=
  let oracle := CachingOracle_new ORACLE_LRU_SIZE oracle_client hint_client in
  match run_fp_client fuel (OracleProvider.new oracle) oracle with
  | None => None
  | Some Panic => Some Panic
  | Some (Done (r, _, _)) => Some (Done r)
  end.
End client.

Section native.
Context `{!Alloy, !Kona, !EthereumDataSource E, !KonaClient Ora E, !KonaPreimage, !CommsClient Ora,
  !KonaOracle PC HC Ora, !Reqwest Net, !KonaHost K W PC HC, !Tasks}.

(** The two tasks of a process that runs a client next to its server, and its end. *)
Definition run_tasks {X A} (backend : HostBackend) (w : W) (client : PC → HC → option (outcome (result X A))) :
    option (ProcessEnd SingleChainHostError) :=
  let '(oracle_client, hint_client) := native_clients backend w in
  match client oracle_client hint_client with
  | None => None
  | Some client_task =>
      Some (match try_join (serve_result backend w) client_task with
            | Ok client_result => Exit (exit_code client_result)
            | Err e => Returned (Err e)
            end)
  end.

Definition start_native (fuel : nat) (self : SingleChainHostWithEigenDA) (w : W) :
    option (outcome (ProcessEnd SingleChainHostError)) :=
  match (_ ←? BidirectionalChannel_new; _ ←? BidirectionalChannel_new; start_server self) w with
  | Panic => Some Panic
  | Done (Err e, _) => Some (Done (Returned (Err e)))
  | Done (Ok backend, w) =>
      match run_tasks backend w (run_direct_client fuel) with
      | None => None
      | Some process_end => Some (Done process_end)
      end
  end.

Definition start (fuel : nat) (self : SingleChainHostWithEigenDA) (w : W) :
    option (outcome (ProcessEnd SingleChainHostError)) :=
  if kona_server (kona_cfg self) then
    match start_server self w with
    | Panic => Some Panic
    | Done (Err e, _) => Some (Done (Returned (Err e)))
    | Done (Ok backend, w) =>
        Some (Done (Returned (match serve_result backend w with
                              | Done r => r
                              | Panic => Err SingleChainHostError_JoinError
                              end)))
    end
  else start_native fuel self w.
End native.

(** ** example/preloader/src/main.rs *)

Definition ascii_lowercase (c : Ascii.ascii) : Ascii.ascii :=
  let n := Ascii.N_of_ascii c in
  if bool_decide (65 ≤ n ≤ 90)%N then Ascii.ascii_of_N (n + 32) else c.
Definition to_ascii_lowercase (s : string) : string :=
  String.string_of_list_ascii (ascii_lowercase <$> String.list_ascii_of_string s).

(** [mock_mode] from the environment: [parse::<bool>], and false for anything else. *)
Definition mock_mode (op_succinct_mock : option string) : bool :=
  match op_succinct_mock with
  | Some v => bool_decide (to_ascii_lowercase v = "true"%string)
  | None => false
  end.

Section preloader.
Context `{!Alloy, !Kona, !EthereumDataSource E, !KonaClient Ora E, !KonaPreimage, !CommsClient Ora,
  !HostGlue (Ora := Ora) (E := E), !KonaOracle PC HC Ora, !CanoeVerifierAddressFetcher F, !CanoeProvider C,
  !KzgProver, !KzgBackend, !CanoeVerifier V}.
Context (serde_json_to_vec : Receipt → outcome Bytes).

Definition run_witgen_and_zk_verification (fuel : nat) (oracle_client : PC) (hint_client : HC)
    (canoe_provider : C) (canoe_verifier : V) (canoe_address_fetcher : F) :
    option (outcome (result string unit)) :=
  let oracle := CachingOracle_new ORACLE_LRU_SIZE oracle_client hint_client in
  match prepare_witness serde_json_to_vec fuel canoe_address_fetcher (oracle, canoe_provider) with
  | None => None
  | Some Panic => Some Panic
  | Some (Done (Err e, _)) => Some (Done (Err e))
  | Some (Done (Ok wit, _)) =>
      run_within_zkvm_assume_oracle_verified fuel canoe_verifier canoe_address_fetcher wit oracle
  end.

Context `{!Reqwest Net, !KonaHost K W PC HC, !Tasks}.

(** [main], for the canoe provider and verifier that the build's feature selects. *)
Definition preloader_main (fuel : nat) (cfg : SingleChainHostWithEigenDA)
    (select_provider : SingleChainHostWithEigenDA → outcome C) (canoe_verifier : V)
    (canoe_address_fetcher : F) (w : W) : option (outcome (ProcessEnd SingleChainHostError)) :=
  match (_ ←? BidirectionalChannel_new; _ ←? BidirectionalChannel_new; start_server cfg) w with
  | Panic => Some Panic
  | Done (Err e, _) => Some (Done (Returned (Err e)))
  | Done (Ok backend, w) =>
      match select_provider cfg with
      | Panic => Some Panic
      | Done canoe_provider =>
          match run_tasks backend w (λ oracle_client hint_client,
              run_witgen_and_zk_verification fuel oracle_client hint_client canoe_provider
                canoe_verifier canoe_address_fetcher) with
          | None => None
          | Some process_end => Some (Done process_end)
          end
      end
  end.
End preloader.

Section features.
Context `{!KonaPreimage, !Reqwest Net, !KonaHost K W PC HC}.

(** The providers of the three builds; [R] is the world of the provider, [RpcClient::new_http]
    of a parsed URL, and [world] that of steel. *)
Definition select_steel {R} (world : R) (cfg : SingleChainHostWithEigenDA) : outcome (CanoeSteelProvider R) :=
  match l1_node_address (kona_cfg cfg) with
  | Some url => Done {| eth_rpc_url := url; steel_world := world |}
  | None => Panic
  end.

Definition select_sp1_cc {R} (RpcClient_new_http : Url → R) (op_succinct_mock : option string)
    (cfg : SingleChainHostWithEigenDA) : outcome (CanoeSp1CCReducedProofProvider R) :=
  match l1_node_address (kona_cfg cfg) with
  | None => Panic
  | Some address =>
      match Url_parse address with
      | None => Panic
      | Some url => Done {| reduced_eth_rpc_client := RpcClient_new_http url;
                            reduced_mock_mode := mock_mode op_succinct_mock |}
      end
  end.

Definition select_noop (cfg : SingleChainHostWithEigenDA) : outcome CanoeNoOpProvider := Done NoOpProvider.
End features.
