(* ===== verification/HostServerTheory.v ===== *)
(** * What the binaries guarantee

    Which backend a host serves, and the exit codes: the preloader ends well only where
    the host's own run of the client ends well. *)

From S2P Require Export ZkvmTheory Recording HostServer.

Example mock_mode_true : mock_mode (Some "True"%string) = true.
Proof. reflexivity. Qed.
Example mock_mode_one : mock_mode (Some "1"%string) = false.
Proof. reflexivity. Qed.

Section config.
Context `{!Alloy, !KonaPreimage, !Reqwest Net, !KonaHost K W PC HC}.

Lemma create_providers_Ok cfg w providers w' :
  create_providers cfg w = Done (Ok providers, w') →
  ∃ url url', eigenda_proxy_address cfg = Some url ∧ Url_parse url = Some url' ∧
    base (eigenda_preimage_provider providers) = url' ∧
    last_entry (eigenda_preimage_provider providers) = None.
Proof.
  intros (kp & w1 & _ & Hp)%try_bind_Ok_inv.
  apply try_bind_Ok_inv in Hp as (url & w2 & Hurl & Hp).
  apply try_bind_Ok_inv in Hp as (url' & w3 & Hparse & Hp).
  apply M_bind_Done_inv in Hp as (w4 & w5 & _ & [= <- _]).
  destruct (eigenda_proxy_address cfg) as [u|] eqn:Haddr; [|done]. injection Hurl as -> <-.
  destruct (Url_parse url) as [u'|] eqn:Hu; [|done]. injection Hparse as -> <-. by exists url, url'.
Qed.
End config.

Section exit.
Context `{!Alloy, !Kona, !EthereumDataSource E, !KonaClient Ora E, !KonaPreimage, !CommsClient Ora,
  !KonaOracle PC HC Ora, !Reqwest Net, !KonaHost K W PC HC, !Tasks}.

Lemma exit_code_ok {X A} (r : result X A) : exit_code r = 0 ↔ ∃ a, r = Ok a.
Proof. destruct r as [a|x]; [|split; [done|by intros [? [=]]]]. split; [by eexists|done]. Qed.

(** The end of a process with a client is decided by the client, unless a task panics. *)
Lemma run_tasks_exit {X A} backend w (client : PC → HC → option (outcome (result X A))) code :
  run_tasks backend w client = Some (Exit code) ↔
  (∃ r, serve_result backend w = Done r) ∧
  ∃ r, client (native_clients backend w).1 (native_clients backend w).2 = Some (Done r) ∧
    code = exit_code r.
Proof.
  unfold run_tasks. destruct (native_clients backend w) as [oc hc]. cbn [fst snd].
  destruct (client oc hc) as [[r|]|]; [| |split; [done|by intros [_ (? & [=] & _)]]].
  - destruct (serve_result backend w) as [sr|]; cbn [try_join].
    + split; [intros [= <-]; split; by eexists|]. by intros [_ (? & [= <-] & ->)].
    + split; [done|]. by intros [[? [=]] _].
  - destruct (serve_result backend w) as [sr|]; cbn [try_join];
      (split; [done|]); by intros [_ (? & [=] & _)].
Qed.

Lemma preloader_main_exit `{!HostGlue (Ora := Ora) (E := E), !CanoeVerifierAddressFetcher F, !CanoeProvider C,
    !KzgProver, !KzgBackend, !CanoeVerifier V} to_vec fuel cfg select_provider (v : V) (f : F) w backend
    w1 (c : C) sr r :
  (_ ←? BidirectionalChannel_new; _ ←? BidirectionalChannel_new; start_server cfg) w =
    Done (Ok backend, w1) →
  select_provider cfg = Done c → serve_result backend w1 = Done sr →
  run_witgen_and_zk_verification to_vec fuel (native_clients backend w1).1
    (native_clients backend w1).2 c v f = Some (Done r) →
  preloader_main to_vec fuel cfg select_provider v f w = Some (Done (Exit (exit_code r))).
Proof.
  intros Hs Hsel Hserve Hrun. unfold preloader_main. rewrite Hs, Hsel.
  assert (Hpe : run_tasks backend w1 (λ oc hc,
    run_witgen_and_zk_verification to_vec fuel oc hc c v f) = Some (Exit (exit_code r))).
  { apply run_tasks_exit. split; [by eexists|]. by exists r. }
  by rewrite Hpe.
Qed.

(** The recorder's run and the direct client end alike. *)
Lemma run_preimage_client_direct fuel oc hc :
  match run_preimage_client fuel (CachingOracle_new ORACLE_LRU_SIZE oc hc),
        run_direct_client fuel oc hc with
  | Some (Done (Ok _, _)), Some (Done r) => r = Ok tt
  | Some (Done (Err e, _)), Some (Done r) => r = Err e
  | Some Panic, Some Panic | None, None => True
  | _, _ => False
  end.
Proof.
  unfold run_preimage_client, run_direct_client. set (o := CachingOracle_new _ _ _).
  pose proof (client_alike False
    (λ (s : OracleEigenDAPreimageProviderWithPreimage (OracleEigenDAPreimageProvider Ora)) t, provider s = t)
    fuel {| provider := OracleProvider.new o; preimage := EigenDAPreimage_default |}
    (OracleProvider.new o) o eq_refl) as Hc.
  destruct (run_fp_client fuel {| provider := _; preimage := _ |} o) as [[[[[[]|e] rec] o1]|]|],
    (run_fp_client fuel (OracleProvider.new o) o) as [[[[r' t'] o2]|]|]; try done; by destruct Hc as (-> & _).
Qed.
End exit.

(** ** Properties *)

Section claims.
Context `{!Alloy, !KonaPreimage, !Reqwest Net, !KonaHost K W PC HC}.

(** C34: A host that may need data has a proxy to ask: when start_server starts a server,
    its backend is the offline one exactly if kona's configuration is offline and no
    EigenDA proxy is configured; otherwise a proxy address is configured, it parses, and
    the backend's provider asks that address, with nothing cached, for this configuration
    and with the payload witness as the proactive hint. *)
Theorem start_server_backend (cfg : SingleChainHostWithEigenDA) (w w' : W) (backend : HostBackend)
    (Hstart : start_server cfg w = Done (Ok backend, w')) :
  match backend with
  | OfflineHostBackend _ => kona_is_offline (kona_cfg cfg) = true ∧ eigenda_proxy_address cfg = None
  | OnlineHostBackend cfg' _ providers hint =>
      cfg' = cfg ∧ hint = Some (Original L2PayloadWitness) ∧
      ∃ url url', eigenda_proxy_address cfg = Some url ∧ Url_parse url = Some url' ∧
        base (eigenda_preimage_provider providers) = url' ∧
        last_entry (eigenda_preimage_provider providers) = None
  end.
Proof.
  apply try_bind_Ok_inv in Hstart as (kv & w1 & _ & Hs).
  destruct (is_offline cfg) eqn:Hoff.
  - injection Hs as <- _. apply andb_true_iff in Hoff as [Hkona Hproxy].
    by apply bool_decide_eq_true in Hproxy.
  - apply try_bind_Ok_inv in Hs as (providers & w2 & Hp & [= <- _]).
    split_and!; [done..|]. by eapply create_providers_Ok.
Qed.

Context `{!Kona, !EthereumDataSource E, !KonaClient Ora E, !CommsClient Ora,
  !HostGlue (Ora := Ora) (E := E), !KonaOracle PC HC Ora, !CanoeVerifierAddressFetcher F,
  !CanoeProvider C, !KzgProver, !KzgBackend, !CanoeVerifier V, !Tasks}.

(** C7: The preloader ends well only where the native host does: with the same
    configuration, machine and fuel, if the preloader exits with 0 then the native host,
    which runs the fault proof client directly, exits with 0; and if the native host exits
    with 1, the client having rejected the claim, then so does the preloader, whatever the
    canoe provider, the verifier and the address fetcher are. *)
Theorem preloader_refines_native (to_vec : Receipt → outcome Bytes) (fuel : nat)
    (cfg : SingleChainHostWithEigenDA) (select_provider : SingleChainHostWithEigenDA → outcome C)
    (v : V) (f : F) (w : W) (c : C) (Hselect : select_provider cfg = Done c) :
  (preloader_main to_vec fuel cfg select_provider v f w = Some (Done (Exit 0)) →
   start_native fuel cfg w = Some (Done (Exit 0))) ∧
  (start_native fuel cfg w = Some (Done (Exit 1)) →
   preloader_main to_vec fuel cfg select_provider v f w = Some (Done (Exit 1))).
Proof.
  unfold preloader_main, start_native. rewrite Hselect.
  destruct (try_bind _ _ w) as [[[backend|e] w1]|]; [|done..].
  pose proof (run_preimage_client_direct fuel (native_clients backend w1).1
    (native_clients backend w1).2) as Hsame.
  split.
  - intros Hmain. destruct (run_tasks _ _ _) as [pe|] eqn:Hpe; [|done]. injection Hmain as ->.
    apply run_tasks_exit in Hpe as [Hserve (r & Hclient & [[] ->]%symmetry%exit_code_ok)].
    unfold run_witgen_and_zk_verification in Hclient.
    destruct (prepare_witness _ _ _ _) as [[[[wit|e] s']|]|] eqn:Hprep; [|done..].
    unfold prepare_witness in Hprep. cbn [fst] in Hprep.
    destruct (run_preimage_client _ _) as [[[[pre|e] o1]|]|]; [|done..].
    destruct (run_direct_client fuel _ _) as [[r|]|] eqn:Hdirect; [|done..]. subst r.
    assert (Hrun : run_tasks backend w1 (run_direct_client fuel) = Some (Exit 0)).
    { apply run_tasks_exit. split; [done|]. by eexists. }
    by rewrite Hrun.
  - intros Hnative. destruct (run_tasks backend w1 (run_direct_client fuel)) as [pe|] eqn:Hpe; [|done].
    injection Hnative as ->. apply run_tasks_exit in Hpe as [Hserve (r & Hdirect & Hcode)].
    destruct r as [[]|e]; [done|]. rewrite Hdirect in Hsame.
    assert (Hrun : run_tasks backend w1 (λ oc hc,
      run_witgen_and_zk_verification to_vec fuel oc hc c v f) = Some (Exit 1)).
    { apply run_tasks_exit. split; [done|]. exists (Err (FaultProofProgramError_display e)).
      split; [|done]. unfold run_witgen_and_zk_verification, prepare_witness. cbn [fst].
      destruct (run_preimage_client _ _) as [[[[pre|e'] o1]|]|]; try done. by injection Hsame as ->. }
    by rewrite Hrun.
Qed.
End claims.
