(* ===== verification/ClientWitnesses.v ===== *)
(** * Witnesses of the client's properties

    A fault proof client over a list of L1 data with one certificate, recorded with a
    provider that never fails and replayed from the witness. *)

From S2P Require Export HostWitnesses CanoeWitnesses Agreement HostServerTheory.
Import Concrete.

(** ** One payload with its opening *)

Definition fr_half : Z := (fr_modulus + 1) / 2.
Definition greeting : EncodedPayload := {| encoded_payload := encode_v0 2 [x68; x69] |}.
Definition greeting_evals : Z * Z :=
  (from_be_bytes (take 32 (serialize greeting)), from_be_bytes (drop 32 (serialize greeting))).
(** a + b X takes the two values at 1 and -1; the secret is 12345. *)
Definition greeting_slope : Z := (greeting_evals.1 - greeting_evals.2) * fr_half mod fr_modulus.
Definition greeting_commitment : Z :=
  ((greeting_evals.1 + greeting_evals.2) * fr_half + 12345 * greeting_slope) mod fr_modulus.
Definition greeting_proof : Bytes := to_be_bytes 32 greeting_slope ++ to_be_bytes 32 greeting_slope.

Lemma greeting_committed :
  get_kzg_commitment good_cert = {| x := greeting_commitment; y := greeting_commitment |}.
Proof. vm_decide. Qed.

(** ** A provider that never fails *)

Inductive SteadyProvider := Steady.
#[export] Instance steady_provider : EigenDAPreimageProvider SteadyProvider := {|
  provider_error := HokuleaErrorKind;
  provider_error_into := id;
  provider_error_display _ := "unreachable"%string;
  PreimageSource.get_validity c s := Done (Ok (bool_decide (c = good_cert)), s);
  PreimageSource.get_encoded_payload c s := Done (Ok (if bool_decide (c = good_cert) then greeting
    else {| encoded_payload := zeros (32 * Z.to_nat (get_num_field_element c)) |}), s);
|}.

#[export] Instance steady_never_fails : NeverFails SteadyProvider.
Proof. split; intros c t r t' Heq; injection Heq; intros; subst; eauto. Qed.

#[export] Instance steady_sized : SizedProvider SteadyProvider.
Proof.
  split. intros c t ep t' Hwf Heq. injection Heq; clear Heq; intros; subst ep. case_bool_decide as Hc.
  - subst c. vm_decide.
  - pose proof (AltDACommitment_wf_num c Hwf). unfold num_field_element, BYTES_PER_FIELD_ELEMENT.
    replace (length (encoded_payload _)) with (32 * Z.to_nat (get_num_field_element c))%nat
      by (symmetry; apply length_replicate).
    rewrite Nat.mul_comm, Nat.div_mul by lia. lia.
Qed.

(** ** A client with one L1 item *)

Definition toy_root (payload : Bytes) : B256 := take 32 (payload ++ zeros 32).
Record ToyBoot := { toy_agreed : B256; toy_claimed : B256; toy_target : Z }.

#[export] Instance toy_client : KonaClient unit (list Bytes) := {|
  FaultProofProgramError := string;
  InvalidClaim _ _ := "invalid claim"%string;
  BootInfo := ToyBoot;
  boot_l1_head _ := l1_hash;
  boot_l1_chain_id _ := 1;
  agreed_l2_output_root := toy_agreed;
  claimed_l2_output_root := toy_claimed;
  claimed_l2_block_number := toy_target;
  BootInfo_load o :=
    Done (Ok {| toy_agreed := zeros 32; toy_claimed := toy_root [x68; x69]; toy_target := 5 |}, o);
  fetch_safe_head_hash h o := Done (Ok h, o);
  l2_header_number _ _ o := Done (Ok 4, o);
  Cursor := unit;
  new_oracle_pipeline_cursor _ _ o := Done (Ok tt, o);
  eth_new_from_parts _ _ := [x01 :: to_rlp_bytes good_cert];
  pipeline_new _ _ o := Done (Ok tt, o);
  advance_to_target _ _ target := CallNext (20000 : BlockInfo) [] (λ r, Return (match r with
    | Ok payload => Ok (target, toy_root payload)
    | Err _ => Err "no data"%string
    end));
  l1_header_by_hash _ o := Done (Ok (100, 7), o);
|}.

(** The recorded run, its witness, and the provider in the zkVM. *)
Definition paid_recorder : OracleEigenDAPreimageProviderWithPreimage SteadyProvider :=
  {| provider := Steady;
     preimage := {| preimage_validities := [(good_cert, true)];
                    preimage_encoded_payloads := [(good_cert, greeting)] |} |}.
Definition paid_witness : EigenDAWitness :=
  {| witness_validities := [(good_cert, true)];
     witness_encoded_payloads := [(good_cert, greeting, greeting_proof)];
     canoe_proof_bytes := Some [] |}.
Definition paid_provider : PreloadedEigenDAPreimageProvider :=
  {| validity_entries := [(good_cert, true)]; encoded_payload_entries := [(good_cert, greeting)] |}.
Definition toy_start : unit := tt.

Lemma paid_recorded :
  run_fp_client 3 {| provider := Steady; preimage := EigenDAPreimage_default |} toy_start =
  Some (Done (Ok tt, paid_recorder, toy_start)).
Proof. vm_compute. reflexivity. Qed.
Lemma paid_witness_made :
  from_preimage (preimage paid_recorder) [greeting_proof] (Some []) = Ok paid_witness.
Proof. vm_decide. Qed.

(** The opening of the payload passes, and so does the whole witness: without a canoe
    proof, and with the sp1 verifier. *)
Lemma paid_opens :
  Preloaded.batch_verify (KzgBackend := sp1_bn_backend (H := Exponents.exponents))
    [serialize greeting] [get_kzg_commitment good_cert] [greeting_proof] = Done true.
Proof. vm_decide. Qed.

Lemma good_cert_validity :
  to_cert_validity DeployedByEigenLabs l1_hash 100 7 1 (good_cert, true) = Done (good_cert, claim).
Proof. reflexivity. Qed.

Lemma greeting_sized : num_field_element greeting = get_num_field_element good_cert.
Proof. vm_decide. Qed.

Lemma paid_loads_if {V} (verifier : CanoeVerifier V) (v : V) :
  validate_cert_receipt v claims (canoe_proof_bytes paid_witness) = Done (Ok tt) →
  from_witness (H := sp1_bn_backend (H := Exponents.exponents)) paid_witness l1_hash 100 7 1 v
    DeployedByEigenLabs = Done paid_provider.
Proof.
  intros Haccept.
  apply (from_witness_accepts (H := sp1_bn_backend (H := Exponents.exponents)) paid_witness l1_hash
    100 7 1 v DeployedByEigenLabs).
  - cbn. lia.
  - constructor; [exact greeting_sized|constructor].
  - split; [|exact paid_opens]. intros _. exists claims. split; [|exact Haccept].
    cbn [mapM_outcome witness_validities paid_witness]. rewrite good_cert_validity. reflexivity.
Qed.

Lemma paid_loads :
  from_witness (H := sp1_bn_backend (H := Exponents.exponents)) paid_witness l1_hash 100 7 1
    NoOpVerifier DeployedByEigenLabs = Done paid_provider.
Proof. apply paid_loads_if. reflexivity. Qed.
Lemma paid_loads_sp1 :
  from_witness (H := sp1_bn_backend (H := Exponents.exponents)) paid_witness l1_hash 100 7 1
    {| sp1_zkvm := true |} DeployedByEigenLabs = Done paid_provider.
Proof. apply paid_loads_if, sp1_accepts. Qed.

(** ** Witnesses *)

Lemma proof_coordinate_encoding_witness :
  convert_biguint_to_be_32_bytes 258 = Done (zeros 30 ++ [x01; x02]) ∧
  from_be_bytes (to_be_bytes 32 258) = 258.
Proof.
  destruct (proof_coordinate_encoding 258) as [-> Hrt]; [lia|].
  split; [vm_decide|]. apply Hrt. lia.
Defined.

Lemma preloaded_serves_in_order_witness :
  (get_validity good_cert paid_provider =
     Done (Ok true, {| validity_entries := []; encoded_payload_entries := [(good_cert, greeting)] |}) ↔
   ∃ b, Ok (E := HokuleaOracleProviderError) true = Ok b ∧
     validity_entries paid_provider = [] ++ [(good_cert, b)] ∧
     [(good_cert, greeting)] = encoded_payload_entries paid_provider).
Proof.
  apply (preloaded_serves_in_order good_cert paid_provider
    {| validity_entries := []; encoded_payload_entries := [(good_cert, greeting)] |} (Ok true) (Ok greeting)).
Defined.

Lemma paid_ok : Forall (λ v, commitment_ok v.1) (witness_validities paid_witness).
Proof. constructor; [exact good_cert_ok|constructor]. Qed.

Lemma preloaded_validity_sound_witness :
  validity_entries paid_provider = rev (witness_validities paid_witness) ∧
  ((∃ sketch ex, ClientExecutor_eth sketch = Ok ex ∧
     Forall (validity_proved DeployedByEigenLabs ex l1_hash 100 1)
       (witness_validities paid_witness)) ∨
   ∃ pairs, mapM_outcome (to_cert_validity DeployedByEigenLabs l1_hash 100 7 1)
       (witness_validities paid_witness) = Done pairs ∧ journals_collide pairs).
Proof.
  apply (preloaded_validity_sound (H6 := sp1_bn_backend (H := Exponents.exponents)) paid_witness l1_hash 100 7 1 true
    DeployedByEigenLabs paid_provider).
  - discriminate.
  - exact paid_ok.
  - exact paid_loads_sp1.
Defined.

(** The certificate commits to the greeting. *)
Section greeting_committed.
#[local] Existing Instance Exponents.exponents.
#[local] Instance PolynomialEvalForm_eq_dec : EqDecision PolynomialEvalForm.
Proof. solve_decision. Defined.
Definition greeting_poly : PolynomialEvalForm :=
  {| evaluations := [Exponents.mk greeting_evals.1; Exponents.mk greeting_evals.2];
     len_underlying_blob_bytes := 64 |}.
Definition greeting_coefficients : list Exponents.F :=
  [Exponents.mk ((greeting_evals.1 + greeting_evals.2) * fr_half); Exponents.mk greeting_slope].
Definition setup : list bn_G1 := [Exponents.mk 1; Exponents.mk 12345].

Lemma setup_points : setup = srs_points (length setup).
Proof. vm_decide. Qed.

Lemma greeting_interpolated : interpolates greeting_poly greeting_coefficients.
Proof.
  split; [done|]. exists [Exponents.mk 1; Exponents.mk (-1)]. split; [vm_decide|].
  repeat constructor; vm_decide.
Qed.

Lemma greeting_commits : commits_to setup (get_kzg_commitment good_cert) (serialize greeting).
Proof.
  exists (Exponents.mk greeting_commitment), greeting_poly, greeting_coefficients.
  split_and!; [vm_decide|vm_decide|exact greeting_interpolated|vm_decide|vm_decide].
Qed.
End greeting_committed.

Lemma payloads_bound_witness :
  commits_to (H := Exponents.exponents) setup (get_kzg_commitment good_cert) (serialize greeting) ∧
  encoded_payload_entries paid_provider = rev (fst <$> witness_encoded_payloads paid_witness) ∧
  (unlucky_payloads (H1 := Exponents.exponents) (witness_encoded_payloads paid_witness) ∨
   ∀ c ep proof bs0, (c, ep, proof) ∈ witness_encoded_payloads paid_witness →
     commits_to (H := Exponents.exponents) setup (get_kzg_commitment c) bs0 →
     Z.of_nat (length bs0 / 32) = get_num_field_element c →
     bound (H1 := Exponents.exponents) setup c ep proof bs0).
Proof.
  split; [exact greeting_commits|].
  apply (payloads_bound (H1 := Exponents.exponents) setup paid_witness l1_hash 100 7 1
    NoOpVerifier DeployedByEigenLabs paid_provider).
  - exact setup_points.
  - exact paid_loads.
Defined.

Lemma fp_client_checks_claim_witness :
  ∃ (boot : BootInfo) (o1 : unit) hash (o2 : unit) number (o3 : unit),
    BootInfo_load toy_start = Done (Ok boot, o1) ∧
    fetch_safe_head_hash (agreed_l2_output_root boot) o1 = Done (Ok hash, o2) ∧
    l2_header_number boot hash o2 = Done (Ok number, o3) ∧
    number ≤ claimed_l2_block_number boot ∧
    (agreed_l2_output_root boot = claimed_l2_output_root boot ∨
     ∃ cursor n s, run_driver 3 (advance_to_target boot cursor (claimed_l2_block_number boot))
       (DataSource.new (eth_new_from_parts boot toy_start)
         (PreimageSource.new {| provider := Steady; preimage := EigenDAPreimage_default |})) =
       Some (Done (Ok (n, claimed_l2_output_root boot), s)) ∧
       paid_recorder = eigenda_fetcher (eigenda_source s)).
Proof.
  apply (fp_client_checks_claim 3 {| provider := Steady; preimage := EigenDAPreimage_default |}
    paid_recorder toy_start toy_start).
  exact paid_recorded.
Defined.

Lemma recorded_run_replays_witness :
  ∃ p', run_fp_client 3 paid_provider toy_start = Some (Done (Ok tt, p', toy_start)) ∧
    validity_entries p' = [] ∧ encoded_payload_entries p' = [].
Proof.
  apply (recorded_run_replays (H2 := sp1_bn_backend (H := Exponents.exponents)) 3 Steady toy_start
    toy_start (Ok tt) paid_recorder [greeting_proof] (Some []) paid_witness l1_hash 100 7 1
    NoOpVerifier DeployedByEigenLabs paid_provider).
  - exact paid_recorded.
  - exact paid_witness_made.
  - exact paid_loads.
Defined.

(** ** Preparing the witness and running it

    An oracle that knows the field elements of the payload; every other preimage that it
    is asked for is the byte 1, or zeros in a read of a fixed length. *)

Definition greeting_keys : list (PreimageKey * Bytes) :=
  (λ i, (OracleProvider.key (field_element_address good_cert (Z.of_nat i)), field_element greeting i))
    <$> seq 0 2.
Definition find_key (k : PreimageKey) (l : list (PreimageKey * Bytes)) : option Bytes :=
  snd <$> head (filter (λ p, p.1 = k) l).

#[export] Instance steady_comms : CommsClient unit := {|
  oracle_write _ o := Done (Ok tt, o);
  oracle_get _ o := Done (Ok [x01], o);
  oracle_get_exact k n o := Done (Ok (take n (default [] (find_key k greeting_keys) ++ zeros n)), o);
|}.

Lemma steady_exact k n (s : OracleEigenDAPreimageProvider unit) :
  OracleProvider.call (oracle_get_exact k n) s =
  Done (Ok (take n (default [] (find_key k greeting_keys) ++ zeros n)), s).
Proof. by destruct s as [[]]. Qed.
Lemma steady_write h (s : OracleEigenDAPreimageProvider unit) :
  OracleProvider.call (oracle_write h) s = Done (Ok tt, s).
Proof. by destruct s as [[]]. Qed.
Lemma steady_get k (s : OracleEigenDAPreimageProvider unit) :
  OracleProvider.call (oracle_get k) s = Done (Ok [x01], s).
Proof. by destruct s as [[]]. Qed.

Lemma steady_fetch n i key payload (s : OracleEigenDAPreimageProvider unit) :
  ∃ bs, OracleProvider.fetch_encoded_payload n i key payload s = Done (Ok bs, s).
Proof.
  revert i key payload. induction n as [|n IH]; intros i key payload; [by eexists|].
  cbn [OracleProvider.fetch_encoded_payload]. unfold try_bind. rewrite steady_exact. apply IH.
Qed.

#[export] Instance steady_oracle_never_fails : NeverFails (OracleEigenDAPreimageProvider unit).
Proof.
  split; intros c t r t'.
  - change (OracleProvider.get_validity c t = Done (r, t') → ∃ v, r = Ok v).
    unfold OracleProvider.get_validity, try_bind. rewrite steady_write, steady_get.
    intros Heq. injection Heq as <- _. by eexists.
  - change (OracleProvider.get_encoded_payload c t = Done (r, t') → ∃ v, r = Ok v).
    unfold OracleProvider.get_encoded_payload, try_bind. rewrite steady_write.
    destruct (steady_fetch (Z.to_nat (get_num_field_element c)) 0 (digest_template c)
      (zeros (Z.to_nat (get_num_field_element c) * BYTES_PER_FIELD_ELEMENT)) t) as [bs ->].
    intros Heq. injection Heq as <- _. by eexists.
Qed.

#[export] Instance toy_glue : HostGlue (Ora := unit) (E := list Bytes) := {|
  Header_decode_number _ := Some 100;
  FaultProofProgramError_display e := e;
|}.

(** The prover interpolates the two values of the blob at 1 and -1. *)
#[export] Instance toy_prover : KzgProver := {|
  KzgError := string;
  KZG := unit; KZG_new := tt;
  calculate_and_store_roots_of_unity _ _ := Ok tt;
  ProverBlob := Bytes; ProverBlob_new := Ok;
  ProverPolynomial := Z * Z;
  to_polynomial_eval_form blob :=
    let '(a, b) := (from_be_bytes (take 32 blob), from_be_bytes (drop 32 blob)) in
    Ok ((a + b) * fr_half mod fr_modulus, (a - b) * fr_half mod fr_modulus);
  SRS := Z; G1_SRS := 12345;
  ProverG1 := Z;
  commit_eval_form _ p srs := Ok ((p.1 + srs * p.2) mod fr_modulus);
  compute_blob_proof _ blob _ _ :=
    Ok ((from_be_bytes (take 32 blob) - from_be_bytes (drop 32 blob)) * fr_half mod fr_modulus);
  proof_x p := p;
  proof_y p := p;
|}.

Definition no_receipt : Receipt (P := CanoeNoOpProvider) → outcome Bytes := λ _, Done [].
Definition toy_boot : BootInfo (Ora := unit) (E := list Bytes) := Build_ToyBoot
  (zeros 32) (toy_root [x68; x69]) 5.
Definition both_start : unit * CanoeNoOpProvider := (toy_start, NoOpProvider).

Lemma paid_prepared :
  prepare_witness (F := CanoeVerifierAddressFetcherDeployedByEigenLabs) no_receipt 3
    DeployedByEigenLabs both_start =
  Some (Done (Ok paid_witness, both_start)).
Proof. vm_compute. reflexivity. Qed.

Lemma prepared_witness_verdict_witness :
  run_within_zkvm_assume_oracle_verified (H3 := sp1_bn_backend (H := Exponents.exponents)) 3
    NoOpVerifier DeployedByEigenLabs paid_witness toy_start = Some (Done (Ok tt)).
Proof.
  transitivity (Some (match from_witness (H := sp1_bn_backend (H := Exponents.exponents))
      paid_witness l1_hash 100 7 1 NoOpVerifier DeployedByEigenLabs with
    | Done _ => Done (Ok (E := string) tt) | Panic => Panic end)).
  - apply (prepared_witness_verdict (F := CanoeVerifierAddressFetcherDeployedByEigenLabs)
      no_receipt 3 DeployedByEigenLabs NoOpVerifier paid_witness both_start both_start toy_boot 100 7).
    + exact paid_prepared.
    + reflexivity.
    + reflexivity.
  - rewrite paid_loads. reflexivity.
Defined.

Lemma paid_run_if {V} (verifier : CanoeVerifier V) (v : V) :
  from_witness (H := sp1_bn_backend (H := Exponents.exponents)) paid_witness l1_hash 100 7 1 v
    DeployedByEigenLabs = Done paid_provider →
  run_within_zkvm_assume_oracle_verified (H3 := sp1_bn_backend (H := Exponents.exponents)) 3
    v DeployedByEigenLabs paid_witness toy_start = Some (Done (Ok tt)).
Proof.
  intros Hload. unfold run_within_zkvm_assume_oracle_verified, eigenda_witness_to_preloaded_provider.
  cbn [BootInfo_load toy_client l1_header_by_hash boot_l1_head boot_l1_chain_id].
  unfold lift, mbind, M_bind. cbn [expect]. rewrite Hload. vm_compute. reflexivity.
Qed.

Lemma paid_run_sp1 :
  run_within_zkvm_assume_oracle_verified (H3 := sp1_bn_backend (H := Exponents.exponents)) 3
    {| sp1_zkvm := true |} DeployedByEigenLabs paid_witness toy_start = Some (Done (Ok tt)).
Proof. exact (paid_run_if _ _ paid_loads_sp1). Qed.

Lemma paid_run_noop :
  run_within_zkvm_assume_oracle_verified (H3 := sp1_bn_backend (H := Exponents.exponents)) 3
    NoOpVerifier DeployedByEigenLabs paid_witness toy_start = Some (Done (Ok tt)).
Proof. exact (paid_run_if _ _ paid_loads). Qed.

(** A world with one valid certificate, whose blob is the greeting. *)
Definition greeting_world : DAWorld :=
  {| is_valid c := bool_decide (c = good_cert); blob_of _ := greeting |}.

#[export] Instance steady_faithful :
  FaithfulProvider greeting_world (λ c, c ∈ (witness_validities paid_witness).*1) (λ _ : SteadyProvider, True).
Proof.
  split; intros t c _ Hc; [|intros _]; (do 2 eexists; split; [reflexivity|]; split; [exact I|left]).
  - reflexivity.
  - cbn [witness_validities paid_witness fmap list_fmap fst] in Hc. apply list_elem_of_singleton in Hc as ->.
    by rewrite bool_decide_true.
Qed.

Lemma greeting_published c :
  c ∈ (λ e : AltDACommitment * EncodedPayload * Bytes, e.1.1) <$> witness_encoded_payloads paid_witness →
  is_valid greeting_world c = true → published (H8 := Exponents.exponents) setup greeting_world c.
Proof.
  intros _ Hc%bool_decide_eq_true. subst c. split_and!; [exact greeting_commits|exact greeting_sized|].
  unfold canonical_bytes. vm_decide.
Qed.

Lemma zkvm_run_agrees_witness :
  (∃ (t' : SteadyProvider) (o3 : unit), run_fp_client 3 Steady toy_start = Some (Done (Ok tt, t', o3))) ∨
  (∃ pairs, mapM_outcome (to_cert_validity DeployedByEigenLabs (boot_l1_head toy_boot) 100 7
     (boot_l1_chain_id toy_boot)) (witness_validities paid_witness) = Done pairs ∧ journals_collide pairs) ∨
  unlucky_payloads (H1 := Exponents.exponents) (witness_encoded_payloads paid_witness) ∨
  Exists (exceptional (H8 := Exponents.exponents) setup greeting_world) (witness_encoded_payloads paid_witness).
Proof.
  apply (zkvm_run_agrees setup 3 true DeployedByEigenLabs paid_witness toy_start toy_start toy_start
    toy_boot 100 7 greeting_world (λ _, True) Steady).
  - exact setup_points.
  - exact paid_ok.
  - reflexivity.
  - reflexivity.
  - intros ex v Hv%list_elem_of_singleton _. subst v. symmetry. by apply bool_decide_true.
  - exact greeting_published.
  - exact I.
  - exact paid_run_sp1.
Defined.

(** ** Recording *)

Definition fresh_source : EigenDADataSource (list Bytes) (OracleEigenDAPreimageProviderWithPreimage SteadyProvider) :=
  DataSource.new [x01 :: to_rlp_bytes good_cert]
    (PreimageSource.new {| provider := Steady; preimage := EigenDAPreimage_default |}).
Definition paid_source : EigenDADataSource (list Bytes) (OracleEigenDAPreimageProviderWithPreimage SteadyProvider) :=
  {| ethereum_source := []; eigenda_source := PreimageSource.new paid_recorder; altda_commitment := None |}.

Lemma paid_step : DataSource.next 3 sample_block [] fresh_source = Some (Done (Ok [x68; x69], paid_source)).
Proof. vm_compute. reflexivity. Qed.

Lemma recorder_invariant_witness :
  (∀ c, altda_commitment paid_source = Some c → AltDACommitment_wf c = true) ∧
  record_ok (preimage (eigenda_fetcher (eigenda_source paid_source))) ∧
  (length (preimage_encoded_payloads (preimage (eigenda_fetcher (eigenda_source paid_source)))) ≤
   length (preimage_validities (preimage (eigenda_fetcher (eigenda_source paid_source)))))%nat.
Proof.
  apply (recorder_invariant [x01 :: to_rlp_bytes good_cert] Steady [Ok [x68; x69]] paid_source).
  eapply Run_next; [exact paid_step|]. apply Run_done.
Defined.

Lemma recorded_witness_verdict_witness :
  from_witness (H := sp1_bn_backend (H := Exponents.exponents)) paid_witness l1_hash 100 7 1
    NoOpVerifier DeployedByEigenLabs = Done paid_provider ↔
  proofs_accepted (H := sp1_bn_backend (H := Exponents.exponents)) paid_witness l1_hash 100 7 1
    NoOpVerifier DeployedByEigenLabs ∧
  paid_provider = Preloaded.holding (preimage_validities (preimage paid_recorder))
    (preimage_encoded_payloads (preimage paid_recorder)).
Proof.
  apply (recorded_witness_verdict (H2 := sp1_bn_backend (H := Exponents.exponents)) 3 Steady toy_start
    toy_start (Ok tt) paid_recorder [greeting_proof] (Some [])).
  - exact paid_recorded.
  - exact paid_witness_made.
Defined.

#[export] Instance steady_exact_reads : ExactReads unit.
Proof.
  split. intros k n t bs t' Heq. injection Heq as <- _.
  rewrite length_take, length_app. unfold zeros. rewrite length_replicate. lia.
Qed.

Definition steady_oracle : OracleEigenDAPreimageProvider unit := OracleProvider.new tt.

Lemma greeting_fetched : get_encoded_payload good_cert steady_oracle = Done (Ok greeting, steady_oracle).
Proof. vm_compute. reflexivity. Qed.

Lemma oracle_payload_sized_witness :
  Z.of_nat (length (encoded_payload greeting)) = 32 * get_num_field_element good_cert ∧
  num_field_element greeting = get_num_field_element good_cert.
Proof.
  apply (oracle_payload_sized good_cert steady_oracle steady_oracle greeting).
  - vm_decide.
  - exact greeting_fetched.
Defined.

(** ** A retry while recording

    [recorded_run_replays] asks for a provider that never fails.  Without that the
    recorder keeps the validity of a call whose payload then failed, and once more when
    the call is repeated: the second entry is in the way of the next certificate. *)

Record FlakyProvider := { fails_next : bool }.
#[export] Instance flaky_provider : EigenDAPreimageProvider FlakyProvider := {|
  provider_error := HokuleaErrorKind;
  provider_error_into := id;
  provider_error_display _ := "try again"%string;
  PreimageSource.get_validity c s := Done (Ok true, s);
  PreimageSource.get_encoded_payload c s :=
    if fails_next s then Done (Err (Temporary "try again"%string), {| fails_next := false |})
    else Done (Ok greeting, s);
|}.

Definition late_cert : AltDACommitment := sample_commitment 0 9001.
Definition two_items : list Bytes := [x01 :: to_rlp_bytes good_cert; x01 :: to_rlp_bytes late_cert].

Definition answer {X B} (r : result X B) : option B := match r with Ok b => Some b | Err _ => None end.

(** A driver that repeats a call after a temporary error, and reads two items. *)
Definition patient_driver : Driver (list (option Bytes)) :=
  let second r := CallNext (20000 : BlockInfo) [] (λ r', Return [r; answer r']) in
  CallNext (20000 : BlockInfo) [] (λ r, match r with
    | Ok payload => second (Some payload)
    | Err _ => CallNext (20000 : BlockInfo) [] (λ r, second (answer r))
    end).

Definition retry_recorder : OracleEigenDAPreimageProviderWithPreimage FlakyProvider :=
  {| provider := {| fails_next := true |}; preimage := EigenDAPreimage_default |}.

Definition retry_recorded : option EigenDAPreimage :=
  match run_driver 5 patient_driver (DataSource.new two_items (PreimageSource.new retry_recorder)) with
  | Some (Done ([Some [x68; x69]; Some [x68; x69]], s)) => Some (preimage (eigenda_fetcher (eigenda_source s)))
  | _ => None
  end.

Example retry_recorded_twice :
  option_map preimage_validities retry_recorded =
  Some [(good_cert, true); (good_cert, true); (late_cert, true)].
Proof. vm_decide. Qed.

Example retry_does_not_replay :
  match retry_recorded with
  | Some pre => run_driver 5 patient_driver (DataSource.new two_items (PreimageSource.new
      (Preloaded.holding (preimage_validities pre) (preimage_encoded_payloads pre)))) = Some Panic
  | None => False
  end.
Proof. vm_compute. reflexivity. Qed.

(** ** The binaries *)

(** Kona's configuration says whether it is offline. *)
#[export] Instance toy_kona_host : KonaHost (Net := nat) (gmap PreimageKey Bytes) unit unit unit := {|
  SingleChainHostError := string;
  SingleChainHostError_Other s := s;
  SingleChainHostError_JoinError := "task panicked";
  KonaCfg := bool;
  kona_server _ := false;
  kona_is_offline offline := offline;
  l1_node_address _ := Some "http://l1"%string;
  create_key_value_store _ := mret (Ok ∅);
  SingleChainProviders := unit;
  kona_create_providers _ := mret (Ok tt);
  Url_parse s := if bool_decide (s = ""%string) then None else Some s;
  http_client _ := 0%nat;
  L2PayloadWitness := StartingL2Output;
  BidirectionalChannel_new := mret (Ok tt);
|}.

#[export] Instance toy_tasks : Tasks (K := gmap PreimageKey Bytes) (W := unit) (PC := unit) (HC := unit) := {|
  serve_result _ _ := Done (Ok tt);
  native_clients _ _ := (tt, tt);
|}.

#[export] Instance toy_kona_oracle : KonaOracle unit unit unit := {| CachingOracle_new _ _ _ := tt |}.

Definition toy_cfg : SingleChainHostWithEigenDA (K := gmap PreimageKey Bytes) (W := unit) (PC := unit) (HC := unit) :=
  {| kona_cfg := (true : KonaCfg); eigenda_proxy_address := Some "http://proxy"%string; verbose := 0 |}.
Definition toy_online : OnlineEigenDAPreimageProvider nat := new_http "http://proxy"%string 0%nat.
Definition toy_backend : HostBackend (K := gmap PreimageKey Bytes) (W := unit) (PC := unit) (HC := unit) :=
  OnlineHostBackend toy_cfg ∅
    {| kona_providers := (tt : SingleChainProviders); eigenda_preimage_provider := toy_online |}
    (Some (Original StartingL2Output)).

Lemma toy_served : start_server toy_cfg tt = Done (Ok toy_backend, tt).
Proof. reflexivity. Qed.

Lemma start_server_backend_witness :
  toy_cfg = toy_cfg ∧ Some (Original StartingL2Output) = Some (Original StartingL2Output) ∧
  ∃ url url' : string, eigenda_proxy_address toy_cfg = Some url ∧
    (if bool_decide (url = ""%string) then None else Some url) = Some url' ∧
    base toy_online = url' ∧ last_entry toy_online = None.
Proof. exact (start_server_backend toy_cfg tt tt toy_backend toy_served). Defined.

Lemma toy_preloaded :
  run_witgen_and_zk_verification (V := CanoeNoOpVerifier) (F := CanoeVerifierAddressFetcherDeployedByEigenLabs)
    (H3 := sp1_bn_backend (H := Exponents.exponents)) no_receipt 3 tt tt NoOpProvider NoOpVerifier
    DeployedByEigenLabs = Some (Done (Ok tt)).
Proof.
  transitivity (match prepare_witness (F := CanoeVerifierAddressFetcherDeployedByEigenLabs) no_receipt 3
      DeployedByEigenLabs both_start with
    | None => None
    | Some Panic => Some Panic
    | Some (Done (Err e, _)) => Some (Done (Err e))
    | Some (Done (Ok wit, _)) => run_within_zkvm_assume_oracle_verified
        (H3 := sp1_bn_backend (H := Exponents.exponents)) 3 NoOpVerifier DeployedByEigenLabs wit toy_start
    end).
  - reflexivity.
  - rewrite paid_prepared. exact paid_run_noop.
Qed.

Lemma toy_main :
  preloader_main (H3 := sp1_bn_backend (H := Exponents.exponents))
    (F := CanoeVerifierAddressFetcherDeployedByEigenLabs) no_receipt 3 toy_cfg select_noop NoOpVerifier
    DeployedByEigenLabs tt = Some (Done (Exit 0)).
Proof.
  exact (preloader_main_exit (F := CanoeVerifierAddressFetcherDeployedByEigenLabs) no_receipt 3 toy_cfg
    select_noop NoOpVerifier DeployedByEigenLabs tt toy_backend tt NoOpProvider (Ok tt) (Ok tt)
    eq_refl eq_refl eq_refl toy_preloaded).
Qed.

Lemma preloader_refines_native_witness :
  start_native (E := list Bytes) 3 toy_cfg tt = Some (Done (Exit 0)).
Proof.
  exact (proj1 (preloader_refines_native (F := CanoeVerifierAddressFetcherDeployedByEigenLabs)
    no_receipt 3 toy_cfg select_noop NoOpVerifier DeployedByEigenLabs tt NoOpProvider eq_refl) toy_main).
Defined.
