(* ===== verification/ProverWitnesses.v ===== *)
(** * Witnesses for honest KZG proofs

    A prover over the concrete curve library that interpolates the blob and opens it at the
    verifier's challenge; it satisfies the laws of [ProverTheory]. *)

From S2P Require Export ProverTheory CanoeWitnesses.
Import Concrete Exponents.

(** ** The prover *)

Definition domain_loaded (len : Z) (_ : unit) : result KzgError unit :=
  match calculate_roots_of_unity len with
  | Done (Ok _) => Ok tt
  | Done (Err e) => Err e
  | Panic => Err (KzgGenericError "unreachable")
  end.

Definition committed_point (p : PolynomialEvalForm) (size : nat) : result KzgError F :=
  if bool_decide (size < poly_len p)%nat then Err (KzgGenericError "SRS is too short")
  else match interpolant p with
  | Some c => Ok (poly_eval c (mk 12345))
  | None => Err KzgInvalidDenominator
  end.

Definition opened_point (p : PolynomialEvalForm) (C : F) : result KzgError F :=
  match compute_challenge p C, interpolant p with
  | Done (Ok z), Some c => Ok (quotient_eval c z (mk 12345))
  | _, _ => Err KzgInvalidDenominator
  end.

#[export] Instance honest_prover : KzgProver := {|
  Client.KzgError := KzgError;
  KZG := unit; KZG_new := tt;
  calculate_and_store_roots_of_unity := domain_loaded;
  ProverBlob := Bytes; ProverBlob_new := Ok;
  ProverPolynomial := PolynomialEvalForm;
  to_polynomial_eval_form := blob_polynomial;
  SRS := nat; G1_SRS := 64%nat;
  ProverG1 := F;
  commit_eval_form _ p size := committed_point p size;
  compute_blob_proof _ blob C _ := p ← blob_polynomial blob; opened_point p C;
  proof_x := val; proof_y := val;
|}.

Lemma val_bounds a : 0 ≤ val a < 2 ^ 256.
Proof. pose proof (val_range a). split; [lia|]. transitivity fr_modulus; [lia|done]. Qed.

Lemma coordinates_affine (p : F) :
  g1_point_to_affine (coordinates p) = if bool_decide (p ≠ mk 0) then Ok p
    else Err (KzgNotOnCurveError "commitment not on curve").
Proof.
  unfold g1_point_to_affine, coordinates. cbn [x y proof_x proof_y honest_prover].
  cbn [Fq_from_be_bytes_mod_order exponents]. rewrite from_to_be_bytes_small by apply val_bounds.
  rewrite mk_val. cbn [AffineG1_new exponents]. repeat case_bool_decide; tauto.
Qed.

Lemma G1_one_scale (a : Fr) : G1_mul G1_one a = a.
Proof. cbn [G1_mul G1_one exponents]. rewrite <-(mk_val a). rewrite mul_mk. f_equal. lia. Qed.

#[export] Instance honest_prover_laws : KzgProverLaws.
Proof.
  refine {| srs_size := (λ n, n) : @SRS honest_prover → nat; prover_point := (λ p, p) : @ProverG1 honest_prover → bn_G1 |}.
  - intros p. split; apply val_bounds.
  - intros p Hp. exists p. rewrite coordinates_affine, bool_decide_true by exact Hp. done.
  - intros p a Hp. rewrite coordinates_affine, bool_decide_false; [done|]. intros Hne. by apply Hne.
  - intros bs srs poly c Hne Hpoly Hsize Hc.
    pose proof Hpoly as (evals & Hevals & Hnew)%result_bind_Ok_inv.
    assert (Hevals' : evals ≠ []) by (by eapply to_fr_array_nonempty).
    destruct (interpolant_spec evals poly Hevals' Hnew) as (c' & Hint & _ & Hunique).
    rewrite <-(Hunique c Hc) in Hint. clear Hunique c'.
    assert (Hdom : domain_loaded (Z.of_nat (length bs)) tt = Ok tt).
    { destruct Hc as (_ & roots & Hroots & _). rewrite (blob_polynomial_length _ _ Hpoly) in Hroots.
      unfold domain_loaded. by rewrite Hroots. }
    assert (HC : committed_point poly srs = Ok (poly_eval c (mk 12345))).
    { unfold committed_point. rewrite bool_decide_false by lia. by rewrite Hint. }
    destruct (compute_challenge_spec poly (poly_eval c (mk 12345))) as (bs' & _ & _ & Hz).
    eexists _, _. split.
    + unfold prover_run. cbn [calculate_and_store_roots_of_unity ProverBlob_new to_polynomial_eval_form
        commit_eval_form compute_blob_proof honest_prover KZG_new].
      rewrite Hdom, !Ok_bind, Hpoly, Ok_bind, HC, !Ok_bind. unfold opened_point. rewrite Hz, Hint. reflexivity.
    + split; [by rewrite G1_one_scale|]. intros a z Ha. rewrite coordinates_affine in Ha.
      case_bool_decide; [|done]. injection Ha as <-. rewrite Hz. intros [= <-]. by rewrite G1_one_scale.
Defined.

(** ** A batch that is accepted *)

Definition payload_of (bs : Bytes) : EncodedPayload := {| encoded_payload := bs |}.
Definition hi : EncodedPayload := payload_of (encode_v0 2 [x68; x69]).
Definition hi_preimage : EigenDAPreimage :=
  {| preimage_validities := [(good_cert, true)]; preimage_encoded_payloads := [(good_cert, hi)] |}.

(** The polynomial of a payload. *)
Definition poly_of (ep : EncodedPayload) : PolynomialEvalForm :=
  match blob_polynomial (serialize ep) with
  | Ok p => p
  | Err _ => {| evaluations := []; len_underlying_blob_bytes := 0 |}
  end.
Lemma poly_of_spec ep : is_ok (blob_polynomial (serialize ep)) = true → blob_polynomial (serialize ep) = Ok (poly_of ep).
Proof. unfold poly_of. by destruct (blob_polynomial _). Qed.

(** The prover's points for a payload. *)
Definition points_of (ep : EncodedPayload) : F * F :=
  match prover_run (serialize ep) G1_SRS with Ok CP => CP | Err _ => (mk 0, mk 0) end.

Lemma points_of_spec ep :
  is_ok (prover_run (serialize ep) G1_SRS) = true → prover_run (serialize ep) G1_SRS = Ok (points_of ep).
Proof. unfold points_of. by destruct (prover_run _ _). Qed.

Lemma hi_provable : provable hi.
Proof. split; [done|]. exists (poly_of hi). split; [by apply poly_of_spec; vm_compute|vm_decide]. Qed.

Lemma hi_run : prover_run (serialize hi) G1_SRS = Ok (points_of hi).
Proof. apply points_of_spec. vm_compute. reflexivity. Qed.

Lemma hi_committed : committed (good_cert, hi).
Proof.
  exists (points_of hi).1, (points_of hi).2. split; [|vm_decide].
  rewrite <-surjective_pairing. exact hi_run.
Qed.

Lemma hi_finite : finite_points hi.
Proof.
  exists (points_of hi).1, (points_of hi).2. rewrite <-surjective_pairing.
  split; [exact hi_run|]. split; vm_decide.
Qed.

Lemma honest_proofs_verdict_witness :
  ∃ proofs, create_kzg_proofs_for_eigenda_preimage hi_preimage = Done proofs ∧
    Kzg.batch_verify [serialize hi] [get_kzg_commitment good_cert] proofs = Done true.
Proof.
  destruct (honest_proofs_verdict hi_preimage) as (proofs & b & Hproofs & Hb & Hiff).
  - apply Forall_singleton. exact hi_provable.
  - apply Forall_singleton. exact hi_committed.
  - exists proofs. split; [exact Hproofs|]. destruct Hiff as [_ Hiff].
    rewrite Hiff in Hb; [exact Hb|]. apply Forall_singleton. exact hi_finite.
Defined.

(** ** A constant payload

    One field element, with the value that the certificate's commitment is. *)

Definition constant : EncodedPayload := payload_of (to_be_bytes 32 sample_point).
Definition constant_preimage : EigenDAPreimage :=
  {| preimage_validities := [(good_cert, true)]; preimage_encoded_payloads := [(good_cert, constant)] |}.

Lemma constant_provable : provable constant.
Proof. split; [done|]. exists (poly_of constant). split; [by apply poly_of_spec; vm_compute|vm_decide]. Qed.

Lemma constant_committed : committed (good_cert, constant).
Proof.
  exists (points_of constant).1, (points_of constant).2. split; [|vm_decide].
  rewrite <-surjective_pairing. apply points_of_spec. vm_compute. reflexivity.
Qed.

Definition constant_proofs : list Bytes := [zeros 64].
Definition constant_witness : EigenDAWitness :=
  {| witness_validities := [(good_cert, true)];
     witness_encoded_payloads := [(good_cert, constant, zeros 64)]; canoe_proof_bytes := Some [] |}.

Lemma constant_payload_refused_witness :
  from_witness (H := sp1_bn_backend) constant_witness l1_hash 100 7 1 NoOpVerifier DeployedByEigenLabs = Panic.
Proof.
  destruct (single_element_constant (serialize constant) (poly_of constant)) as [v Hv].
  - reflexivity.
  - apply poly_of_spec. vm_compute. reflexivity.
  - apply (constant_payload_refused constant_preimage (good_cert, constant) (poly_of constant) v
      constant_proofs (Some []) constant_witness).
    + apply Forall_singleton. exact constant_provable.
    + apply Forall_singleton. exact constant_committed.
    + apply list_elem_of_here.
    + apply poly_of_spec. vm_compute. reflexivity.
    + exact Hv.
    + vm_decide.
    + vm_decide.
Defined.

(** The decoder takes the empty payload, whose encodings are constant. *)
Example empty_payload_decodes :
  EncodedPayload.decode (payload_of (zeros 32)) = Ok [] ∧ EncodedPayload.decode (payload_of (zeros 64)) = Ok [].
Proof. split; vm_decide. Qed.
