(* ===== verification/UnitTests.v ===== *)
(** * The unit tests of the crates (the test modules of crates/eigenda,
    crates/eigenda-cert, crates/compute-proof and crates/proof)

    Each test is a program that ends when its assertions hold and panics when one does
    not.  Alloy, kona's test providers and the KZG prover are parameters; the certificates and
    payloads are the tests' own, taken from Sepolia.  [UnitTestRuns] runs them. *)

From S2P Require Export RlpInstance Client.

(** Bytes as the tests write them. *)
Definition u8s (l : list Z) : Bytes := Z_to_u8 <$> l.

(** The assertions over a table of cases. *)
Definition each_case {I R} `{EqDecision R} (f : I → R) (cases : list (I * R)) : outcome unit :=
  forM_outcome (λ '(input, expected), assert (bool_decide (f input = expected))) cases.

(** [if let Err(e) = f(input) { assert_eq!(Err(e), expected) }] *)
Definition each_error {I E A} `{EqDecision E, EqDecision A} (f : I → result E A)
    (cases : list (I * result E A)) : outcome unit :=
  forM_outcome (λ '(input, expected),
    match f input with
    | Err e => assert (bool_decide (Err e = expected))
    | Ok _ => Done tt
    end) cases.

(** ** crates/eigenda/src/eigenda_data.rs *)

Module EncodedPayloadTests.
Section encoded_payload.
Context `{!Alloy}.
(** [helpers::pad_payload] of rust-kzg-bn254 *)
Context (pad_payload : Bytes → Bytes).

Definition encode (rollup_data : Bytes) (payload_encoding_version : byte) : EncodedPayload :=
  let rollup_data_size := Z.of_nat (length rollup_data) mod 2 ^ 32 in
  let padded_rollup_data := pad_payload rollup_data in
  let min_blob_payload_size := length padded_rollup_data in
  let blob_size := (min_blob_payload_size + BYTES_PER_FIELD_ELEMENT)%nat in
  let blob_size := ((blob_size + BYTES_PER_FIELD_ELEMENT - 1) / BYTES_PER_FIELD_ELEMENT *
    BYTES_PER_FIELD_ELEMENT)%nat in
  let encoded_payload := zeros blob_size in
  let encoded_payload := <[1%nat := payload_encoding_version]> encoded_payload in
  let encoded_payload := copy_at 2 (to_be_bytes 4 rollup_data_size) encoded_payload in
  let encoded_payload := copy_at BYTES_PER_FIELD_ELEMENT padded_rollup_data encoded_payload in
  {| encoded_payload := encoded_payload |}.

Definition test_encode_and_decode_success : outcome unit :=
  let rollup_data := u8s [1; 2; 3; 4] in
  let encoded := encode rollup_data PAYLOAD_ENCODING_VERSION_0 in
  let data_len := length (encoded_payload encoded) in
  _ ← assert (bool_decide (data_len mod BYTES_PER_FIELD_ELEMENT = 0)%nat && bool_decide (data_len ≠ 0)%nat);
  assert (bool_decide (decode encoded = Ok rollup_data)).

Definition test_encode_and_decode_success_empty : outcome unit :=
  let encoded := encode [] PAYLOAD_ENCODING_VERSION_0 in
  _ ← assert (bool_decide (length (encoded_payload encoded) = 32)%nat);
  assert (bool_decide (decode encoded = Ok [])).

Definition test_encode_and_decode_error_invalid_length : outcome unit :=
  let encoded := encode (u8s [1; 2; 3; 4]) PAYLOAD_ENCODING_VERSION_0 in
  let truncated := {| encoded_payload := take 33 (encoded_payload encoded) |} in
  assert (bool_decide (decode truncated = Err (DecodingError (InvalidLengthEncodedPayload 33)))).

Definition test_serde_on_encoded_payload : outcome unit :=
  let encoded := encode (u8s [1; 2; 3; 4]) PAYLOAD_ENCODING_VERSION_0 in
  assert (bool_decide (encoded = deserialize (serialize encoded))).

Definition test_check_len_invariant : outcome unit :=
  each_error (λ input, check_len_invariant {| encoded_payload := input |}) [
    (u8s [1; 2; 3; 4], Err (DecodingError (PayloadTooShortForHeader 32 4)));
    (zeros 96, Err (DecodingError (InvalidPowerOfTwoLength (96 / Z.of_nat BYTES_PER_FIELD_ELEMENT))));
    (zeros 34, Err (DecodingError (InvalidLengthEncodedPayload 34)));
    (zeros 64, Ok tt)].

Definition test_decode_header : outcome unit :=
  each_case (λ input, decode_header {| encoded_payload := input |}) [
    (u8s [1; 2; 3; 4], Err (DecodingError (PayloadTooShortForHeader 32 4)));
    (replicate 32 x01, Err (DecodingError (InvalidHeaderFirstByte x01)));
    (u8s [0; 2; 2; 2; 2; 2] ++ zeros 26, Err (DecodingError (UnknownEncodingVersion x02)));
    (u8s [0; 0; 2; 2; 2; 2] ++ zeros 25 ++ [x03],
     Err (DecodingError (InvalidEncodedPayloadHeaderPadding x03)));
    (u8s [0; 0; 0; 0; 0; 129] ++ zeros 26, Ok 129)].

Definition test_check_and_remove_zero_padding_for_field_elements : outcome unit :=
  each_case check_and_remove_zero_padding_for_field_elements [
    (u8s [0; 0] ++ replicate 31 x02, Err (DecodingError (InvalidLengthEncodedPayload 33)));
    (u8s [3; 0; 0; 0; 0; 128] ++ replicate 26 x02 ++ u8s [0; 1] ++ replicate 30 x02,
     Err (DecodingError (InvalidFirstByteFieldElementPadding x03)));
    (u8s [0; 0; 0; 0; 0; 128] ++ replicate 26 x02 ++ u8s [111] ++ replicate 31 x02,
     Err (DecodingError (InvalidFirstByteFieldElementPadding (Z_to_u8 111))));
    (u8s [0; 0; 0; 0; 0; 31] ++ replicate 26 x02, Ok (u8s [0; 0; 0; 0; 31] ++ replicate 26 x02));
    (u8s [0; 0; 0; 0; 0; 1] ++ replicate 26 x02 ++ [x00] ++ replicate 31 x01,
     Ok (u8s [0; 0; 0; 0; 1] ++ replicate 26 x02 ++ replicate 31 x01))].

Definition test_decode_payload : outcome unit :=
  let header len := u8s [0; 0; 0; 0; 0; len] ++ zeros 26 in
  forM_outcome (λ '(input, expected),
    let encoded := {| encoded_payload := input |} in
    length_in_byte ← expect (decode_header encoded);
    assert (bool_decide (decode_payload encoded length_in_byte = expected))) [
    (u8s [0; 0; 2; 2; 2; 2] ++ zeros 26 ++ u8s [128],
     Err (DecodingError (InvalidLengthEncodedPayload 1)));
    (header 128 ++ [x03] ++ replicate 31 x01,
     Err (DecodingError (InvalidFirstByteFieldElementPadding x03)));
    (header 128 ++ [x00] ++ replicate 31 x01, Err (DecodingError (DecodedPayloadBodyTooShort 31 128)));
    (header 1 ++ u8s [0; 0] ++ replicate 30 x02, Err (DecodingError (InvalidEncodedPayloadBodyPadding x02)));
    (header 31 ++ [x00] ++ replicate 31 x01, Ok (replicate 31 x01));
    (header 1 ++ u8s [0; 128] ++ zeros 30, Ok (u8s [128]));
    (zeros 64, Ok []);
    (zeros 32, Ok []);
    (header 3, Err (DecodingError (DecodedPayloadBodyTooShort 0 3)))].
End encoded_payload.
End EncodedPayloadTests.

(** ** crates/eigenda/src/eigenda_preimage.rs *)

Module PreimageTests.
Section preimage.
Context `{!Alloy}.
Definition CALLDATA_HEX : Bytes := x01 :: Concrete.test_v2_bytes.

Definition default_test_preimage_source : EigenDAPreimageSource TestEigenDAPreimageProvider :=
  PreimageSource.new test_provider_default.

Definition test_parse_altda_commitment : outcome unit :=
  each_error (λ input, _ ← parse input; Ok tt) [
    (u8s [1], Err InsufficientLengthAltDACommimtment);
    (u8s [1; 1; 1], Err (ParseError InsufficientData));
    (CALLDATA_HEX, Ok tt)].

Definition get_recency_window_test : outcome unit :=
  _ ← assert (bool_decide (get_recency_window 0 = Ok 14400));
  assert (bool_decide (get_recency_window 1 = Err (UnsupportedOffchainDerivationVersion 1))).

Definition test_recency_check : outcome unit :=
  each_error (λ '(recency_window, l1_inclusion_bn, rbn), recency_check l1_inclusion_bn rbn recency_window) [
    ((10, 5, 3), Ok tt);
    ((0, 5, 0), Ok tt);
    ((100, 100, 5), Err (RecencyCheckError NotRecentCert))].

(** One case of [test_next], on the source as the cases before left it. *)
Definition next_case (c : AltDACommitment) (l1_inclusion_number : Z)
    (case : result TestHokuleaProviderError bool * result TestHokuleaProviderError EncodedPayload *
      result HokuleaErrorKind EncodedPayload) :
    M (EigenDAPreimageSource TestEigenDAPreimageProvider) unit :=
  let '(validity, encoded, expected) := case in
  _ ← modify (λ s, {| eigenda_fetcher := insert_encoded_payload c encoded
        (insert_validity c validity (eigenda_fetcher s)) |});
  r ← PreimageSource.next c l1_inclusion_number;
  lift (assert (bool_decide (r = expected))).

Fixpoint next_cases (c : AltDACommitment) (l1_inclusion_number : Z)
    (cases : list (result TestHokuleaProviderError bool * result TestHokuleaProviderError EncodedPayload *
      result HokuleaErrorKind EncodedPayload)) :
    M (EigenDAPreimageSource TestEigenDAPreimageProvider) unit :=
  match cases with
  | [] => mret tt
  | case :: cases => _ ← next_case c l1_inclusion_number case; next_cases c l1_inclusion_number cases
  end.

Definition test_payload : EncodedPayload :=
  {| encoded_payload := u8s [0; 0; 0; 0; 0; 31] ++ replicate 26 x02 ++ [x00] ++ replicate 31 x01 |}.

Definition test_next : outcome unit :=
  altda_commitment ← expect (parse CALLDATA_HEX);
  let rbn := get_rbn altda_commitment in
  let l1_inclusion_number := rbn + 100 in
  r ← next_cases altda_commitment l1_inclusion_number [
    (Ok false, Ok {| encoded_payload := [] |}, Err (HokuleaPreimageError_into InvalidCert));
    (Ok true, Ok test_payload, Ok test_payload);
    (Err TestPreimage, Ok test_payload, Err (Temporary "Preimage temporary error"));
    (Ok true, Err TestPreimage, Err (Temporary "Preimage temporary error"));
    (Ok true, Err TestCritical, Err (Critical "Critical error"))] default_test_preimage_source;
  Done tt.
End preimage.
End PreimageTests.

(** ** crates/eigenda-cert/src/altda_commitment.rs *)

Module CommitmentTests.
Section commitment.
Context `{!Alloy}.
Definition calldata : Bytes := Concrete.test_v3_bytes.

Definition test_try_into_altda_commitment_and_to_rlp_bytes_ok : outcome unit :=
  altda_commitment ← expect (try_from calldata);
  assert (bool_decide (calldata = to_rlp_bytes altda_commitment)).

Section try_into.
(** [alloy_rlp::Error::InputTooShort] *)
Context (InputTooShort : rlp_error).

Definition test_try_into_altda_commitment : outcome unit :=
  altda_commitment ← expect (try_from calldata);
  each_case try_from [
    (zeros 2, Err InsufficientData);
    (calldata, Ok altda_commitment);
    (to_rlp_bytes {| commitment_type := xff; da_layer_byte := da_layer_byte altda_commitment;
       versioned_cert := versioned_cert altda_commitment |}, Err UnsupportedCommitmentType);
    (to_rlp_bytes {| commitment_type := commitment_type altda_commitment; da_layer_byte := x01;
       versioned_cert := versioned_cert altda_commitment |}, Err UnsupportedDaLayerType);
    (hex_bytes "010004f9", Err (UnsupportedCertVersionType x04));
    (hex_bytes "010002f9", Err (InvalidRlpCert InputTooShort))].
End try_into.
End commitment.
End CommitmentTests.

(** ** crates/compute-proof/src/kzg_proof.rs *)

Module ComputeProofTests.
Definition test_convert_biguint_to_be_32_bytes : outcome unit :=
  let a := u8s [129; 255] in
  out_a ← convert_biguint_to_be_32_bytes (from_be_bytes a);
  _ ← assert (bool_decide (out_a = zeros 30 ++ a));
  let a := replicate 32 x01 in
  out_a ← convert_biguint_to_be_32_bytes (from_be_bytes a);
  assert (bool_decide (out_a = a)).
End ComputeProofTests.

(** ** crates/eigenda/src/eigenda.rs

    The input of the transaction [CALLDATA_i], which alloy decodes, is the derivation
    version followed by the commitment's bytes. *)

Module DataSourceTests.
Definition ALTDA_COMMITMENT_BYTES_1 : Bytes := Concrete.test_v3_bytes.
Definition ALTDA_COMMITMENT_BYTES_2 : Bytes := hex_bytes
"010002f90360e5a079b1d7d15095ff732f8443d96b6d293494b003e9b4377ac1c51375908afb2e9e83916347f901cef901c9f9018180820001f90159f842a008d79f9a46a4183f1d64c45fdedc36be33efc4cd27ffc9f85ac02987c2a5dddca004df46272276ced58d65a56b9a6dfa24102f066d3f0bba07e35992ede22aa4bcf888f842a0018fe73cb24305b7df1fc808f65c15d0f7921758cef87d9f38d31db4236eb9f4a01125fd3aa13adb27759b01c954dd641ad2174374f8e4cb3333970eda9fa011ecf842a00a0dd6223eed09f283a20429a7e03449c7d38b4fe674913c67e0f02d16949a41a00f52bab320eeb037ad223e361512350e35e373c79cf7f2ba1ec2aa036b49adbef888f842a02ecf0e30ff9ce9696c6c1ce5c341bfdfb56f589d3da7925fe54ee43a6667a09aa023a35883de2716167810bfca0c14af9530321908c4b78b572e9308161bb2d402f842a01fd1844a0e0f37f3c9edc39d0e14c8a4214afa7b017843dba1f467c8765df23fa004a01126fe1d6b57d7b985c61a3cb9a57f6c2e86d4dd0da956ad613bef0bcda708a000feeb6796b97a3f0179ef436770791068b9fdc15866f53af08f6d649083952eb841af27b4b47fd17adb76d6bb38831a19df88ee027ceaf22c88d846daff41ce2c7e5a814c8d0aa8034d1626e00d1c711087f412d4ccb35cacb0d490fbaa582493cb01c1808080f90163c0c0f888f842a02099209289cdb7e5087d0401996d2fd9b52ce5cae39c547a039f126371a7f9bca026139d9d30188c9d52468ce9dfb48c39d552243611d5b270f5497c2b8692c696f842a02b2dabbf32c0cb551d3ba9159ae5c985ebcd71d79b00fabd26a74d618065bfd6a01bef832bd3efaea9f61c0582fb123bb547546f0c5910a9dda96bcd0063d57a02f888f842a027b90b5da16ef02417ad5820223e680d2c2d19a3f1d30566cfbb7b9aa30abf6da022432d9b57d271b8dd84bfb4ccd9df36b84e422cb471b35d50d55ae83a03f16ef842a0018ed79d6c0707cc6f4ec81bcea6c4cc0096f0e3635961caf3271c3c9a36a9dfa0179360dc4646a7c49bf730e1789c00622facd7836faa3c747be0f2d824cb1412f842a029273db955f9532f7b1ffe0eead7b85ac277534c892f73f0d9cf4403be36b5c6a022895e02ab90d618987ee5bf2818c93b9c5fac931d2af2b42a2d207c9d3d4966c20705c20805c2c0c0820001".

Definition ALTDA_COMMITMENT_BYTES_3 : Bytes := hex_bytes
"010002f903eee5a098eb692e5d190ff4458583187f335be454e47df2912152fe1200c9c3505ac4208391631bf901cef901c9f9018180820001f90159f842a00b24de07075954f38be4b14a6321d98cbbc07fc19737263774c763fb900cc7e4a01a76894605331379abaf50fdff37828c6cbe638ebe5376eaa4c250e053328fa2f888f842a009f7e88880c8e646cd234a162fc07dd5dd298092a714e9b5c8f2f473ca1afa56a0176c98504ed52e2dbc8fec1d1cd2c19f1f7d4c4a0d5584e479ce1034a571305df842a018135e9b7e4a1821ad2607a3cdc801b2a4cb1c9d641767428e8bc96f4a9c77bea00eba497b2195b825b817876f24c08d11ae30f6712c9d19255ec8d2a10b970c68f888f842a008e8f0db2324bdfef9af18c94a7aab5d68e5a485728281a5276b6519b5e99e83a00d1d6a357bb7baa967608929c192da0e15086b44e8557c672bd0f82763d0a43af842a002c20947d2e8628096d5ac30f0a48200f43960789064fe2f5c7c0b0e0c867a64a022b1240ea86dec625bb4a6db9c31769b7d7a894c4d2db565d5f215afaa8de11008a05f5f8a015a8ea873f35b68b5c829b2d8cb966785e50fb77b89da4dc177008f68b8419dadf3f532d1ed8a986d5091476945242710d9ee38ed6aa91472ad8c37170d8820fb9b0d59b3ee08b1a5a9ed8c3c4728b5a9dbf74104cec747e7ff43ae42be8600c1808080f901f1c28001f887f8419f9a9a3504786f979f4011c180069d0127599773df85c02f550c8bcd4336d150a02bf5de7c6791a70185eb0eef04661bbf6f3596569843dbd9172eea27ad484249f842a02b1528a6792412f62e605d184a86c5831f5eb62fe8b8a55ab734379af46ecd10a01c99445cf70539613357bf7770d2e9780abf080531bfdc8cc1e74171f7c43eb5f888f842a02099209289cdb7e5087d0401996d2fd9b52ce5cae39c547a039f126371a7f9bca026139d9d30188c9d52468ce9dfb48c39d552243611d5b270f5497c2b8692c696f842a02b2dabbf32c0cb551d3ba9159ae5c985ebcd71d79b00fabd26a74d618065bfd6a01bef832bd3efaea9f61c0582fb123bb547546f0c5910a9dda96bcd0063d57a02f888f842a021a96430d1ee4b86b3dd912911a5a0128793f5d17242b49af0963126281656b2a02c138443b35d1038b341db4d3e3883efa7b335c91768c2796b852d3e747a2f3ff842a02517000c28dda7a87164dccc0cd1829bdd6014f5a020297f3cbed3993ce2107ca022591d582daa491dba1642862e37218d71d3492fa9ba22fec5347f22d72ae389f842a0102d793353afc14a8c4faf4df2d013db0c8c03d0f00028a5f142182b8b13359ca029bb1669d1a25dbbd48b5de886200d3e8e01d40c1405c51f79d952f9cb540833c20705c20805c6c28001c28080820001".

Definition ENCODED_PAYLOAD_1 : Bytes := hex_bytes
"00000000009100000000000000000000000000000000000000000000000000000000ab80c99f814a3541886f8f4a65f61b67000000000079011b6501f88f532c00998d4648d239b1ce87da27450caaab705a5c8412149720e6dd229a4b97d25600ca7222a7ae434145a5d1440229000106a45bd00f3e0e33b07a5c23ad927eaa00f98a77e7818ff59e2c3b2c03d5ffaeb6dba4cb08b9fa2d122e8acbe726c4a70009ae086496e0d3ac00d70438c034e1f1314b70c0010000000000000000000000000000000000000000000000000000000000000000000000000000000000000000000000000000000000000000000000000000000000000000000000000000".

Definition ENCODED_PAYLOAD_2 : Bytes := hex_bytes
"00000000009500000000000000000000000000000000000000000000000000000000bdcf2fd9b7d8767b4dff28e8fdba9a7200000000007d011b5e01f8bf1cc8006b5bd7432114a72c3aac44bf6f9d30f86ca72f2ae64aa3a769a9e84d0d4ab500e9e21b8dfff777693a3aaf83068082e7050b4c42007837016bf1b4266000e0009a2b83da791a259074888d35115a378d560e902075e06065876d315ba365f1004b83275c22c744560f3389561e2359a65f4150b0b1837a000100000000000000000000000000000000000000000000000000000000000000000000000000000000000000000000000000000000000000000000000000000000000000000000".

Definition ENCODED_PAYLOAD_3 : Bytes := hex_bytes
"00000000009d00000000000000000000000000000000000000000000000000000000507e76bda9280c0c5571a765a841e93b000000000085011b6901f83f14d800c6b493fad51647317c089e5d748df8fb056c31e9b3bae60933979fbbbfa2270079d4cef288030b6e1e51e4615b54cb5a4041c05f7e128071b6208854d03600000214d4017e83865a24ac735f375282ca4b51dbe044c0a6cdca01125223b4b2007573b0e5fb49d62b85df33fcef32d1ebd576d29ba2094d0167191834945c3900040100000000000000000000000000000000000000000000000000000000000000000000000000000000000000000000000000000000000000000000000000".

(** The inputs of the transactions of the failover test and of the parse error test. *)
Definition ethda_input : Bytes := hex_bytes
"ed12ce02188e94a60b2202000128b5de02aa06bd02010000f90137f852f842a000d799bcf9d5e378a8d54b3226a4f4aa090352e0a804f5f4cfe1ed6b3118dba1a01a77098770a7dd0ee513877480657c0bb6bb92edc6ed3b8964ef2b3ed5dca7e5820800cac480213704c401213704f8e18302086c80f875eca01d93b7b8b6dc6955c98ca0c8fae72bad8f0922831458751fe2e00751b65b0f958200018264648401698a0ea04f8af94b6bde70c9ff4c5891192d33cfc711946dac85ef9ff8fd7cf75f2d909b008401698a41a046efdfad35da81ca44f686cb59568bece690928ee701e9895167cd97ce404c44b860188541ec0f491d19c9852b8fdea430650fe226ebad16d3bdd10a8477bb7e648f317aef4a3af990b8b4d258c1b6b6adf5b74ba495ae235a90f60b5bc1a147c60af3b8fef0f246098360f353b45e456ea407240182278103835f42551dc38bb645820001".

Definition unparsable_input : Bytes := hex_bytes
"01010ccedd8300000000001d24960a699284cc26f4ec4d2f22eca56b6401f4225f4b3785818ff7cdb1273a".

Definition BLOCK_NUMBER : Z := 9600000.
Definition NOT_DECODABLE_ENCODED_PAYLOAD : EncodedPayload := {| encoded_payload := [] |}.

Definition commitment_bytes : list Bytes :=
  [ALTDA_COMMITMENT_BYTES_1; ALTDA_COMMITMENT_BYTES_2; ALTDA_COMMITMENT_BYTES_3].

Section tests.
Context `{!Alloy, !Kona, !EthereumDataSource E}.

(** The inputs of the transactions, the commitments and the encoded payloads. *)
Definition valid_eip1559_txs_with_altda_commitment_encoded_payload (num : nat) :
    outcome (list Bytes * list AltDACommitment * list EncodedPayload) :=
  altda_commitments ← mapM_outcome (λ bytes, expect (try_from bytes)) commitment_bytes;
  Done (take num (cons x01 <$> commitment_bytes), take num altda_commitments,
        take num (deserialize <$> [ENCODED_PAYLOAD_1; ENCODED_PAYLOAD_2; ENCODED_PAYLOAD_3])).

(** kona's test chain: a source without a block, one whose block has transactions to the
    inbox from the batcher with the given inputs, and one that is open and holds data; the
    tests' conditions on kona's fields; the patterns on errors. *)
Context (no_block : E) (with_block : list Bytes → E) (populated : E).
Context (is_open has_no_data : E → bool).
Context (is_temporary is_provider_error : pipeline_error_kind → bool).
Context (block_info : Z → BlockInfo) (batcher_address : Address).
Local Abbreviation S := (EigenDADataSource E TestEigenDAPreimageProvider).

Definition default_test_eigenda_data_source (e : E) : S :=
  DataSource.new e PreimageTests.default_test_preimage_source.

(** One call of [next]; a test has at most four items, so eight rounds are enough. *)
Definition next (number : Z) : M S (result pipeline_error_kind Bytes) := λ s,
  match DataSource.next 8 (block_info number) batcher_address s with
  | Some r => r
  | None => Panic
  end.

Definition check (b : bool) : M S unit := lift (assert b).
Definition err_is {A} (p : pipeline_error_kind → bool) (r : result pipeline_error_kind A) : bool :=
  match r with Ok _ => false | Err e => p e end.
Definition is_err (e : pipeline_error_kind) : pipeline_error_kind → bool := λ e', bool_decide (e' = e).
Definition commitment_is_some : M S bool :=
  s ← get; mret (match altda_commitment s with Some _ => true | None => false end).
Definition on_test_provider (f : TestEigenDAPreimageProvider → TestEigenDAPreimageProvider) : M S unit :=
  modify (λ s, {| ethereum_source := ethereum_source s;
    eigenda_source := {| eigenda_fetcher := f (eigenda_fetcher (eigenda_source s)) |};
    altda_commitment := altda_commitment s |}).
Definition set_should_preimage_err (b : bool) : M S unit :=
  on_test_provider (λ p, {| validities := validities p; encoded_payloads := encoded_payloads p;
    should_preimage_err := b |}).
(** [source.ethereum_source]'s fields *)
Definition check_source (p : E → bool) : M S unit := s ← get; check (p (ethereum_source s)).
Definition run (m : M S unit) (s : S) : outcome unit := _ ← m s; Done tt.

(** The loop indexes the other two vectors, and panics behind their ends. *)
Fixpoint set_eigenda_preimage_provider_value (altda_commitments : list AltDACommitment)
    (vs : list (result TestHokuleaProviderError bool))
    (eps : list (result TestHokuleaProviderError EncodedPayload)) : M S unit :=
  match altda_commitments, vs, eps with
  | [], _, _ => mret tt
  | c :: altda_commitments, v :: vs, ep :: eps =>
      _ ← on_test_provider (λ p, insert_encoded_payload c ep (insert_validity c v p));
      set_eigenda_preimage_provider_value altda_commitments vs eps
  | _, _, _ => panic
  end.

Definition test_clear : outcome unit :=
  altda_commitment ← expect (try_from ALTDA_COMMITMENT_BYTES_1);
  let source := default_test_eigenda_data_source populated in
  let source := DataSource.set_commitment (Some altda_commitment) source in
  run (_ ← modify DataSource.clear;
       _ ← check_source (negb ∘ is_open);
       some ← commitment_is_some;
       _ ← check (negb some);
       check_source has_no_data) source.

Definition test_next_chain_provider_err : outcome unit :=
  run (r ← next 0; check (err_is is_temporary r)) (default_test_eigenda_data_source no_block).

Definition test_next_empty_data_err : outcome unit :=
  run (some ← commitment_is_some;
       _ ← check (negb some);
       err ← next 0;
       some ← commitment_is_some;
       _ ← check (negb some);
       check (err_is (is_err (PipelineTemporary Eof)) err))
    (default_test_eigenda_data_source (with_block [])).

Definition test_next_with_eigenda_preimage_provider_preimage_fetch_error : outcome unit :=
  data ← valid_eip1559_txs_with_altda_commitment_encoded_payload 1;
  let '(txs, _, _) := data in
  run (_ ← set_should_preimage_err true;
       r ← next 0;
       _ ← check (err_is is_provider_error r);
       some ← commitment_is_some;
       check some) (default_test_eigenda_data_source (with_block txs)).

(** [v\[i\]] *)
Definition index {A} (l : list A) (i : nat) : M S A :=
  match l !! i with Some a => mret a | None => panic end.

(** The start of the tests below: a block with [num] of the transactions. *)
Definition configure_chain_provider_with_txs (num : nat)
    (body : list AltDACommitment → list EncodedPayload → M S unit) : outcome unit :=
  data ← valid_eip1559_txs_with_altda_commitment_encoded_payload num;
  let '(txs, altda_commitments, encoded_payloads) := data in
  run (body altda_commitments encoded_payloads) (default_test_eigenda_data_source (with_block txs)).

Definition test_next_chain_provider_1559_tx_succeeds : outcome unit :=
  configure_chain_provider_with_txs 1 (λ altda_commitments encoded_payloads,
    _ ← set_eigenda_preimage_provider_value altda_commitments [Ok true] (Ok <$> take 1 encoded_payloads);
    r ← next BLOCK_NUMBER;
    data ← lift (expect r);
    some ← commitment_is_some;
    _ ← check (negb some);
    encoded ← index encoded_payloads 0;
    payload ← lift (expect (decode encoded));
    check (bool_decide (data = payload))).

Definition test_next_chain_provider_1559_txs_succeeds_after_temporary_error : outcome unit :=
  configure_chain_provider_with_txs 1 (λ altda_commitments encoded_payloads,
    _ ← set_eigenda_preimage_provider_value altda_commitments [Ok true] (Ok <$> take 1 encoded_payloads);
    _ ← set_should_preimage_err true;
    r ← next BLOCK_NUMBER;
    _ ← check (err_is is_provider_error r);
    some ← commitment_is_some;
    _ ← check some;
    r ← next BLOCK_NUMBER;
    _ ← check (err_is is_provider_error r);
    some ← commitment_is_some;
    _ ← check some;
    _ ← set_should_preimage_err false;
    r ← next BLOCK_NUMBER;
    payload ← lift (expect r);
    some ← commitment_is_some;
    _ ← check (negb some);
    encoded ← index encoded_payloads 0;
    expected ← lift (expect (decode encoded));
    check (bool_decide (payload = expected))).

Definition test_load_eigenda_or_calldata_chain_provider_1559_tx_with_ethda_failover : outcome unit :=
  run (r ← next 0;
       _ ← check (is_ok r);
       some ← commitment_is_some;
       check (negb some)) (default_test_eigenda_data_source (with_block [ethda_input])).

Definition test_next_chain_provider_1559_tx_with_empty_calldata : outcome unit :=
  run (r ← next 0; check (err_is (is_err (PipelineTemporary NotEnoughData)) r))
    (default_test_eigenda_data_source (with_block [[]])).

Definition test_next_chain_provider_1559_tx_with_altda_commitment_parse_error : outcome unit :=
  run (r ← next 0; check (err_is (is_err (PipelineTemporary NotEnoughData)) r))
    (default_test_eigenda_data_source (with_block [unparsable_input])).

Definition test_next_with_two_1559_txs_succeeds : outcome unit :=
  configure_chain_provider_with_txs 2 (λ altda_commitments encoded_payloads,
    _ ← set_eigenda_preimage_provider_value altda_commitments [Ok true; Ok true] (Ok <$> encoded_payloads);
    r ← next BLOCK_NUMBER;
    _ ← check (is_ok r);
    some ← commitment_is_some;
    _ ← check (negb some);
    _ ← check_source is_open;
    r ← next BLOCK_NUMBER;
    _ ← check (is_ok r);
    some ← commitment_is_some;
    _ ← check (negb some);
    _ ← check_source is_open;
    _ ← check_source has_no_data;
    err ← next BLOCK_NUMBER;
    _ ← check (err_is (is_err (PipelineTemporary Eof)) err);
    check_source (negb ∘ is_open)).

(** [Case] of the table tests. *)
Record Case := {
  case_commitment : AltDACommitment;
  case_validity : result TestHokuleaProviderError bool;
  case_payload : result TestHokuleaProviderError EncodedPayload;
}.

Definition set_case (c : Case) : M S unit :=
  set_eigenda_preimage_provider_value [case_commitment c] [case_validity c] [case_payload c].

Fixpoint each {A} (f : A → M S unit) (l : list A) : M S unit :=
  match l with [] => mret tt | a :: l => _ ← f a; each f l end.

Definition test_next_with_temporary_error : outcome unit :=
  configure_chain_provider_with_txs 1 (λ altda_commitments encoded_payloads,
    c ← index altda_commitments 0;
    ep ← index encoded_payloads 0;
    some ← commitment_is_some;
    _ ← check (negb some);
    each (λ case,
      _ ← set_case case;
      r ← next BLOCK_NUMBER;
      _ ← check (err_is is_provider_error r);
      some ← commitment_is_some;
      check some) [
      {| case_commitment := c; case_validity := Err TestPreimage; case_payload := Ok ep |};
      {| case_commitment := c; case_validity := Ok true; case_payload := Err TestPreimage |}]).

Definition test_next_with_discarded_altda_commitment : outcome unit :=
  configure_chain_provider_with_txs 2 (λ altda_commitments encoded_payloads,
    c0 ← index altda_commitments 0;
    c1 ← index altda_commitments 1;
    ep0 ← index encoded_payloads 0;
    some ← commitment_is_some;
    _ ← check (negb some);
    _ ← each set_case [
      {| case_commitment := c0; case_validity := Ok false; case_payload := Ok ep0 |};
      {| case_commitment := c1; case_validity := Ok true;
         case_payload := Ok NOT_DECODABLE_ENCODED_PAYLOAD |}];
    err ← next BLOCK_NUMBER;
    _ ← check (err_is (is_err (PipelineTemporary Eof)) err);
    some ← commitment_is_some;
    check (negb some)).

(** The loop over the results of a scenario; [repair] is what it does to the provider
    while a commitment is still held. *)
Fixpoint drive (repair : AltDACommitment → TestEigenDAPreimageProvider → TestEigenDAPreimageProvider)
    (results : list (result pipeline_error_kind Bytes)) (altda_commitment_is_some : list bool) : M S unit :=
  match results, altda_commitment_is_some with
  | [], _ => mret tt
  | expected :: results, expected_some :: altda_commitment_is_some =>
      r ← next BLOCK_NUMBER;
      _ ← check (bool_decide (r = expected));
      some ← commitment_is_some;
      _ ← check (bool_decide (some = expected_some));
      s ← get;
      _ ← (match altda_commitment s with
           | Some c => on_test_provider (repair c)
           | None => mret tt
           end);
      drive repair results altda_commitment_is_some
  | _, [] => panic
  end.

Definition scenario (repair : AltDACommitment → TestEigenDAPreimageProvider → TestEigenDAPreimageProvider)
    (cases : list Case) (results : list (result pipeline_error_kind Bytes)) (flags : list bool) : M S unit :=
  _ ← each set_case cases;
  drive repair results flags.

(** A preimage error becomes a drop, or a valid certificate. *)
Definition repair_drop (c : AltDACommitment) (p : TestEigenDAPreimageProvider) : TestEigenDAPreimageProvider :=
  insert_encoded_payload c (Ok NOT_DECODABLE_ENCODED_PAYLOAD) (insert_validity c (Ok false) p).
Definition repair_take (c : AltDACommitment) (p : TestEigenDAPreimageProvider) : TestEigenDAPreimageProvider :=
  insert_validity c (Ok true) p.

Definition test_next_with_keep_and_discard_multiple_altda_commitment : outcome unit :=
  configure_chain_provider_with_txs 3 (λ altda_commitments encoded_payloads,
    payloads ← lift (mapM_outcome (λ e, expect (decode e)) encoded_payloads);
    c0 ← index altda_commitments 0; c1 ← index altda_commitments 1; c2 ← index altda_commitments 2;
    ep0 ← index encoded_payloads 0; ep1 ← index encoded_payloads 1; ep2 ← index encoded_payloads 2;
    p0 ← index payloads 0; p1 ← index payloads 1; p2 ← index payloads 2;
    let case c validity payload := {| case_commitment := c; case_validity := validity;
      case_payload := payload |} in
    let retry := Err (PipelineTemporary (Provider "Preimage temporary error")) in
    let eof := Err (PipelineTemporary Eof) in
    _ ← scenario repair_drop
      [case c0 (Ok false) (Ok ep0); case c1 (Ok true) (Ok NOT_DECODABLE_ENCODED_PAYLOAD);
       case c2 (Ok true) (Ok ep2)]
      [Ok p2; eof] [false; false];
    _ ← modify DataSource.clear;
    _ ← scenario repair_drop
      [case c0 (Ok true) (Ok ep0); case c1 (Err TestPreimage) (Ok ep1);
       case c2 (Ok true) (Ok ep2)]
      [Ok p0; retry; Ok p2; eof] [false; true; false; false];
    _ ← modify DataSource.clear;
    _ ← scenario repair_drop
      [case c0 (Ok false) (Ok ep0); case c1 (Err TestPreimage) (Ok ep1);
       case c2 (Ok true) (Ok NOT_DECODABLE_ENCODED_PAYLOAD)]
      [retry; eof] [true; false];
    _ ← modify DataSource.clear;
    scenario repair_take
      [case c0 (Err TestPreimage) (Ok ep0); case c1 (Err TestPreimage) (Ok ep1);
       case c2 (Ok false) (Ok NOT_DECODABLE_ENCODED_PAYLOAD)]
      [retry; Ok p0; retry; Ok p1; eof]
      [true; false; true; false; false]).
End tests.
End DataSourceTests.

(** ** crates/proof/src/preloaded_eigenda_provider.rs *)

Module PreloadedTests.
Section preloaded.
Context `{!Alloy, !KonaPreimage, !KzgProver, !KzgBackend}.
(** [Blob::len], and the four points of [load_g1_srs] *)
Context (blob_len : ProverBlob → Z) (load_g1_srs : SRS).

Definition compute_kzg_commitment (blob : ProverBlob) : outcome (result KzgError G1Point) :=
  kzg ← expect (calculate_and_store_roots_of_unity (blob_len blob) KZG_new);
  input_poly ←! Done (to_polynomial_eval_form blob);
  commitment ←! Done (commit_eval_form kzg input_poly load_g1_srs);
  commitment_x_bytes ← convert_biguint_to_be_32_bytes (proof_x commitment);
  commitment_y_bytes ← convert_biguint_to_be_32_bytes (proof_y commitment);
  Done (Ok {| x := from_be_bytes commitment_x_bytes; y := from_be_bytes commitment_y_bytes |}).

(** The blob's bytes are those of the payload. *)
Definition compute_kzg_proof_and_commitment (encoded_payload_inner : Bytes) :
    outcome (Bytes * G1Point * Bytes) :=
  let encoded := {| encoded_payload := encoded_payload_inner |} in
  kzg_proof ← compute_kzg_proof_with_srs (serialize encoded) load_g1_srs;
  kzg_proof ← expect kzg_proof;
  _ ← assert (bool_decide (length kzg_proof = 64%nat));
  blob ← expect (ProverBlob_new (serialize encoded));
  kzg_commitment ← compute_kzg_commitment blob;
  kzg_commitment ← expect kzg_commitment;
  Done (serialize encoded, kzg_commitment, kzg_proof).

(** The assignment to the commitment inside a certificate. *)
Definition set_kzg_commitment (c : G1Point) (i : BlobInclusionInfo) : BlobInclusionInfo :=
  let cert := blob_certificate i in
  let header := blob_header cert in
  let bc := bh_commitment header in
  {| blob_certificate := {|
       blob_header := {| version := version header; quorum_numbers := quorum_numbers header;
         bh_commitment := {| commitment := c; length_commitment := length_commitment bc;
           length_proof := length_proof bc; bc_length := bc_length bc |};
         payment_header_hash := payment_header_hash header |};
       signature := signature cert; relay_keys := relay_keys cert |};
     blob_index := blob_index i; inclusion_proof := inclusion_proof i |}.

Definition set_cert_commitment (g : G1Point) (versioned_cert : EigenDAVersionedCert) : EigenDAVersionedCert :=
  match versioned_cert with
  | V2 c => V2 {| v2_blob_inclusion_info := set_kzg_commitment g (v2_blob_inclusion_info c);
                  v2_batch_header_v2 := v2_batch_header_v2 c;
                  v2_nonsigner_stake_and_signature := v2_nonsigner_stake_and_signature c;
                  v2_signed_quorum_numbers := v2_signed_quorum_numbers c |}
  | V3 c => V3 {| v3_batch_header_v2 := v3_batch_header_v2 c;
                  v3_blob_inclusion_info := set_kzg_commitment g (v3_blob_inclusion_info c);
                  v3_nonsigner_stake_and_signature := v3_nonsigner_stake_and_signature c;
                  v3_signed_quorum_numbers := v3_signed_quorum_numbers c |}
  | V4 c => V4 {| v4_batch_header_v2 := v4_batch_header_v2 c;
                  v4_blob_inclusion_info := set_kzg_commitment g (v4_blob_inclusion_info c);
                  v4_nonsigner_stake_and_signature := v4_nonsigner_stake_and_signature c;
                  v4_signed_quorum_numbers := v4_signed_quorum_numbers c;
                  v4_offchain_derivation_version := v4_offchain_derivation_version c |}
  end.

Definition prepare_ok_data : outcome EigenDAWitness :=
  let encoded_payload_inner := encoded_payload PreimageTests.test_payload in
  altda_commitment ← expect (try_from Concrete.test_v3_bytes);
  r ← compute_kzg_proof_and_commitment encoded_payload_inner;
  let '(_, commitment, proof) := r in
  let altda_commitment := {| commitment_type := commitment_type altda_commitment;
    da_layer_byte := da_layer_byte altda_commitment;
    versioned_cert := set_cert_commitment commitment (versioned_cert altda_commitment) |} in
  Done {| witness_validities := [(altda_commitment, true)];
          witness_encoded_payloads := [(altda_commitment, {| encoded_payload := encoded_payload_inner |}, proof)];
          canoe_proof_bytes := Some [] |}.

Definition prepare_data_with_invalid_encoded_payload : outcome EigenDAWitness :=
  ok_data ← prepare_ok_data;
  Done {| witness_validities := witness_validities ok_data;
          witness_encoded_payloads := (λ '(c, _, proof), (c, {| encoded_payload :=
            xff :: drop 1 (encoded_payload PreimageTests.test_payload) |}, proof)) <$>
            witness_encoded_payloads ok_data;
          canoe_proof_bytes := canoe_proof_bytes ok_data |}.

(** [proofs.swap(0, 1)] *)
Definition swap01 {A} (l : list A) : outcome (list A) :=
  match l with a :: b :: l => Done (b :: a :: l) | _ => Panic end.

Definition test_batch_verify : outcome unit :=
  let encoded_payload_inner_1 := encoded_payload PreimageTests.test_payload in
  let encoded_payload_inner_2 := u8s [0; 1; 1; 1; 1; 31] ++ drop 6 encoded_payload_inner_1 in
  rs ← mapM_outcome compute_kzg_proof_and_commitment [encoded_payload_inner_1; encoded_payload_inner_2];
  let blobs := (λ r, r.1.1) <$> rs in
  let commitments := (λ r, r.1.2) <$> rs in
  let proofs := snd <$> rs in
  verified ← Preloaded.batch_verify blobs commitments proofs;
  _ ← assert verified;
  proofs ← swap01 proofs;
  verified ← Preloaded.batch_verify blobs commitments proofs;
  _ ← assert (negb verified);
  verified ← Preloaded.batch_verify (take 1 blobs) (take 1 commitments) (take 1 proofs);
  assert (negb verified).

(** [from_witness] with the defaults of the tests. *)
Definition from_witness_default (witness : EigenDAWitness) : outcome PreloadedEigenDAPreimageProvider :=
  from_witness witness (zeros 32) 0 0 0 NoOpVerifier {| static_address := zeros 20 |}.

Definition test_from_witness_ok_0_preimage : outcome unit :=
  preimage ← from_witness_default
    {| witness_validities := []; witness_encoded_payloads := []; canoe_proof_bytes := None |};
  _ ← assert (bool_decide (length (encoded_payload_entries preimage) = 0%nat));
  assert (bool_decide (length (validity_entries preimage) = 0%nat)).

(** The tests below are marked [should_panic]; a body that gets to its end fails. *)

Definition head_of {A} (l : list A) : outcome A := match l with a :: _ => Done a | [] => Panic end.

Definition test_from_witness_ok_and_preimage_provider : outcome unit :=
  eigenda_witness ← prepare_ok_data;
  v ← head_of (witness_validities eigenda_witness);
  ep ← head_of (witness_encoded_payloads eigenda_witness);
  preimage ← from_witness_default eigenda_witness;
  r ← Preloaded.get_validity v.1 preimage;
  validity ← expect r.1;
  _ ← assert (bool_decide (validity = v.2));
  r ← Preloaded.get_encoded_payload v.1 r.2;
  encoded ← expect r.1;
  _ ← assert (bool_decide (encoded = ep.1.2));
  r ← Preloaded.get_encoded_payload v.1 r.2;
  Done tt.

Definition unknown_key (c : AltDACommitment) : AltDACommitment :=
  {| commitment_type := commitment_type c; da_layer_byte := xff; versioned_cert := versioned_cert c |}.

Definition test_from_witness_panic_unknown_key_validity : outcome unit :=
  eigenda_witness ← prepare_ok_data;
  v ← head_of (witness_validities eigenda_witness);
  preimage ← from_witness_default eigenda_witness;
  _ ← Preloaded.get_validity (unknown_key v.1) preimage;
  Done tt.

Definition test_from_witness_panic_unknown_key_encoded_payload : outcome unit :=
  eigenda_witness ← prepare_ok_data;
  v ← head_of (witness_validities eigenda_witness);
  preimage ← from_witness_default eigenda_witness;
  _ ← Preloaded.get_encoded_payload (unknown_key v.1) preimage;
  Done tt.

Definition test_from_witness_length_violation_validity_encoded_payload : outcome unit :=
  eigenda_witness ← prepare_ok_data;
  _ ← from_witness_default {| witness_validities := witness_validities eigenda_witness;
    witness_encoded_payloads := witness_encoded_payloads eigenda_witness ++
      witness_encoded_payloads eigenda_witness;
    canoe_proof_bytes := canoe_proof_bytes eigenda_witness |};
  Done tt.

Definition test_from_witness_not_field_element : outcome unit :=
  eigenda_witness ← prepare_data_with_invalid_encoded_payload;
  _ ← from_witness_default eigenda_witness;
  Done tt.
End preloaded.
End PreloadedTests.
