(* ===== verification/UnitTestRuns.v ===== *)
(** * The unit tests hold of the model

    Every test of [UnitTests] that needs no KZG prover ends without a failed assertion,
    over the RLP codec of [RlpInstance] and a small test chain; the test encoder inverts
    the decoder on every payload of a suitable length; and the tests of the preloaded
    provider that expect a panic get it before they reach what they are meant to test. *)

From S2P Require Export EncodedPayloadTheory UnitTests ClientWitnesses.

(** ** Alloy for the tests

    The codec of [RlpInstance]; a digest is a commitment's batch root, which tells the
    tests' certificates apart. *)

Definition window_hash (bs : Bytes) : B256 := take 32 (drop 8 bs ++ zeros 32).
Lemma length_window_hash bs : length (window_hash bs) = 32%nat.
Proof. unfold window_hash. rewrite length_take, length_app, length_zeros. lia. Qed.

#[local] Instance test_alloy : Alloy := {|
  alloy_rlp_error := Concrete.concrete_rlp_error_class;
  alloy_rlp_v2 := Concrete.fmt_rlp EigenDACertV2_fmt;
  alloy_rlp_v3 := Concrete.fmt_rlp EigenDACertV3_fmt;
  alloy_rlp_v4 := Concrete.fmt_rlp EigenDACertV4_fmt;
  alloy_keccak := {| keccak256 := window_hash; length_keccak256 := length_window_hash |};
|}.

(** ** The test chain *)

(** A block's items, and the items that are loaded while the source is open. *)
Record TestChain := { chain_items : option (list Bytes); open_items : option (list Bytes) }.

Definition pop_item (chain : option (list Bytes)) (q : list Bytes) :
    result (bool * list_pipeline_error) Bytes * TestChain :=
  match q with
  | [] => (Err (true, LEof), {| chain_items := chain; open_items := Some [] |})
  | d :: q => (Ok d, {| chain_items := chain; open_items := Some q |})
  end.

#[export] Instance test_chain : EthereumDataSource TestChain := {|
  eth_next b a e := Done
    match open_items e, chain_items e with
    | Some q, chain => pop_item chain q
    | None, Some items => pop_item (Some items) items
    | None, None => (Err (true, LProvider "no block"), e)
    end;
  eth_clear e := {| chain_items := chain_items e; open_items := None |};
|}.

Definition no_block : TestChain := {| chain_items := None; open_items := None |}.
Definition with_block (items : list Bytes) : TestChain := {| chain_items := Some items; open_items := None |}.
Definition populated : TestChain := {| chain_items := None; open_items := Some [[]] |}.
Definition is_open (e : TestChain) : bool := match open_items e with Some _ => true | None => false end.
Definition has_no_data (e : TestChain) : bool := match open_items e with Some (_ :: _) => false | _ => true end.
Definition is_temporary (e : bool * list_pipeline_error) : bool := e.1.
Definition is_provider_error (e : bool * list_pipeline_error) : bool :=
  match e with (true, LProvider _) => true | _ => false end.
Definition block_info (number : Z) : BlockInfo := number.

(** The test encoder's padding: a zero byte in front of every 31 bytes, the last chunk as
    long as what is left. *)
Fixpoint pad_from (fuel : nat) (data : Bytes) : Bytes :=
  match fuel, data with
  | Datatypes.S fuel, _ :: _ => x00 :: take 31 data ++ pad_from fuel (drop 31 data)
  | _, _ => []
  end.
Definition pad_payload (data : Bytes) : Bytes := pad_from (length data) data.

(** ** The runs *)

Lemma encoded_payload_tests_hold : Forall (λ t, t = Done tt) [
  EncodedPayloadTests.test_encode_and_decode_success pad_payload;
  EncodedPayloadTests.test_encode_and_decode_success_empty pad_payload;
  EncodedPayloadTests.test_encode_and_decode_error_invalid_length pad_payload;
  EncodedPayloadTests.test_serde_on_encoded_payload pad_payload;
  EncodedPayloadTests.test_check_len_invariant;
  EncodedPayloadTests.test_decode_header;
  EncodedPayloadTests.test_check_and_remove_zero_padding_for_field_elements;
  EncodedPayloadTests.test_decode_payload].
Proof. vm_compute. repeat constructor. Qed.

Lemma preimage_tests_hold : Forall (λ t, t = Done tt) [
  PreimageTests.test_parse_altda_commitment; PreimageTests.get_recency_window_test;
  PreimageTests.test_recency_check; PreimageTests.test_next].
Proof. vm_compute. repeat constructor. Qed.

Lemma commitment_tests_hold : Forall (λ t, t = Done tt) [
  CommitmentTests.test_try_into_altda_commitment_and_to_rlp_bytes_ok;
  CommitmentTests.test_try_into_altda_commitment Concrete.InvalidInput;
  ComputeProofTests.test_convert_biguint_to_be_32_bytes].
Proof. vm_compute. repeat constructor. Qed.

Import DataSourceTests.

Lemma data_source_tests_hold : Forall (λ t, t = Done tt) [
  test_clear populated is_open has_no_data;
  test_next_chain_provider_err no_block is_temporary block_info [];
  test_next_empty_data_err with_block block_info [];
  test_next_with_eigenda_preimage_provider_preimage_fetch_error with_block is_provider_error block_info [];
  test_next_chain_provider_1559_tx_succeeds with_block block_info [];
  test_next_chain_provider_1559_txs_succeeds_after_temporary_error with_block is_provider_error block_info [];
  test_load_eigenda_or_calldata_chain_provider_1559_tx_with_ethda_failover with_block block_info [];
  test_next_chain_provider_1559_tx_with_empty_calldata with_block block_info [];
  test_next_chain_provider_1559_tx_with_altda_commitment_parse_error with_block block_info [];
  test_next_with_two_1559_txs_succeeds with_block is_open has_no_data block_info [];
  test_next_with_temporary_error with_block is_provider_error block_info [];
  test_next_with_discarded_altda_commitment with_block block_info [];
  test_next_with_keep_and_discard_multiple_altda_commitment with_block block_info []].
Proof. vm_compute. repeat constructor. Qed.

(** ** The test encoder *)

(** The number of field elements behind the header. *)
Definition body_elements (p : Bytes) : nat := ((length p + 30) / 31)%nat.

Lemma body_elements_short p : p ≠ [] → (length p ≤ 31)%nat → body_elements p = 1%nat.
Proof.
  intros Hne Hl. destruct p as [|b p]; [done|]. cbn [length] in *. unfold body_elements. cbn [length].
  symmetry. apply (Nat.div_unique _ _ _ (length p)); lia.
Qed.
Lemma body_elements_long p : (31 < length p)%nat → body_elements p = Datatypes.S (body_elements (drop 31 p)).
Proof.
  intros Hl. unfold body_elements. rewrite length_drop.
  replace (length p + 30)%nat with ((length p - 31 + 30) + 1 * 31)%nat by lia.
  rewrite Nat.div_add by done. lia.
Qed.

(** The padded data, filled up with zeros, are the chunks of the specification. *)
Lemma pad_from_chunks fuel p :
  (length p ≤ fuel)%nat →
  (length (pad_from fuel p) ≤ 32 * body_elements p)%nat ∧
  (32 * body_elements p < length (pad_from fuel p) + 32)%nat ∧
  pad_from fuel p ++ zeros (32 * body_elements p - length (pad_from fuel p)) =
  pad_chunks (body_elements p) (p ++ zeros (31 * body_elements p - length p)).
Proof.
  revert p. induction fuel as [|fuel IH]; intros p Hf.
  { destruct p; [|cbn in Hf; lia]. cbn. split_and!; [lia..|done]. }
  destruct p as [|b p']; [cbn; split_and!; [lia..|done]|]. set (p := b :: p') in *.
  change (pad_from (Datatypes.S fuel) p) with (x00 :: take 31 p ++ pad_from fuel (drop 31 p)).
  destruct (decide (length p ≤ 31)%nat) as [Hle|Hgt].
  - rewrite (take_ge p 31) by done. rewrite (drop_ge p 31) by done.
    assert (Hnil : pad_from fuel [] = []) by (by destruct fuel). rewrite Hnil, app_nil_r.
    rewrite body_elements_short by done. cbn [pad_chunks length]. split_and!; [lia..|].
    rewrite app_nil_r, take_ge by (autorewrite with hok_len; lia).
    rewrite <-app_comm_cons. done.
  - destruct (IH (drop 31 p)) as (H1' & H2' & H3').
    { rewrite length_drop. cbn [length] in Hf. subst p. cbn [length] in *. lia. }
    rewrite (body_elements_long p) by lia. rewrite length_drop in H3'.
    set (n := body_elements (drop 31 p)) in *.
    cbn [pad_chunks length]. rewrite length_app, length_take, Nat.min_l by lia.
    split_and!; [lia..|].
    rewrite <-app_comm_cons, <-app_assoc. f_equal.
    rewrite take_app_le, drop_app_le by lia. f_equal.
    replace (31 * Datatypes.S n - length p)%nat with (31 * n - (length p - 31))%nat by lia.
    rewrite <-H3'. do 2 f_equal. lia.
Qed.

Lemma copy_header len n :
  (32 ≤ n)%nat → copy_at 2 (to_be_bytes 4 len) (zeros n) = header_v0 len ++ zeros (n - 32).
Proof.
  intros Hn. unfold copy_at, header_v0. rewrite length_to_be_bytes.
  replace (zeros n) with (zeros 6 ++ zeros 26 ++ zeros (n - 32)).
  - rewrite take_app_le by (rewrite length_zeros; lia).
    rewrite drop_app_ge by (rewrite length_zeros; lia). rewrite length_zeros. cbn [Nat.add Nat.sub drop].
    rewrite <-!app_assoc. done.
  - unfold zeros. rewrite <-!replicate_add. f_equal. lia.
Qed.

Lemma encode_is_v0 p :
  Z.of_nat (length p) < 2 ^ 32 →
  encoded_payload (EncodedPayloadTests.encode pad_payload p PAYLOAD_ENCODING_VERSION_0) =
  encode_v0 (Datatypes.S (body_elements p)) p.
Proof.
  intros Hlen. unfold EncodedPayloadTests.encode, BYTES_PER_FIELD_ELEMENT. cbn [encoded_payload].
  destruct (pad_from_chunks (length p) p) as (Hle & Hlt & Hpad); [done|].
  fold (pad_payload p) in *. set (m := body_elements p) in *. set (l := length (pad_payload p)) in *.
  rewrite (Z.mod_small (Z.of_nat (length p))) by lia.
  assert (Hsize : ((l + 32 + 32 - 1) / 32 * 32 = 32 * Datatypes.S m)%nat).
  { replace ((l + 32 + 32 - 1) / 32)%nat with (Datatypes.S m); [lia|].
    apply (Nat.div_unique _ _ _ (l + 63 - 32 * Datatypes.S m)); lia. }
  rewrite Hsize.
  assert (Hins : <[1%nat := PAYLOAD_ENCODING_VERSION_0]> (zeros (32 * Datatypes.S m)) =
    zeros (32 * Datatypes.S m)).
  { apply list_insert_id. unfold zeros. apply lookup_replicate. split; [done|lia]. }
  rewrite Hins, copy_header by lia. unfold copy_at.
  rewrite take_app_le, take_ge by (rewrite length_header_v0; lia).
  rewrite drop_app_ge by (rewrite length_header_v0; lia). rewrite length_header_v0.
  unfold encode_v0. f_equal. cbn [Nat.sub]. rewrite Nat.sub_0_r, <-Hpad. f_equal.
  unfold zeros. rewrite drop_replicate. f_equal. fold l. lia.
Qed.

(** The test encoder does not pad to a power of two, so the decoder takes back a payload
    exactly when its number of field elements is one, and otherwise says so. *)
Theorem test_encoder_round_trip (p : Bytes) (Hlen : Z.of_nat (length p) < 2 ^ 32) :
  let k := Datatypes.S (body_elements p) in
  let encoded := EncodedPayloadTests.encode pad_payload p PAYLOAD_ENCODING_VERSION_0 in
  if is_power_of_two (Z.of_nat k) then EncodedPayload.decode encoded = Ok p
  else EncodedPayload.decode encoded = Err (DecodingError (InvalidPowerOfTwoLength (Z.of_nat k))).
Proof.
  intros k encoded.
  assert (Hroom : (length p ≤ 31 * body_elements p)%nat).
  { unfold body_elements. pose proof (Nat.div_mod_eq (length p + 30) 31).
    pose proof (Nat.mod_upper_bound (length p + 30) 31). lia. }
  pose proof (encode_is_v0 p Hlen) as Henc. fold encoded k in Henc.
  assert (Hl : length (encoded_payload encoded) = (32 * k)%nat).
  { rewrite Henc. unfold encode_v0. rewrite length_app, length_header_v0, length_pad_chunks; [lia|].
    rewrite length_app, length_zeros. unfold k. lia. }
  destruct (is_power_of_two (Z.of_nat k)) eqn:Hpow.
  - apply decode_Ok. exists k. split; [|done]. split_and!; [|unfold k; lia|done].
    apply is_power_of_two_pow in Hpow as [e He]; [|lia]. exists e.
    apply Nat2Z.inj. by rewrite Nat2Z.inj_pow.
  - unfold EncodedPayload.decode, check_len_invariant, BYTES_PER_FIELD_ELEMENT, ENCODED_PAYLOAD_HEADER_LEN_BYTES.
    rewrite Hl, bool_decide_false by lia. rewrite (Nat.mul_comm 32 k), Nat.Div0.mod_mul, bool_decide_true by done.
    cbn [negb]. rewrite Nat.div_mul, Hpow by done. done.
Qed.

(** ** The tests of the preloaded provider *)

Import PreloadedTests.

(** The prover and the curve library of [ClientWitnesses]. *)
Definition toy_blob_len : @ProverBlob toy_prover → Z := λ blob : Bytes, Z.of_nat (length blob).
Definition toy_srs : @SRS toy_prover := 12345.

Lemma batch_verify_tests_hold : Forall (λ t, t = Done tt) [
  test_batch_verify (H2 := sp1_bn_backend (H := Exponents.exponents))
    toy_blob_len toy_srs;
  test_from_witness_ok_0_preimage (H2 := sp1_bn_backend (H := Exponents.exponents))].
Proof. vm_compute. repeat constructor. Qed.

Lemma set_cert_commitment_num g c t l :
  get_num_field_element {| commitment_type := t; da_layer_byte := l;
    versioned_cert := set_cert_commitment g (versioned_cert c) |} = get_num_field_element c.
Proof. unfold get_num_field_element. by destruct (versioned_cert c). Qed.

Section vacuous.
Context `{!KzgProver, !KzgBackend}.
Context (blob_len : ProverBlob → Z) (srs : SRS).

(** The certificate of the tests states eight field elements, their payload has two. *)
Lemma prepare_ok_data_mismatch w :
  prepare_ok_data blob_len srs = Done w →
  ∃ c ep proof, witness_validities w = [(c, true)] ∧ witness_encoded_payloads w = [(c, ep, proof)] ∧
    get_num_field_element c = 8 ∧ num_field_element ep = 2.
Proof.
  unfold prepare_ok_data. intros (c & Hc%expect_Done & Hw)%outcome_bind_Done_inv.
  apply outcome_bind_Done_inv in Hw as ([[bs g] proof] & _ & [= <-]).
  eexists _, _, proof. split_and!; [done..| |done].
  rewrite set_cert_commitment_num. revert Hc.
  assert (Htest : get_num_field_element <$> (match try_from Concrete.test_v3_bytes with Ok c => Some c | Err _ => None end) =
    Some 8) by (vm_compute; reflexivity).
  intros Hc. rewrite Hc in Htest. by injection Htest.
Qed.

Lemma from_witness_mismatch w :
  Exists (λ e, num_field_element e.1.2 ≠ get_num_field_element e.1.1) (witness_encoded_payloads w) →
  from_witness_default w = Panic.
Proof.
  intros Hex. unfold from_witness_default. destruct (from_witness _ _ _ _ _ _ _) as [p|] eqn:Hw; [|done].
  apply from_witness_Done in Hw as (_ & _ & Hnum & _).
  apply Exists_exists in Hex as (e & Hin & Hne). rewrite Forall_forall in Hnum.
  exfalso. apply Hne. by apply Hnum.
Qed.

Lemma prepare_ok_data_refused w : prepare_ok_data blob_len srs = Done w → from_witness_default w = Panic.
Proof.
  intros (c & ep & proof & _ & Heps & Hc & Hep)%prepare_ok_data_mismatch.
  apply from_witness_mismatch. rewrite Heps. constructor. cbn. by rewrite Hc, Hep.
Qed.

(** With every KZG prover and backend, four tests of the preloaded provider that are marked
    should_panic panic at from_witness's comparison of the numbers of field elements, or
    before it: they would pass with any provider, so what they are named for (a second
    payload, an unknown key, an invalid field element) is not tested. *)
Theorem should_panic_tests_are_vacuous :
  Forall (λ t, t = Panic) [
    test_from_witness_ok_and_preimage_provider blob_len srs;
    test_from_witness_panic_unknown_key_validity blob_len srs;
    test_from_witness_panic_unknown_key_encoded_payload blob_len srs;
    test_from_witness_not_field_element blob_len srs] ∧
  ∀ w, prepare_ok_data blob_len srs = Done w → from_witness_default w = Panic.
Proof.
  split; [|exact prepare_ok_data_refused].
  unfold test_from_witness_ok_and_preimage_provider, test_from_witness_panic_unknown_key_validity,
    test_from_witness_panic_unknown_key_encoded_payload,
    test_from_witness_not_field_element,
    prepare_data_with_invalid_encoded_payload.
  destruct (prepare_ok_data blob_len srs) as [w|] eqn:Hw; [|by repeat constructor].
  pose proof (prepare_ok_data_refused w Hw) as Hpanic.
  destruct (prepare_ok_data_mismatch w Hw) as (c & ep & proof & Hv & Heps & Hc & Hep).
  rewrite !Done_bind, Hv, Heps. cbn [head_of]. rewrite !Done_bind, Hpanic.
  repeat constructor.
  rewrite from_witness_mismatch; [done|]. constructor.
  change (2 ≠ get_num_field_element c). by rewrite Hc.
Qed.
End vacuous.
