(* ===== verification/ParityTests.v ===== *)
(** * The tests and programs beside the crates (crates/sp1-bn-verifier/tests/parity.rs,
    crates/eigenda-cert/examples/commitment_to_abi.rs)

    The parity tests run the zkVM's KZG verifier and the arkworks reference on the same
    openings and compare the answers; the reference is a parameter.  The example prints the
    certificate as the verifier contract gets it. *)

From S2P Require Export Kzg UnitTests.

(** ** crates/sp1-bn-verifier/tests/parity.rs *)

(** [compute_challenge] of rust-kzg-bn254-primitives, with the scalar field of arkworks and
    the 32 big-endian bytes of its canonical integers. *)
Class RefChallenge `{!RustKzg} := {
  ark_Fr : Type;
  ref_compute_challenge : Preloaded.Blob → G1Affine → result string ark_Fr;
  ark_into_bigint_be : ark_Fr → Bytes;
}.

Module ParityTests.
Section parity.
Context `{!SubstrateBn, !KzgProver, !RustKzg, !RefChallenge}.
(** [Blob::len] and the four points of [load_g1_srs]; a blob is its bytes. *)
Context (blob_len : ProverBlob → Z) (load_g1_srs : SRS).

Definition compute_proof_and_commitment : Bytes → outcome (Bytes * G1Point * Bytes) :=
  PreloadedTests.compute_kzg_proof_and_commitment blob_len load_g1_srs.

Definition ref_batch_verify (blobs : list Bytes) (commitments : list G1Point) (proofs : list Bytes) :
    outcome bool :=
  blobs ← mapM_outcome (λ b, expect (Blob_new b)) blobs;
  lib_commitments ← mapM_outcome ark_commitment commitments;
  lib_proofs ← mapM_outcome ark_proof proofs;
  Done (match Preloaded.verify_blob_kzg_proof_batch blobs lib_commitments lib_proofs with
        | Ok b => b
        | Err _ => false
        end).

Definition sp1_batch_verify (blobs : list Bytes) (commitments : list G1Point) (proofs : list Bytes) :
    outcome bool := Kzg.batch_verify blobs commitments proofs.

Definition fixture_payload_a : Bytes :=
  u8s ([0; 0; 0; 0; 0; 31] ++ replicate 26 2 ++ [0] ++ replicate 31 1).
Definition fixture_payload_b : Bytes :=
  u8s ([0; 1; 1; 1; 1; 31] ++ replicate 26 2 ++ [0] ++ replicate 31 1).

(** Both verifiers on one batch: the reference answers [expected], the port the same. *)
Definition parity (expected : bool) (blobs : list Bytes) (commitments : list G1Point)
    (proofs : list Bytes) : outcome unit :=
  r ← ref_batch_verify blobs commitments proofs;
  s ← sp1_batch_verify blobs commitments proofs;
  _ ← assert (bool_decide (r = expected));
  assert (bool_decide (r = s)).

Definition parity_single_blob_valid : outcome unit :=
  r ← compute_proof_and_commitment fixture_payload_a;
  let '(blob, commitment, proof) := r in
  parity true [blob] [commitment] [proof].

Definition parity_two_blobs_valid : outcome unit :=
  r1 ← compute_proof_and_commitment fixture_payload_a;
  r2 ← compute_proof_and_commitment fixture_payload_b;
  let '(b1, c1, p1) := r1 in let '(b2, c2, p2) := r2 in
  parity true [b1; b2] [c1; c2] [p1; p2].

Definition parity_two_blobs_swapped_proofs_invalid : outcome unit :=
  r1 ← compute_proof_and_commitment fixture_payload_a;
  r2 ← compute_proof_and_commitment fixture_payload_b;
  let '(b1, c1, p1) := r1 in let '(b2, c2, p2) := r2 in
  parity false [b1; b2] [c1; c2] [p2; p1].

Definition g1point_to_bn_affine (c : G1Point) : outcome AffineG1 :=
  let x_bytes := to_be_bytes 32 (x c) in
  let y_bytes := to_be_bytes 32 (y c) in
  x ← opt_expect (Fq_from_be_bytes_mod_order x_bytes);
  y ← opt_expect (Fq_from_be_bytes_mod_order y_bytes);
  opt_expect (AffineG1_new x y).

Definition g1point_to_ark_affine (c : G1Point) : outcome G1Affine :=
  let x := to_be_bytes 32 (x c) in
  let y := to_be_bytes 32 (y c) in
  G1Affine_new (ark_from_be_bytes_mod_order x) (ark_from_be_bytes_mod_order y).

(** The bytes in reverse order, in an array of 32. *)
Definition ref_bytes_le (ref_z : ark_Fr) : outcome Bytes :=
  let be := ark_into_bigint_be ref_z in
  if bool_decide (32 < length be)%nat then Panic
  else Done (rev be ++ zeros (32 - length be)).

Definition challenge_bytes_match (payload : Bytes) : outcome unit :=
  r ← compute_proof_and_commitment payload;
  let '(blob, commitment, _) := r in
  lib_blob ← expect (Blob_new blob);
  ark_commitment ← g1point_to_ark_affine commitment;
  ref_z ← expect (ref_compute_challenge lib_blob ark_commitment);
  ref_bytes_le ← ref_bytes_le ref_z;
  fr ← expect (to_fr_array_canonical blob);
  blob_poly ← expect (PolynomialEvalForm_new fr);
  bn_commitment ← g1point_to_bn_affine commitment;
  sp1_z ← compute_challenge blob_poly bn_commitment;
  sp1_z ← expect sp1_z;
  let sp1_bytes_le := serialize_fr_le sp1_z in
  assert (bool_decide (ref_bytes_le = sp1_bytes_le)).

Definition parity_compute_challenge_bytes_match : outcome unit :=
  forM_outcome challenge_bytes_match [fixture_payload_a; fixture_payload_b].

Definition parity_corrupted_proof_invalid : outcome unit :=
  r1 ← compute_proof_and_commitment fixture_payload_a;
  r2 ← compute_proof_and_commitment fixture_payload_b;
  let '(b1, c1, _) := r1 in let '(_, _, p2) := r2 in
  parity false [b1] [c1] [p2].
End parity.
End ParityTests.

(** ** crates/eigenda-cert/examples/commitment_to_abi.rs *)

Module CommitmentToAbi.
Section example.
Context `{!Alloy, !SolEncoding}.

(** The calldata of a batcher has a derivation version in front, which is dropped. *)
Definition strip_derivation_version (raw : Bytes) : Bytes :=
  if bool_decide (take 3 raw = [x01; x01; x00]) then drop 1 raw else raw.

Definition abi_bytes (comm : AltDACommitment) : Bytes :=
  match versioned_cert comm with
  | V2 v2 =>
      let v3 := {| v3_batch_header_v2 := v2_batch_header_v2 v2;
                   v3_blob_inclusion_info := v2_blob_inclusion_info v2;
                   v3_nonsigner_stake_and_signature := v2_nonsigner_stake_and_signature v2;
                   v3_signed_quorum_numbers := v2_signed_quorum_numbers v2 |} in
      abi_encode_v3 (EigenDACertV3_to_sol v3)
  | V3 v3 => abi_encode_v3 (EigenDACertV3_to_sol v3)
  | V4 v4 => abi_encode_v4 (EigenDACertV4_to_sol v4)
  end.

(** The bytes that the program prints, from the bytes of its input. *)
Definition main (raw : Bytes) : outcome Bytes :=
  comm ← expect (try_from (strip_derivation_version raw));
  Done (abi_bytes comm).
End example.

Section printed.
Context `{!Alloy, !AlloyLaws, !SolEncoding}.

Lemma abi_bytes_call comm : CertVerifierCall_build comm = ABIEncodeInterface {| abiEncodedCert := abi_bytes comm |}.
Proof. unfold CertVerifierCall_build, abi_bytes. by destruct (versioned_cert comm). Qed.

(** For bytes that parse, with or without the version byte of a batcher's calldata, the
    program prints the certificate that the verifier contract is called with. *)
Theorem main_prints_call bs c :
  try_from bs = Ok c →
  ∃ printed, CertVerifierCall_build c = ABIEncodeInterface {| abiEncodedCert := printed |} ∧
    main bs = Done printed ∧ main (x01 :: bs) = Done printed.
Proof.
  intros Hp. exists (abi_bytes c). split; [apply abi_bytes_call|].
  destruct (try_from_Ok_inv _ _ Hp) as (rest & Hbs & _). cbn [app] in Hbs.
  unfold main, strip_derivation_version. rewrite Hbs in *. cbn [take drop].
  rewrite bool_decide_false by done. rewrite bool_decide_true by done. by rewrite Hp.
Qed.
End printed.
End CommitmentToAbi.
