(* ===== verification/ParityRuns.v ===== *)
(** * The parity tests hold of the model, and what the certificate example prints

    The reference verifier here checks every opening of a batch on its own, with the
    evaluation of the interpolated polynomial; the provers and the curve library are the
    concrete ones of [ProverWitnesses]. *)

From S2P Require Export ProverWitnesses ParityTests.
Import Exponents.

(** ** A reference verifier over the exponents *)

(** The commitment minus the value at the challenge is the proof times the distance of the
    secret and the challenge. *)
Definition opening_checks (bs : Bytes) (C P : F) : bool :=
  match blob_polynomial bs with
  | Ok p =>
      match compute_challenge p C, interpolant p with
      | Done (Ok z), Some c => bool_decide (sub C (poly_eval c z) = mul P (sub (mk 12345) z))
      | _, _ => false
      end
  | Err _ => false
  end.

Fixpoint openings_check (blobs : list Bytes) (Cs Ps : list F) : result string bool :=
  match blobs, Cs, Ps with
  | [], [], [] => Ok true
  | b :: blobs, C :: Cs, P :: Ps =>
      if opening_checks b C P then openings_check blobs Cs Ps else Ok false
  | _, _, _ => Err "length's of the input are not the same"
  end.

#[local] Instance opening_reference : RustKzg := {|
  Blob := Bytes; Blob_new := Ok;
  ark_Fq := F; ark_from_be_bytes_mod_order bs := mk (from_be_bytes bs);
  G1Affine := F;
  G1Affine_new x y := if bool_decide (y = x ∧ x ≠ mk 0) then Done x else Panic;
  Preloaded.verify_blob_kzg_proof_batch := openings_check;
|}.

#[local] Instance opening_challenge : RefChallenge := {|
  ark_Fr := F;
  ref_compute_challenge bs C :=
    match blob_polynomial bs with
    | Ok p => match compute_challenge p C with
              | Done (Ok z) => Ok z
              | _ => Err "challenge"
              end
    | Err _ => Err "polynomial"
    end;
  ark_into_bigint_be a := to_be_bytes 32 (val a);
|}.

(** ** The runs *)

Import ParityTests.

Definition srs_of_four : SRS := 4%nat.
Definition byte_len (blob : ProverBlob) : Z := Z.of_nat (length (blob : Bytes)).

(** What the prover makes of the two fixtures, computed once. *)
Definition computed_a : outcome (Bytes * G1Point * Bytes) :=
  Eval vm_compute in compute_proof_and_commitment byte_len srs_of_four fixture_payload_a.
Definition computed_b : outcome (Bytes * G1Point * Bytes) :=
  Eval vm_compute in compute_proof_and_commitment byte_len srs_of_four fixture_payload_b.

Lemma compute_a : compute_proof_and_commitment byte_len srs_of_four fixture_payload_a = computed_a.
Proof. vm_compute. reflexivity. Qed.
Lemma compute_b : compute_proof_and_commitment byte_len srs_of_four fixture_payload_b = computed_b.
Proof. vm_compute. reflexivity. Qed.

Ltac parity_run := rewrite ?compute_a, ?compute_b; vm_compute; reflexivity.

Lemma parity_single_blob_holds : parity_single_blob_valid byte_len srs_of_four = Done tt.
Proof. unfold parity_single_blob_valid. parity_run. Qed.

Lemma parity_swapped_proofs_holds : parity_two_blobs_swapped_proofs_invalid byte_len srs_of_four = Done tt.
Proof. unfold parity_two_blobs_swapped_proofs_invalid. parity_run. Qed.

Lemma parity_challenge_bytes_holds : parity_compute_challenge_bytes_match byte_len srs_of_four = Done tt.
Proof.
  unfold parity_compute_challenge_bytes_match, challenge_bytes_match, forM_outcome. parity_run.
Qed.
